(* ===== verification/_CoqProject ===== *)
-Q . S2P
Prelude.v
Json.v
Words.v
Sm4.v
FrameCrypto.v
BufferedFrameDecryptor.v
CryptoJni.v
H264.v
OrtcValidate.v
Ortc.v
OrtcFacts.v
Regex.v
Streams.v
Decimal.v
VideoFormat.v
Rounding.v
JsonText.v
JsonTextFacts.v
JsonRoundTrip.v
JsonSerializer.v
JsonSerializerFacts.v
Dtoa.v
DtoaFacts.v
DtoaText.v
SdpGrammar.v
SdpParser.v
SdpParserFacts.v
MediaSection.v
SdpWriter.v
SdpUtils.v
SdpUtilsFacts.v
RemoteSdp.v
RemoteSdpFacts.v
MediaSectionFacts.v
Device.v
Registry.v
SendTransport.v
SendTransportFacts.v
Handler.v
HandlerFacts.v
RecvTransport.v
RecvTransportFacts.v
ClientJni.v
ClientJniFacts.v
ClientJniSpec.v
PeerConnection.v
PeerConnectionFacts.v
