(* ===== verification/Prelude.v ===== *)
(** Verification of the native (C++) core of video_encrypted_chat.

    The program is an Android video chat built on mediasoup and WebRTC in which
    the encoded media frames are encrypted end to end with the SM4 block cipher.
    Its C++ core has two halves, and the development follows them.

    - Media path.  A sender hands each encoded frame to [HCCrypto::Encrypt]
      (api/crypto/hc_crypto.cc) from [RTPSenderVideo::SendVideo]; a receiver
      hands each assembled frame to [HCCryptoDecryptor::Decrypt] through
      [BufferedFrameDecryptor].  Both encrypt with GmSSL's [sm4_ctr_encrypt].
      Java code creates and configures the two objects over JNI.
    - Signalling path.  libmediasoupclient validates and negotiates RTP
      capabilities (ortc.cpp), keeps the remote SDP description
      (sdp/RemoteSdp.cpp, sdp/MediaSection.cpp), and manages a [Device], its
      transports, and their producers and consumers.  A transport works through
      a handler (Handler.cpp), which drives the peer connection with SDP text
      that libsdptransform parses and prints.

    Files, in dependency order, with the sources they model (under
    src/mediasoup-client/; WR is deps/webrtc/src, LM is
    deps/libmediasoupclient):

    - [Prelude]: outcomes of native code ([res]: a result, an exception,
      undefined behaviour, an abort), its bind notations, the state monad [ST]
      for code that mutates an object and may throw half way, rules for its
      invariants ([keeps]), partial correctness ([ensures]), and shared lemmas
      on lists and folds.
    - [Json]: the values and members of nlohmann::json the library uses, with
      what a missing key or wrong type does.  Objects are association lists
      sorted by key, as std::map iterates.
    - [Words], [Sm4]: 32- and 64-bit words, and sm4.c in both of its builds, the
      key schedules, and counter mode.
    - [FrameCrypto]: hc_crypto.cc and hc_crypto_decryptor.cc, one Definition per
      method; clock readings are arguments.
    - [BufferedFrameDecryptor]: WR/video/buffered_frame_decryptor.cc against the
      class [FrameDecryptorInterface], whose laws [HCCryptoDecryptor] meets.
    - [CryptoJni]: the JNI glue of the two objects over a heap of reference
      counted cells.
    - [H264], [VideoFormat]: profile-level-id parsing, printing and the answer
      rule; the supported level and the VP8 and VP9 limits in parameters.
    - [OrtcValidate], [Ortc], [OrtcFacts]: ortc.cpp, validation, negotiation and
      the theorems on them.
    - [Regex], [Streams]: the part of std::regex (ECMAScript patterns, a
      backtracking matcher with its declarative semantics) and of the string
      streams and conversions the sources use, and the output of JSON values.
    - [Decimal], [Rounding]: printed integers are read back; rounding to nearest
      in binary64.
    - [JsonText], [JsonTextFacts], [JsonRoundTrip]: the lexer and the parser of
      json.hpp (LM/deps/libsdptransform/include) with the JSON grammar as
      relations on bytes and tokens.
    - [JsonSerializer], [JsonSerializerFacts]: its serializer, with the UTF-8
      automaton and the two buffers.
    - [Dtoa], [DtoaFacts], [DtoaText]: its printer of doubles, Grisu2 with 64-bit
      significands, every assertion kept.
    - [SdpGrammar], [SdpParser], [SdpParserFacts], [SdpWriter]: libsdptransform
      (LM/deps/libsdptransform/src), the table of rules, [parse] and [write].
    - [MediaSection], [RemoteSdp], [RemoteSdpFacts], [MediaSectionFacts]: the
      media sections and the remote description, printed by [SdpWriter.write].
    - [SdpUtils], [SdpUtilsFacts]: LM/src/sdp/Utils.cpp and scalabilityMode.cpp.
    - [Device]: Device.cpp.
    - [Registry]: objects shared by a map of their owner and the application;
      the invariant both transports keep.
    - [SendTransport], [SendTransportFacts]: Transport, SendTransport, Producer
      and DataProducer over a heap of objects, against the class
      [SendHandlerInterface].
    - [Handler], [HandlerFacts]: Handler.cpp over the class
      [PeerConnectionInterface]; the send handler is an instance of
      [SendHandlerInterface].
    - [RecvTransport], [RecvTransportFacts]: RecvTransport, Consumer and
      DataConsumer against the class [RecvHandlerInterface], of which the receive
      handler is an instance.
    - [ClientJni], [ClientJniFacts], [ClientJniSpec]: the JNI entry points of the
      client (device_jni.cpp, transport_jni.cpp, producer_jni.cpp,
      consumer_jni.cpp, data_producer_jni.cpp, data_consumer_jni.cpp of
      src/main/jni), over a heap of native objects with raw pointers between them,
      on top of [Device] and both transports; a call that follows a pointer to a
      deleted object has no outcome.
    - [PeerConnection], [PeerConnectionFacts]: PeerConnection.cpp with the queue
      of the signaling thread and the promises its methods wait on
      (WR/pc/peer_connection_message_handler.cc); the calling thread and the
      signaling thread are a step relation.

    What the theorems show:

    - Cipher: the table-driven, unrolled cipher equals the byte-wise reference,
      decryption undoes encryption, the word counter equals the byte counter,
      and the whole is CTR mode for every length.
    - Frames: full-mode round trip, pass-through of clear frames, exactly when a
      key frame survives key-frame-only mode, what foreign or large key versions
      do, keystream reuse, and the invariants of both objects over all sequences
      of calls.
    - Buffering and JNI: no abort and a bounded stash, early frames delivered in
      order, no use after free while references are held.
    - Negotiation: the validators accept exactly their decidable classes and are
      idempotent, a negotiation of accepted capabilities returns, and the inputs
      on which the code is undefined or throws.
    - SDP: [RemoteSdp] refines an abstract list of m-sections for every sequence
      of calls; open sections keep their place.
    - SDP text: [parse] returns on every text with a well-typed session; the
      streams [addLegacySimulcast] writes are those [getRtpEncodings] reads; the
      layers of a scalability mode are in range.
    - JSON text: [json::parse] ends on every text and accepts exactly the texts the
      grammar derives, with their value; the serializer stays inside its buffers
      and prints the reference text; Grisu2 fails no assertion and prints every
      double so that it is read back; so every well-formed value survives being
      printed and parsed.
    - Peer connection: a blocking call returns WebRTC's answer once the signaling
      thread reaches its message; on that thread itself, or when the connection is
      destroyed first, it never returns.
    - Handlers: stream ids are consecutive modulo 1024; a failed [Send] is undone
      and only a [Send] that returns registers its transceiver.
    - Transports: closing reaches every producer and every consumer exactly once;
      a failed [Produce] cleans up; the probation consumer; and, for transports
      composed with their handlers, the connection is made once with the right
      DTLS role.

    - JNI of the client: a program that closes before it disposes never makes a
      native method follow a dangling pointer, and one that does not does; which
      methods let exceptions out, which creations leak their listener, and that
      application data comes back from Java as it was given.

    Bounds and fuel: every loop over data is structural recursion on the data.
    An iteration of a starred expression consumes a character, so the matcher
    allows as many iterations as the subject has characters, and
    [matcher_complete] shows that these are enough; the reader of patterns takes
    the length of the pattern.
    [reduce_loop] takes one unit per element plus one; the decimal exponent of a
    printed float is searched 60 steps each way, more than the 38 and 45 decimal
    digits a single-precision exponent spans.  The JSON parser takes the length of
    the text plus two, since every round reads a token, and [json_parse_total]
    shows that it never runs out.  The loops of Grisu2 take 64 (shifts of a 64-bit
    significand), 10 and 20 (digits of a 32-bit integral and of the fractional
    part) and 10 (corrections of the last digit) rounds; [grisu2_value_spec] shows
    that these are enough for every double.  A blocking call takes the length of
    the queue.

    Not modelled: peerconnection_jni.cpp is a Java view of the peer connection
    that the client does not use, and copies options; sm4_ctr_jni.cpp includes a
    header the tree does not hold; logging (logger_jni.cpp) has no effect on the
    state; the Java application is not C++.
    The JSON reader and printer are modelled in the modes the program uses: no
    binary formats, no callbacks, no indentation.  The files that print JSON take
    the text of a double as the class [FloatText]; [DtoaText] has the instance. *)

From Stdlib Require Import ZArith Lia Ascii.
From stdpp Require Export base tactics list strings.

#[global] Open Scope Z_scope.

(** ** Outcomes of native code

    A C++ call returns, throws, runs into behaviour the language leaves
    undefined, or aborts the process through a failed [RTC_CHECK].  The
    exception classes are those of [MediaSoupClientErrors.hpp] plus the ones
    the JSON library and the string conversions of the standard library
    throw. *)

Inductive exn : Type :=
| MscError (description : string)
| MscTypeError (description : string)
| MscUnsupportedError (description : string)
| MscInvalidStateError (description : string)
| JsonTypeError (id : Z)
| JsonOutOfRange (id : Z)
| JsonParseError (id : Z)
| StdInvalidArgument
| StdOutOfRange
| StdBadOptionalAccess
| StdFutureError.

(** Why an execution is undefined: a [const operator[]] on a key that is not
    there, an index outside an array, a dereferenced end iterator or null
    pointer, a floating-point value cast to an integer type it does not fit. *)
Inductive ub : Type :=
| UbMissingKey (key : string)
| UbIndex
| UbDeref
| UbFloatCast
| UbOverflow.

Inductive res (A : Type) : Type :=
| Ok (a : A)
| Throw (e : exn)
| Undef (u : ub)
| Fatal (d : string).
Arguments Ok {A} _.
Arguments Throw {A} _.
Arguments Undef {A} _.
Arguments Fatal {A} _.

Definition bind {A B : Type} (m : res A) (f : A -> res B) : res B :=
  match m with
  | Ok a => f a
  | Throw e => Throw e
  | Undef u => Undef u
  | Fatal d => Fatal d
  end.

Notation "'let*' x ':=' m 'in' k" := (bind m (fun x => k))
  (at level 10, x pattern, m at level 100, k at level 200).
Notation "'do*' m 'in' k" := (bind m (fun _ => k))
  (at level 10, m at level 100, k at level 200).

(** [if (c) throw e;] *)
Definition throw_if (c : bool) (e : exn) : res unit :=
  if c then Throw e else Ok tt.

(** A range-based [for] over a sequence whose body rewrites the element. *)
Fixpoint for_each {A B : Type} (f : A -> res B) (l : list A) : res (list B) :=
  match l with
  | [] => Ok []
  | x :: l' =>
      let* y := f x in
      let* ys := for_each f l' in
      Ok (y :: ys)
  end.

(** A range-based [for] over a sequence whose body only updates a state. *)
Fixpoint for_fold {A S : Type} (f : S -> A -> res S) (s : S) (l : list A) : res S :=
  match l with
  | [] => Ok s
  | x :: l' => let* s' := f s x in for_fold f s' l'
  end.

(** [std::find_if] with a predicate that may throw: the first element that
    satisfies it. *)
Fixpoint find_if {A : Type} (p : A -> res bool) (l : list A) : res (option A) :=
  match l with
  | [] => Ok None
  | x :: l' =>
      let* b := p x in
      if b then Ok (Some x) else find_if p l'
  end.

(** ** Reasoning about outcomes

    [post r Q E]: [r] neither is undefined nor aborts; if it returns, the value
    satisfies [Q], and if it throws, the exception satisfies [E]. *)
Definition post {A : Type} (r : res A) (Q : A -> Prop) (E : exn -> Prop) : Prop :=
  match r with
  | Ok a => Q a
  | Throw e => E e
  | Undef _ | Fatal _ => False
  end.

Arguments post : simpl never.

Definition is_msc_type_error (e : exn) : Prop :=
  match e with MscTypeError _ => True | _ => False end.

Create HintDb res_db.

Section ResFacts.
Context {A B : Type}.
Implicit Types (m : res A) (f : A -> res B).

Lemma bind_Ok_inv m f b : bind m f = Ok b <-> exists a, m = Ok a /\ f a = Ok b.
Proof.
  destruct m; simpl; split; try done.
  - intros Hf. by eexists.
  - by intros (? & [= ->] & Hf).
  - by intros (? & ? & ?).
  - by intros (? & ? & ?).
  - by intros (? & ? & ?).
Qed.

Lemma post_Ok (a : A) (Q : A -> Prop) (E : exn -> Prop) : Q a -> post (Ok a) Q E.
Proof. done. Qed.

Lemma post_Throw e (Q : A -> Prop) (E : exn -> Prop) : E e -> post (Throw e) Q E.
Proof. done. Qed.

Lemma post_bind m f Q (E : exn -> Prop) :
  post m (fun a => post (f a) Q E) E -> post (bind m f) Q E.
Proof. by destruct m. Qed.

Lemma post_mono m (P Q : A -> Prop) (E F : exn -> Prop) :
  post m P E -> (forall a, m = Ok a -> P a -> Q a) -> (forall e, E e -> F e) -> post m Q F.
Proof. destruct m; naive_solver. Qed.

Lemma post_total m Q : post m Q (fun _ => False) -> exists a, m = Ok a /\ Q a.
Proof. destruct m; try done. by exists a. Qed.

Lemma post_Ok_elim m Q E a : post m Q E -> m = Ok a -> Q a.
Proof. by intros H ->. Qed.

Lemma post_Throw_elim m Q E e : post m Q E -> m = Throw e -> E e.
Proof. by intros H ->. Qed.

End ResFacts.

Section LoopFacts.
Context {A B : Type}.

Lemma for_each_post (g : A -> res B) (l : list A) (P : A -> Prop) (Q : B -> Prop) E :
  Forall P l -> (forall x, P x -> post (g x) Q E) -> post (for_each g l) (Forall Q) E.
Proof.
  intros Hl Hg. induction Hl as [|x l Hx Hl IH]; simpl; [by constructor|].
  apply post_bind. eapply post_mono; [by apply Hg| |done]. intros y _ Hy.
  apply post_bind. eapply post_mono; [apply IH| |done]. intros ys _ Hys.
  by constructor.
Qed.

Lemma for_fold_post (g : B -> A -> res B) (l : list A) (P : A -> Prop) (I : B -> Prop) E s :
  Forall P l -> (forall s x, I s -> P x -> post (g s x) I E) -> I s ->
  post (for_fold g s l) I E.
Proof.
  intros Hl Hg. revert s. induction Hl as [|x l Hx Hl IH]; intros s Hs; simpl; [done|].
  apply post_bind. eapply post_mono; [by apply Hg| |done]. intros s' _ Hs'. by apply IH.
Qed.

Lemma for_fold_app (g : B -> A -> res B) (l l' : list A) s :
  for_fold g s (l ++ l') = bind (for_fold g s l) (fun s' => for_fold g s' l').
Proof. revert s. induction l as [|x l IH]; intros s; simpl; [done|]. destruct (g s x); simpl; auto. Qed.

Lemma for_each_length (g : A -> res B) (l : list A) l' :
  for_each g l = Ok l' -> length l' = length l.
Proof.
  revert l'. induction l as [|x l IH]; intros l'; simpl; [by intros [= <-]|].
  rewrite bind_Ok_inv; intros (y & _ & H).
  apply bind_Ok_inv in H as (ys & Hys & [= <-]). simpl. by rewrite (IH ys).
Qed.

Lemma for_each_Forall2 (g : A -> res B) (l : list A) l' :
  for_each g l = Ok l' -> Forall2 (fun x y => g x = Ok y) l l'.
Proof.
  revert l'. induction l as [|x l IH]; intros l'; simpl.
  { intros [= <-]. constructor. }
  rewrite bind_Ok_inv; intros (y & Hy & H).
  apply bind_Ok_inv in H as (ys & Hys & [= <-]). constructor; auto.
Qed.
End LoopFacts.

(** A loop whose body leaves every element as it is leaves the sequence as it
    is. *)
Lemma for_each_id {A : Type} (g : A -> res A) (l : list A) :
  Forall (fun x => g x = Ok x) l -> for_each g l = Ok l.
Proof. induction 1 as [|x l Hx Hl IH]; simpl; [done|]. by rewrite Hx; simpl; rewrite IH. Qed.

Lemma throw_if_post c e (Q : unit -> Prop) (E : exn -> Prop) :
  (c = true -> E e) -> (c = false -> Q tt) -> post (throw_if c e) Q E.
Proof. destruct c; naive_solver. Qed.

Lemma throw_if_Ok_inv c e u : throw_if c e = Ok u -> c = false.
Proof. by destruct c. Qed.

#[export] Hint Resolve post_Ok post_Throw : res_db.

(** [run H] opens a chain of [let*]/[do*] that returned. *)
Ltac run H :=
  repeat match type of H with
  | bind _ _ = Ok _ =>
      let x := fresh "r" in let H1 := fresh "Hr" in
      apply bind_Ok_inv in H as (x & H1 & H); cbv beta iota in H;
      try (apply throw_if_Ok_inv in H1)
  | Ok _ = Ok _ => injection H as H
  end.

(** [step]: one statement of a program under [post]; a check becomes two facts
    about its condition. *)
Ltac post_step :=
  match goal with
  | |- post (bind (throw_if _ _) _) _ _ =>
      apply post_bind; apply throw_if_post; [intros ?; try done|intros ?]
  | |- post (bind _ _) _ _ => apply post_bind
  | |- post (Ok _) _ _ => apply post_Ok
  | |- post (Throw _) _ _ => apply post_Throw
  | |- post (throw_if _ _) _ _ => apply throw_if_post; [intros ?; try done|intros ?]
  end.

(** ** Partial correctness

    [ensures r Q]: if [r] returns, the value satisfies [Q].  Used for what a
    call leaves alone whether or not it can fail. *)
Definition ensures {A : Type} (r : res A) (Q : A -> Prop) : Prop := forall a, r = Ok a -> Q a.

Section EnsuresFacts.
Context {A B : Type}.

Lemma ensures_Ok (a : A) (Q : A -> Prop) : Q a -> ensures (Ok a) Q.
Proof. by intros H b [= <-]. Qed.

Lemma ensures_fail (m : res A) (Q : A -> Prop) : (forall a, m <> Ok a) -> ensures m Q.
Proof. intros H a Ha. by destruct (H a). Qed.

Lemma ensures_bind (m : res A) (f : A -> res B) P Q :
  ensures m P -> (forall a, P a -> ensures (f a) Q) -> ensures (bind m f) Q.
Proof. intros Hm Hf b (a & Ha & Hb)%bind_Ok_inv. exact (Hf a (Hm a Ha) b Hb). Qed.

Lemma ensures_bind_any (m : res A) (f : A -> res B) Q :
  (forall a, ensures (f a) Q) -> ensures (bind m f) Q.
Proof. intros Hf b (a & Ha & Hb)%bind_Ok_inv. exact (Hf a b Hb). Qed.

Lemma ensures_for_fold (g : B -> A -> res B) (I : B -> Prop) (l : list A) s :
  (forall s x, I s -> ensures (g s x) I) -> I s -> ensures (for_fold g s l) I.
Proof.
  intros Hg. revert s. induction l as [|x l IH]; intros s Hs; simpl; [by intros b [= <-]|].
  intros b (s1 & H1 & Hb)%bind_Ok_inv. exact (IH s1 (Hg s x Hs s1 H1) b Hb).
Qed.
End EnsuresFacts.

(** ** Objects with state

    A method that changes its object and may throw in the middle: what was
    changed before the exception stays changed. *)
Definition ST (S A : Type) : Type := S -> S * res A.

Definition st_bind {S A B : Type} (m : ST S A) (f : A -> ST S B) : ST S B := fun s =>
  match m s with
  | (s', Ok a) => f a s'
  | (s', Throw e) => (s', Throw e)
  | (s', Undef u) => (s', Undef u)
  | (s', Fatal d) => (s', Fatal d)
  end.

Definition st_ret {S A : Type} (a : A) : ST S A := fun s => (s, Ok a).
Definition st_throw {S A : Type} (e : exn) : ST S A := fun s => (s, Throw e).
Definition st_lift {S A : Type} (r : res A) : ST S A := fun s => (s, r).
Definition st_get {S : Type} : ST S S := fun s => (s, Ok s).
Definition st_modify {S : Type} (f : S -> S) : ST S unit := fun s => (f s, Ok tt).

Notation "'let!' x ':=' m 'in' k" := (st_bind m (fun x => k))
  (at level 10, x pattern, m at level 100, k at level 200).
Notation "'do!' m 'in' k" := (st_bind m (fun _ => k))
  (at level 10, m at level 100, k at level 200).

(** [try { m } catch (...) { handle }]; undefined behaviour and aborts are not
    caught. *)
Definition st_try {S A : Type} (m : ST S A) (handle : exn -> ST S A) : ST S A := fun s =>
  match m s with
  | (s', Throw e) => handle e s'
  | r => r
  end.

Definition st_throw_if {S : Type} (c : bool) (e : exn) : ST S unit :=
  if c then st_throw e else st_ret tt.

(** ** Invariants of stateful methods *)

(** However [m] ends, the state satisfies [I] if it did before. *)
Definition keeps {S A : Type} (I : S -> Prop) (m : ST S A) : Prop := forall s, I s -> I (m s).1.

Section Keeps.
Context {S : Type} (I : S -> Prop).

Lemma keeps_bind {A B} (m : ST S A) (f : A -> ST S B) :
  keeps I m -> (forall a, keeps I (f a)) -> keeps I (st_bind m f).
Proof.
  intros Hm Hf s Hs. specialize (Hm s Hs). unfold st_bind.
  destruct (m s) as [s1 [a|e|u|d]]; simpl in *; try done. by apply Hf.
Qed.

Lemma keeps_try {A} (m : ST S A) handle :
  keeps I m -> (forall e, keeps I (handle e)) -> keeps I (st_try m handle).
Proof.
  intros Hm Hh s Hs. specialize (Hm s Hs). unfold st_try.
  destruct (m s) as [s1 [a|e|u|d]]; simpl in *; try done. by apply Hh.
Qed.

Lemma keeps_ret {A} (a : A) : keeps I (st_ret a). Proof. by intros s. Qed.
Lemma keeps_throw {A} e : keeps I (st_throw (A := A) e). Proof. by intros s. Qed.
Lemma keeps_lift {A} (r : res A) : keeps I (st_lift r). Proof. by intros s. Qed.
Lemma keeps_get : keeps I st_get. Proof. by intros s. Qed.
Lemma keeps_throw_if b e : keeps I (st_throw_if b e). Proof. by destruct b; intros s. Qed.
Lemma keeps_modify f : (forall s, I s -> I (f s)) -> keeps I (st_modify f).
Proof. intros Hf s Hs. by apply Hf. Qed.
End Keeps.

Create HintDb keeps_db.
#[export] Hint Resolve keeps_ret keeps_throw keeps_lift keeps_get keeps_throw_if : keeps_db.

(** [keep] goes through a method statement by statement. *)
Ltac keep :=
  repeat (match goal with
          | |- keeps _ (st_bind _ _) => apply keeps_bind; [|intros ?]
          | |- keeps _ (st_try _ _) => apply keeps_try; [|intros ?]
          | |- keeps _ (match ?x with _ => _ end) => destruct x
          | |- keeps _ (let (_, _) := ?x in _) => destruct x
          end; cbv beta zeta);
  auto with keeps_db.

(** A returning first statement. *)
Lemma st_bind_ok {S A B : Type} (m : ST S A) (f : A -> ST S B) s s' a :
  m s = (s', Ok a) -> st_bind m f s = f a s'.
Proof. unfold st_bind. by intros ->. Qed.

Lemma st_bind_throw {S A B : Type} (m : ST S A) (f : A -> ST S B) s s' e :
  m s = (s', Throw e) -> st_bind m f s = (s', Throw e).
Proof. unfold st_bind. by intros ->. Qed.

Lemma st_bind_Ok_inv {S A B : Type} (m : ST S A) (f : A -> ST S B) s s' b :
  st_bind m f s = (s', Ok b) -> exists s1 a, m s = (s1, Ok a) /\ f a s1 = (s', Ok b).
Proof. unfold st_bind. destruct (m s) as [s1 [a|e|u|d]]; [eauto|discriminate..]. Qed.

(** The result of a call is dropped, its exception is not. *)
Definition ignore {S A : Type} (m : ST S A) : ST S unit := let! _ := m in st_ret tt.

Lemma keeps_ignore {S A : Type} (I : S -> Prop) (m : ST S A) : keeps I (ignore m) -> keeps I m.
Proof.
  intros Hm s Hs. specialize (Hm s Hs). unfold ignore, st_bind, st_ret in Hm.
  by destruct (m s) as [s' [a|e|u|d]].
Qed.

(** A range loop of statements. *)
Fixpoint each {S A : Type} (f : A -> ST S unit) (l : list A) : ST S unit :=
  match l with
  | [] => st_ret tt
  | x :: l => do! f x in each f l
  end.

Lemma each_keeps {S A : Type} (I : S -> Prop) (f : A -> ST S unit) l :
  (forall a, keeps I (f a)) -> keeps I (each f l).
Proof. intros Hf. induction l; simpl; keep. Qed.

(** ** Machine integers *)

Definition u8 (z : Z) : Z := z `mod` 2 ^ 8.
Definition u16 (z : Z) : Z := z `mod` 2 ^ 16.
Definition u32 (z : Z) : Z := z `mod` 2 ^ 32.
Definition u64 (z : Z) : Z := z `mod` 2 ^ 64.
(** Two's-complement reading of the low [n] bits. *)
Definition sint (n : Z) (z : Z) : Z :=
  let w := z `mod` 2 ^ n in if w <? 2 ^ (n - 1) then w else w - 2 ^ n.
Definition i32 (z : Z) : Z := sint 32 z.
Definition i64 (z : Z) : Z := sint 64 z.

Lemma u8_range z : 0 <= u8 z < 2 ^ 8.
Proof. apply Z.mod_pos_bound. lia. Qed.
Lemma u32_range z : 0 <= u32 z < 2 ^ 32.
Proof. apply Z.mod_pos_bound. lia. Qed.
Lemma u64_range z : 0 <= u64 z < 2 ^ 64.
Proof. apply Z.mod_pos_bound. lia. Qed.
Lemma u8_small z : 0 <= z < 2 ^ 8 -> u8 z = z.
Proof. apply Z.mod_small. Qed.
Lemma u32_small z : 0 <= z < 2 ^ 32 -> u32 z = z.
Proof. apply Z.mod_small. Qed.
Lemma u64_small z : 0 <= z < 2 ^ 64 -> u64 z = z.
Proof. apply Z.mod_small. Qed.

(** ** Strings *)

(** [std::tolower] in the C locale. *)
Definition ascii_lower (a : ascii) : ascii :=
  let n := nat_of_ascii a in
  if Nat.leb 65 n && Nat.leb n 90 then ascii_of_nat (n + 32) else a.

Fixpoint str_lower (s : string) : string :=
  match s with
  | EmptyString => EmptyString
  | String a s' => String (ascii_lower a) (str_lower s')
  end.

Definition str_empty (s : string) : bool :=
  match s with EmptyString => true | _ => false end.

Fixpoint str_forallb (p : ascii -> bool) (s : string) : bool :=
  match s with
  | EmptyString => true
  | String a s' => p a && str_forallb p s'
  end.

Lemma str_app_assoc (s1 s2 s3 : string) : (s1 +:+ s2) +:+ s3 = s1 +:+ (s2 +:+ s3).
Proof. induction s1 as [|a s1 IH]; [done|]. change (String a ((s1 +:+ s2) +:+ s3) = String a (s1 +:+ (s2 +:+ s3))). by rewrite IH. Qed.

Lemma str_app_cons a (s1 s2 : string) : String a s1 +:+ s2 = String a (s1 +:+ s2).
Proof. done. Qed.

Lemma str_nil_app (s : string) : EmptyString +:+ s = s.
Proof. done. Qed.

Lemma str_app_nil (s : string) : s +:+ EmptyString = s.
Proof. induction s as [|a s IH]; [done|]. rewrite str_app_cons. by rewrite IH. Qed.
