(* ===== verification/Json.v ===== *)
(** The JSON values of the program: the part of nlohmann's [basic_json]
    (deps/libsdptransform/include/json.hpp) the sources use.

    [object_t] is a [std::map], so an object is an association list kept in the
    order of its keys ([keys_sorted]); iteration follows that order.  Integers
    are the two 64-bit number types the library distinguishes and doubles are
    [spec_float]s. *)

From Stdlib Require Import ZArith Lia SpecFloat Ascii.
From S2P Require Import Prelude.

#[local] Unset Elimination Schemes.

Inductive json : Type :=
| JNull
| JBool (b : bool)
| JInt (z : Z)
| JUint (z : Z)
| JFloat (f : spec_float)
| JString (s : string)
| JArray (l : list json)
| JObject (o : list (string * json)).

#[local] Set Elimination Schemes.

(** Induction through arrays and objects. *)
Section JsonInd.
Variable P : json -> Prop.
Hypothesis Hnull : P JNull.
Hypothesis Hbool : forall b, P (JBool b).
Hypothesis Hint : forall z, P (JInt z).
Hypothesis Huint : forall z, P (JUint z).
Hypothesis Hfloat : forall f, P (JFloat f).
Hypothesis Hstring : forall s, P (JString s).
Hypothesis Harray : forall l, Forall P l -> P (JArray l).
Hypothesis Hobject : forall o, Forall (fun kv => P kv.2) o -> P (JObject o).

Fixpoint json_ind' (j : json) : P j :=
  match j with
  | JNull => Hnull
  | JBool b => Hbool b
  | JInt z => Hint z
  | JUint z => Huint z
  | JFloat f => Hfloat f
  | JString s => Hstring s
  | JArray l => Harray l ((fix go l : Forall P l :=
      match l with
      | [] => Forall_nil_2 _
      | x :: l' => Forall_cons_2 _ _ _ (json_ind' x) (go l')
      end) l)
  | JObject o => Hobject o ((fix go o : Forall (fun kv => P kv.2) o :=
      match o with
      | [] => Forall_nil_2 _
      | kv :: o' => Forall_cons_2 _ _ _ (json_ind' kv.2) (go o')
      end) o)
  end.
End JsonInd.

(** ** Objects: [std::map<std::string, basic_json>] *)

Abbreviation object := (list (string * json)).

Fixpoint obj_get (k : string) (o : object) : option json :=
  match o with
  | [] => None
  | (k', v) :: o' => if String.eqb k k' then Some v else obj_get k o'
  end.

Definition obj_mem (k : string) (o : object) : bool :=
  match obj_get k o with Some _ => true | None => false end.

Fixpoint obj_update (k : string) (v : json) (o : object) : object :=
  match o with
  | [] => []
  | (k', v') :: o' =>
      if String.eqb k k' then (k', v) :: o' else (k', v') :: obj_update k v o'
  end.

Fixpoint obj_insert (k : string) (v : json) (o : object) : object :=
  match o with
  | [] => [(k, v)]
  | (k', v') :: o' =>
      if String.ltb k k' then (k, v) :: o else (k', v') :: obj_insert k v o'
  end.

(** [map[k] = v]: the node of [k] keeps its place, a new node goes to its place
    in the order. *)
Definition obj_set (k : string) (v : json) (o : object) : object :=
  if obj_mem k o then obj_update k v o else obj_insert k v o.

Fixpoint keys_sorted (ks : list string) : bool :=
  match ks with
  | k1 :: (k2 :: _) as ks' => String.ltb k1 k2 && keys_sorted ks'
  | _ => true
  end.

Definition obj_del (k : string) (o : object) : object :=
  List.filter (fun kv => negb (String.eqb k kv.1)) o.

(** An initializer list [{ {k1, v1}, {k2, v2}, ... }]: the first of two equal
    keys stays, as [std::map::emplace] does. *)
Definition obj_of (kvs : list (string * json)) : object :=
  fold_left (fun o kv => if obj_mem kv.1 o then o else obj_set kv.1 kv.2 o) kvs [].

Definition JObj (kvs : list (string * json)) : json := JObject (obj_of kvs).

(** ** Type predicates *)

Definition is_null (j : json) : bool := match j with JNull => true | _ => false end.
Definition is_boolean (j : json) : bool := match j with JBool _ => true | _ => false end.
Definition is_string (j : json) : bool := match j with JString _ => true | _ => false end.
Definition is_array (j : json) : bool := match j with JArray _ => true | _ => false end.
Definition is_object (j : json) : bool := match j with JObject _ => true | _ => false end.
Definition is_number_float (j : json) : bool := match j with JFloat _ => true | _ => false end.
Definition is_number_unsigned (j : json) : bool := match j with JUint _ => true | _ => false end.
Definition is_number_integer (j : json) : bool :=
  match j with JInt _ | JUint _ => true | _ => false end.
Definition is_number (j : json) : bool := is_number_integer j || is_number_float j.

(** ** Equality: [operator==] *)

Definition double_of_Z (z : Z) : spec_float := binary_normalize 53 1024 z 0 false.

Fixpoint json_eqb (a b : json) {struct a} : bool :=
  match a, b with
  | JNull, JNull => true
  | JBool x, JBool y => Bool.eqb x y
  | JInt x, JInt y => x =? y
  | JUint x, JUint y => x =? y
  | JFloat x, JFloat y => SFeqb x y
  | JInt x, JFloat y => SFeqb (double_of_Z x) y
  | JFloat x, JInt y => SFeqb x (double_of_Z y)
  | JUint x, JFloat y => SFeqb (double_of_Z x) y
  | JFloat x, JUint y => SFeqb x (double_of_Z y)
  | JUint x, JInt y => i64 x =? y
  | JInt x, JUint y => x =? i64 y
  | JString x, JString y => String.eqb x y
  | JArray x, JArray y =>
      (fix go x y := match x, y with
       | [], [] => true
       | a :: x', b :: y' => json_eqb a b && go x' y'
       | _, _ => false
       end) x y
  | JObject x, JObject y =>
      (fix go x y := match x, y with
       | [], [] => true
       | (k, a) :: x', (k', b) :: y' => String.eqb k k' && json_eqb a b && go x' y'
       | _, _ => false
       end) x y
  | _, _ => false
  end.

(** ** Element access *)

(** [find]: the end iterator ([None]) unless the value is an object. *)
Definition jfind (j : json) (k : string) : option json :=
  match j with JObject o => obj_get k o | _ => None end.

Definition jcontains (j : json) (k : string) : bool :=
  match jfind j k with Some _ => true | None => false end.

(** [const operator[](key)] *)
Definition jat (j : json) (k : string) : res json :=
  match j with
  | JObject o => match obj_get k o with Some v => Ok v | None => Undef (UbMissingKey k) end
  | _ => Throw (JsonTypeError 305)
  end.

(** [at(key)] *)
Definition jat_checked (j : json) (k : string) : res json :=
  match j with
  | JObject o => match obj_get k o with Some v => Ok v | None => Throw (JsonOutOfRange 403) end
  | _ => Throw (JsonTypeError 304)
  end.

(** [operator[](key)] used for reading: the container afterwards and the value. *)
Definition jref (j : json) (k : string) : res (json * json) :=
  match j with
  | JObject o => match obj_get k o with
                 | Some v => Ok (j, v)
                 | None => Ok (JObject (obj_set k JNull o), JNull)
                 end
  | JNull => Ok (JObject [(k, JNull)], JNull)
  | _ => Throw (JsonTypeError 305)
  end.

(** [j[k] = v] *)
Definition jset (j : json) (k : string) (v : json) : res json :=
  match j with
  | JObject o => Ok (JObject (obj_set k v o))
  | JNull => Ok (JObject [(k, v)])
  | _ => Throw (JsonTypeError 305)
  end.

(** [erase(key)] *)
Definition jerase (j : json) (k : string) : res json :=
  match j with
  | JObject o => Ok (JObject (obj_del k o))
  | _ => Throw (JsonTypeError 307)
  end.

(** [push_back] *)
Definition jpush (j : json) (v : json) : res json :=
  match j with
  | JArray l => Ok (JArray (l ++ [v]))
  | JNull => Ok (JArray [v])
  | _ => Throw (JsonTypeError 308)
  end.

(** [const operator[](idx)] *)
Definition jidx (j : json) (i : nat) : res json :=
  match j with
  | JArray l => match l !! i with Some v => Ok v | None => Undef UbIndex end
  | _ => Throw (JsonTypeError 305)
  end.

(** [operator[](idx)] used for reading: an array that is too short is filled up
    with null values first. *)
Definition jidx_ref (j : json) (i : nat) : res (json * json) :=
  match j with
  | JNull => Ok (JArray (replicate (S i) JNull), JNull)
  | JArray l =>
      match l !! i with
      | Some v => Ok (j, v)
      | None => Ok (JArray (l ++ replicate (i - length l + 1)%nat JNull), JNull)
      end
  | _ => Throw (JsonTypeError 305)
  end.

(** [j[i] = v] *)
Definition jidx_set (j : json) (i : nat) (v : json) : res json :=
  let* (j', _) := jidx_ref j i in
  match j' with
  | JArray l => Ok (JArray (<[i := v]> l))
  | _ => Ok j'
  end.

(** The values a range-based [for] visits. *)
Definition jiter (j : json) : list json :=
  match j with
  | JNull => []
  | JArray l => l
  | JObject o => snd <$> o
  | _ => [j]
  end.

Definition jsize (j : json) : nat := length (jiter j).
Definition jempty (j : json) : bool :=
  match jiter j with [] => true | _ => false end.

(** ** Conversions: [get<T>()] *)

(** The integral part of a double; none for infinities and NaN. *)
Definition sf_trunc (f : spec_float) : option Z :=
  match f with
  | S754_zero _ => Some 0
  | S754_finite s m e =>
      let n := if 0 <=? e then Zpos m * 2 ^ e else Zpos m / 2 ^ (- e) in
      Some (if s then - n else n)
  | _ => None
  end.

Definition float_to_int (lo hi : Z) (f : spec_float) : res Z :=
  match sf_trunc f with
  | Some t => if (lo <=? t) && (t <=? hi) then Ok t else Undef UbFloatCast
  | None => Undef UbFloatCast
  end.

(** The overload for arithmetic types, which also accepts booleans. *)
Definition get_arith (lo hi : Z) (wrap : Z -> Z) (j : json) : res Z :=
  match j with
  | JUint z | JInt z => Ok (wrap z)
  | JFloat f => float_to_int lo hi f
  | JBool b => Ok (Z.b2z b)
  | _ => Throw (JsonTypeError 302)
  end.

Definition get_uint8 : json -> res Z := get_arith 0 255 u8.
Definition get_uint32 : json -> res Z := get_arith 0 (2 ^ 32 - 1) u32.
Definition get_int32 : json -> res Z := get_arith (- 2 ^ 31) (2 ^ 31 - 1) i32.

(** The overloads for the two native number types, which do not. *)
Definition get_number (lo hi : Z) (wrap : Z -> Z) (j : json) : res Z :=
  match j with JBool _ => Throw (JsonTypeError 302) | _ => get_arith lo hi wrap j end.

Definition get_uint64 : json -> res Z := get_number 0 (2 ^ 64 - 1) u64.
Definition get_int64 : json -> res Z := get_number (- 2 ^ 63) (2 ^ 63 - 1) i64.

Definition get_bool (j : json) : res bool :=
  match j with JBool b => Ok b | _ => Throw (JsonTypeError 302) end.

Definition get_string (j : json) : res string :=
  match j with JString s => Ok s | _ => Throw (JsonTypeError 302) end.

(** ** Facts about objects *)

Create HintDb json_db.

Lemma obj_get_update_eq k v o : obj_mem k o = true -> obj_get k (obj_update k v o) = Some v.
Proof.
  unfold obj_mem. induction o as [|[k' v'] o IH]; simpl; [done|].
  destruct (String.eqb k k') eqn:E; simpl; rewrite E; auto.
Qed.

Lemma obj_get_update_ne k k' v o : k <> k' -> obj_get k' (obj_update k v o) = obj_get k' o.
Proof.
  intros Hne. induction o as [|[k1 v1] o IH]; simpl; [done|].
  destruct (String.eqb_spec k k1); subst; simpl.
  - destruct (String.eqb_spec k' k1); subst; done.
  - destruct (String.eqb k' k1); auto.
Qed.

Lemma obj_get_insert_eq k v o : obj_mem k o = false -> obj_get k (obj_insert k v o) = Some v.
Proof.
  unfold obj_mem. induction o as [|[k' v'] o IH]; simpl; [by rewrite String.eqb_refl|].
  destruct (String.eqb k k') eqn:E; [done|]. intros Hn.
  destruct (String.ltb k k'); simpl; [by rewrite String.eqb_refl|]. rewrite E; auto.
Qed.

Lemma obj_get_insert_ne k k' v o : k <> k' -> obj_get k' (obj_insert k v o) = obj_get k' o.
Proof.
  intros Hne. induction o as [|[k1 v1] o IH]; simpl.
  { destruct (String.eqb_spec k' k); congruence. }
  destruct (String.ltb k k1); simpl.
  - destruct (String.eqb_spec k' k); congruence.
  - destruct (String.eqb k' k1); auto.
Qed.

Lemma obj_get_set_eq k v o : obj_get k (obj_set k v o) = Some v.
Proof.
  unfold obj_set. destruct (obj_mem k o) eqn:E;
    auto using obj_get_update_eq, obj_get_insert_eq.
Qed.

Lemma obj_get_set_ne k k' v o : k <> k' -> obj_get k' (obj_set k v o) = obj_get k' o.
Proof.
  intros. unfold obj_set. destruct (obj_mem k o);
    auto using obj_get_update_ne, obj_get_insert_ne.
Qed.

Lemma obj_get_del_eq k o : obj_get k (obj_del k o) = None.
Proof.
  induction o as [|[k' v'] o IH]; simpl; [done|].
  destruct (String.eqb k k') eqn:E; simpl; [done|]. by rewrite E.
Qed.

Lemma obj_get_del_ne k k' o : k <> k' -> obj_get k' (obj_del k o) = obj_get k' o.
Proof.
  intros Hne. induction o as [|[k1 v1] o IH]; simpl; [done|].
  destruct (String.eqb_spec k k1); subst; simpl.
  - destruct (String.eqb_spec k' k1); congruence.
  - destruct (String.eqb k' k1); auto.
Qed.

Lemma obj_update_id k v o : obj_get k o = Some v -> obj_update k v o = o.
Proof.
  induction o as [|[k' v'] o IH]; simpl; [done|].
  destruct (String.eqb k k'); [by intros [= ->]|]. intros. by rewrite IH.
Qed.

(** Writing back the value a key already has changes nothing. *)
Lemma obj_set_id k v o : obj_get k o = Some v -> obj_set k v o = o.
Proof. intros H. unfold obj_set, obj_mem. rewrite H. by apply obj_update_id. Qed.

Lemma obj_del_id k o : obj_get k o = None -> obj_del k o = o.
Proof.
  induction o as [|[k' v'] o IH]; simpl; [done|].
  destruct (String.eqb k k'); [done|]. intros. simpl. f_equal. by apply IH.
Qed.

Lemma jfind_jset_eq j k v j' : jset j k v = Ok j' -> jfind j' k = Some v.
Proof.
  destruct j; try discriminate; intros [= <-]; simpl.
  - by rewrite String.eqb_refl.
  - apply obj_get_set_eq.
Qed.

Lemma jfind_jset_ne j k k' v j' : k <> k' -> jset j k v = Ok j' -> jfind j' k' = jfind j k'.
Proof.
  intros Hne. destruct j; try discriminate; intros [= <-]; simpl.
  - by rewrite (proj2 (String.eqb_neq _ _)).
  - by apply obj_get_set_ne.
Qed.

(** ** The order of the keys *)

Lemma ltb_compare k1 k2 : String.ltb k1 k2 = true <-> String.compare k1 k2 = Lt.
Proof. unfold String.ltb. by destruct (String.compare k1 k2). Qed.

Lemma ltb_total k1 k2 : String.ltb k1 k2 = false -> k1 <> k2 -> String.ltb k2 k1 = true.
Proof.
  rewrite ltb_compare. unfold String.ltb. rewrite (String.compare_antisym k2 k1).
  destruct (String.compare k1 k2) eqn:E; simpl; try done. by apply String.compare_eq_iff in E.
Qed.

Lemma ltb_asym k1 k2 : String.ltb k1 k2 = true -> String.ltb k2 k1 = false /\ String.eqb k2 k1 = false.
Proof.
  intros H. split.
  - rewrite ltb_compare in H. unfold String.ltb. by rewrite String.compare_antisym, H.
  - apply String.eqb_neq. intros ->. apply ltb_compare in H. pose proof (String.compare_antisym k1 k1) as E.
    by rewrite H in E.
Qed.

Lemma ascii_compare_N a b : Ascii.compare a b = N.compare (N_of_ascii a) (N_of_ascii b).
Proof. done. Qed.

Lemma ltb_trans k1 k2 k3 : String.ltb k1 k2 = true -> String.ltb k2 k3 = true -> String.ltb k1 k3 = true.
Proof.
  rewrite !ltb_compare. revert k2 k3. induction k1 as [|a k1 IH]; intros [|b k2] [|c k3]; simpl; try done.
  rewrite !ascii_compare_N.
  destruct (N.compare_spec (N_of_ascii a) (N_of_ascii b)) as [E1|E1|E1]; try done;
  destruct (N.compare_spec (N_of_ascii b) (N_of_ascii c)) as [E2|E2|E2]; try done;
  destruct (N.compare_spec (N_of_ascii a) (N_of_ascii c)) as [E3|E3|E3]; try done; try lia. apply IH.
Qed.

Lemma obj_update_keys k v o : map fst (obj_update k v o) = map fst o.
Proof.
  induction o as [|[k' v'] o IH]; simpl; [done|]. destruct (String.eqb k k'); simpl; [done|]. by rewrite IH.
Qed.

Lemma obj_insert_sorted k v o : obj_mem k o = false ->
  keys_sorted (map fst o) = true -> keys_sorted (map fst (obj_insert k v o)) = true.
Proof.
  unfold obj_mem. induction o as [|[k' v'] o IH]; simpl; [done|].
  destruct (String.eqb_spec k k') as [|Hne]; [done|]. intros Hm Hs.
  destruct (String.ltb k k') eqn:E; simpl; [by rewrite E|]. apply ltb_total in E; [|done].
  destruct o as [|[k2 v2] o]; simpl in *; [by rewrite E|].
  apply andb_true_iff in Hs as [Hlt Hs]. specialize (IH Hm Hs).
  destruct (String.ltb k k2); simpl in *; by rewrite ?E, ?Hlt, ?IH.
Qed.

Lemma obj_set_sorted k v o :
  keys_sorted (map fst o) = true -> keys_sorted (map fst (obj_set k v o)) = true.
Proof.
  intros H. unfold obj_set. destruct (obj_mem k o) eqn:E; [by rewrite obj_update_keys|].
  by apply obj_insert_sorted.
Qed.

(** A key that follows all others goes to the end. *)
Lemma obj_set_last k v o : Forall (fun kv => String.ltb kv.1 k = true) o -> obj_set k v o = o ++ [(k, v)].
Proof.
  intros H. unfold obj_set.
  assert (obj_mem k o = false) as ->.
  { unfold obj_mem. induction H as [|[k' v'] o Hk Ho IH]; simpl in *; [done|]. by rewrite (proj2 (ltb_asym _ _ Hk)). }
  induction H as [|[k' v'] o Hk Ho IH]; simpl in *; [done|]. rewrite (proj1 (ltb_asym _ _ Hk)). by rewrite IH.
Qed.

(** Every key before the last element is smaller than the last. *)
Lemma keys_sorted_last (o : object) k v :
  keys_sorted (map fst (o ++ [(k, v)])) = true ->
  keys_sorted (map fst o) = true /\ Forall (fun kv => String.ltb kv.1 k = true) o.
Proof.
  induction o as [|[k1 v1] o IH]; simpl; [done|]. destruct o as [|[k2 v2] o]; simpl in *.
  - rewrite andb_true_r. intros H. split; [done|]. by repeat constructor.
  - intros [H1 H2]%andb_true_iff. destruct (IH H2) as [H3 H4]. split; [by rewrite H1|].
    constructor; [|done]. inversion H4; subst. simpl in *. by eapply ltb_trans.
Qed.
