(* ===== verification/Words.v ===== *)
(** Facts about machine words and byte strings shared by the cryptographic
    components: ranges of the bitwise operations, a bit-level tactic, and the
    correspondence between numbers and their byte representations. *)

From Stdlib Require Import ZArith Lia.
From S2P Require Import Prelude.

(** ** Bits and ranges *)

Definition in_range (n z : Z) : Prop := 0 <= z < 2 ^ n.

Lemma testbit_mod_pow2 a n i : 0 <= n -> Z.testbit (a `mod` 2 ^ n) i = (i <? n) && Z.testbit a i.
Proof.
  intros. destruct (Z.ltb_spec i n); simpl.
  - apply Z.mod_pow2_bits_low; lia.
  - apply Z.mod_pow2_bits_high; lia.
Qed.

Lemma in_range_mod n z : 0 <= n -> in_range n z <-> z `mod` 2 ^ n = z.
Proof.
  intros. unfold in_range. split; [apply Z.mod_small|].
  intros <-. apply Z.mod_pos_bound. lia.
Qed.

Lemma in_range_bits n z : 0 <= n -> in_range n z -> forall i, n <= i -> Z.testbit z i = false.
Proof.
  intros Hn Hz i Hi. apply in_range_mod in Hz as <-; [|done].
  rewrite testbit_mod_pow2 by done. by rewrite (proj2 (Z.ltb_ge i n)).
Qed.

Lemma bits_in_range n z :
  0 <= n -> (forall i, 0 <= i -> n <= i -> Z.testbit z i = false) -> in_range n z.
Proof.
  intros Hn Hb. apply in_range_mod; [done|]. apply Z.bits_inj'. intros i Hi.
  rewrite testbit_mod_pow2 by done. destruct (Z.ltb_spec i n); [done|]. by rewrite Hb.
Qed.

Lemma lxor_range n a b : 0 <= n -> in_range n a -> in_range n b -> in_range n (Z.lxor a b).
Proof.
  intros Hn Ha Hb. apply bits_in_range; [done|]. intros i _ Hi.
  by rewrite Z.lxor_spec, !(in_range_bits n) by done.
Qed.

Lemma lor_range n a b : 0 <= n -> in_range n a -> in_range n b -> in_range n (Z.lor a b).
Proof.
  intros Hn Ha Hb. apply bits_in_range; [done|]. intros i _ Hi.
  by rewrite Z.lor_spec, !(in_range_bits n) by done.
Qed.

Lemma shiftl_range n k a : 0 <= k -> in_range n a -> in_range (n + k) (Z.shiftl a k).
Proof.
  intros Hk [Ha1 Ha2]. unfold in_range. rewrite Z.shiftl_mul_pow2 by done.
  destruct (Z.leb_spec 0 n).
  - rewrite Z.pow_add_r by lia. nia.
  - rewrite Z.pow_neg_r in Ha2 by lia. lia.
Qed.

Lemma shiftr_range n k a : 0 <= k <= n -> in_range n a -> in_range (n - k) (Z.shiftr a k).
Proof.
  intros Hk [Ha1 Ha2]. unfold in_range. rewrite Z.shiftr_div_pow2 by lia.
  split; [apply Z.div_pos; lia|]. apply Z.div_lt_upper_bound; [lia|].
  rewrite <- Z.pow_add_r by lia. by replace (k + (n - k)) with n by lia.
Qed.

Lemma mod_range n z : 0 <= n -> in_range n (z `mod` 2 ^ n).
Proof. intros. apply Z.mod_pos_bound. lia. Qed.

Lemma in_range_mono n m z : n <= m -> in_range n z -> in_range m z.
Proof.
  intros Hnm [H1 H2]. split; [done|]. eapply Z.lt_le_trans; [done|].
  apply Z.pow_le_mono_r; lia.
Qed.

(** Disjoint [or] is addition. *)
Lemma lor_add n x y : 0 <= n -> x `mod` 2 ^ n = 0 -> in_range n y -> Z.lor x y = x + y.
Proof.
  intros Hn Hx Hy. assert (Hl : Z.land x y = 0).
  { apply Z.bits_inj'. intros i Hi. rewrite Z.land_spec, Z.bits_0.
    destruct (Z.ltb_spec i n); [|by rewrite (in_range_bits n y), andb_false_r].
    assert (Hb : Z.testbit (x `mod` 2 ^ n) i = false) by (rewrite Hx; apply Z.bits_0).
    rewrite testbit_mod_pow2 in Hb by done. rewrite (proj2 (Z.ltb_lt i n)) in Hb by done.
    simpl in Hb. by rewrite Hb. }
  pose proof (Z.add_lor_land x y). lia.
Qed.

(** [lia] with division and modulo by constants. *)
Ltac zlia := Z.to_euclidean_division_equations; lia.

(** [bits]: equality of two words bit by bit; what is left is a case split on
    the position. *)
Ltac bits i :=
  apply Z.bits_inj'; intros i ?;
  unfold u8, u16, u32, u64;
  repeat first
    [ rewrite Z.lxor_spec | rewrite Z.lor_spec | rewrite Z.land_spec
    | rewrite testbit_mod_pow2 by lia
    | rewrite Z.shiftl_spec by lia | rewrite Z.shiftr_spec by lia ].

Lemma u8_lxor a b : u8 (Z.lxor a b) = Z.lxor (u8 a) (u8 b).
Proof. bits i. by destruct (i <? 8), (Z.testbit a i), (Z.testbit b i). Qed.

(** ** Byte strings *)

Definition byte (z : Z) : Prop := in_range 8 z.
Abbreviation bytes l := (Forall byte l).

(** Decision procedure for concrete byte strings. *)
Definition bytesb (l : list Z) : bool := forallb (fun z => (0 <=? z) && (z <? 256)) l.

Lemma bytesb_bytes l : bytesb l = true -> bytes l.
Proof.
  unfold bytesb. rewrite forallb_forall, Forall_forall. intros H z Hz.
  apply list_elem_of_In in Hz. specialize (H z Hz). unfold byte, in_range. lia.
Qed.

Ltac solve_bytes := apply bytesb_bytes; vm_compute; reflexivity.

Fixpoint le_value (l : list Z) : Z :=
  match l with [] => 0 | b :: l' => b + 2 ^ 8 * le_value l' end.

Fixpoint le_split (n : nat) (v : Z) : list Z :=
  match n with O => [] | S n' => u8 v :: le_split n' (Z.shiftr v 8) end.

Lemma le_split_length n v : length (le_split n v) = n.
Proof. revert v. induction n; intros; simpl; auto. Qed.

Lemma le_split_bytes n v : bytes (le_split n v).
Proof. revert v. induction n; intros; simpl; constructor; [apply mod_range; lia|auto]. Qed.

Lemma le_value_range l : bytes l -> in_range (8 * Z.of_nat (length l)) (le_value l).
Proof.
  induction 1 as [|b l Hb Hl IH]; [done|]. unfold in_range, byte in *. simpl length. simpl le_value.
  replace (8 * Z.of_nat (S (length l))) with (8 + 8 * Z.of_nat (length l)) by lia.
  rewrite Z.pow_add_r by lia. unfold in_range in *. nia.
Qed.

Lemma le_value_split n v : le_value (le_split n v) = v `mod` 2 ^ (8 * Z.of_nat n).
Proof.
  revert v. induction n as [|n IH]; intros v; [by rewrite Z.mod_1_r|].
  simpl le_split. simpl le_value. rewrite IH.
  replace (8 * Z.of_nat (S n)) with (8 + 8 * Z.of_nat n) by lia.
  rewrite Z.shiftr_div_pow2 by lia. rewrite Z.pow_add_r by lia.
  rewrite Z.rem_mul_r by lia. done.
Qed.

Lemma le_value_inj l l' :
  bytes l -> bytes l' -> length l = length l' -> le_value l = le_value l' -> l = l'.
Proof.
  intros Hl. revert l'. induction Hl as [|b l Hb Hl IH]; intros l' Hl' Hlen Hv.
  { by destruct l'. }
  destruct Hl' as [|b' l' Hb' Hl']; [done|]. simpl in *. injection Hlen as Hlen.
  unfold byte, in_range in *.
  assert (b = b' /\ le_value l = le_value l') as [-> Hv'] by lia.
  f_equal. by apply IH.
Qed.

Lemma le_split_value l : bytes l -> le_split (length l) (le_value l) = l.
Proof.
  intros Hl. apply le_value_inj; [apply le_split_bytes|done|apply le_split_length|].
  rewrite le_value_split. apply Z.mod_small. by apply le_value_range.
Qed.

Lemma le_value_app l l' :
  le_value (l ++ l') = le_value l + 2 ^ (8 * Z.of_nat (length l)) * le_value l'.
Proof.
  induction l as [|b l IH]; simpl le_value; [simpl; lia|].
  simpl app. simpl le_value. rewrite IH. simpl length.
  replace (8 * Z.of_nat (S (length l))) with (8 + 8 * Z.of_nat (length l)) by lia.
  rewrite Z.pow_add_r by lia. ring.
Qed.

Lemma bytes_reverse l : bytes l -> bytes (reverse l).
Proof. apply Forall_reverse. Qed.

(** ** Exclusive or of byte strings *)

Abbreviation xor_bytes := (zip_with Z.lxor).

Lemma xor_bytes_bytes l k : bytes l -> bytes k -> bytes (xor_bytes l k).
Proof.
  intros Hl. revert k. induction Hl as [|b l Hb Hl IH]; intros k Hk; [constructor|].
  destruct Hk; simpl; constructor; [|by apply IH]. by apply lxor_range.
Qed.

(** A key stream cancels itself. *)
Lemma xor_bytes_cancel l k : (length l <= length k)%nat -> xor_bytes (xor_bytes l k) k = l.
Proof.
  revert k. induction l as [|b l IH]; intros [|c k] Hlen; simpl in *; try done; [lia|].
  rewrite Z.lxor_assoc, Z.lxor_nilpotent, Z.lxor_0_r. f_equal. apply IH. lia.
Qed.

(** Two messages under the same key stream: the stream drops out. *)
Lemma xor_bytes_two_time l l' k :
  (length l <= length k)%nat -> (length l' <= length k)%nat ->
  xor_bytes (xor_bytes l k) (xor_bytes l' k) = xor_bytes l l'.
Proof.
  revert l' k. induction l as [|b l IH]; intros [|b' l'] [|c k] H1 H2; simpl in *; try done; try lia.
  rewrite IH by lia. f_equal.
  rewrite (Z.lxor_comm b' c), Z.lxor_assoc, <- (Z.lxor_assoc c c b'), Z.lxor_nilpotent.
  by rewrite Z.lxor_0_l.
Qed.
