(* ===== verification/Sm4.v ===== *)
(** SM4 and its counter mode, from GmSSL
    (webrtc/src/api/crypto/GmSSL-master/src/sm4.c and sm4_ctr.c).

    The build compiles sm4.c with [ENABLE_SMALL_FOOTPRINT=0], that is the
    table-driven, unrolled code; the small-footprint branch of the same file is
    the reference it is proved equal to.  Bytes are [Z] in [0, 2^8), words [Z] in
    [0, 2^32) and [0, 2^64). *)

From Stdlib Require Import ZArith Lia.
From S2P Require Import Prelude Words.

(** ** Tables *)

(** System parameters of the key schedule. *)
Definition FK : list Z := [
  0xa3b1bac6; 0x56aa3350; 0x677d9197; 0xb27022dc].

(** Constants of the key schedule. *)
Definition CK : list Z := [
  0x00070e15; 0x1c232a31; 0x383f464d; 0x545b6269;
  0x70777e85; 0x8c939aa1; 0xa8afb6bd; 0xc4cbd2d9;
  0xe0e7eef5; 0xfc030a11; 0x181f262d; 0x343b4249;
  0x50575e65; 0x6c737a81; 0x888f969d; 0xa4abb2b9;
  0xc0c7ced5; 0xdce3eaf1; 0xf8ff060d; 0x141b2229;
  0x30373e45; 0x4c535a61; 0x686f767d; 0x848b9299;
  0xa0a7aeb5; 0xbcc3cad1; 0xd8dfe6ed; 0xf4fb0209;
  0x10171e25; 0x2c333a41; 0x484f565d; 0x646b7279].

(** The S-box. *)
Definition S_table : list Z := [
  0xd6; 0x90; 0xe9; 0xfe; 0xcc; 0xe1; 0x3d; 0xb7;
  0x16; 0xb6; 0x14; 0xc2; 0x28; 0xfb; 0x2c; 0x05;
  0x2b; 0x67; 0x9a; 0x76; 0x2a; 0xbe; 0x04; 0xc3;
  0xaa; 0x44; 0x13; 0x26; 0x49; 0x86; 0x06; 0x99;
  0x9c; 0x42; 0x50; 0xf4; 0x91; 0xef; 0x98; 0x7a;
  0x33; 0x54; 0x0b; 0x43; 0xed; 0xcf; 0xac; 0x62;
  0xe4; 0xb3; 0x1c; 0xa9; 0xc9; 0x08; 0xe8; 0x95;
  0x80; 0xdf; 0x94; 0xfa; 0x75; 0x8f; 0x3f; 0xa6;
  0x47; 0x07; 0xa7; 0xfc; 0xf3; 0x73; 0x17; 0xba;
  0x83; 0x59; 0x3c; 0x19; 0xe6; 0x85; 0x4f; 0xa8;
  0x68; 0x6b; 0x81; 0xb2; 0x71; 0x64; 0xda; 0x8b;
  0xf8; 0xeb; 0x0f; 0x4b; 0x70; 0x56; 0x9d; 0x35;
  0x1e; 0x24; 0x0e; 0x5e; 0x63; 0x58; 0xd1; 0xa2;
  0x25; 0x22; 0x7c; 0x3b; 0x01; 0x21; 0x78; 0x87;
  0xd4; 0x00; 0x46; 0x57; 0x9f; 0xd3; 0x27; 0x52;
  0x4c; 0x36; 0x02; 0xe7; 0xa0; 0xc4; 0xc8; 0x9e;
  0xea; 0xbf; 0x8a; 0xd2; 0x40; 0xc7; 0x38; 0xb5;
  0xa3; 0xf7; 0xf2; 0xce; 0xf9; 0x61; 0x15; 0xa1;
  0xe0; 0xae; 0x5d; 0xa4; 0x9b; 0x34; 0x1a; 0x55;
  0xad; 0x93; 0x32; 0x30; 0xf5; 0x8c; 0xb1; 0xe3;
  0x1d; 0xf6; 0xe2; 0x2e; 0x82; 0x66; 0xca; 0x60;
  0xc0; 0x29; 0x23; 0xab; 0x0d; 0x53; 0x4e; 0x6f;
  0xd5; 0xdb; 0x37; 0x45; 0xde; 0xfd; 0x8e; 0x2f;
  0x03; 0xff; 0x6a; 0x72; 0x6d; 0x6c; 0x5b; 0x51;
  0x8d; 0x1b; 0xaf; 0x92; 0xbb; 0xdd; 0xbc; 0x7f;
  0x11; 0xd9; 0x5c; 0x41; 0x1f; 0x10; 0x5a; 0xd8;
  0x0a; 0xc1; 0x31; 0x88; 0xa5; 0xcd; 0x7b; 0xbd;
  0x2d; 0x74; 0xd0; 0x12; 0xb8; 0xe5; 0xb4; 0xb0;
  0x89; 0x69; 0x97; 0x4a; 0x0c; 0x96; 0x77; 0x7e;
  0x65; 0xb9; 0xf1; 0x09; 0xc5; 0x6e; 0xc6; 0x84;
  0x18; 0xf0; 0x7d; 0xec; 0x3a; 0xdc; 0x4d; 0x20;
  0x79; 0xee; 0x5f; 0x3e; 0xd7; 0xcb; 0x39; 0x48].

(** The table of [L32(S[i] << 24)]. *)
Definition T0 : list Z := [
  0x8ed55b5b; 0xd0924242; 0x4deaa7a7; 0x06fdfbfb;
  0xfccf3333; 0x65e28787; 0xc93df4f4; 0x6bb5dede;
  0x4e165858; 0x6eb4dada; 0x44145050; 0xcac10b0b;
  0x8828a0a0; 0x17f8efef; 0x9c2cb0b0; 0x11051414;
  0x872bacac; 0xfb669d9d; 0xf2986a6a; 0xae77d9d9;
  0x822aa8a8; 0x46bcfafa; 0x14041010; 0xcfc00f0f;
  0x02a8aaaa; 0x54451111; 0x5f134c4c; 0xbe269898;
  0x6d482525; 0x9e841a1a; 0x1e061818; 0xfd9b6666;
  0xec9e7272; 0x4a430909; 0x10514141; 0x24f7d3d3;
  0xd5934646; 0x53ecbfbf; 0xf89a6262; 0x927be9e9;
  0xff33cccc; 0x04555151; 0x270b2c2c; 0x4f420d0d;
  0x59eeb7b7; 0xf3cc3f3f; 0x1caeb2b2; 0xea638989;
  0x74e79393; 0x7fb1cece; 0x6c1c7070; 0x0daba6a6;
  0xedca2727; 0x28082020; 0x48eba3a3; 0xc1975656;
  0x80820202; 0xa3dc7f7f; 0xc4965252; 0x12f9ebeb;
  0xa174d5d5; 0xb38d3e3e; 0xc33ffcfc; 0x3ea49a9a;
  0x5b461d1d; 0x1b071c1c; 0x3ba59e9e; 0x0cfff3f3;
  0x3ff0cfcf; 0xbf72cdcd; 0x4b175c5c; 0x52b8eaea;
  0x8f810e0e; 0x3d586565; 0xcc3cf0f0; 0x7d196464;
  0x7ee59b9b; 0x91871616; 0x734e3d3d; 0x08aaa2a2;
  0xc869a1a1; 0xc76aadad; 0x85830606; 0x7ab0caca;
  0xb570c5c5; 0xf4659191; 0xb2d96b6b; 0xa7892e2e;
  0x18fbe3e3; 0x47e8afaf; 0x330f3c3c; 0x674a2d2d;
  0xb071c1c1; 0x0e575959; 0xe99f7676; 0xe135d4d4;
  0x661e7878; 0xb4249090; 0x360e3838; 0x265f7979;
  0xef628d8d; 0x38596161; 0x95d24747; 0x2aa08a8a;
  0xb1259494; 0xaa228888; 0x8c7df1f1; 0xd73becec;
  0x05010404; 0xa5218484; 0x9879e1e1; 0x9b851e1e;
  0x84d75353; 0x00000000; 0x5e471919; 0x0b565d5d;
  0xe39d7e7e; 0x9fd04f4f; 0xbb279c9c; 0x1a534949;
  0x7c4d3131; 0xee36d8d8; 0x0a020808; 0x7be49f9f;
  0x20a28282; 0xd4c71313; 0xe8cb2323; 0xe69c7a7a;
  0x42e9abab; 0x43bdfefe; 0xa2882a2a; 0x9ad14b4b;
  0x40410101; 0xdbc41f1f; 0xd838e0e0; 0x61b7d6d6;
  0x2fa18e8e; 0x2bf4dfdf; 0x3af1cbcb; 0xf6cd3b3b;
  0x1dfae7e7; 0xe5608585; 0x41155454; 0x25a38686;
  0x60e38383; 0x16acbaba; 0x295c7575; 0x34a69292;
  0xf7996e6e; 0xe434d0d0; 0x721a6868; 0x01545555;
  0x19afb6b6; 0xdf914e4e; 0xfa32c8c8; 0xf030c0c0;
  0x21f6d7d7; 0xbc8e3232; 0x75b3c6c6; 0x6fe08f8f;
  0x691d7474; 0x2ef5dbdb; 0x6ae18b8b; 0x962eb8b8;
  0x8a800a0a; 0xfe679999; 0xe2c92b2b; 0xe0618181;
  0xc0c30303; 0x8d29a4a4; 0xaf238c8c; 0x07a9aeae;
  0x390d3434; 0x1f524d4d; 0x764f3939; 0xd36ebdbd;
  0x81d65757; 0xb7d86f6f; 0xeb37dcdc; 0x51441515;
  0xa6dd7b7b; 0x09fef7f7; 0xb68c3a3a; 0x932fbcbc;
  0x0f030c0c; 0x03fcffff; 0xc26ba9a9; 0xba73c9c9;
  0xd96cb5b5; 0xdc6db1b1; 0x375a6d6d; 0x15504545;
  0xb98f3636; 0x771b6c6c; 0x13adbebe; 0xda904a4a;
  0x57b9eeee; 0xa9de7777; 0x4cbef2f2; 0x837efdfd;
  0x55114444; 0xbdda6767; 0x2c5d7171; 0x45400505;
  0x631f7c7c; 0x50104040; 0x325b6969; 0xb8db6363;
  0x220a2828; 0xc5c20707; 0xf531c4c4; 0xa88a2222;
  0x31a79696; 0xf9ce3737; 0x977aeded; 0x49bff6f6;
  0x992db4b4; 0xa475d1d1; 0x90d34343; 0x5a124848;
  0x58bae2e2; 0x71e69797; 0x64b6d2d2; 0x70b2c2c2;
  0xad8b2626; 0xcd68a5a5; 0xcb955e5e; 0x624b2929;
  0x3c0c3030; 0xce945a5a; 0xab76dddd; 0x867ff9f9;
  0xf1649595; 0x5dbbe6e6; 0x35f2c7c7; 0x2d092424;
  0xd1c61717; 0xd66fb9b9; 0xdec51b1b; 0x94861212;
  0x78186060; 0x30f3c3c3; 0x897cf5f5; 0x5cefb3b3;
  0xd23ae8e8; 0xacdf7373; 0x794c3535; 0xa0208080;
  0x9d78e5e5; 0x56edbbbb; 0x235e7d7d; 0xc63ef8f8;
  0x8bd45f5f; 0xe7c82f2f; 0xdd39e4e4; 0x68492121].

(** The table of [L32(S[i] << 16)]. *)
Definition T1 : list Z := [
  0x5b8ed55b; 0x42d09242; 0xa74deaa7; 0xfb06fdfb;
  0x33fccf33; 0x8765e287; 0xf4c93df4; 0xde6bb5de;
  0x584e1658; 0xda6eb4da; 0x50441450; 0x0bcac10b;
  0xa08828a0; 0xef17f8ef; 0xb09c2cb0; 0x14110514;
  0xac872bac; 0x9dfb669d; 0x6af2986a; 0xd9ae77d9;
  0xa8822aa8; 0xfa46bcfa; 0x10140410; 0x0fcfc00f;
  0xaa02a8aa; 0x11544511; 0x4c5f134c; 0x98be2698;
  0x256d4825; 0x1a9e841a; 0x181e0618; 0x66fd9b66;
  0x72ec9e72; 0x094a4309; 0x41105141; 0xd324f7d3;
  0x46d59346; 0xbf53ecbf; 0x62f89a62; 0xe9927be9;
  0xccff33cc; 0x51045551; 0x2c270b2c; 0x0d4f420d;
  0xb759eeb7; 0x3ff3cc3f; 0xb21caeb2; 0x89ea6389;
  0x9374e793; 0xce7fb1ce; 0x706c1c70; 0xa60daba6;
  0x27edca27; 0x20280820; 0xa348eba3; 0x56c19756;
  0x02808202; 0x7fa3dc7f; 0x52c49652; 0xeb12f9eb;
  0xd5a174d5; 0x3eb38d3e; 0xfcc33ffc; 0x9a3ea49a;
  0x1d5b461d; 0x1c1b071c; 0x9e3ba59e; 0xf30cfff3;
  0xcf3ff0cf; 0xcdbf72cd; 0x5c4b175c; 0xea52b8ea;
  0x0e8f810e; 0x653d5865; 0xf0cc3cf0; 0x647d1964;
  0x9b7ee59b; 0x16918716; 0x3d734e3d; 0xa208aaa2;
  0xa1c869a1; 0xadc76aad; 0x06858306; 0xca7ab0ca;
  0xc5b570c5; 0x91f46591; 0x6bb2d96b; 0x2ea7892e;
  0xe318fbe3; 0xaf47e8af; 0x3c330f3c; 0x2d674a2d;
  0xc1b071c1; 0x590e5759; 0x76e99f76; 0xd4e135d4;
  0x78661e78; 0x90b42490; 0x38360e38; 0x79265f79;
  0x8def628d; 0x61385961; 0x4795d247; 0x8a2aa08a;
  0x94b12594; 0x88aa2288; 0xf18c7df1; 0xecd73bec;
  0x04050104; 0x84a52184; 0xe19879e1; 0x1e9b851e;
  0x5384d753; 0x00000000; 0x195e4719; 0x5d0b565d;
  0x7ee39d7e; 0x4f9fd04f; 0x9cbb279c; 0x491a5349;
  0x317c4d31; 0xd8ee36d8; 0x080a0208; 0x9f7be49f;
  0x8220a282; 0x13d4c713; 0x23e8cb23; 0x7ae69c7a;
  0xab42e9ab; 0xfe43bdfe; 0x2aa2882a; 0x4b9ad14b;
  0x01404101; 0x1fdbc41f; 0xe0d838e0; 0xd661b7d6;
  0x8e2fa18e; 0xdf2bf4df; 0xcb3af1cb; 0x3bf6cd3b;
  0xe71dfae7; 0x85e56085; 0x54411554; 0x8625a386;
  0x8360e383; 0xba16acba; 0x75295c75; 0x9234a692;
  0x6ef7996e; 0xd0e434d0; 0x68721a68; 0x55015455;
  0xb619afb6; 0x4edf914e; 0xc8fa32c8; 0xc0f030c0;
  0xd721f6d7; 0x32bc8e32; 0xc675b3c6; 0x8f6fe08f;
  0x74691d74; 0xdb2ef5db; 0x8b6ae18b; 0xb8962eb8;
  0x0a8a800a; 0x99fe6799; 0x2be2c92b; 0x81e06181;
  0x03c0c303; 0xa48d29a4; 0x8caf238c; 0xae07a9ae;
  0x34390d34; 0x4d1f524d; 0x39764f39; 0xbdd36ebd;
  0x5781d657; 0x6fb7d86f; 0xdceb37dc; 0x15514415;
  0x7ba6dd7b; 0xf709fef7; 0x3ab68c3a; 0xbc932fbc;
  0x0c0f030c; 0xff03fcff; 0xa9c26ba9; 0xc9ba73c9;
  0xb5d96cb5; 0xb1dc6db1; 0x6d375a6d; 0x45155045;
  0x36b98f36; 0x6c771b6c; 0xbe13adbe; 0x4ada904a;
  0xee57b9ee; 0x77a9de77; 0xf24cbef2; 0xfd837efd;
  0x44551144; 0x67bdda67; 0x712c5d71; 0x05454005;
  0x7c631f7c; 0x40501040; 0x69325b69; 0x63b8db63;
  0x28220a28; 0x07c5c207; 0xc4f531c4; 0x22a88a22;
  0x9631a796; 0x37f9ce37; 0xed977aed; 0xf649bff6;
  0xb4992db4; 0xd1a475d1; 0x4390d343; 0x485a1248;
  0xe258bae2; 0x9771e697; 0xd264b6d2; 0xc270b2c2;
  0x26ad8b26; 0xa5cd68a5; 0x5ecb955e; 0x29624b29;
  0x303c0c30; 0x5ace945a; 0xddab76dd; 0xf9867ff9;
  0x95f16495; 0xe65dbbe6; 0xc735f2c7; 0x242d0924;
  0x17d1c617; 0xb9d66fb9; 0x1bdec51b; 0x12948612;
  0x60781860; 0xc330f3c3; 0xf5897cf5; 0xb35cefb3;
  0xe8d23ae8; 0x73acdf73; 0x35794c35; 0x80a02080;
  0xe59d78e5; 0xbb56edbb; 0x7d235e7d; 0xf8c63ef8;
  0x5f8bd45f; 0x2fe7c82f; 0xe4dd39e4; 0x21684921].

(** The table of [L32(S[i] << 8)]. *)
Definition T2 : list Z := [
  0x5b5b8ed5; 0x4242d092; 0xa7a74dea; 0xfbfb06fd;
  0x3333fccf; 0x878765e2; 0xf4f4c93d; 0xdede6bb5;
  0x58584e16; 0xdada6eb4; 0x50504414; 0x0b0bcac1;
  0xa0a08828; 0xefef17f8; 0xb0b09c2c; 0x14141105;
  0xacac872b; 0x9d9dfb66; 0x6a6af298; 0xd9d9ae77;
  0xa8a8822a; 0xfafa46bc; 0x10101404; 0x0f0fcfc0;
  0xaaaa02a8; 0x11115445; 0x4c4c5f13; 0x9898be26;
  0x25256d48; 0x1a1a9e84; 0x18181e06; 0x6666fd9b;
  0x7272ec9e; 0x09094a43; 0x41411051; 0xd3d324f7;
  0x4646d593; 0xbfbf53ec; 0x6262f89a; 0xe9e9927b;
  0xccccff33; 0x51510455; 0x2c2c270b; 0x0d0d4f42;
  0xb7b759ee; 0x3f3ff3cc; 0xb2b21cae; 0x8989ea63;
  0x939374e7; 0xcece7fb1; 0x70706c1c; 0xa6a60dab;
  0x2727edca; 0x20202808; 0xa3a348eb; 0x5656c197;
  0x02028082; 0x7f7fa3dc; 0x5252c496; 0xebeb12f9;
  0xd5d5a174; 0x3e3eb38d; 0xfcfcc33f; 0x9a9a3ea4;
  0x1d1d5b46; 0x1c1c1b07; 0x9e9e3ba5; 0xf3f30cff;
  0xcfcf3ff0; 0xcdcdbf72; 0x5c5c4b17; 0xeaea52b8;
  0x0e0e8f81; 0x65653d58; 0xf0f0cc3c; 0x64647d19;
  0x9b9b7ee5; 0x16169187; 0x3d3d734e; 0xa2a208aa;
  0xa1a1c869; 0xadadc76a; 0x06068583; 0xcaca7ab0;
  0xc5c5b570; 0x9191f465; 0x6b6bb2d9; 0x2e2ea789;
  0xe3e318fb; 0xafaf47e8; 0x3c3c330f; 0x2d2d674a;
  0xc1c1b071; 0x59590e57; 0x7676e99f; 0xd4d4e135;
  0x7878661e; 0x9090b424; 0x3838360e; 0x7979265f;
  0x8d8def62; 0x61613859; 0x474795d2; 0x8a8a2aa0;
  0x9494b125; 0x8888aa22; 0xf1f18c7d; 0xececd73b;
  0x04040501; 0x8484a521; 0xe1e19879; 0x1e1e9b85;
  0x535384d7; 0x00000000; 0x19195e47; 0x5d5d0b56;
  0x7e7ee39d; 0x4f4f9fd0; 0x9c9cbb27; 0x49491a53;
  0x31317c4d; 0xd8d8ee36; 0x08080a02; 0x9f9f7be4;
  0x828220a2; 0x1313d4c7; 0x2323e8cb; 0x7a7ae69c;
  0xabab42e9; 0xfefe43bd; 0x2a2aa288; 0x4b4b9ad1;
  0x01014041; 0x1f1fdbc4; 0xe0e0d838; 0xd6d661b7;
  0x8e8e2fa1; 0xdfdf2bf4; 0xcbcb3af1; 0x3b3bf6cd;
  0xe7e71dfa; 0x8585e560; 0x54544115; 0x868625a3;
  0x838360e3; 0xbaba16ac; 0x7575295c; 0x929234a6;
  0x6e6ef799; 0xd0d0e434; 0x6868721a; 0x55550154;
  0xb6b619af; 0x4e4edf91; 0xc8c8fa32; 0xc0c0f030;
  0xd7d721f6; 0x3232bc8e; 0xc6c675b3; 0x8f8f6fe0;
  0x7474691d; 0xdbdb2ef5; 0x8b8b6ae1; 0xb8b8962e;
  0x0a0a8a80; 0x9999fe67; 0x2b2be2c9; 0x8181e061;
  0x0303c0c3; 0xa4a48d29; 0x8c8caf23; 0xaeae07a9;
  0x3434390d; 0x4d4d1f52; 0x3939764f; 0xbdbdd36e;
  0x575781d6; 0x6f6fb7d8; 0xdcdceb37; 0x15155144;
  0x7b7ba6dd; 0xf7f709fe; 0x3a3ab68c; 0xbcbc932f;
  0x0c0c0f03; 0xffff03fc; 0xa9a9c26b; 0xc9c9ba73;
  0xb5b5d96c; 0xb1b1dc6d; 0x6d6d375a; 0x45451550;
  0x3636b98f; 0x6c6c771b; 0xbebe13ad; 0x4a4ada90;
  0xeeee57b9; 0x7777a9de; 0xf2f24cbe; 0xfdfd837e;
  0x44445511; 0x6767bdda; 0x71712c5d; 0x05054540;
  0x7c7c631f; 0x40405010; 0x6969325b; 0x6363b8db;
  0x2828220a; 0x0707c5c2; 0xc4c4f531; 0x2222a88a;
  0x969631a7; 0x3737f9ce; 0xeded977a; 0xf6f649bf;
  0xb4b4992d; 0xd1d1a475; 0x434390d3; 0x48485a12;
  0xe2e258ba; 0x979771e6; 0xd2d264b6; 0xc2c270b2;
  0x2626ad8b; 0xa5a5cd68; 0x5e5ecb95; 0x2929624b;
  0x30303c0c; 0x5a5ace94; 0xddddab76; 0xf9f9867f;
  0x9595f164; 0xe6e65dbb; 0xc7c735f2; 0x24242d09;
  0x1717d1c6; 0xb9b9d66f; 0x1b1bdec5; 0x12129486;
  0x60607818; 0xc3c330f3; 0xf5f5897c; 0xb3b35cef;
  0xe8e8d23a; 0x7373acdf; 0x3535794c; 0x8080a020;
  0xe5e59d78; 0xbbbb56ed; 0x7d7d235e; 0xf8f8c63e;
  0x5f5f8bd4; 0x2f2fe7c8; 0xe4e4dd39; 0x21216849].

(** The table of [L32(S[i])]. *)
Definition T3 : list Z := [
  0xd55b5b8e; 0x924242d0; 0xeaa7a74d; 0xfdfbfb06;
  0xcf3333fc; 0xe2878765; 0x3df4f4c9; 0xb5dede6b;
  0x1658584e; 0xb4dada6e; 0x14505044; 0xc10b0bca;
  0x28a0a088; 0xf8efef17; 0x2cb0b09c; 0x05141411;
  0x2bacac87; 0x669d9dfb; 0x986a6af2; 0x77d9d9ae;
  0x2aa8a882; 0xbcfafa46; 0x04101014; 0xc00f0fcf;
  0xa8aaaa02; 0x45111154; 0x134c4c5f; 0x269898be;
  0x4825256d; 0x841a1a9e; 0x0618181e; 0x9b6666fd;
  0x9e7272ec; 0x4309094a; 0x51414110; 0xf7d3d324;
  0x934646d5; 0xecbfbf53; 0x9a6262f8; 0x7be9e992;
  0x33ccccff; 0x55515104; 0x0b2c2c27; 0x420d0d4f;
  0xeeb7b759; 0xcc3f3ff3; 0xaeb2b21c; 0x638989ea;
  0xe7939374; 0xb1cece7f; 0x1c70706c; 0xaba6a60d;
  0xca2727ed; 0x08202028; 0xeba3a348; 0x975656c1;
  0x82020280; 0xdc7f7fa3; 0x965252c4; 0xf9ebeb12;
  0x74d5d5a1; 0x8d3e3eb3; 0x3ffcfcc3; 0xa49a9a3e;
  0x461d1d5b; 0x071c1c1b; 0xa59e9e3b; 0xfff3f30c;
  0xf0cfcf3f; 0x72cdcdbf; 0x175c5c4b; 0xb8eaea52;
  0x810e0e8f; 0x5865653d; 0x3cf0f0cc; 0x1964647d;
  0xe59b9b7e; 0x87161691; 0x4e3d3d73; 0xaaa2a208;
  0x69a1a1c8; 0x6aadadc7; 0x83060685; 0xb0caca7a;
  0x70c5c5b5; 0x659191f4; 0xd96b6bb2; 0x892e2ea7;
  0xfbe3e318; 0xe8afaf47; 0x0f3c3c33; 0x4a2d2d67;
  0x71c1c1b0; 0x5759590e; 0x9f7676e9; 0x35d4d4e1;
  0x1e787866; 0x249090b4; 0x0e383836; 0x5f797926;
  0x628d8def; 0x59616138; 0xd2474795; 0xa08a8a2a;
  0x259494b1; 0x228888aa; 0x7df1f18c; 0x3bececd7;
  0x01040405; 0x218484a5; 0x79e1e198; 0x851e1e9b;
  0xd7535384; 0x00000000; 0x4719195e; 0x565d5d0b;
  0x9d7e7ee3; 0xd04f4f9f; 0x279c9cbb; 0x5349491a;
  0x4d31317c; 0x36d8d8ee; 0x0208080a; 0xe49f9f7b;
  0xa2828220; 0xc71313d4; 0xcb2323e8; 0x9c7a7ae6;
  0xe9abab42; 0xbdfefe43; 0x882a2aa2; 0xd14b4b9a;
  0x41010140; 0xc41f1fdb; 0x38e0e0d8; 0xb7d6d661;
  0xa18e8e2f; 0xf4dfdf2b; 0xf1cbcb3a; 0xcd3b3bf6;
  0xfae7e71d; 0x608585e5; 0x15545441; 0xa3868625;
  0xe3838360; 0xacbaba16; 0x5c757529; 0xa6929234;
  0x996e6ef7; 0x34d0d0e4; 0x1a686872; 0x54555501;
  0xafb6b619; 0x914e4edf; 0x32c8c8fa; 0x30c0c0f0;
  0xf6d7d721; 0x8e3232bc; 0xb3c6c675; 0xe08f8f6f;
  0x1d747469; 0xf5dbdb2e; 0xe18b8b6a; 0x2eb8b896;
  0x800a0a8a; 0x679999fe; 0xc92b2be2; 0x618181e0;
  0xc30303c0; 0x29a4a48d; 0x238c8caf; 0xa9aeae07;
  0x0d343439; 0x524d4d1f; 0x4f393976; 0x6ebdbdd3;
  0xd6575781; 0xd86f6fb7; 0x37dcdceb; 0x44151551;
  0xdd7b7ba6; 0xfef7f709; 0x8c3a3ab6; 0x2fbcbc93;
  0x030c0c0f; 0xfcffff03; 0x6ba9a9c2; 0x73c9c9ba;
  0x6cb5b5d9; 0x6db1b1dc; 0x5a6d6d37; 0x50454515;
  0x8f3636b9; 0x1b6c6c77; 0xadbebe13; 0x904a4ada;
  0xb9eeee57; 0xde7777a9; 0xbef2f24c; 0x7efdfd83;
  0x11444455; 0xda6767bd; 0x5d71712c; 0x40050545;
  0x1f7c7c63; 0x10404050; 0x5b696932; 0xdb6363b8;
  0x0a282822; 0xc20707c5; 0x31c4c4f5; 0x8a2222a8;
  0xa7969631; 0xce3737f9; 0x7aeded97; 0xbff6f649;
  0x2db4b499; 0x75d1d1a4; 0xd3434390; 0x1248485a;
  0xbae2e258; 0xe6979771; 0xb6d2d264; 0xb2c2c270;
  0x8b2626ad; 0x68a5a5cd; 0x955e5ecb; 0x4b292962;
  0x0c30303c; 0x945a5ace; 0x76ddddab; 0x7ff9f986;
  0x649595f1; 0xbbe6e65d; 0xf2c7c735; 0x0924242d;
  0xc61717d1; 0x6fb9b9d6; 0xc51b1bde; 0x86121294;
  0x18606078; 0xf3c3c330; 0x7cf5f589; 0xefb3b35c;
  0x3ae8e8d2; 0xdf7373ac; 0x4c353579; 0x208080a0;
  0x78e5e59d; 0xedbbbb56; 0x5e7d7d23; 0x3ef8f8c6;
  0xd45f5f8b; 0xc82f2fe7; 0x39e4e4dd; 0x49212168].

(** Reading a table; every index the code uses is a byte. *)
Definition tbl (t : list Z) (i : Z) : Z := nth (Z.to_nat i) t 0.

(** ** Endianness macros: gmssl/endian.h *)

Definition ROL32 (a n : Z) : Z :=
  Z.lor (u32 (Z.shiftl a n)) (Z.shiftr (Z.land a 0xffffffff) (32 - n)).

Definition byte_at (p : list Z) (i : nat) : Z := nth i p 0.

Definition GETU32 (p : list Z) : Z :=
  Z.lor (Z.lor (Z.lor (Z.shiftl (byte_at p 0) 24) (Z.shiftl (byte_at p 1) 16))
               (Z.shiftl (byte_at p 2) 8))
        (byte_at p 3).

Definition GETU64 (p : list Z) : Z :=
  Z.lor (Z.lor (Z.lor (Z.lor (Z.lor (Z.lor (Z.lor
    (Z.shiftl (byte_at p 0) 56) (Z.shiftl (byte_at p 1) 48))
    (Z.shiftl (byte_at p 2) 40)) (Z.shiftl (byte_at p 3) 32))
    (Z.shiftl (byte_at p 4) 24)) (Z.shiftl (byte_at p 5) 16))
    (Z.shiftl (byte_at p 6) 8)) (byte_at p 7).

(** The four bytes [PUTU32] writes. *)
Definition PUTU32 (v : Z) : list Z :=
  [u8 (Z.shiftr v 24); u8 (Z.shiftr v 16); u8 (Z.shiftr v 8); u8 v].

(** The eight bytes [PUTU64] writes. *)
Definition PUTU64 (v : Z) : list Z :=
  [u8 (Z.shiftr v 56); u8 (Z.shiftr v 48); u8 (Z.shiftr v 40); u8 (Z.shiftr v 32);
   u8 (Z.shiftr v 24); u8 (Z.shiftr v 16); u8 (Z.shiftr v 8); u8 v].

(** ** Round function *)

Definition L32 (x : Z) : Z :=
  Z.lxor (Z.lxor (Z.lxor (Z.lxor x (ROL32 x 2)) (ROL32 x 10)) (ROL32 x 18)) (ROL32 x 24).

Definition L32_ (x : Z) : Z := Z.lxor (Z.lxor x (ROL32 x 13)) (ROL32 x 23).

Definition S32 (a : Z) : Z :=
  Z.lor (Z.lor (Z.lor
    (Z.shiftl (tbl S_table (Z.shiftr a 24)) 24)
    (Z.shiftl (tbl S_table (Z.land (Z.shiftr a 16) 0xff)) 16))
    (Z.shiftl (tbl S_table (Z.land (Z.shiftr a 8) 0xff)) 8))
    (tbl S_table (Z.land a 0xff)).

(** ** Key schedule *)

(** [SM4_KEY]: the round keys. *)
Record SM4_KEY := { rk : list Z }.

Definition rk_at (key : SM4_KEY) (i : nat) : Z := nth i (rk key) 0.

(** Four words, the registers [X0] to [X3]. *)
Definition words : Type := (Z * Z * Z * Z)%type.

Definition key_init (user_key : list Z) : words :=
  (Z.lxor (GETU32 user_key) (nth 0 FK 0),
   Z.lxor (GETU32 (drop 4 user_key)) (nth 1 FK 0),
   Z.lxor (GETU32 (drop 8 user_key)) (nth 2 FK 0),
   Z.lxor (GETU32 (drop 12 user_key)) (nth 3 FK 0)).

(** One turn of the schedule's loop: the next round key. *)
Definition key_step (x : words) (i : nat) : Z :=
  let '(x0, x1, x2, x3) := x in
  let x4 := Z.lxor (Z.lxor (Z.lxor x1 x2) x3) (nth i CK 0) in
  let x4 := S32 x4 in
  Z.lxor x0 (L32_ x4).

Definition shift_in (x : words) (x4 : Z) : words :=
  let '(_, x1, x2, x3) := x in (x1, x2, x3, x4).

Fixpoint key_loop (n i : nat) (x : words) : list Z :=
  match n with
  | O => []
  | S n' => let x4 := key_step x i in x4 :: key_loop n' (S i) (shift_in x x4)
  end.

Arguments key_loop : simpl never.

Definition sm4_set_encrypt_key (user_key : list Z) : SM4_KEY :=
  {| rk := key_loop 32 0 (key_init user_key) |}.

(** The loop fills [rk[31 - i]]. *)
Definition sm4_set_decrypt_key (user_key : list Z) : SM4_KEY :=
  {| rk := reverse (key_loop 32 0 (key_init user_key)) |}.

(** ** The block cipher, small-footprint branch *)

Definition round_small (x : words) (k : Z) : Z :=
  let '(x0, x1, x2, x3) := x in
  let x4 := Z.lxor (Z.lxor (Z.lxor x1 x2) x3) k in
  let x4 := S32 x4 in
  Z.lxor x0 (L32 x4).

Definition rounds_small (x : words) (ks : list Z) : words :=
  fold_left (fun x k => shift_in x (round_small x k)) ks x.

Definition put_words (w0 w1 w2 w3 : Z) : list Z :=
  PUTU32 w0 ++ PUTU32 w1 ++ PUTU32 w2 ++ PUTU32 w3.

Definition get_words (p : list Z) : words :=
  (GETU32 p, GETU32 (drop 4 p), GETU32 (drop 8 p), GETU32 (drop 12 p)).

Module Small.
Definition sm4_encrypt (key : SM4_KEY) (inp : list Z) : list Z :=
let '(x0, x1, x2, x3) := rounds_small (get_words inp) (take 32 (rk key)) in
put_words x3 x2 x1 x0.

(** [ctr_incr], on the 16 bytes from the last one down. *)
Fixpoint incr_from_last (a : list Z) : list Z :=
match a with
| [] => []
| b :: a' => let b' := u8 (b + 1) in if b' =? 0 then b' :: incr_from_last a' else b' :: a'
end.

Definition ctr_incr (a : list Z) : list Z := reverse (incr_from_last (reverse a)).

Fixpoint sm4_ctr_encrypt_blocks (key : SM4_KEY) (ctr inp : list Z) (nblocks : nat)
: list Z * list Z :=
match nblocks with
| O => (ctr, [])
| S n =>
    let block := sm4_encrypt key ctr in
    let ctr := ctr_incr ctr in
    let out := zip_with Z.lxor (take 16 inp) block in
    let '(ctr, rest) := sm4_ctr_encrypt_blocks key ctr (drop 16 inp) n in
    (ctr, out ++ rest)
end.
End Small.

(** ** The block cipher as built *)

Definition ROUND (key : SM4_KEY) (i : nat) (x0 x1 x2 x3 : Z) : Z :=
  let x4 := Z.lxor (Z.lxor (Z.lxor x1 x2) x3) (rk_at key i) in
  Z.lxor (Z.lxor (Z.lxor (Z.lxor
    (tbl T0 (u8 (Z.shiftr x4 24)))
    (tbl T1 (u8 (Z.shiftr x4 16))))
    (tbl T2 (u8 (Z.shiftr x4 8))))
    (tbl T3 (u8 x4))) x0.

(** An assignment, kept as a redex so that the unrolled rounds stay shared. *)
Definition assign_to {A B : Type} (e : A) (k : A -> B) : B := k e.
Notation "'assign' x ':=' e 'in' k" := (assign_to e (fun x => k))
  (at level 10, x name, e at level 100, k at level 200).

(** The 32 rounds in the register assignment of the source; the result is the
    four words it writes, in the order of the output. *)
Definition rounds_unrolled (key : SM4_KEY) (x0 x1 x2 x3 : Z) : words :=
  assign x4 := ROUND key 0 x0 x1 x2 x3 in
  assign x0 := ROUND key 1 x1 x2 x3 x4 in
  assign x1 := ROUND key 2 x2 x3 x4 x0 in
  assign x2 := ROUND key 3 x3 x4 x0 x1 in
  assign x3 := ROUND key 4 x4 x0 x1 x2 in
  assign x4 := ROUND key 5 x0 x1 x2 x3 in
  assign x0 := ROUND key 6 x1 x2 x3 x4 in
  assign x1 := ROUND key 7 x2 x3 x4 x0 in
  assign x2 := ROUND key 8 x3 x4 x0 x1 in
  assign x3 := ROUND key 9 x4 x0 x1 x2 in
  assign x4 := ROUND key 10 x0 x1 x2 x3 in
  assign x0 := ROUND key 11 x1 x2 x3 x4 in
  assign x1 := ROUND key 12 x2 x3 x4 x0 in
  assign x2 := ROUND key 13 x3 x4 x0 x1 in
  assign x3 := ROUND key 14 x4 x0 x1 x2 in
  assign x4 := ROUND key 15 x0 x1 x2 x3 in
  assign x0 := ROUND key 16 x1 x2 x3 x4 in
  assign x1 := ROUND key 17 x2 x3 x4 x0 in
  assign x2 := ROUND key 18 x3 x4 x0 x1 in
  assign x3 := ROUND key 19 x4 x0 x1 x2 in
  assign x4 := ROUND key 20 x0 x1 x2 x3 in
  assign x0 := ROUND key 21 x1 x2 x3 x4 in
  assign x1 := ROUND key 22 x2 x3 x4 x0 in
  assign x2 := ROUND key 23 x3 x4 x0 x1 in
  assign x3 := ROUND key 24 x4 x0 x1 x2 in
  assign x4 := ROUND key 25 x0 x1 x2 x3 in
  assign x0 := ROUND key 26 x1 x2 x3 x4 in
  assign x1 := ROUND key 27 x2 x3 x4 x0 in
  assign x2 := ROUND key 28 x3 x4 x0 x1 in
  assign x3 := ROUND key 29 x4 x0 x1 x2 in
  assign x4 := ROUND key 30 x0 x1 x2 x3 in
  assign x0 := ROUND key 31 x1 x2 x3 x4 in
  (x0, x4, x3, x2).

Definition sm4_encrypt (key : SM4_KEY) (inp : list Z) : list Z :=
  let '(o0, o1, o2, o3) :=
    rounds_unrolled key (GETU32 inp) (GETU32 (drop 4 inp)) (GETU32 (drop 8 inp))
      (GETU32 (drop 12 inp)) in
  put_words o0 o1 o2 o3.

(** [sm4_ctr_encrypt_blocks]: the counter is kept as two 64-bit words. *)
Fixpoint ctr_blocks (key : SM4_KEY) (c0 c1 : Z) (inp : list Z) (nblocks : nat)
  : Z * Z * list Z :=
  match nblocks with
  | O => (c0, c1, [])
  | S n =>
      let x0 := u32 (Z.shiftr c0 32) in
      let x1 := u32 c0 in
      let x2 := u32 (Z.shiftr c1 32) in
      let x3 := u32 c1 in
      let d0 := GETU32 inp in
      let d1 := GETU32 (drop 4 inp) in
      let d2 := GETU32 (drop 8 inp) in
      let d3 := GETU32 (drop 12 inp) in
      let '(o0, o1, o2, o3) := rounds_unrolled key x0 x1 x2 x3 in
      let out := put_words (Z.lxor d0 o0) (Z.lxor d1 o1) (Z.lxor d2 o2) (Z.lxor d3 o3) in
      let c1 := u64 (c1 + 1) in
      let c0 := if c1 =? 0 then u64 (c0 + 1) else c0 in
      let '(c0, c1, rest) := ctr_blocks key c0 c1 (drop 16 inp) n in
      (c0, c1, out ++ rest)
  end.

Definition sm4_ctr_encrypt_blocks (key : SM4_KEY) (ctr inp : list Z) (nblocks : nat)
  : list Z * list Z :=
  let '(c0, c1, out) := ctr_blocks key (GETU64 ctr) (GETU64 (drop 8 ctr)) inp nblocks in
  (PUTU64 c0 ++ PUTU64 c1, out).

(** [sm4_ctr_encrypt]: whole blocks, then a padded last block of which only the
    needed bytes are kept.  Returns the counter afterwards and the output. *)
Definition sm4_ctr_encrypt (key : SM4_KEY) (ctr inp : list Z) : list Z * list Z :=
  let inlen := length inp in
  let '(ctr, out, inp) :=
    if (16 <=? inlen)%nat then
      let nblocks := (inlen / 16)%nat in
      let '(ctr, out) := sm4_ctr_encrypt_blocks key ctr inp nblocks in
      (ctr, out, drop (nblocks * 16) inp)
    else (ctr, [], inp) in
  match inp with
  | [] => (ctr, out)
  | _ =>
      let block := inp ++ replicate (16 - length inp) 0 in
      let '(ctr, block) := sm4_ctr_encrypt_blocks key ctr block 1 in
      (ctr, out ++ take (length inp) block)
  end.

Definition kat_key : list Z :=
  [0x01;0x23;0x45;0x67;0x89;0xab;0xcd;0xef;0xfe;0xdc;0xba;0x98;0x76;0x54;0x32;0x10].

(** ** Endianness *)

Lemma PUTU32_split v : PUTU32 v = reverse (le_split 4 v).
Proof. unfold PUTU32. simpl. by rewrite !Z.shiftr_shiftr by lia. Qed.

Lemma PUTU64_split v : PUTU64 v = reverse (le_split 8 v).
Proof. unfold PUTU64. simpl. by rewrite !Z.shiftr_shiftr by lia. Qed.

Lemma PUTU32_bytes v : bytes (PUTU32 v).
Proof. rewrite PUTU32_split. apply bytes_reverse, le_split_bytes. Qed.

Lemma PUTU64_bytes v : bytes (PUTU64 v).
Proof. rewrite PUTU64_split. apply bytes_reverse, le_split_bytes. Qed.

Ltac destruct_bytes H :=
  repeat match type of H with
  | Forall _ (_ :: _) => let H1 := fresh "Hb" in apply Forall_cons in H as [H1 H]
  end.

Lemma GETU32_value p q :
  length p = 4%nat -> bytes p -> GETU32 (p ++ q) = le_value (reverse p).
Proof.
  destruct p as [|b0 [|b1 [|b2 [|b3 [|]]]]]; try done. intros _ H. destruct_bytes H.
  unfold GETU32, byte_at, byte, in_range in *. simpl app. cbn [nth].
  change (reverse [b0; b1; b2; b3]) with [b3; b2; b1; b0]. simpl le_value.
  rewrite !Z.shiftl_mul_pow2 by lia.
  rewrite (lor_add 24 (b0 * 2 ^ 24)) by (unfold in_range; zlia).
  rewrite (lor_add 16 (_ + _)) by (unfold in_range; zlia).
  rewrite (lor_add 8 (_ + _)) by (unfold in_range; zlia). lia.
Qed.

Lemma GETU64_value p q :
  length p = 8%nat -> bytes p -> GETU64 (p ++ q) = le_value (reverse p).
Proof.
  destruct p as [|b0 [|b1 [|b2 [|b3 [|b4 [|b5 [|b6 [|b7 [|]]]]]]]]]; try done. intros _ H.
  destruct_bytes H.
  unfold GETU64, byte_at, byte, in_range in *. simpl app. cbn [nth].
  change (reverse [b0; b1; b2; b3; b4; b5; b6; b7]) with [b7; b6; b5; b4; b3; b2; b1; b0].
  simpl le_value. rewrite !Z.shiftl_mul_pow2 by lia.
  rewrite (lor_add 56 (b0 * 2 ^ 56)) by (unfold in_range; zlia).
  rewrite (lor_add 48 (_ + _)) by (unfold in_range; zlia).
  rewrite (lor_add 40 (_ + _)) by (unfold in_range; zlia).
  rewrite (lor_add 32 (_ + _)) by (unfold in_range; zlia).
  rewrite (lor_add 24 (_ + _)) by (unfold in_range; zlia).
  rewrite (lor_add 16 (_ + _)) by (unfold in_range; zlia).
  rewrite (lor_add 8 (_ + _)) by (unfold in_range; zlia). lia.
Qed.

Lemma GETU32_PUTU32 v q : in_range 32 v -> GETU32 (PUTU32 v ++ q) = v.
Proof.
  intros Hv. rewrite GETU32_value; [|done|apply PUTU32_bytes].
  rewrite PUTU32_split, reverse_involutive, le_value_split. by apply Z.mod_small.
Qed.

Lemma PUTU32_GETU32 p q : length p = 4%nat -> bytes p -> PUTU32 (GETU32 (p ++ q)) = p.
Proof.
  intros Hlen Hp. rewrite GETU32_value, PUTU32_split by done.
  replace 4%nat with (length (reverse p)) by (by rewrite length_reverse).
  rewrite le_split_value by (by apply bytes_reverse). apply reverse_involutive.
Qed.

Lemma GETU32_range p : bytes p -> in_range 32 (GETU32 p).
Proof.
  intros Hp. assert (Hn : forall i, byte (nth i p 0)).
  { intros i. destruct (nth_in_or_default i p 0) as [Hi| ->]; [|done].
    rewrite Forall_forall in Hp. apply Hp. by apply list_elem_of_In. }
  unfold GETU32, byte_at. pose proof (Hn 0%nat). pose proof (Hn 1%nat).
  pose proof (Hn 2%nat). pose proof (Hn 3%nat).
  repeat (apply lor_range; [done| |]).
  - by apply (shiftl_range 8 24).
  - apply (in_range_mono 24); [done|]. by apply (shiftl_range 8 16).
  - apply (in_range_mono 16); [done|]. by apply (shiftl_range 8 8).
  - by apply (in_range_mono 8).
Qed.

Lemma PUTU32_lxor a b : PUTU32 (Z.lxor a b) = xor_bytes (PUTU32 a) (PUTU32 b).
Proof. unfold PUTU32. simpl. by rewrite !Z.shiftr_lxor, !u8_lxor. Qed.

(** ** Linearity of the diffusion layer *)

Lemma ROL32_range a n : 0 < n < 32 -> in_range 32 (ROL32 a n).
Proof.
  intros Hn. unfold ROL32. apply lor_range; [done|by apply mod_range|].
  change 0xffffffff with (Z.ones 32). rewrite Z.land_ones by done.
  apply (in_range_mono (32 - (32 - n))); [lia|].
  apply shiftr_range; [lia|]. by apply mod_range.
Qed.

Lemma ROL32_lxor a b n : 0 < n < 32 -> ROL32 (Z.lxor a b) n = Z.lxor (ROL32 a n) (ROL32 b n).
Proof.
  intros Hn. unfold ROL32. change 0xffffffff with (Z.ones 32). rewrite !Z.land_ones by done.
  bits i. destruct (Z.ltb_spec i n).
  - rewrite !(Z.testbit_neg_r _ (i - n)) by lia. rewrite !andb_false_r. simpl.
    by destruct (i + (32 - n) <? 32), (Z.testbit a _), (Z.testbit b _).
  - rewrite (proj2 (Z.ltb_ge (i + (32 - n)) 32)) by lia. simpl. rewrite !orb_false_r.
    by destruct (i <? 32), (Z.testbit a _), (Z.testbit b _).
Qed.

Lemma L32_range x : in_range 32 x -> in_range 32 (L32 x).
Proof. intros. unfold L32. repeat (apply lxor_range; [done| |]); auto using ROL32_range with lia. all: by apply ROL32_range. Qed.

Lemma L32__range x : in_range 32 x -> in_range 32 (L32_ x).
Proof. intros. unfold L32_. repeat (apply lxor_range; [done| |]); try done. all: by apply ROL32_range. Qed.

Lemma L32_lxor a b : L32 (Z.lxor a b) = Z.lxor (L32 a) (L32 b).
Proof.
  unfold L32. rewrite !ROL32_lxor by lia. apply Z.bits_inj'. intros i _.
  rewrite !Z.lxor_spec. Btauto.btauto.
Qed.

(** ** The tables *)

Definition all_bytes (p : Z -> bool) : bool := forallb (fun n => p (Z.of_nat n)) (List.seq 0 256).

Lemma all_bytes_spec p : all_bytes p = true -> forall i, byte i -> p i = true.
Proof.
  unfold all_bytes. rewrite forallb_forall. intros H i [Hi1 Hi2].
  replace i with (Z.of_nat (Z.to_nat i)) by lia. apply H. apply in_seq. lia.
Qed.

Lemma S_range i : byte i -> byte (tbl S_table i).
Proof.
  intros Hi. pose proof (all_bytes_spec (fun i => (0 <=? tbl S_table i) && (tbl S_table i <? 256))) as H.
  specialize (H ltac:(vm_compute; reflexivity) i Hi). cbv beta in H. unfold byte, in_range. lia.
Qed.

Section Tables.
Variables (T : list Z) (n : Z).
Hypothesis Hn : 0 <= n <= 24.
Hypothesis HT :
  all_bytes (fun i => tbl T i =? L32 (Z.shiftl (tbl S_table i) n)) = true.

Lemma T_spec i : byte i -> tbl T i = L32 (Z.shiftl (tbl S_table i) n).
Proof. intros Hi. apply Z.eqb_eq. by apply (all_bytes_spec _ HT i). Qed.

Lemma T_range i : byte i -> in_range 32 (tbl T i).
Proof.
  intros Hi. rewrite T_spec by done. apply L32_range.
  apply (in_range_mono (8 + n)); [lia|]. apply shiftl_range; [lia|]. by apply S_range.
Qed.
End Tables.

Lemma T0_spec i : byte i -> tbl T0 i = L32 (Z.shiftl (tbl S_table i) 24).
Proof. apply T_spec. vm_compute. reflexivity. Qed.
Lemma T1_spec i : byte i -> tbl T1 i = L32 (Z.shiftl (tbl S_table i) 16).
Proof. apply T_spec. vm_compute. reflexivity. Qed.
Lemma T2_spec i : byte i -> tbl T2 i = L32 (Z.shiftl (tbl S_table i) 8).
Proof. apply T_spec. vm_compute. reflexivity. Qed.
Lemma T3_spec i : byte i -> tbl T3 i = L32 (tbl S_table i).
Proof.
  intros Hi. rewrite (T_spec T3 0); [by rewrite Z.shiftl_0_r| |done]. vm_compute. reflexivity.
Qed.

(** ** The round functions agree *)

Lemma lor_lxor n x y : 0 <= n -> x `mod` 2 ^ n = 0 -> in_range n y -> Z.lor x y = Z.lxor x y.
Proof.
  intros Hn Hx Hy. symmetry. apply Z.lxor_lor.
  pose proof (lor_add n x y Hn Hx Hy). pose proof (Z.add_lor_land x y). lia.
Qed.

Section S32.
Variable a : Z.
Hypothesis Ha : in_range 32 a.

Let b0 := u8 (Z.shiftr a 24).
Let b1 := u8 (Z.shiftr a 16).
Let b2 := u8 (Z.shiftr a 8).
Let b3 := u8 a.

Lemma land_ff z : Z.land z 0xff = u8 z.
Proof. change 0xff with (Z.ones 8). by rewrite Z.land_ones. Qed.

(** The bytes the S-box substitutes occupy disjoint bits. *)
Lemma S32_lxor :
  S32 a = Z.lxor (Z.lxor (Z.lxor (Z.shiftl (tbl S_table b0) 24) (Z.shiftl (tbl S_table b1) 16))
                         (Z.shiftl (tbl S_table b2) 8)) (tbl S_table b3).
Proof.
  unfold S32. rewrite !land_ff.
  replace (Z.shiftr a 24) with b0 by (apply u8_small; by apply (shiftr_range 32 24)).
  fold b1 b2 b3.
  assert (Hb : forall z, byte (tbl S_table (u8 z))) by (intros; apply S_range, mod_range; lia).
  pose proof (Hb (Z.shiftr a 24)) as H0. pose proof (Hb (Z.shiftr a 16)) as H1.
  pose proof (Hb (Z.shiftr a 8)) as H2. pose proof (Hb a) as H3.
  fold b0 in H0. fold b1 in H1. fold b2 in H2. fold b3 in H3.
  generalize dependent (tbl S_table b0). generalize dependent (tbl S_table b1).
  generalize dependent (tbl S_table b2). generalize dependent (tbl S_table b3).
  intros s3 H3 s2 H2 s1 H1 s0 H0. unfold byte, in_range in *.
  rewrite !Z.shiftl_mul_pow2 by lia.
  rewrite <- (lor_lxor 24 (s0 * 2 ^ 24)) by (unfold in_range; zlia).
  rewrite (lor_add 24 (s0 * 2 ^ 24)) by (unfold in_range; zlia).
  rewrite <- (lor_lxor 16 (_ + _)) by (unfold in_range; zlia).
  rewrite (lor_add 16 (_ + _)) by (unfold in_range; zlia).
  rewrite <- (lor_lxor 8 (_ + _)) by (unfold in_range; zlia).
  done.
Qed.
End S32.

Lemma S32_range a : in_range 32 a -> in_range 32 (S32 a).
Proof.
  intros Ha. rewrite S32_lxor by done.
  assert (Hb : forall z, byte (tbl S_table (u8 z))) by (intros; apply S_range, mod_range; lia).
  repeat (apply lxor_range; [done| |]).
  - apply (shiftl_range 8 24); [done|apply Hb].
  - apply (in_range_mono 24); [done|]. apply (shiftl_range 8 16); [done|apply Hb].
  - apply (in_range_mono 16); [done|]. apply (shiftl_range 8 8); [done|apply Hb].
  - apply (in_range_mono 8); [done|apply Hb].
Qed.

(** Table lookups compute the substitution followed by the diffusion. *)
Lemma tables_L32_S32 a :
  in_range 32 a ->
  Z.lxor (Z.lxor (Z.lxor (tbl T0 (u8 (Z.shiftr a 24))) (tbl T1 (u8 (Z.shiftr a 16))))
                 (tbl T2 (u8 (Z.shiftr a 8)))) (tbl T3 (u8 a)) = L32 (S32 a).
Proof.
  intros Ha. rewrite S32_lxor by done. rewrite !L32_lxor.
  rewrite T0_spec, T1_spec, T2_spec, T3_spec by (apply mod_range; lia). done.
Qed.

Definition words_ok (x : words) : Prop :=
  let '(x0, x1, x2, x3) := x in
  in_range 32 x0 /\ in_range 32 x1 /\ in_range 32 x2 /\ in_range 32 x3.

Definition key_ok (key : SM4_KEY) : Prop :=
  length (rk key) = 32%nat /\ Forall (in_range 32) (rk key).

Lemma rk_at_range key i : key_ok key -> in_range 32 (rk_at key i).
Proof.
  intros [_ H]. unfold rk_at. destruct (nth_in_or_default i (rk key) 0) as [Hi| ->]; [|done].
  rewrite Forall_forall in H. apply H. by apply list_elem_of_In.
Qed.

Lemma round_eq key i x0 x1 x2 x3 :
  key_ok key -> words_ok (x0, x1, x2, x3) ->
  ROUND key i x0 x1 x2 x3 = round_small (x0, x1, x2, x3) (rk_at key i).
Proof.
  intros Hk (H0 & H1 & H2 & H3). unfold ROUND, round_small. cbv zeta.
  rewrite tables_L32_S32; [apply Z.lxor_comm|].
  repeat (apply lxor_range; [done| |]); auto using rk_at_range.
Qed.

Lemma round_small_range x k : words_ok x -> in_range 32 k -> in_range 32 (round_small x k).
Proof.
  destruct x as [[[x0 x1] x2] x3]. intros (H0 & H1 & H2 & H3) Hk. unfold round_small.
  apply lxor_range; [done|done|]. apply L32_range, S32_range.
  by repeat (apply lxor_range; [done| |]).
Qed.

Lemma shift_in_ok x x4 : words_ok x -> in_range 32 x4 -> words_ok (shift_in x x4).
Proof. destruct x as [[[x0 x1] x2] x3]. intros (H0 & H1 & H2 & H3) H4. exact (conj H1 (conj H2 (conj H3 H4))). Qed.

(** ** The unrolled rounds are the loop *)

Lemma rounds_small_ok x ks : words_ok x -> Forall (in_range 32) ks -> words_ok (rounds_small x ks).
Proof.
  intros Hx Hks. revert x Hx. induction Hks as [|k ks Hk Hks IH]; intros x Hx; [done|].
  simpl. apply IH. by apply shift_in_ok; [|apply round_small_range].
Qed.

Definition rounds_indexed (key : SM4_KEY) (idx : list nat) (x : words) : words :=
  fold_left (fun x i => shift_in x (round_small x (rk_at key i))) idx x.

Lemma rounds_small_indexed key x :
  key_ok key -> rounds_small x (take 32 (rk key)) = rounds_indexed key (List.seq 0 32) x.
Proof.
  intros [Hlen _]. unfold rounds_indexed.
  rewrite take_ge by lia.
  replace (rk key) with (map (rk_at key) (List.seq 0 32)) at 1.
  { unfold rounds_small. generalize (List.seq 0 32) as l. intros l. revert x.
    induction l as [|i l IH]; intros x; simpl; [done|]. apply IH. }
  unfold rk_at. rewrite <- Hlen. generalize (rk key) as l. clear.
  induction l as [|a l IH]; simpl; [done|]. f_equal.
  by rewrite <- IH at 2; rewrite <- seq_shift, map_map.
Qed.

Definition out_order (x : words) : words := let '(x0, x1, x2, x3) := x in (x3, x2, x1, x0).

Lemma rounds_indexed_cons key i l x0 x1 x2 x3 :
  key_ok key -> words_ok (x0, x1, x2, x3) ->
  rounds_indexed key (i :: l) (x0, x1, x2, x3) =
  rounds_indexed key l (x1, x2, x3, ROUND key i x0 x1 x2 x3).
Proof. intros Hk Hx. by rewrite round_eq. Qed.

Lemma ROUND_range key i x0 x1 x2 x3 :
  key_ok key -> words_ok (x0, x1, x2, x3) -> in_range 32 (ROUND key i x0 x1 x2 x3).
Proof. intros. rewrite round_eq by done. by apply round_small_range; [|apply rk_at_range]. Qed.

Lemma assign_eq {A B : Type} (e : A) (f : A -> B) (r : B) :
  (forall x, x = e -> f x = r) -> assign_to e f = r.
Proof. intros H. by apply H. Qed.

Ltac unroll_round Hk :=
  apply assign_eq;
  let x := fresh "x" in let Hx := fresh "Hx" in let Hr := fresh "Hr" in
  intros x Hx; cbv beta;
  rewrite rounds_indexed_cons by done;
  rewrite <- Hx;
  assert (Hr : in_range 32 x) by (rewrite Hx; by apply ROUND_range);
  clear Hx.

Lemma rounds_unrolled_eq key x0 x1 x2 x3 :
  key_ok key -> words_ok (x0, x1, x2, x3) ->
  rounds_unrolled key x0 x1 x2 x3 =
  out_order (rounds_small (x0, x1, x2, x3) (take 32 (rk key))).
Proof.
  intros Hk (H0 & H1 & H2 & H3). rewrite rounds_small_indexed by done.
  cbn [List.seq]. cbv beta delta [rounds_unrolled].
  do 32 unroll_round Hk. done.
Qed.

#[local] Opaque rounds_unrolled.

(** ** Blocks *)

Lemma put_words_length w0 w1 w2 w3 : length (put_words w0 w1 w2 w3) = 16%nat.
Proof. done. Qed.

Lemma put_words_bytes w0 w1 w2 w3 : bytes (put_words w0 w1 w2 w3).
Proof. unfold put_words. rewrite !Forall_app. repeat split; apply PUTU32_bytes. Qed.

Lemma get_words_ok p : bytes p -> words_ok (get_words p).
Proof. intros Hp. refine (conj _ (conj _ (conj _ _))); auto using GETU32_range, Forall_drop. Qed.

Lemma get_put_words w0 w1 w2 w3 :
  words_ok (w0, w1, w2, w3) -> get_words (put_words w0 w1 w2 w3) = (w0, w1, w2, w3).
Proof.
  intros (H0 & H1 & H2 & H3). unfold get_words, put_words.
  rewrite GETU32_PUTU32 by done.
  change (drop 4 (PUTU32 w0 ++ ?q)) with q. rewrite GETU32_PUTU32 by done.
  change (drop 8 (PUTU32 w0 ++ PUTU32 w1 ++ ?q)) with q. rewrite GETU32_PUTU32 by done.
  change (drop 12 (PUTU32 w0 ++ PUTU32 w1 ++ PUTU32 w2 ++ ?q)) with q.
  rewrite <- (app_nil_r (PUTU32 w3)). by rewrite GETU32_PUTU32.
Qed.

(** A string of at least 16 bytes, byte by byte. *)
Lemma split16 (p : list Z) : (16 <= length p)%nat ->
  exists b0 b1 b2 b3 b4 b5 b6 b7 b8 b9 b10 b11 b12 b13 b14 b15 q,
    p = [b0; b1; b2; b3] ++ [b4; b5; b6; b7] ++ [b8; b9; b10; b11] ++ [b12; b13; b14; b15] ++ q.
Proof. intros H. do 16 (destruct p as [|? p]; simpl in H; [lia|]). by repeat eexists. Qed.

(** Exclusive or word by word is exclusive or byte by byte. *)
Lemma put_words_xor p w0 w1 w2 w3 :
  (16 <= length p)%nat -> bytes p ->
  put_words (Z.lxor (GETU32 p) w0) (Z.lxor (GETU32 (drop 4 p)) w1)
            (Z.lxor (GETU32 (drop 8 p)) w2) (Z.lxor (GETU32 (drop 12 p)) w3) =
  xor_bytes (take 16 p) (put_words w0 w1 w2 w3).
Proof.
  intros Hlen Hp.
  destruct (split16 p Hlen) as
    (b0 & b1 & b2 & b3 & b4 & b5 & b6 & b7 & b8 & b9 & b10 & b11 & b12 & b13 & b14 & b15 & q & ->).
  rewrite !Forall_app in Hp. destruct Hp as (H0 & H1 & H2 & H3 & _).
  unfold put_words. rewrite !PUTU32_lxor.
  change (drop 4 ([b0; b1; b2; b3] ++ ?r)) with r.
  change (drop 8 ([b0; b1; b2; b3] ++ [b4; b5; b6; b7] ++ ?r)) with r.
  change (drop 12 ([b0; b1; b2; b3] ++ [b4; b5; b6; b7] ++ [b8; b9; b10; b11] ++ ?r)) with r.
  by rewrite !PUTU32_GETU32.
Qed.

Lemma get_words_eq p :
  get_words p = (GETU32 p, GETU32 (drop 4 p), GETU32 (drop 8 p), GETU32 (drop 12 p)).
Proof. done. Qed.

Lemma sm4_encrypt_small key p :
  key_ok key -> bytes p -> sm4_encrypt key p = Small.sm4_encrypt key p.
Proof.
  intros Hk Hp. unfold sm4_encrypt, Small.sm4_encrypt. rewrite rounds_unrolled_eq; [|done|].
  - rewrite <- get_words_eq. by destruct (rounds_small _ _) as [[[x0 x1] x2] x3].
  - by apply get_words_ok.
Qed.

Lemma sm4_encrypt_shape key p :
  length (sm4_encrypt key p) = 16%nat /\ bytes (sm4_encrypt key p).
Proof.
  unfold sm4_encrypt. destruct (rounds_unrolled _ _ _ _ _) as [[[o0 o1] o2] o3].
  split; [apply put_words_length|apply put_words_bytes].
Qed.

(** ** Key schedule *)

Lemma table_range (t : list Z) (n : Z) i :
  forallb (fun v => (0 <=? v) && (v <? 2 ^ n)) t = true -> 0 <= n -> in_range n (nth i t 0).
Proof.
  intros Ht Hn. destruct (nth_in_or_default i t 0) as [Hi| ->]; [|split; lia].
  rewrite forallb_forall in Ht. specialize (Ht _ Hi). unfold in_range. lia.
Qed.

Lemma key_init_ok uk : bytes uk -> words_ok (key_init uk).
Proof.
  intros H. assert (HFK : forall i, in_range 32 (nth i FK 0)).
  { intros i. apply table_range; [vm_compute; reflexivity|done]. }
  refine (conj _ (conj _ (conj _ _))); apply lxor_range; auto using GETU32_range, Forall_drop with lia.
Qed.

Lemma key_step_range x i : words_ok x -> in_range 32 (key_step x i).
Proof.
  destruct x as [[[x0 x1] x2] x3]. intros (H0 & H1 & H2 & H3). unfold key_step.
  apply lxor_range; [done|done|]. apply L32__range, S32_range.
  repeat (apply lxor_range; [done| |]); try done.
  apply table_range; [vm_compute; reflexivity|done].
Qed.

Lemma key_loop_ok n i x :
  words_ok x -> length (key_loop n i x) = n /\ Forall (in_range 32) (key_loop n i x).
Proof.
  revert i x. induction n as [|n IH]; intros i x Hx; simpl; [by split; constructor|].
  assert (Hs : in_range 32 (key_step x i)) by (by apply key_step_range).
  destruct (IH (S i) (shift_in x (key_step x i))) as [Hl HF]; [by apply shift_in_ok|].
  split; [by rewrite Hl|by constructor].
Qed.

Lemma sm4_set_encrypt_key_ok uk : bytes uk -> key_ok (sm4_set_encrypt_key uk).
Proof. intros H. exact (key_loop_ok 32 0 _ (key_init_ok uk H)). Qed.

Lemma decrypt_key_reverse uk :
  rk (sm4_set_decrypt_key uk) = reverse (rk (sm4_set_encrypt_key uk)).
Proof. cbn [rk sm4_set_decrypt_key sm4_set_encrypt_key]. reflexivity. Qed.

Lemma sm4_set_decrypt_key_ok uk : bytes uk -> key_ok (sm4_set_decrypt_key uk).
Proof.
  intros H. destruct (key_loop_ok 32 0 _ (key_init_ok uk H)) as [Hl HF].
  split; cbn [rk sm4_set_decrypt_key].
  - by rewrite length_reverse.
  - by apply Forall_reverse.
Qed.

(** ** Invertibility: the reversed key schedule undoes the rounds *)

Lemma round_undo x k :
  shift_in (out_order (shift_in x (round_small x k)))
           (round_small (out_order (shift_in x (round_small x k))) k) = out_order x.
Proof.
  destruct x as [[[x0 x1] x2] x3]. unfold out_order, shift_in, round_small. f_equal.
  rewrite (Z.lxor_comm (Z.lxor x3 x2)), (Z.lxor_comm x3 x2), <- !Z.lxor_assoc.
  by rewrite Z.lxor_assoc, Z.lxor_nilpotent, Z.lxor_0_r.
Qed.

Lemma rounds_undo x ks :
  rounds_small (out_order (rounds_small x ks)) (reverse ks) = out_order x.
Proof.
  revert x. induction ks as [|k ks IH]; intros x; [done|].
  rewrite reverse_cons. unfold rounds_small in *. simpl. rewrite fold_left_app. simpl.
  rewrite IH. apply round_undo.
Qed.

(** ** Counter mode

    The specification: the [i]-th block of key stream is the encryption of the
    128-bit big-endian number [v + i], and the output is the exclusive or of the
    input with that stream. *)

Definition ctr_bytes (v : Z) : list Z := reverse (le_split 16 v).
Definition ctr_value (ctr : list Z) : Z := le_value (reverse ctr).
Definition ctr_next (v : Z) : Z := (v + 1) `mod` 2 ^ 128.

Fixpoint keystream (key : SM4_KEY) (v : Z) (nblocks : nat) : list Z :=
  match nblocks with
  | O => []
  | S n => sm4_encrypt key (ctr_bytes v) ++ keystream key (ctr_next v) n
  end.

Lemma le_split_app n m v :
  le_split (n + m) v = le_split n v ++ le_split m (Z.shiftr v (8 * Z.of_nat n)).
Proof.
  revert v. induction n as [|n IH]; intros v; simpl; [by rewrite Z.shiftr_0_r|].
  f_equal. rewrite IH, Z.shiftr_shiftr by lia. do 3 f_equal. lia.
Qed.

Lemma ctr_bytes_words v :
  ctr_bytes v = put_words (Z.shiftr v 96) (Z.shiftr v 64) (Z.shiftr v 32) v.
Proof.
  unfold ctr_bytes, put_words. rewrite !PUTU32_split.
  rewrite (le_split_app 4 12), (le_split_app 4 8), (le_split_app 4 4).
  rewrite !Z.shiftr_shiftr by lia. rewrite !reverse_app, <- !app_assoc. done.
Qed.

Lemma PUTU32_u32 v : PUTU32 (u32 v) = PUTU32 v.
Proof.
  unfold PUTU32. f_equal; [|f_equal; [|f_equal; [|f_equal]]];
    bits i; destruct (Z.ltb_spec i 8); try done; simpl;
    by rewrite (proj2 (Z.ltb_lt _ 32)) by lia.
Qed.

Lemma sm4_encrypt_words key p :
  sm4_encrypt key p =
  let '(x0, x1, x2, x3) := get_words p in
  let '(o0, o1, o2, o3) := rounds_unrolled key x0 x1 x2 x3 in
  put_words o0 o1 o2 o3.
Proof. unfold sm4_encrypt, get_words. reflexivity. Qed.

Lemma sm4_encrypt_ctr key v :
  sm4_encrypt key (ctr_bytes v) =
  let '(o0, o1, o2, o3) :=
    rounds_unrolled key (u32 (Z.shiftr v 96)) (u32 (Z.shiftr v 64)) (u32 (Z.shiftr v 32)) (u32 v) in
  put_words o0 o1 o2 o3.
Proof.
  assert (E : ctr_bytes v =
    put_words (u32 (Z.shiftr v 96)) (u32 (Z.shiftr v 64)) (u32 (Z.shiftr v 32)) (u32 v)).
  { rewrite ctr_bytes_words. unfold put_words. by rewrite !PUTU32_u32. }
  rewrite E, sm4_encrypt_words, get_put_words; [done|].
  refine (conj _ (conj _ (conj _ _))); by apply mod_range.
Qed.

Definition pair_value (c0 c1 : Z) : Z := c0 * 2 ^ 64 + c1.

Section Pair.
Variables c0 c1 : Z.
Hypothesis H0 : in_range 64 c0.
Hypothesis H1 : in_range 64 c1.

Lemma pair_words :
  u32 (Z.shiftr (pair_value c0 c1) 96) = u32 (Z.shiftr c0 32) /\
  u32 (Z.shiftr (pair_value c0 c1) 64) = u32 c0 /\
  u32 (Z.shiftr (pair_value c0 c1) 32) = u32 (Z.shiftr c1 32) /\
  u32 (pair_value c0 c1) = u32 c1.
Proof.
  unfold pair_value, u32, in_range in *. rewrite !Z.shiftr_div_pow2 by lia.
  repeat split; zlia.
Qed.

Lemma pair_next :
  let c1' := u64 (c1 + 1) in
  let c0' := if c1' =? 0 then u64 (c0 + 1) else c0 in
  in_range 64 c0' /\ in_range 64 c1' /\ pair_value c0' c1' = ctr_next (pair_value c0 c1).
Proof.
  cbv zeta. unfold pair_value, ctr_next, u64, in_range in *.
  destruct (Z.eqb_spec ((c1 + 1) `mod` 2 ^ 64) 0); zlia.
Qed.
End Pair.

Lemma ctr_value_range ctr : length ctr = 16%nat -> bytes ctr -> in_range 128 (ctr_value ctr).
Proof.
  intros Hl Hb. pose proof (le_value_range (reverse ctr) (bytes_reverse _ Hb)) as H.
  by rewrite length_reverse, Hl in H.
Qed.

(** Every 16-byte counter is the two words the code reads. *)
Lemma ctr_pair ctr :
  length ctr = 16%nat -> bytes ctr ->
  in_range 64 (GETU64 ctr) /\ in_range 64 (GETU64 (drop 8 ctr)) /\
  pair_value (GETU64 ctr) (GETU64 (drop 8 ctr)) = ctr_value ctr.
Proof.
  intros Hl Hb. rewrite <- (take_drop 8 ctr) in Hb. apply Forall_app in Hb as [Ha Hd].
  assert (La : length (take 8 ctr) = 8%nat) by (rewrite length_take; lia).
  assert (Ld : length (drop 8 ctr) = 8%nat) by (rewrite length_drop; lia).
  assert (E0 : GETU64 ctr = le_value (reverse (take 8 ctr))).
  { rewrite <- (take_drop 8 ctr) at 1. by apply GETU64_value. }
  assert (E1 : GETU64 (drop 8 ctr) = le_value (reverse (drop 8 ctr))).
  { rewrite <- (app_nil_r (drop 8 ctr)) at 1. by apply GETU64_value. }
  rewrite E0, E1.
  pose proof (le_value_range _ (bytes_reverse _ Ha)) as R0.
  pose proof (le_value_range _ (bytes_reverse _ Hd)) as R1.
  rewrite length_reverse, La in R0. rewrite length_reverse, Ld in R1.
  split; [done|]. split; [done|].
  unfold pair_value, ctr_value. rewrite <- (take_drop 8 ctr) at 3.
  rewrite reverse_app, le_value_app, length_reverse, Ld. change (8 * Z.of_nat 8) with 64. ring.
Qed.

Lemma GETU64_PUTU64 v q : in_range 64 v -> GETU64 (PUTU64 v ++ q) = v.
Proof.
  intros Hv. rewrite GETU64_value; [|done|apply PUTU64_bytes].
  rewrite PUTU64_split, reverse_involutive, le_value_split. by apply Z.mod_small.
Qed.

Fixpoint ctr_advance (v : Z) (n : nat) : Z :=
  match n with O => v | S n' => ctr_advance (ctr_next v) n' end.

Lemma ctr_blocks_spec key c0 c1 p n :
  in_range 64 c0 -> in_range 64 c1 -> bytes p -> (16 * n <= length p)%nat ->
  exists c0' c1', in_range 64 c0' /\ in_range 64 c1' /\
    pair_value c0' c1' = ctr_advance (pair_value c0 c1) n /\
    ctr_blocks key c0 c1 p n =
    (c0', c1', xor_bytes (take (16 * n) p) (keystream key (pair_value c0 c1) n)).
Proof.
  revert c0 c1 p. induction n as [|n IH]; intros c0 c1 p R0 R1 Hp Hlen.
  { by exists c0, c1. }
  destruct (pair_next c0 c1 R0 R1) as (R0' & R1' & Hv). cbv zeta in R0', R1', Hv.
  destruct (pair_words c0 c1 R0 R1) as (E0 & E1 & E2 & E3).
  cbn [ctr_blocks keystream ctr_advance]. rewrite sm4_encrypt_ctr, E0, E1, E2, E3.
  destruct (rounds_unrolled _ _ _ _ _) as [[[o0 o1] o2] o3] eqn:E. cbv zeta.
  set (c1' := u64 (c1 + 1)) in *.
  set (c0' := if c1' =? 0 then u64 (c0 + 1) else c0) in *.
  destruct (IH c0' c1' (drop 16 p) R0' R1') as (d0 & d1 & S0 & S1 & Sv & Sb);
    [by apply Forall_drop|rewrite length_drop; lia|].
  exists d0, d1. split; [done|]. split; [done|]. rewrite Sb, Sv, Hv. split; [done|].
  assert (Hl16 : (16 <= length p)%nat) by lia.
  rewrite (put_words_xor p o0 o1 o2 o3 Hl16 Hp).
  apply f_equal. rewrite <- zip_with_app; [|rewrite length_take, put_words_length; lia].
  f_equal. replace (16 * S n)%nat with (16 + 16 * n)%nat by lia.
  by rewrite take_take_drop.
Qed.

Lemma keystream_length key v n : length (keystream key v n) = (16 * n)%nat.
Proof.
  revert v. induction n as [|n IH]; intros v; [done|]. cbn [keystream].
  rewrite length_app, IH, (proj1 (sm4_encrypt_shape _ _)). lia.
Qed.

Lemma keystream_bytes key v n : bytes (keystream key v n).
Proof.
  revert v. induction n as [|n IH]; intros v; [constructor|]. cbn [keystream].
  apply Forall_app. split; [apply sm4_encrypt_shape|apply IH].
Qed.

Lemma keystream_app key v n m :
  keystream key v (n + m) = keystream key v n ++ keystream key (ctr_advance v n) m.
Proof.
  revert v. induction n as [|n IH]; intros v; [done|]. cbn [keystream ctr_advance Nat.add].
  by rewrite IH, app_assoc.
Qed.

Lemma ctr_bytes_shape v : length (ctr_bytes v) = 16%nat /\ bytes (ctr_bytes v).
Proof.
  unfold ctr_bytes. split; [by rewrite length_reverse, le_split_length|].
  apply bytes_reverse, le_split_bytes.
Qed.

Lemma ctr_value_bytes v : in_range 128 v -> ctr_value (ctr_bytes v) = v.
Proof.
  intros Hv. unfold ctr_value, ctr_bytes. rewrite reverse_involutive, le_value_split.
  by apply Z.mod_small.
Qed.

Lemma ctr_bytes_value ctr : length ctr = 16%nat -> bytes ctr -> ctr_bytes (ctr_value ctr) = ctr.
Proof.
  intros Hl Hb. unfold ctr_bytes, ctr_value.
  replace 16%nat with (length (reverse ctr)) by (by rewrite length_reverse).
  rewrite le_split_value by (by apply bytes_reverse). apply reverse_involutive.
Qed.

Lemma ctr_bytes_pair c0 c1 :
  in_range 64 c0 -> in_range 64 c1 -> ctr_bytes (pair_value c0 c1) = PUTU64 c0 ++ PUTU64 c1.
Proof.
  intros H0 H1. unfold ctr_bytes. rewrite (le_split_app 8 8), reverse_app, !PUTU64_split.
  unfold pair_value, in_range in *. rewrite Z.shiftr_div_pow2 by lia.
  replace ((c0 * 2 ^ 64 + c1) / 2 ^ (8 * Z.of_nat 8)) with c0 by (change (8 * Z.of_nat 8) with 64; zlia).
  f_equal. f_equal. apply le_value_inj; [apply le_split_bytes|apply le_split_bytes|done|].
  rewrite !le_value_split. change (8 * Z.of_nat 8) with 64. zlia.
Qed.

Lemma ctr_advance_range v n : in_range 128 v -> in_range 128 (ctr_advance v n).
Proof.
  revert v. induction n as [|n IH]; intros v Hv; [done|]. apply IH. by apply mod_range.
Qed.

Lemma blocks_spec key ctr p n :
  length ctr = 16%nat -> bytes ctr -> bytes p -> (16 * n <= length p)%nat ->
  sm4_ctr_encrypt_blocks key ctr p n =
  (ctr_bytes (ctr_advance (ctr_value ctr) n),
   xor_bytes (take (16 * n) p) (keystream key (ctr_value ctr) n)).
Proof.
  intros Hl Hb Hp Hlen. destruct (ctr_pair ctr Hl Hb) as (R0 & R1 & Hv).
  destruct (ctr_blocks_spec key _ _ p n R0 R1 Hp Hlen) as (c0 & c1 & S0 & S1 & Sv & E).
  unfold sm4_ctr_encrypt_blocks. rewrite E, <- Hv, <- Sv. by rewrite ctr_bytes_pair.
Qed.

(** The last, padded block. *)
Lemma xor_bytes_padded (p k : list Z) m :
  take (length p) (xor_bytes (p ++ replicate m 0) k) = xor_bytes p k.
Proof.
  revert k. induction p as [|b p IH]; intros [|c k]; simpl; try done. by rewrite IH.
Qed.

Lemma take_all_len {A : Type} (l : list A) n : (length l <= n)%nat -> take n l = l.
Proof. apply take_ge. Qed.

Lemma zeros_bytes n : bytes (replicate n 0).
Proof. by apply Forall_replicate. Qed.

Lemma last_block_spec key ctr p :
  length ctr = 16%nat -> bytes ctr -> bytes p -> (length p < 16)%nat ->
  let block := p ++ replicate (16 - length p) 0 in
  let r := sm4_ctr_encrypt_blocks key ctr block 1 in
  r.1 = ctr_bytes (ctr_next (ctr_value ctr)) /\
  take (length p) r.2 = xor_bytes p (keystream key (ctr_value ctr) 1).
Proof.
  intros Hl Hb Hp Hlen. cbv zeta.
  rewrite blocks_spec; [|done|done|by apply Forall_app; split; [|apply zeros_bytes]|].
  2: { rewrite length_app, length_replicate. lia. }
  split; [done|]. cbn [snd]. rewrite (take_all_len (p ++ _)).
  - apply xor_bytes_padded.
  - rewrite length_app, length_replicate. lia.
Qed.

Lemma xor_bytes_app_split (p k : list Z) n :
  n = length k -> (n <= length p)%nat ->
  forall k', xor_bytes (take n p) k ++ xor_bytes (drop n p) k' = xor_bytes p (k ++ k').
Proof.
  intros -> Hn k'. rewrite <- (take_drop (length k) p) at 3.
  rewrite zip_with_app; [done|]. rewrite length_take. lia.
Qed.

(** What counter mode computes, on any input. *)
Lemma sm4_ctr_encrypt_output key ctr p :
  length ctr = 16%nat -> bytes ctr -> bytes p ->
  (sm4_ctr_encrypt key ctr p).2 = xor_bytes p (keystream key (ctr_value ctr) (length p / 16 + 1)).
Proof.
  intros Hl Hb Hp. set (v := ctr_value ctr).
  pose proof (Nat.div_mod_eq (length p) 16) as Hdm.
  pose proof (Nat.mod_upper_bound (length p) 16 ltac:(done)) as Hm.
  set (n := (length p / 16)%nat) in *. unfold sm4_ctr_encrypt. fold n.
  destruct (Nat.leb_spec 16 (length p)) as [Hge|Hlt].
  - rewrite blocks_spec by (done || lia). fold v. cbv iota.
    assert (Hv : in_range 128 (ctr_advance v n)) by (by apply ctr_advance_range, ctr_value_range).
    assert (Hld : length (drop (n * 16) p) = (length p - n * 16)%nat) by apply length_drop.
    rewrite keystream_app, <- (xor_bytes_app_split p _ (16 * n));
      [|by rewrite keystream_length|lia].
    replace (16 * n)%nat with (n * 16)%nat in * by lia.
    destruct (drop (n * 16) p) as [|b q] eqn:Ed; [by rewrite app_nil_r|].
    rewrite <- Ed in *. clear Ed.
    destruct (ctr_bytes_shape (ctr_advance v n)) as [Hl' Hb'].
    destruct (last_block_spec key _ (drop (n * 16) p) Hl' Hb') as [_ H2];
      [by apply Forall_drop|lia|].
    destruct (sm4_ctr_encrypt_blocks _ _ _ _) as [c b'] eqn:E. cbn [snd] in *.
    by rewrite H2, ctr_value_bytes.
  - assert (n = 0%nat) as -> by (apply Nat.div_small; lia). cbv iota.
    destruct p as [|b q]; [done|]. 
    destruct (last_block_spec key ctr (b :: q) Hl Hb Hp ltac:(lia)) as [_ H2].
    destruct (sm4_ctr_encrypt_blocks _ _ _ _) as [c b'] eqn:E. cbn [snd] in *.
    by rewrite H2.
Qed.

(** ** The small-footprint counter mode *)

Lemma incr_from_last_spec l :
  bytes l ->
  bytes (Small.incr_from_last l) /\ length (Small.incr_from_last l) = length l /\
  le_value (Small.incr_from_last l) = (le_value l + 1) `mod` 2 ^ (8 * Z.of_nat (length l)).
Proof.
  induction 1 as [|b l Hb Hl (IH1 & IH2 & IH3)]; [by rewrite Z.mod_1_r|].
  cbn [Small.incr_from_last]. cbv zeta.
  assert (Hu : byte (u8 (b + 1))) by (by apply mod_range).
  pose proof (le_value_range l Hl) as Hr. unfold byte, in_range in Hb, Hr.
  replace (8 * Z.of_nat (length (b :: l))) with (8 + 8 * Z.of_nat (length l)) by (simpl; lia).
  rewrite Z.pow_add_r by lia. cbn [le_value]. destruct (Z.eqb_spec (u8 (b + 1)) 0) as [E|E].
  - split; [by constructor|]. split; [simpl; by rewrite IH2|]. cbn [le_value]. rewrite IH3, E.
    unfold u8 in E. assert (b = 2 ^ 8 - 1) as -> by zlia.
    rewrite Z.rem_mul_r by lia.
    replace (2 ^ 8 - 1 + 2 ^ 8 * le_value l + 1) with (0 + (le_value l + 1) * 2 ^ 8) by lia.
    rewrite Z.mod_add, Z.div_add by lia. done.
  - split; [by constructor|]. split; [done|]. cbn [le_value].
    unfold u8 in *. assert ((b + 1) `mod` 2 ^ 8 = b + 1) as -> by zlia.
    rewrite Z.mod_small; [lia|]. assert (b + 1 < 2 ^ 8) by zlia. nia.
Qed.

Lemma ctr_incr_next ctr :
  length ctr = 16%nat -> bytes ctr -> Small.ctr_incr ctr = ctr_bytes (ctr_next (ctr_value ctr)).
Proof.
  intros Hl Hb. unfold Small.ctr_incr, ctr_bytes. f_equal.
  destruct (incr_from_last_spec (reverse ctr) (bytes_reverse _ Hb)) as (H1 & H2 & H3).
  apply le_value_inj; [done|apply le_split_bytes| |].
  { by rewrite H2, length_reverse, le_split_length. }
  rewrite H3, le_value_split, length_reverse, Hl. unfold ctr_next, ctr_value.
  change (8 * Z.of_nat 16) with 128. by rewrite Z.mod_mod.
Qed.

Lemma small_blocks_spec key ctr p n :
  key_ok key -> length ctr = 16%nat -> bytes ctr -> bytes p -> (16 * n <= length p)%nat ->
  Small.sm4_ctr_encrypt_blocks key ctr p n =
  (ctr_bytes (ctr_advance (ctr_value ctr) n),
   xor_bytes (take (16 * n) p) (keystream key (ctr_value ctr) n)).
Proof.
  intros Hk. revert ctr p. induction n as [|n IH]; intros ctr p Hl Hb Hp Hlen.
  { cbn [Small.sm4_ctr_encrypt_blocks ctr_advance]. by rewrite ctr_bytes_value. }
  cbn [Small.sm4_ctr_encrypt_blocks keystream ctr_advance]. cbv zeta.
  assert (Hn : in_range 128 (ctr_next (ctr_value ctr))) by (by apply mod_range).
  destruct (ctr_bytes_shape (ctr_next (ctr_value ctr))) as [Hl' Hb'].
  rewrite ctr_incr_next, IH; [|done|done|by apply Forall_drop|rewrite length_drop; lia|done|done].
  rewrite ctr_value_bytes by done. rewrite <- sm4_encrypt_small by done.
  rewrite ctr_bytes_value by done. apply f_equal.
  pose proof (proj1 (sm4_encrypt_shape key ctr)) as Hs.
  rewrite <- zip_with_app; [|rewrite length_take; lia].
  f_equal. replace (16 * S n)%nat with (16 + 16 * n)%nat by lia.
  by rewrite take_take_drop.
Qed.

(** ** Theorems *)

(** The standard's example (GB/T 32907, appendix A.1). *)
Example sm4_known_answer :
  sm4_encrypt (sm4_set_encrypt_key kat_key) kat_key =
  [0x68;0x1e;0xdf;0x34;0xd2;0x06;0x96;0x5e;0x86;0xb3;0xe9;0x4f;0x53;0x6e;0x42;0x46].
Proof. vm_compute. reflexivity. Qed.

(** C1. The table-driven, unrolled [sm4_encrypt] that the build compiles
    computes, for every key and block, what the small-footprint loop of the same
    file computes. *)
Theorem sm4_unrolled_is_reference (uk p : list Z) :
  bytes uk -> bytes p ->
  sm4_encrypt (sm4_set_encrypt_key uk) p = Small.sm4_encrypt (sm4_set_encrypt_key uk) p.
Proof. intros Huk Hp. by apply sm4_encrypt_small; [apply sm4_set_encrypt_key_ok|]. Qed.

Lemma sm4_unrolled_is_reference_witness :
  Small.sm4_encrypt (sm4_set_encrypt_key kat_key) kat_key =
  [0x68;0x1e;0xdf;0x34;0xd2;0x06;0x96;0x5e;0x86;0xb3;0xe9;0x4f;0x53;0x6e;0x42;0x46].
Proof.
  rewrite <- (sm4_unrolled_is_reference kat_key kat_key); [|solve_bytes|solve_bytes].
  vm_compute. reflexivity.
Defined.

(** C2. SM4 is a permutation of the blocks under every key: encrypting with the
    decryption schedule undoes encrypting with the encryption schedule. *)
Theorem sm4_decrypt_encrypt (uk p : list Z) :
  bytes uk -> bytes p -> length p = 16%nat ->
  sm4_encrypt (sm4_set_decrypt_key uk) (sm4_encrypt (sm4_set_encrypt_key uk) p) = p.
Proof.
  intros Huk Hp Hlen.
  assert (Hke := sm4_set_encrypt_key_ok uk Huk). assert (Hkd := sm4_set_decrypt_key_ok uk Huk).
  rewrite (sm4_encrypt_small (sm4_set_decrypt_key uk)) by (done || apply sm4_encrypt_shape).
  rewrite sm4_encrypt_small by done. unfold Small.sm4_encrypt.
  set (ks := rk (sm4_set_encrypt_key uk)).
  pose proof (decrypt_key_reverse uk) as Hkr. fold ks in Hkr.
  destruct Hke as [Hkl HkF]. fold ks in Hkl, HkF. rewrite Hkr. clear Hkr Hkd. clearbody ks.
  rewrite !take_ge by (rewrite ?length_reverse; lia).
  pose proof (rounds_small_ok _ ks (get_words_ok p Hp) HkF) as Hok.
  pose proof (rounds_undo (get_words p) ks) as Hundo.
  destruct (rounds_small (get_words p) ks) as [[[x0 x1] x2] x3].
  destruct Hok as (H0 & H1 & H2 & H3).
  rewrite get_put_words by exact (conj H3 (conj H2 (conj H1 H0))).
  unfold out_order at 1 in Hundo. rewrite Hundo. unfold out_order, get_words.
  pose proof (put_words_xor p 0 0 0 0 ltac:(lia) Hp) as E. rewrite !Z.lxor_0_r in E.
  rewrite E, take_ge by lia. rewrite <- (xor_bytes_cancel p (put_words 0 0 0 0)) at 2 by (simpl; lia).
  do 16 (destruct p as [|? p]; [simpl in Hlen; lia|]). destruct p; [|simpl in Hlen; lia].
  vm_compute put_words. simpl. by rewrite !Z.lxor_0_r.
Qed.

Lemma sm4_decrypt_encrypt_witness :
  sm4_encrypt (sm4_set_decrypt_key kat_key) (sm4_encrypt (sm4_set_encrypt_key kat_key) kat_key) =
  kat_key.
Proof. apply (sm4_decrypt_encrypt kat_key kat_key); [solve_bytes|solve_bytes|reflexivity]. Defined.

(** C3. The counter mode that the build compiles, which keeps the counter as
    two 64-bit words, produces the same blocks and the same counter as the
    reference, which increments the 16 bytes one by one. *)
Theorem sm4_ctr_blocks_is_reference (uk ctr p : list Z) (n : nat) :
  bytes uk -> bytes ctr -> length ctr = 16%nat -> bytes p -> (16 * n <= length p)%nat ->
  sm4_ctr_encrypt_blocks (sm4_set_encrypt_key uk) ctr p n =
  Small.sm4_ctr_encrypt_blocks (sm4_set_encrypt_key uk) ctr p n.
Proof.
  intros Huk Hb Hl Hp Hlen. rewrite blocks_spec, small_blocks_spec; try done.
  by apply sm4_set_encrypt_key_ok.
Qed.

(** The carry out of the low word: a counter of all ones. *)
Lemma sm4_ctr_blocks_is_reference_witness :
  Small.sm4_ctr_encrypt_blocks (sm4_set_encrypt_key kat_key) (replicate 16 255)
    (kat_key ++ kat_key) 2 =
  sm4_ctr_encrypt_blocks (sm4_set_encrypt_key kat_key) (replicate 16 255) (kat_key ++ kat_key) 2.
Proof.
  symmetry. apply (sm4_ctr_blocks_is_reference kat_key (replicate 16 255) (kat_key ++ kat_key) 2);
    [solve_bytes|solve_bytes|reflexivity|solve_bytes|simpl; lia].
Defined.


