(* ===== verification/FrameCrypto.v ===== *)
(** Frame encryption: [HCCrypto] and [HCCryptoDecryptor].

    Models [api/crypto/hc_crypto.{h,cc}] and
    [api/crypto/hc_crypto_decryptor.{h,cc}], the two classes that encrypt the
    payload of every outgoing frame and decrypt that of every incoming one.
    Each class is a record of its members and a definition per method; the
    clock ([rtc::TimeMicros]) is an argument of the methods that read it, the
    log output is left out, and a failed [RTC_CHECK] is [Fatal].  Buffers
    ([rtc::ArrayView]) are lists of bytes: a method takes the buffer it is
    given and returns its contents afterwards. *)

From Stdlib Require Import ZArith Lia.
From S2P Require Import Prelude Words Sm4.

(** [cricket::MediaType] *)
Inductive MediaType : Set :=
| MEDIA_TYPE_AUDIO
| MEDIA_TYPE_VIDEO
| MEDIA_TYPE_DATA
| MEDIA_TYPE_UNSUPPORTED.

#[export] Instance MediaType_eq_dec : EqDecision MediaType.
Proof. solve_decision. Defined.

(** The static members both classes declare with the same values. *)
Definition DEFAULT_SM4_KEY : list Z :=
  [0x01; 0x23; 0x45; 0x67; 0x89; 0xAB; 0xCD; 0xEF;
   0xFE; 0xDC; 0xBA; 0x98; 0x76; 0x54; 0x32; 0x10].
Definition DEFAULT_SM4_CTR : list Z :=
  [0; 0; 0; 0; 0; 0; 0; 0; 0; 0; 0; 0; 0; 0; 0; 1].

Definition size (l : list Z) : Z := Z.of_nat (length l).

(** A VP8 payload starts with a frame tag whose lowest bit is 0 on a key
    frame.  Both classes look at the first byte of the buffer they read. *)
Definition is_vp8_key_frame (media_type : MediaType) (data : list Z) : bool :=
  match media_type, data with
  | MEDIA_TYPE_VIDEO, b :: _ => Z.land b 0x01 =? 0
  | _, _ => false
  end.

(** ** The encryptor *)

Module HCCrypto.

(** The statistics members, reset every 300 video frames. *)
Record stats : Type := Stats {
  v_frame_count_ : Z;
  v_total_us_ : Z;
  v_key_frame_count_ : Z;
  v_key_frame_total_us_ : Z;
  v_max_us_ : Z }.

Definition stats0 : stats := Stats 0 0 0 0 0.

Record t : Type := Mk {
  fake_key_ : Z;
  postfix_byte_ : Z;
  fail_encryption_ : bool;
  sm4_key_ : SM4_KEY;
  sm4_key_bytes_ : list Z;
  sm4_ctr_ : list Z;
  use_sm4_encryption_ : bool;
  key_version_ : Z;
  v_stats : stats }.

Definition make (fake_key postfix_byte : Z) : t :=
  Mk fake_key postfix_byte false
     (sm4_set_encrypt_key DEFAULT_SM4_KEY) DEFAULT_SM4_KEY DEFAULT_SM4_CTR
     true 0 stats0.

(** The default arguments of the constructor. *)
Definition make_default : t := make 0xAA 255.

Definition GetMaxCiphertextByteSize (media_type : MediaType) (frame_size : Z) : Z :=
  u64 (frame_size + 1).

(** [FakeEncryptionStatus] *)
Definition status_OK : Z := 0.
Definition status_FORCED_FAILURE : Z := 1.

Definition count_frame (s : stats) (is_key_frame : bool) (elapsed_us : Z) : stats :=
  let s1 := Stats (u64 (v_frame_count_ s + 1)) (v_total_us_ s + elapsed_us)
                  (v_key_frame_count_ s) (v_key_frame_total_us_ s) (v_max_us_ s) in
  let s2 :=
    if is_key_frame then
      Stats (v_frame_count_ s1) (v_total_us_ s1)
            (u64 (v_key_frame_count_ s1 + 1))
            (v_key_frame_total_us_ s1 + elapsed_us)
            (if elapsed_us >? v_max_us_ s1 then elapsed_us else v_max_us_ s1)
    else s1 in
  if v_frame_count_ s2 >=? 300 then stats0 else s2.

Definition set_stats (c : t) (s : stats) : t :=
  Mk (fake_key_ c) (postfix_byte_ c) (fail_encryption_ c) (sm4_key_ c) (sm4_key_bytes_ c)
     (sm4_ctr_ c) (use_sm4_encryption_ c) (key_version_ c) s.

(** What [Encrypt] leaves: the object, the status, the output buffer and
    [*bytes_written]. *)
Record result : Type := Result {
  self : t;
  status : Z;
  encrypted_frame : list Z;
  bytes_written : Z }.

Definition Encrypt (c : t) (start_time end_time : Z) (media_type : MediaType)
    (frame encrypted_frame : list Z) (bytes_written : Z) : res result :=
  if fail_encryption_ c then Ok (Result c status_FORCED_FAILURE encrypted_frame bytes_written)
  else
    let is_key_frame := is_vp8_key_frame media_type frame in
    let perform_crypto := if use_sm4_encryption_ c then true else is_key_frame in
    if negb (u64 (size frame + 1) =? size encrypted_frame) then
      Fatal "frame.size() + 1 == encrypted_frame.size()"
    else
      let out :=
        if perform_crypto then
          (sm4_ctr_encrypt (sm4_key_ c) (sm4_ctr_ c) frame).2 ++
          [u8 (Z.lor 0x80 (Z.land (key_version_ c) 0x7F))]
        else frame ++ [0x00] in
      let elapsed_us := end_time - start_time in
      let s :=
        if decide (media_type = MEDIA_TYPE_VIDEO)
        then count_frame (v_stats c) is_key_frame elapsed_us
        else v_stats c in
      Ok (Result (set_stats c s) status_OK out (u64 (size frame + 1))).

Definition set_key (c : t) (fake_key : Z) (key : list Z) (version : Z) : t :=
  Mk fake_key (postfix_byte_ c) (fail_encryption_ c) (sm4_set_encrypt_key key) key
     (sm4_ctr_ c) (use_sm4_encryption_ c) version (v_stats c).

Definition SetFakeKey (c : t) (fake_key : Z) : t :=
  set_key c fake_key (replicate 16 fake_key) (key_version_ c).
Definition GetFakeKey (c : t) : Z := fake_key_ c.
Definition SetPostfixByte (c : t) (postfix_byte : Z) : t :=
  Mk (fake_key_ c) postfix_byte (fail_encryption_ c) (sm4_key_ c) (sm4_key_bytes_ c)
     (sm4_ctr_ c) (use_sm4_encryption_ c) (key_version_ c) (v_stats c).
Definition GetPostfixByte (c : t) : Z := postfix_byte_ c.
Definition SetFailEncryption (c : t) (fail_encryption : bool) : t :=
  Mk (fake_key_ c) (postfix_byte_ c) fail_encryption (sm4_key_ c) (sm4_key_bytes_ c)
     (sm4_ctr_ c) (use_sm4_encryption_ c) (key_version_ c) (v_stats c).
Definition SetSM4Key (c : t) (key : list Z) : t :=
  set_key c (fake_key_ c) key (key_version_ c).
Definition SetSM4CTR (c : t) (ctr : list Z) : t :=
  Mk (fake_key_ c) (postfix_byte_ c) (fail_encryption_ c) (sm4_key_ c) (sm4_key_bytes_ c)
     ctr (use_sm4_encryption_ c) (key_version_ c) (v_stats c).
Definition EnableSM4Encryption (c : t) (enable : bool) : t :=
  Mk (fake_key_ c) (postfix_byte_ c) (fail_encryption_ c) (sm4_key_ c) (sm4_key_bytes_ c)
     (sm4_ctr_ c) enable (key_version_ c) (v_stats c).
Definition SetSM4KeyWithVersion (c : t) (key : list Z) (version : Z) : t :=
  set_key c (fake_key_ c) key version.
Definition GetKeyVersion (c : t) : Z := key_version_ c.

(** The calls the rest of the program makes on an encryptor. *)
Inductive op : Type :=
| OpEncrypt (start_time end_time : Z) (media_type : MediaType) (frame buffer : list Z)
| OpSetFakeKey (fake_key : Z)
| OpSetPostfixByte (postfix_byte : Z)
| OpSetFailEncryption (fail : bool)
| OpSetSM4Key (key : list Z)
| OpSetSM4CTR (ctr : list Z)
| OpEnableSM4Encryption (enable : bool)
| OpSetSM4KeyWithVersion (key : list Z) (version : Z).

Definition step (c : t) (o : op) : res t :=
  match o with
  | OpEncrypt t0 t1 mt frame buffer =>
      let* r := Encrypt c t0 t1 mt frame buffer 0 in Ok (self r)
  | OpSetFakeKey k => Ok (SetFakeKey c k)
  | OpSetPostfixByte b => Ok (SetPostfixByte c b)
  | OpSetFailEncryption b => Ok (SetFailEncryption c b)
  | OpSetSM4Key k => Ok (SetSM4Key c k)
  | OpSetSM4CTR v => Ok (SetSM4CTR c v)
  | OpEnableSM4Encryption b => Ok (EnableSM4Encryption c b)
  | OpSetSM4KeyWithVersion k v => Ok (SetSM4KeyWithVersion c k v)
  end.
End HCCrypto.

(** ** The decryptor *)

(** [FrameDecryptorInterface::Status] *)
Inductive Status : Set := kOk | kRecoverable | kFailedToDecrypt | kUnknown.

#[export] Instance Status_eq_dec : EqDecision Status.
Proof. solve_decision. Defined.

Module HCCryptoDecryptor.

Record t : Type := Mk {
  fake_key_ : Z;
  expected_postfix_byte_ : Z;
  fail_decryption_ : bool;
  sm4_key_ : SM4_KEY;
  sm4_key_bytes_ : list Z;
  sm4_ctr_ : list Z;
  use_sm4_decryption_ : bool;
  key_version_ : Z;
  v_frame_count_ : Z;
  v_total_us_ : Z;
  version_mismatch_count_ : Z;
  version_mismatch_start_time_ : Z }.

Definition make (fake_key expected_postfix_byte : Z) : t :=
  Mk fake_key expected_postfix_byte false
     (sm4_set_encrypt_key DEFAULT_SM4_KEY) DEFAULT_SM4_KEY DEFAULT_SM4_CTR
     true 0 0 0 0 0.

Definition make_default : t := make 0xAA 255.

Definition GetMaxPlaintextByteSize (media_type : MediaType) (encrypted_frame_size : Z) : Z :=
  u64 (encrypted_frame_size - 1).

Definition set_mismatch (d : t) (count start : Z) : t :=
  Mk (fake_key_ d) (expected_postfix_byte_ d) (fail_decryption_ d) (sm4_key_ d)
     (sm4_key_bytes_ d) (sm4_ctr_ d) (use_sm4_decryption_ d) (key_version_ d)
     (v_frame_count_ d) (v_total_us_ d) count start.

Definition set_stats (d : t) (count total : Z) : t :=
  Mk (fake_key_ d) (expected_postfix_byte_ d) (fail_decryption_ d) (sm4_key_ d)
     (sm4_key_bytes_ d) (sm4_ctr_ d) (use_sm4_decryption_ d) (key_version_ d)
     count total (version_mismatch_count_ d) (version_mismatch_start_time_ d).

(** What [Decrypt] leaves: the object, [Result{status, bytes_written}] and
    the output buffer. *)
Record result : Type := Result {
  self : t;
  status : Status;
  bytes_written : Z;
  frame : list Z }.

(** The version bookkeeping; [now] is what the clock shows when a mismatch
    is recorded. *)
Definition track_version (d : t) (mismatch : bool) (now : Z) : t :=
  if mismatch then
    set_mismatch d (u64 (version_mismatch_count_ d + 1))
      (if version_mismatch_start_time_ d =? 0 then now else version_mismatch_start_time_ d)
  else if version_mismatch_count_ d >? 0 then set_mismatch d 0 0
  else d.

Definition count_frame (d : t) (elapsed_us : Z) : t :=
  let count := u64 (v_frame_count_ d + 1) in
  let total := v_total_us_ d + elapsed_us in
  if count >=? 300 then set_stats d 0 0 else set_stats d count total.

Definition frame_encrypted (postfix_byte : Z) : bool :=
  negb (Z.land postfix_byte 0x80 =? 0).
Definition frame_version (postfix_byte : Z) : Z := Z.land postfix_byte 0x7F.

Definition Decrypt (d : t) (start_time now end_time : Z) (media_type : MediaType)
    (encrypted_frame frame : list Z) : res result :=
  if fail_decryption_ d then Ok (Result d kFailedToDecrypt 0 frame)
  else
    let is_key_frame := is_vp8_key_frame media_type encrypted_frame in
    let perform_crypto := if use_sm4_decryption_ d then true else is_key_frame in
    if negb (u64 (size frame + 1) =? size encrypted_frame) then
      Fatal "frame.size() + 1 == encrypted_frame.size()"
    else
      match encrypted_frame !! length frame with
      | None => Undef UbIndex
      | Some postfix_byte =>
          let encrypted := frame_encrypted postfix_byte in
          let mismatch :=
            encrypted && negb (frame_version postfix_byte =? key_version_ d) in
          let perform_crypto := if mismatch then false else perform_crypto in
          let d1 := track_version d mismatch now in
          let perform_crypto := if negb encrypted then false else perform_crypto in
          let input := take (length frame) encrypted_frame in
          let out :=
            if perform_crypto
            then (sm4_ctr_encrypt (sm4_key_ d1) (sm4_ctr_ d1) input).2
            else input in
          let d2 :=
            if decide (media_type = MEDIA_TYPE_VIDEO)
            then count_frame d1 (end_time - start_time) else d1 in
          Ok (Result d2 kOk (size frame) out)
      end.

Definition set_key (d : t) (fake_key : Z) (key : list Z) (version : Z) : t :=
  Mk fake_key (expected_postfix_byte_ d) (fail_decryption_ d) (sm4_set_encrypt_key key) key
     (sm4_ctr_ d) (use_sm4_decryption_ d) version
     (v_frame_count_ d) (v_total_us_ d)
     (version_mismatch_count_ d) (version_mismatch_start_time_ d).
Definition set_flags (d : t) (postfix : Z) (fail : bool) (ctr : list Z) (use : bool) : t :=
  Mk (fake_key_ d) postfix fail (sm4_key_ d) (sm4_key_bytes_ d) ctr use (key_version_ d)
     (v_frame_count_ d) (v_total_us_ d)
     (version_mismatch_count_ d) (version_mismatch_start_time_ d).

Definition SetFakeKey (d : t) (fake_key : Z) : t :=
  set_key d fake_key (replicate 16 fake_key) (key_version_ d).
Definition GetFakeKey (d : t) : Z := fake_key_ d.
Definition SetExpectedPostfixByte (d : t) (b : Z) : t :=
  set_flags d b (fail_decryption_ d) (sm4_ctr_ d) (use_sm4_decryption_ d).
Definition GetExpectedPostfixByte (d : t) : Z := expected_postfix_byte_ d.
Definition SetFailDecryption (d : t) (fail : bool) : t :=
  set_flags d (expected_postfix_byte_ d) fail (sm4_ctr_ d) (use_sm4_decryption_ d).
Definition SetSM4Key (d : t) (key : list Z) : t :=
  set_key d (fake_key_ d) key (key_version_ d).
Definition SetSM4CTR (d : t) (ctr : list Z) : t :=
  set_flags d (expected_postfix_byte_ d) (fail_decryption_ d) ctr (use_sm4_decryption_ d).
Definition EnableSM4Decryption (d : t) (enable : bool) : t :=
  set_flags d (expected_postfix_byte_ d) (fail_decryption_ d) (sm4_ctr_ d) enable.
Definition SetSM4KeyWithVersion (d : t) (key : list Z) (version : Z) : t :=
  set_key d (fake_key_ d) key version.
Definition GetKeyVersion (d : t) : Z := key_version_ d.

(** The calls the rest of the program makes on a decryptor. *)
Inductive op : Type :=
| OpDecrypt (start_time now end_time : Z) (media_type : MediaType) (data buffer : list Z)
| OpSetFakeKey (fake_key : Z)
| OpSetExpectedPostfixByte (b : Z)
| OpSetFailDecryption (fail : bool)
| OpSetSM4Key (key : list Z)
| OpSetSM4CTR (ctr : list Z)
| OpEnableSM4Decryption (enable : bool)
| OpSetSM4KeyWithVersion (key : list Z) (version : Z).

Definition step (d : t) (o : op) : res t :=
  match o with
  | OpDecrypt t0 now t1 mt data buffer =>
      let* r := Decrypt d t0 now t1 mt data buffer in Ok (self r)
  | OpSetFakeKey k => Ok (SetFakeKey d k)
  | OpSetExpectedPostfixByte b => Ok (SetExpectedPostfixByte d b)
  | OpSetFailDecryption b => Ok (SetFailDecryption d b)
  | OpSetSM4Key k => Ok (SetSM4Key d k)
  | OpSetSM4CTR v => Ok (SetSM4CTR d v)
  | OpEnableSM4Decryption b => Ok (EnableSM4Decryption d b)
  | OpSetSM4KeyWithVersion k v => Ok (SetSM4KeyWithVersion d k v)
  end.
End HCCryptoDecryptor.

(** ** The postfix byte *)

Definition postfix_of (version : Z) : Z := u8 (Z.lor 0x80 (Z.land version 0x7F)).

Lemma postfix_of_value v : postfix_of v = 128 + v `mod` 128.
Proof.
  unfold postfix_of. change 0x7F with (Z.ones 7). rewrite Z.land_ones by lia.
  change (2 ^ 7) with 128. assert (0 <= v `mod` 128 < 128) by (apply Z.mod_pos_bound; lia).
  rewrite (lor_add 7) by (lia || done || unfold in_range; lia). apply u8_small; lia.
Qed.

Lemma postfix_of_byte v : byte (postfix_of v).
Proof. rewrite postfix_of_value. unfold byte, in_range. zlia. Qed.

Lemma postfix_of_version v : HCCryptoDecryptor.frame_version (postfix_of v) = v `mod` 128.
Proof.
  rewrite postfix_of_value. unfold HCCryptoDecryptor.frame_version.
  change 0x7F with (Z.ones 7). rewrite Z.land_ones by lia. change (2 ^ 7) with 128. zlia.
Qed.

Lemma postfix_of_encrypted v : HCCryptoDecryptor.frame_encrypted (postfix_of v) = true.
Proof.
  unfold HCCryptoDecryptor.frame_encrypted. apply negb_true_iff, Z.eqb_neq. intros H.
  apply (f_equal (fun z => Z.testbit z 7)) in H. revert H.
  rewrite Z.land_spec. change (Z.testbit 128 7) with true. rewrite andb_true_r, Z.bits_0.
  unfold postfix_of, u8. rewrite testbit_mod_pow2, Z.lor_spec by lia. done.
Qed.

Lemma clear_postfix_encrypted : HCCryptoDecryptor.frame_encrypted 0 = false.
Proof. done. Qed.

(** ** The key stream of a frame *)

(** Every frame is combined with the key stream that starts at the stored
    counter: [Encrypt] and [Decrypt] advance a local copy of it only. *)
Definition frame_keystream (key : SM4_KEY) (ctr : list Z) (n : nat) : list Z :=
  keystream key (ctr_value ctr) (n / 16 + 1).

Lemma frame_keystream_long key ctr n : (n <= length (frame_keystream key ctr n))%nat.
Proof.
  unfold frame_keystream. rewrite keystream_length.
  pose proof (Nat.div_mod_eq n 16). pose proof (Nat.mod_upper_bound n 16 ltac:(done)). lia.
Qed.

Lemma sm4_crypt_length key ctr p :
  length ctr = 16%nat -> bytes ctr -> bytes p ->
  length (sm4_ctr_encrypt key ctr p).2 = length p.
Proof.
  intros Hl Hb Hp. rewrite sm4_ctr_encrypt_output, length_zip_with by done.
  apply Nat.min_l, frame_keystream_long.
Qed.

Lemma sm4_crypt_bytes key ctr p :
  length ctr = 16%nat -> bytes ctr -> bytes p -> bytes (sm4_ctr_encrypt key ctr p).2.
Proof.
  intros Hl Hb Hp. rewrite sm4_ctr_encrypt_output by done.
  apply xor_bytes_bytes; [done|apply keystream_bytes].
Qed.

(** Counter mode is its own inverse. *)
Lemma sm4_crypt_involutive key ctr p :
  length ctr = 16%nat -> bytes ctr -> bytes p ->
  (sm4_ctr_encrypt key ctr (sm4_ctr_encrypt key ctr p).2).2 = p.
Proof.
  intros Hl Hb Hp. pose proof (sm4_crypt_length key ctr p Hl Hb Hp) as Hlen.
  rewrite sm4_ctr_encrypt_output; [|done|done|by apply sm4_crypt_bytes].
  rewrite Hlen, sm4_ctr_encrypt_output by done.
  apply xor_bytes_cancel, frame_keystream_long.
Qed.

(** ** The encryptor's behaviour *)

Section Encryptor.
Import HCCrypto.

Definition perform_crypto (c : t) (mt : MediaType) (frame : list Z) : bool :=
  if use_sm4_encryption_ c then true else is_vp8_key_frame mt frame.

(** The bytes [Encrypt] puts into a buffer of the right size. *)
Definition ciphertext (c : t) (mt : MediaType) (frame : list Z) : list Z :=
  if perform_crypto c mt frame
  then (sm4_ctr_encrypt (sm4_key_ c) (sm4_ctr_ c) frame).2 ++ [postfix_of (key_version_ c)]
  else frame ++ [0].

Definition stats_after (c : t) (mt : MediaType) (frame : list Z) (elapsed : Z) : stats :=
  if decide (mt = MEDIA_TYPE_VIDEO)
  then count_frame (v_stats c) (is_vp8_key_frame mt frame) elapsed else v_stats c.

Lemma Encrypt_eq c t0 t1 mt frame buffer bw :
  fail_encryption_ c = false -> size buffer = GetMaxCiphertextByteSize mt (size frame) ->
  Encrypt c t0 t1 mt frame buffer bw =
  Ok (Result (set_stats c (stats_after c mt frame (t1 - t0))) status_OK
             (ciphertext c mt frame) (u64 (size frame + 1))).
Proof.
  intros Hf Hs. unfold Encrypt. rewrite Hf. unfold GetMaxCiphertextByteSize in Hs.
  rewrite <- Hs, Z.eqb_refl. done.
Qed.

Lemma Encrypt_fail c t0 t1 mt frame buffer bw :
  fail_encryption_ c = true ->
  Encrypt c t0 t1 mt frame buffer bw = Ok (Result c status_FORCED_FAILURE buffer bw).
Proof. intros Hf. unfold Encrypt. by rewrite Hf. Qed.

Lemma ciphertext_length c mt frame :
  length (sm4_ctr_ c) = 16%nat -> bytes (sm4_ctr_ c) -> bytes frame ->
  length (ciphertext c mt frame) = S (length frame).
Proof.
  intros Hl Hb Hf. unfold ciphertext. destruct (perform_crypto c mt frame).
  - rewrite length_app, sm4_crypt_length by done. simpl; lia.
  - rewrite length_app; simpl; lia.
Qed.
End Encryptor.

(** ** The decryptor's behaviour *)

Section Decryptor.
Import HCCryptoDecryptor.

Definition version_mismatch (d : t) (postfix_byte : Z) : bool :=
  frame_encrypted postfix_byte && negb (frame_version postfix_byte =? key_version_ d).

(** Whether a buffer is decrypted: it must carry the mark and the decryptor's
    own version, and either every frame is encrypted or this one looks like a
    key frame. *)
Definition decrypts (d : t) (mt : MediaType) (encrypted_frame : list Z) (postfix_byte : Z) : bool :=
  frame_encrypted postfix_byte && (frame_version postfix_byte =? key_version_ d) &&
  (use_sm4_decryption_ d || is_vp8_key_frame mt encrypted_frame).

Definition plaintext (d : t) (mt : MediaType) (body : list Z) (postfix_byte : Z) : list Z :=
  if decrypts d mt (body ++ [postfix_byte]) postfix_byte
  then (sm4_ctr_encrypt (sm4_key_ d) (sm4_ctr_ d) body).2 else body.

Definition after (d : t) (mt : MediaType) (postfix_byte now elapsed : Z) : t :=
  let d1 := track_version d (version_mismatch d postfix_byte) now in
  if decide (mt = MEDIA_TYPE_VIDEO) then count_frame d1 elapsed else d1.

Lemma track_version_key d m now :
  sm4_key_ (track_version d m now) = sm4_key_ d /\ sm4_ctr_ (track_version d m now) = sm4_ctr_ d.
Proof. unfold track_version. destruct m; [done|]. by destruct (_ >? _). Qed.

Lemma size_app_one (l : list Z) b : size (l ++ [b]) = size l + 1.
Proof. unfold size. rewrite length_app. simpl. lia. Qed.

Lemma Decrypt_eq d t0 now t1 mt body postfix_byte buffer :
  fail_decryption_ d = false -> length buffer = length body -> size body + 1 < 2 ^ 64 ->
  Decrypt d t0 now t1 mt (body ++ [postfix_byte]) buffer =
  Ok (Result (after d mt postfix_byte now (t1 - t0)) kOk (size body)
             (plaintext d mt body postfix_byte)).
Proof.
  intros Hf Hl Hs. unfold Decrypt. rewrite Hf.
  assert (Hb : size buffer = size body) by (unfold size; lia).
  rewrite size_app_one, Hb, u64_small, Z.eqb_refl by (unfold size in *; lia). simpl.
  rewrite Hl, list_lookup_middle by done. rewrite take_app_length.
  destruct (track_version_key d (version_mismatch d postfix_byte) now) as [Hk Hc].
  unfold version_mismatch in Hk, Hc. rewrite Hk, Hc. unfold after, plaintext, decrypts, version_mismatch.
  destruct (frame_encrypted postfix_byte), (_ =? key_version_ d), (use_sm4_decryption_ d);
    done.
Qed.

Lemma Decrypt_fail d t0 now t1 mt data buffer :
  fail_decryption_ d = true ->
  Decrypt d t0 now t1 mt data buffer = Ok (Result d kFailedToDecrypt 0 buffer).
Proof. intros Hf. unfold Decrypt. by rewrite Hf. Qed.
End Decryptor.

(** ** An encryptor and a decryptor that share a key *)

Record paired (c : HCCrypto.t) (d : HCCryptoDecryptor.t) : Prop := Paired {
  paired_key : HCCrypto.sm4_key_ c = HCCryptoDecryptor.sm4_key_ d;
  paired_ctr : HCCrypto.sm4_ctr_ c = HCCryptoDecryptor.sm4_ctr_ d;
  paired_ctr_length : length (HCCrypto.sm4_ctr_ c) = 16%nat;
  paired_ctr_bytes : bytes (HCCrypto.sm4_ctr_ c);
  paired_enc : HCCrypto.fail_encryption_ c = false;
  paired_dec : HCCryptoDecryptor.fail_decryption_ d = false }.

(** A frame that fits a [size_t] together with its postfix byte. *)
Definition frame_ok (frame : list Z) : Prop := bytes frame /\ size frame + 1 < 2 ^ 64.

(** What arrives for a frame that was sent: the frame is encrypted into a
    buffer of the size the encryptor asks for and decrypted into one of the
    size the decryptor asks for. *)
Definition transmit (c : HCCrypto.t) (d : HCCryptoDecryptor.t) (t0 t1 now t2 : Z)
    (mt : MediaType) (frame : list Z) : res (Z * Status * list Z) :=
  let buffer := replicate (Z.to_nat (HCCrypto.GetMaxCiphertextByteSize mt (size frame))) 0 in
  let* r := HCCrypto.Encrypt c t0 t1 mt frame buffer 0 in
  let data := take (Z.to_nat (HCCrypto.bytes_written r)) (HCCrypto.encrypted_frame r) in
  let out := replicate (Z.to_nat (HCCryptoDecryptor.GetMaxPlaintextByteSize mt (size data))) 0 in
  let* r' := HCCryptoDecryptor.Decrypt d t1 now t2 mt data out in
  Ok (HCCrypto.status r, HCCryptoDecryptor.status r', HCCryptoDecryptor.frame r').

Section Transmission.
Context (c : HCCrypto.t) (d : HCCryptoDecryptor.t) (Hpair : paired c d).

Lemma transmit_eq t0 t1 now t2 mt frame :
  frame_ok frame ->
  transmit c d t0 t1 now t2 mt frame =
  Ok (HCCrypto.status_OK, kOk,
      let on := perform_crypto c mt frame in
      let body := if on then (sm4_ctr_encrypt (HCCrypto.sm4_key_ c) (HCCrypto.sm4_ctr_ c) frame).2
                  else frame in
      plaintext d mt body (if on then postfix_of (HCCrypto.key_version_ c) else 0)).
Proof using Hpair.
  intros [Hb Hs]. destruct Hpair as [Hk Hc Hcl Hcb He Hd].
  assert (Hsz : u64 (size frame + 1) = size frame + 1) by (apply u64_small; unfold size in *; lia).
  assert (Hbuf : forall m, size (replicate (Z.to_nat (HCCrypto.GetMaxCiphertextByteSize m (size frame))) 0)
                 = HCCrypto.GetMaxCiphertextByteSize m (size frame)).
  { intros m. unfold HCCrypto.GetMaxCiphertextByteSize. rewrite Hsz.
    unfold size at 1. rewrite length_replicate. unfold size; lia. }
  unfold transmit. rewrite Encrypt_eq by done. cbn [bind HCCrypto.bytes_written HCCrypto.encrypted_frame HCCrypto.status].
  pose proof (ciphertext_length c mt frame Hcl Hcb Hb) as Hlen.
  rewrite Hsz, take_ge by (rewrite Hlen; unfold size; lia).
  assert (Hmax : Z.to_nat (HCCryptoDecryptor.GetMaxPlaintextByteSize mt (size (ciphertext c mt frame)))
                 = length frame).
  { unfold HCCryptoDecryptor.GetMaxPlaintextByteSize. unfold size. rewrite Hlen.
    rewrite u64_small by (unfold size in *; lia). lia. }
  rewrite Hmax. clear Hmax. unfold ciphertext in *.
  destruct (perform_crypto c mt frame).
  - pose proof (sm4_crypt_length (HCCrypto.sm4_key_ c) (HCCrypto.sm4_ctr_ c) frame Hcl Hcb Hb) as Hl.
    rewrite Decrypt_eq; [done|done|by rewrite length_replicate, Hl|].
    unfold size in *. rewrite Hl. lia.
  - rewrite Decrypt_eq; [done|done|by rewrite length_replicate|done].
Qed.
End Transmission.

(** ** Key frames under a first key-stream byte *)

Lemma key_frame_shape mt frame :
  is_vp8_key_frame mt frame = true ->
  mt = MEDIA_TYPE_VIDEO /\ exists b l, frame = b :: l /\ Z.testbit b 0 = false.
Proof.
  destruct mt, frame as [|b l]; try done. simpl. intros H%Z.eqb_eq. split; [done|].
  exists b, l. split; [done|].
  apply (f_equal (fun z => Z.testbit z 0)) in H. rewrite Z.land_spec in H. revert H.
  by rewrite andb_true_r.
Qed.

Lemma key_frame_bit b l : is_vp8_key_frame MEDIA_TYPE_VIDEO (b :: l) = negb (Z.testbit b 0).
Proof.
  simpl. change 1 with (Z.ones 1). rewrite Z.land_ones by done.
  change (2 ^ Z.ones 1) with 2. rewrite Zmod_odd. by destruct (Z.odd b).
Qed.

(** The first byte of the key stream every frame starts with. *)
Definition first_key_byte (key : SM4_KEY) (ctr : list Z) : Z :=
  match sm4_encrypt key (ctr_bytes (ctr_value ctr)) with b :: _ => b | [] => 0 end.

Lemma sm4_crypt_head key ctr b l :
  length ctr = 16%nat -> bytes ctr -> bytes (b :: l) ->
  exists l', (sm4_ctr_encrypt key ctr (b :: l)).2 = Z.lxor b (first_key_byte key ctr) :: l'.
Proof.
  intros Hl Hb Hp. rewrite sm4_ctr_encrypt_output by done. rewrite Nat.add_1_r. cbn [keystream].
  unfold first_key_byte.
  pose proof (proj1 (sm4_encrypt_shape key (ctr_bytes (ctr_value ctr)))) as Hlen.
  destruct (sm4_encrypt key (ctr_bytes (ctr_value ctr))) as [|k ks]; [done|].
  by eexists.
Qed.

(** Full mode decrypts what it encrypts. *)
Lemma full_mode_transmit c d t0 t1 now t2 mt frame :
  paired c d -> HCCrypto.use_sm4_encryption_ c = true ->
  HCCryptoDecryptor.use_sm4_decryption_ d = true ->
  HCCrypto.key_version_ c = HCCryptoDecryptor.key_version_ d ->
  0 <= HCCrypto.key_version_ c < 128 -> frame_ok frame ->
  transmit c d t0 t1 now t2 mt frame = Ok (HCCrypto.status_OK, kOk, frame).
Proof.
  intros Hp Hc Hd Hv Hr Hf. rewrite transmit_eq by done.
  unfold perform_crypto, plaintext, decrypts. rewrite Hc, Hd. cbv zeta.
  rewrite postfix_of_encrypted, postfix_of_version, Z.mod_small, <- Hv, Z.eqb_refl by done. simpl.
  rewrite <- (paired_key c d), <- (paired_ctr c d) by done.
  destruct Hf. by rewrite sm4_crypt_involutive by (done || apply Hp).
Qed.

(** ** Theorems *)

(** C5. With a shared key, counter and version between 0 and 127 and both ends
    in full mode, every frame, of whatever media type, is delivered as it was
    sent and both ends report success. *)
Theorem full_mode_roundtrip c d t0 t1 now t2 mt frame :
  paired c d -> HCCrypto.use_sm4_encryption_ c = true ->
  HCCryptoDecryptor.use_sm4_decryption_ d = true ->
  HCCrypto.key_version_ c = HCCryptoDecryptor.key_version_ d ->
  0 <= HCCrypto.key_version_ c < 128 -> frame_ok frame ->
  transmit c d t0 t1 now t2 mt frame = Ok (HCCrypto.status_OK, kOk, frame).
Proof. exact (full_mode_transmit c d t0 t1 now t2 mt frame). Qed.

Lemma default_paired : paired HCCrypto.make_default HCCryptoDecryptor.make_default.
Proof. constructor; try reflexivity. solve_bytes. Qed.

Lemma full_mode_roundtrip_witness :
  transmit HCCrypto.make_default HCCryptoDecryptor.make_default 0 5 6 7 MEDIA_TYPE_VIDEO [0; 1; 254] =
  Ok (0, kOk, [0; 1; 254]).
Proof.
  apply (full_mode_roundtrip HCCrypto.make_default HCCryptoDecryptor.make_default);
    [exact default_paired|reflexivity|reflexivity|reflexivity|simpl; lia|].
  split; [solve_bytes|unfold size; simpl; lia].
Defined.

(** A frame that the encryptor passes through in the clear (key-frame-only
    mode, and the frame is no video key frame) is delivered as it was sent,
    whatever key, version and mode the decryptor has. *)
Theorem clear_frame_roundtrip c d t0 t1 now t2 mt frame :
  paired c d -> HCCrypto.use_sm4_encryption_ c = false ->
  is_vp8_key_frame mt frame = false -> frame_ok frame ->
  transmit c d t0 t1 now t2 mt frame = Ok (HCCrypto.status_OK, kOk, frame).
Proof.
  intros Hp Hc Hk Hf. rewrite transmit_eq by done.
  unfold perform_crypto, plaintext, decrypts. by rewrite Hc, Hk.
Qed.

Lemma clear_frame_roundtrip_witness :
  transmit (HCCrypto.EnableSM4Encryption HCCrypto.make_default false) HCCryptoDecryptor.make_default
    0 5 6 7 MEDIA_TYPE_VIDEO [1; 2; 3] = Ok (0, kOk, [1; 2; 3]).
Proof.
  apply (clear_frame_roundtrip (HCCrypto.EnableSM4Encryption HCCrypto.make_default false)
           HCCryptoDecryptor.make_default); [|reflexivity|reflexivity|].
  - constructor; try reflexivity. solve_bytes.
  - split; [solve_bytes|unfold size; simpl; lia].
Defined.

(** C6. In key-frame-only mode a key frame survives only under half of the
    keys: the decryptor decides whether a frame is a key frame on the
    encrypted first byte, so the frame is delivered as sent when the lowest
    bit of the first key-stream byte is 0, and delivered still encrypted, with
    a success status, when it is 1. *)
Theorem key_only_mode_key_frame c d t0 t1 now t2 frame :
  paired c d -> HCCrypto.use_sm4_encryption_ c = false ->
  HCCryptoDecryptor.use_sm4_decryption_ d = false ->
  HCCrypto.key_version_ c = HCCryptoDecryptor.key_version_ d ->
  0 <= HCCrypto.key_version_ c < 128 -> frame_ok frame ->
  is_vp8_key_frame MEDIA_TYPE_VIDEO frame = true ->
  transmit c d t0 t1 now t2 MEDIA_TYPE_VIDEO frame =
  Ok (HCCrypto.status_OK, kOk,
      if Z.testbit (first_key_byte (HCCrypto.sm4_key_ c) (HCCrypto.sm4_ctr_ c)) 0
      then (sm4_ctr_encrypt (HCCrypto.sm4_key_ c) (HCCrypto.sm4_ctr_ c) frame).2
      else frame).
Proof.
  intros Hp Hc Hd Hv Hr [Hf Hs] Hk. rewrite transmit_eq by (done || by split).
  unfold perform_crypto, plaintext, decrypts. rewrite Hc, Hd, Hk. cbv zeta.
  rewrite postfix_of_encrypted, postfix_of_version, Z.mod_small, <- Hv, Z.eqb_refl by done.
  destruct (key_frame_shape _ _ Hk) as (_ & b & l & -> & Hbit).
  destruct (sm4_crypt_head (HCCrypto.sm4_key_ c) (HCCrypto.sm4_ctr_ c) b l) as [l' Hl'];
    [apply Hp|apply Hp|done|].
  rewrite Hl'. cbn [app]. rewrite key_frame_bit, Z.lxor_spec, Hbit, xorb_false_l, <- Hl'.
  rewrite <- (paired_key c d), <- (paired_ctr c d) by done.
  generalize (Z.testbit (first_key_byte (HCCrypto.sm4_key_ c) (HCCrypto.sm4_ctr_ c)) 0).
  intros [|]; cbn [negb orb andb]; [reflexivity|].
  by rewrite sm4_crypt_involutive by (done || apply Hp).
Qed.

(** A pair whose first key-stream byte is odd: the key frame arrives
    encrypted. *)
Lemma key_only_mode_key_frame_witness :
  let c := HCCrypto.EnableSM4Encryption (HCCrypto.SetFakeKey HCCrypto.make_default 1) false in
  let d := HCCryptoDecryptor.EnableSM4Decryption
             (HCCryptoDecryptor.SetFakeKey HCCryptoDecryptor.make_default 1) false in
  exists out, transmit c d 0 5 6 7 MEDIA_TYPE_VIDEO [0; 1; 2] = Ok (0, kOk, out) /\ out <> [0; 1; 2].
Proof.
  intros c d. eexists. split.
  - apply (key_only_mode_key_frame c d);
      [|reflexivity|reflexivity|reflexivity|simpl; lia| |reflexivity].
    + constructor; try reflexivity. solve_bytes.
    + split; [solve_bytes|unfold size; simpl; lia].
  - vm_compute. congruence.
Defined.



Lemma keystream_extend key v n m : exists tail, keystream key v (n + m) = keystream key v n ++ tail.
Proof.
  revert v. induction n as [|n IH]; intros v; [by eexists|]. cbn [Nat.add keystream].
  destruct (IH (ctr_next v)) as [tl ->]. exists tl. apply app_assoc.
Qed.

Lemma xor_bytes_long l k k' : (length l <= length k)%nat -> xor_bytes l (k ++ k') = xor_bytes l k.
Proof.
  revert k. induction l as [|b l IH]; intros [|x k] Hl; simpl in *; [done|done|lia|].
  f_equal. apply IH. lia.
Qed.

Lemma sm4_crypt_prefix key ctr p n :
  length ctr = 16%nat -> bytes ctr -> bytes p -> (length p <= n)%nat ->
  (sm4_ctr_encrypt key ctr p).2 = xor_bytes p (frame_keystream key ctr n).
Proof.
  intros Hl Hb Hp Hn. rewrite sm4_ctr_encrypt_output by done. unfold frame_keystream.
  pose proof (Nat.Div0.div_le_mono _ _ 16 Hn) as Hq.
  replace (n / 16 + 1)%nat with ((length p / 16 + 1) + (n / 16 - length p / 16))%nat by lia.
  destruct (keystream_extend key (ctr_value ctr) (length p / 16 + 1) (n / 16 - length p / 16)) as [tl ->].
  by rewrite xor_bytes_long by apply frame_keystream_long.
Qed.

(** C8. The key stream is the same for every frame: the counter is copied
    before each call and never stored back, so from two frames encrypted in
    a row anyone obtains the exclusive or of the two payloads without the
    key. *)
Theorem keystream_reuse c t0 t1 t2 t3 mt1 mt2 frame1 frame2 buffer1 buffer2 r1 r2 :
  length (HCCrypto.sm4_ctr_ c) = 16%nat -> bytes (HCCrypto.sm4_ctr_ c) ->
  HCCrypto.fail_encryption_ c = false -> HCCrypto.use_sm4_encryption_ c = true ->
  bytes frame1 -> bytes frame2 ->
  HCCrypto.Encrypt c t0 t1 mt1 frame1 buffer1 0 = Ok r1 ->
  HCCrypto.Encrypt (HCCrypto.self r1) t2 t3 mt2 frame2 buffer2 0 = Ok r2 ->
  xor_bytes (take (length frame1) (HCCrypto.encrypted_frame r1))
            (take (length frame2) (HCCrypto.encrypted_frame r2)) =
  xor_bytes frame1 frame2.
Proof.
  intros Hl Hb Hfail Huse Hf1 Hf2 H1 H2.
  unfold HCCrypto.Encrypt in H1. rewrite Hfail, Huse in H1.
  destruct (u64 (size frame1 + 1) =? size buffer1); [|done]. injection H1 as <-.
  unfold HCCrypto.Encrypt in H2. cbn [HCCrypto.self HCCrypto.set_stats HCCrypto.fail_encryption_
    HCCrypto.use_sm4_encryption_ HCCrypto.sm4_key_ HCCrypto.sm4_ctr_] in H2.
  rewrite Hfail, Huse in H2.
  destruct (u64 (size frame2 + 1) =? size buffer2); [|done]. injection H2 as <-.
  cbn [HCCrypto.encrypted_frame negb].
  rewrite !take_app_length' by (symmetry; by apply sm4_crypt_length).
  pose (n := (length frame1 + length frame2)%nat).
  rewrite (sm4_crypt_prefix _ _ frame1 n), (sm4_crypt_prefix _ _ frame2 n) by (done || lia).
  pose proof (frame_keystream_long (HCCrypto.sm4_key_ c) (HCCrypto.sm4_ctr_ c) n).
  apply xor_bytes_two_time; lia.
Qed.

Lemma keystream_reuse_witness :
  exists r1 r2,
    HCCrypto.Encrypt HCCrypto.make_default 0 5 MEDIA_TYPE_AUDIO [1; 2; 3] [0; 0; 0; 0] 0 = Ok r1 /\
    HCCrypto.Encrypt (HCCrypto.self r1) 0 5 MEDIA_TYPE_AUDIO [7; 7; 7] [0; 0; 0; 0] 0 = Ok r2 /\
    xor_bytes (take 3 (HCCrypto.encrypted_frame r1)) (take 3 (HCCrypto.encrypted_frame r2)) = [6; 5; 4].
Proof.
  eexists. eexists. split; [reflexivity|]. split; [reflexivity|].
  refine (keystream_reuse HCCrypto.make_default 0 5 0 5 MEDIA_TYPE_AUDIO MEDIA_TYPE_AUDIO
            [1; 2; 3] [7; 7; 7] [0; 0; 0; 0] [0; 0; 0; 0] _ _ _ _ _ _ _ _ _ _);
    [reflexivity|solve_bytes|reflexivity|reflexivity|solve_bytes|solve_bytes|reflexivity|reflexivity].
Defined.

(** ** Invariants over every sequence of calls *)

(** A bound on what the microsecond clock shows (about 570 years); 300 frames
    of that length still fit an [int64_t]. *)
Definition CLOCK_MAX : Z := 2 ^ 54.

Definition clock_ok (t0 t1 : Z) : Prop := 0 <= t0 <= t1 /\ t1 < CLOCK_MAX.

Definition block_ok (l : list Z) : Prop := length l = 16%nat /\ bytes l.

Module EncryptorInvariant.
Import HCCrypto.

(** The statistics count at most 299 frames and never leave the range of
    their types. *)
Record stats_ok (s : stats) : Prop := StatsOk {
  frames : 0 <= v_frame_count_ s < 300;
  keys : 0 <= v_key_frame_count_ s <= v_frame_count_ s;
  total : 0 <= v_total_us_ s <= v_frame_count_ s * CLOCK_MAX;
  key_total : 0 <= v_key_frame_total_us_ s <= v_total_us_ s;
  max : 0 <= v_max_us_ s <= v_key_frame_total_us_ s }.

(** The expanded key always belongs to the stored key bytes. *)
Record wf (c : t) : Prop := Wf {
  wf_key : sm4_key_ c = sm4_set_encrypt_key (sm4_key_bytes_ c);
  wf_key_bytes : block_ok (sm4_key_bytes_ c);
  wf_ctr : block_ok (sm4_ctr_ c);
  wf_stats : stats_ok (v_stats c) }.

(** The calls callers may make: 16-byte keys and counters, buffers of the
    size the encryptor asks for, a clock that does not run backwards. *)
Definition op_ok (o : op) : Prop :=
  match o with
  | OpEncrypt t0 t1 mt frame buffer =>
      clock_ok t0 t1 /\ frame_ok frame /\
      size buffer = GetMaxCiphertextByteSize mt (size frame)
  | OpSetFakeKey k => byte k
  | OpSetSM4Key k | OpSetSM4KeyWithVersion k _ => block_ok k
  | OpSetSM4CTR v => block_ok v
  | _ => True
  end.

Lemma stats0_ok : stats_ok stats0.
Proof. constructor; simpl; lia. Qed.

Lemma count_frame_ok s k t0 t1 : stats_ok s -> clock_ok t0 t1 -> stats_ok (count_frame s k (t1 - t0)).
Proof.
  intros [Hf Hk Ht Hkt Hm] [Hc Hc']. unfold count_frame. cbv zeta.
  assert (He : 0 <= t1 - t0 <= CLOCK_MAX) by lia. unfold CLOCK_MAX in *.
  rewrite (u64_small (v_frame_count_ s + 1)) by lia.
  destruct k; simpl.
  all: destruct (Z.geb_spec (v_frame_count_ s + 1) 300); [apply stats0_ok|].
  - rewrite u64_small by lia.
    destruct (Z.gtb_spec (t1 - t0) (v_max_us_ s)); constructor; simpl; unfold CLOCK_MAX; lia.
  - constructor; simpl; unfold CLOCK_MAX; lia.
Qed.

Lemma default_key_ok : block_ok DEFAULT_SM4_KEY.
Proof. split; [reflexivity|solve_bytes]. Qed.
Lemma default_ctr_ok : block_ok DEFAULT_SM4_CTR.
Proof. split; [reflexivity|solve_bytes]. Qed.
Lemma replicate_ok k : byte k -> block_ok (replicate 16 k).
Proof. intros Hk. split; [done|]. by apply Forall_replicate. Qed.

Lemma make_wf fake postfix : wf (make fake postfix).
Proof. constructor; [reflexivity|apply default_key_ok|apply default_ctr_ok|apply stats0_ok]. Qed.

Lemma set_key_wf c fk k v : wf c -> block_ok k -> wf (set_key c fk k v).
Proof. intros [] Hk. by constructor. Qed.

Lemma step_wf c o : wf c -> op_ok o -> post (step c o) wf (fun _ => False).
Proof.
  intros Hc Ho. pose proof Hc as [Hk Hkb Hctr Hst].
  destruct o; cbn [step op_ok] in *;
    try (apply post_Ok; first [apply set_key_wf; assumption | constructor; assumption]).
  - destruct Ho as (Hclk & Hf & Hs). apply post_bind.
    destruct (fail_encryption_ c) eqn:Hfail.
    + rewrite Encrypt_fail by done. by apply post_Ok, post_Ok.
    + rewrite Encrypt_eq by done. apply post_Ok, post_Ok.
      constructor; try assumption. cbn [self set_stats v_stats]. unfold stats_after.
      destruct (decide _); [by apply count_frame_ok|done].
  - apply post_Ok, set_key_wf; [assumption|by apply replicate_ok].
Qed.
End EncryptorInvariant.

(** C9. After any sequence of admissible calls on a new encryptor, none of which
    aborts or throws, the expanded key is that of the stored key bytes, and
    the statistics are in range: fewer than 300 frames, no more key frames than
    frames, and every microsecond counter within its 64 bits. *)
Theorem encryptor_invariant fake postfix ops :
  Forall EncryptorInvariant.op_ok ops ->
  exists c, for_fold HCCrypto.step (HCCrypto.make fake postfix) ops = Ok c /\
            EncryptorInvariant.wf c /\
            HCCrypto.v_total_us_ (HCCrypto.v_stats c) < 2 ^ 63.
Proof.
  intros Hops.
  destruct (post_total (for_fold HCCrypto.step (HCCrypto.make fake postfix) ops)
              EncryptorInvariant.wf) as (c & Hc & Hwf).
  { eapply for_fold_post; [exact Hops| |apply EncryptorInvariant.make_wf].
    intros; by apply EncryptorInvariant.step_wf. }
  exists c. split; [done|]. split; [done|]. destruct (EncryptorInvariant.wf_stats c Hwf).
  unfold CLOCK_MAX in *. lia.
Qed.

Lemma encryptor_invariant_witness :
  exists c,
    for_fold HCCrypto.step (HCCrypto.make 0xAA 255)
      [HCCrypto.OpSetFakeKey 3; HCCrypto.OpEncrypt 10 25 MEDIA_TYPE_VIDEO [0; 1] [9; 9; 9];
       HCCrypto.OpEnableSM4Encryption false] = Ok c /\
    EncryptorInvariant.wf c /\ HCCrypto.v_total_us_ (HCCrypto.v_stats c) < 2 ^ 63.
Proof.
  apply (encryptor_invariant 0xAA 255).
  repeat constructor; simpl; try (unfold byte, in_range, CLOCK_MAX, size; simpl; lia).
Defined.

Module DecryptorInvariant.
Import HCCryptoDecryptor.

Record wf (d : t) : Prop := Wf {
  wf_key : sm4_key_ d = sm4_set_encrypt_key (sm4_key_bytes_ d);
  wf_key_bytes : block_ok (sm4_key_bytes_ d);
  wf_ctr : block_ok (sm4_ctr_ d);
  wf_frames : 0 <= v_frame_count_ d < 300;
  wf_total : 0 <= v_total_us_ d <= v_frame_count_ d * CLOCK_MAX;
  wf_mismatch : 0 <= version_mismatch_count_ d < 2 ^ 64;
  wf_start : 0 <= version_mismatch_start_time_ d < CLOCK_MAX }.

Definition op_ok (o : op) : Prop :=
  match o with
  | OpDecrypt t0 now t1 mt data buffer =>
      clock_ok t0 now /\ clock_ok now t1 /\ 0 < size data < 2 ^ 64 /\
      size buffer = GetMaxPlaintextByteSize mt (size data)
  | OpSetFakeKey k => byte k
  | OpSetSM4Key k | OpSetSM4KeyWithVersion k _ => block_ok k
  | OpSetSM4CTR v => block_ok v
  | _ => True
  end.

Lemma dec_make_wf fake postfix : wf (make fake postfix).
Proof.
  constructor; try (simpl; unfold CLOCK_MAX; lia);
    [reflexivity|apply EncryptorInvariant.default_key_ok|apply EncryptorInvariant.default_ctr_ok].
Qed.

Lemma dec_set_key_wf d fk k v : wf d -> block_ok k -> wf (set_key d fk k v).
Proof. intros [] Hk. constructor; try assumption. reflexivity. Qed.

Lemma set_flags_wf d p f ctr u : wf d -> block_ok ctr -> wf (set_flags d p f ctr u).
Proof. intros [] Hk. constructor; assumption. Qed.

Lemma track_version_wf d m now : wf d -> 0 <= now < CLOCK_MAX -> wf (track_version d m now).
Proof.
  intros Hd Hn. pose proof Hd as [Hk Hkb Hc Hf Ht Hm Hs]. unfold track_version. destruct m.
  - constructor; try assumption; [apply u64_range|].
    cbn [set_mismatch version_mismatch_start_time_]. by destruct (_ =? 0).
  - destruct (_ >? 0); [|assumption]. constructor; try assumption; simpl; lia.
Qed.

Lemma count_frame_wf d t0 t1 : wf d -> clock_ok t0 t1 -> wf (count_frame d (t1 - t0)).
Proof.
  intros [Hk Hkb Hc Hf Ht Hm Hs] [H1 H2]. unfold count_frame. cbv zeta.
  rewrite u64_small by lia.
  destruct (Z.geb_spec (v_frame_count_ d + 1) 300); constructor; try assumption; simpl;
    unfold CLOCK_MAX in *; lia.
Qed.

(** A buffer of the size the decryptor asks for has room for all but the
    last byte of the data. *)
Lemma data_split mt data buffer :
  0 < size data < 2 ^ 64 -> size buffer = GetMaxPlaintextByteSize mt (size data) ->
  exists body postfix, data = body ++ [postfix] /\ length buffer = length body /\
                       size body + 1 < 2 ^ 64.
Proof.
  intros Hs Hb. unfold GetMaxPlaintextByteSize in Hb. rewrite u64_small in Hb by lia.
  destruct data as [|x data _] using rev_ind; [unfold size in Hs; simpl in Hs; lia|].
  rewrite size_app_one in *. exists data, x. split; [done|]. unfold size in *. lia.
Qed.

Lemma dec_step_wf d o : wf d -> op_ok o -> post (step d o) wf (fun _ => False).
Proof.
  intros Hd Ho. pose proof Hd as [Hk Hkb Hctr _ _ _ _].
  destruct o; cbn [step op_ok] in *;
    try (apply post_Ok; first [apply dec_set_key_wf; assumption | apply set_flags_wf; assumption]).
  - destruct Ho as (Hc1 & Hc2 & Hs & Hb). apply post_bind.
    destruct (fail_decryption_ d) eqn:Hfail.
    { rewrite Decrypt_fail by done. by apply post_Ok, post_Ok. }
    destruct (data_split _ _ _ Hs Hb) as (body & pf & -> & Hl & Hs').
    rewrite Decrypt_eq by done. apply post_Ok, post_Ok. cbn [self]. unfold after. cbv zeta.
    assert (wf (track_version d (version_mismatch d pf) now)).
    { apply track_version_wf; [assumption|]. destruct Hc1, Hc2. lia. }
    destruct (decide _); [|assumption].
    apply count_frame_wf; [assumption|]. destruct Hc1, Hc2. split; lia.
  - apply post_Ok, dec_set_key_wf; [assumption|by apply EncryptorInvariant.replicate_ok].
Qed.
End DecryptorInvariant.

(** C10. After any sequence of admissible calls on a new decryptor, none of
    which aborts or throws, the expanded key is that of the stored key bytes
    and the counters are in range. *)
Theorem decryptor_invariant fake postfix ops :
  Forall DecryptorInvariant.op_ok ops ->
  exists d, for_fold HCCryptoDecryptor.step (HCCryptoDecryptor.make fake postfix) ops = Ok d /\
            DecryptorInvariant.wf d.
Proof.
  intros Hops. apply post_total.
  eapply for_fold_post; [exact Hops| |apply DecryptorInvariant.dec_make_wf].
  intros; by apply DecryptorInvariant.dec_step_wf.
Qed.

Lemma decryptor_invariant_witness :
  exists d,
    for_fold HCCryptoDecryptor.step (HCCryptoDecryptor.make 0xAA 255)
      [HCCryptoDecryptor.OpSetSM4KeyWithVersion DEFAULT_SM4_KEY 5;
       HCCryptoDecryptor.OpDecrypt 10 25 30 MEDIA_TYPE_VIDEO [0; 1; 0x82] [9; 9]] = Ok d /\
    DecryptorInvariant.wf d.
Proof.
  apply (decryptor_invariant 0xAA 255).
  repeat constructor; simpl; try (unfold byte, in_range, CLOCK_MAX, size; simpl; lia).
Defined.

(** ** Counting version mismatches *)

(** A received frame whose postfix byte carries another version than the
    decryptor's. *)
Record mismatched : Type := Mismatched {
  m_start : Z; m_now : Z; m_end : Z; m_type : MediaType; m_body : list Z; m_postfix : Z }.

Definition decrypt_one (d : HCCryptoDecryptor.t) (m : mismatched) : res HCCryptoDecryptor.t :=
  HCCryptoDecryptor.step d
    (HCCryptoDecryptor.OpDecrypt (m_start m) (m_now m) (m_end m) (m_type m)
       (m_body m ++ [m_postfix m]) (replicate (length (m_body m)) 0)).

Definition mismatched_ok (version : Z) (m : mismatched) : Prop :=
  HCCryptoDecryptor.frame_encrypted (m_postfix m) = true /\
  HCCryptoDecryptor.frame_version (m_postfix m) <> version /\
  0 < m_now m /\ size (m_body m) + 1 < 2 ^ 64.

Lemma decrypt_one_eq d m :
  HCCryptoDecryptor.fail_decryption_ d = false -> size (m_body m) + 1 < 2 ^ 64 ->
  decrypt_one d m = Ok (after d (m_type m) (m_postfix m) (m_now m) (m_end m - m_start m)).
Proof.
  intros Hf Hs. unfold decrypt_one, HCCryptoDecryptor.step.
  by rewrite Decrypt_eq by (done || apply length_replicate).
Qed.

Lemma after_fields d mt pf now e :
  let d' := after d mt pf now e in
  let d1 := HCCryptoDecryptor.track_version d (version_mismatch d pf) now in
  HCCryptoDecryptor.fail_decryption_ d' = HCCryptoDecryptor.fail_decryption_ d /\
  HCCryptoDecryptor.key_version_ d' = HCCryptoDecryptor.key_version_ d /\
  HCCryptoDecryptor.version_mismatch_count_ d' = HCCryptoDecryptor.version_mismatch_count_ d1 /\
  HCCryptoDecryptor.version_mismatch_start_time_ d' = HCCryptoDecryptor.version_mismatch_start_time_ d1.
Proof.
  cbv zeta. unfold after, HCCryptoDecryptor.count_frame, HCCryptoDecryptor.track_version.
  destruct (decide _), (version_mismatch d pf); cbv zeta;
    repeat match goal with |- context [if ?b then _ else _] => destruct b end; repeat split.
Qed.

Section MismatchCounting.
Context (version : Z).

(** The state of the counters after [n] mismatches, the first at [start]. *)
Definition counting (d : HCCryptoDecryptor.t) (n start : Z) : Prop :=
  HCCryptoDecryptor.fail_decryption_ d = false /\
  HCCryptoDecryptor.key_version_ d = version /\
  HCCryptoDecryptor.version_mismatch_count_ d = n /\
  HCCryptoDecryptor.version_mismatch_start_time_ d = start.

Lemma decrypt_one_counting d m n start :
  counting d n start -> mismatched_ok version m -> 0 <= n -> n + 1 < 2 ^ 64 ->
  exists d', decrypt_one d m = Ok d' /\
             counting d' (n + 1) (if start =? 0 then m_now m else start).
Proof.
  intros (Hf & Hv & Hn & Hst) (He & Hver & Hnow & Hs) Hn0 Hn1. eexists.
  split; [by apply decrypt_one_eq|].
  destruct (after_fields d (m_type m) (m_postfix m) (m_now m) (m_end m - m_start m))
    as (H1 & H2 & H3 & H4).
  unfold counting. rewrite H1, H2, H3, H4, Hf, Hv.
  assert (Hm : version_mismatch d (m_postfix m) = true).
  { unfold version_mismatch. rewrite He, Hv. apply negb_true_iff, Z.eqb_neq, Hver. }
  rewrite Hm. cbn. rewrite Hn, Hst, u64_small by lia. done.
Qed.

Lemma for_fold_counting ms d n start :
  counting d n start -> start <> 0 -> Forall (mismatched_ok version) ms -> 0 <= n ->
  n + Z.of_nat (length ms) < 2 ^ 64 ->
  exists d', for_fold decrypt_one d ms = Ok d' /\ counting d' (n + Z.of_nat (length ms)) start.
Proof.
  intros Hc Hst Hms. revert d n Hc.
  induction Hms as [|m ms Hm Hms IH]; intros d n Hc Hn Hlt;
    cbn [length for_fold] in *.
  { exists d. by rewrite Z.add_0_r. }
  destruct (decrypt_one_counting d m n start Hc Hm Hn) as (d' & -> & Hc'); [lia|].
  rewrite (proj2 (Z.eqb_neq start 0) Hst) in Hc'. cbn [bind].
  destruct (IH d' (n + 1) Hc') as (d'' & E & Hc''); [lia|lia|].
  exists d''. split; [done|]. replace (n + _) with (n + 1 + Z.of_nat (length ms)) by lia. done.
Qed.
End MismatchCounting.

(** Starting from cleared counters, a run of frames with another key
    version counts each of them and keeps the time of the first; the first
    frame after it that is not a mismatch clears both. *)
Theorem mismatch_run_counted d m ms good :
  let version := HCCryptoDecryptor.key_version_ d in
  HCCryptoDecryptor.fail_decryption_ d = false ->
  HCCryptoDecryptor.version_mismatch_count_ d = 0 ->
  HCCryptoDecryptor.version_mismatch_start_time_ d = 0 ->
  Forall (mismatched_ok version) (m :: ms) -> Z.of_nat (length (m :: ms)) < 2 ^ 64 ->
  size (m_body good) + 1 < 2 ^ 64 ->
  version_mismatch d (m_postfix good) = false ->
  exists d1 d2,
    for_fold decrypt_one d (m :: ms) = Ok d1 /\ decrypt_one d1 good = Ok d2 /\
    HCCryptoDecryptor.version_mismatch_count_ d1 = Z.of_nat (length (m :: ms)) /\
    HCCryptoDecryptor.version_mismatch_start_time_ d1 = m_now m /\
    HCCryptoDecryptor.version_mismatch_count_ d2 = 0 /\
    HCCryptoDecryptor.version_mismatch_start_time_ d2 = 0.
Proof.
  intros version Hf Hc Hst Hms Hlen Hg Hgood. inversion Hms as [|? ? Hm Hms']; subst.
  destruct (decrypt_one_counting version d m 0 0) as (d0 & E0 & Hd0); try done.
  pose proof Hm as (_ & _ & Hnow & _). cbn [length Z.eqb] in *.
  destruct (for_fold_counting version ms d0 1 (m_now m)) as (d1 & E1 & Hd1); try done; [lia|lia|].
  destruct Hd1 as (Hf1 & Hv1 & Hn1 & Hs1). exists d1. eexists.
  split; [simpl; by rewrite E0|]. split; [by apply decrypt_one_eq|].
  destruct (after_fields d1 (m_type good) (m_postfix good) (m_now good) (m_end good - m_start good))
    as (_ & _ & -> & ->).
  assert (Hno : version_mismatch d1 (m_postfix good) = false).
  { revert Hgood. unfold version_mismatch. by rewrite Hv1. }
  rewrite Hno. unfold HCCryptoDecryptor.track_version. rewrite Hn1.
  rewrite (proj2 (Z.gtb_gt _ 0)) by lia. simpl. repeat split; try done. lia.
Qed.

Lemma mismatch_run_counted_witness :
  exists d1 d2,
    for_fold decrypt_one HCCryptoDecryptor.make_default
      [Mismatched 1 2 3 MEDIA_TYPE_VIDEO [4; 5] 0x81; Mismatched 4 5 6 MEDIA_TYPE_AUDIO [] 0x82]
    = Ok d1 /\ decrypt_one d1 (Mismatched 7 8 9 MEDIA_TYPE_AUDIO [1] 0) = Ok d2 /\
    HCCryptoDecryptor.version_mismatch_count_ d1 = 2 /\
    HCCryptoDecryptor.version_mismatch_start_time_ d1 = 2 /\
    HCCryptoDecryptor.version_mismatch_count_ d2 = 0 /\
    HCCryptoDecryptor.version_mismatch_start_time_ d2 = 0.
Proof.
  apply (mismatch_run_counted HCCryptoDecryptor.make_default
           (Mismatched 1 2 3 MEDIA_TYPE_VIDEO [4; 5] 0x81) [Mismatched 4 5 6 MEDIA_TYPE_AUDIO [] 0x82]);
    try reflexivity.
  repeat constructor; simpl; unfold size; simpl; try lia; discriminate.
Defined.
