(* ===== verification/BufferedFrameDecryptor.v ===== *)
(** The two ends that call the frame encryptor and decryptor for video:
    [RTPSenderVideo::SendVideo] (the part that encrypts the payload) and
    [BufferedFrameDecryptor].

    Models [modules/rtp_rtcp/source/rtp_sender_video.cc] (lines 598-624) and
    [video/buffered_frame_decryptor.{h,cc}].  The receiving end is written
    against the interface [FrameDecryptorInterface]: a class of operations, and
    a class of the laws the implementation promises; [HCCryptoDecryptor] is
    shown to satisfy them. *)

From Stdlib Require Import ZArith Lia.
From S2P Require Import Prelude Words Sm4 FrameCrypto.

(** ** The decryptor interface *)

(** [FrameDecryptorInterface]; [D] is the decryptor together with the clock it
    reads.  [Decrypt] returns the object, the status, the number of bytes
    written and the output buffer. *)
Class FrameDecryptorInterface (D : Type) : Type := {
  GetMaxPlaintextByteSize : D -> MediaType -> Z -> Z;
  Decrypt : D -> MediaType -> list Z -> list Z -> list Z -> res (D * Status * Z * list Z) }.

(** What the callers rely on, for objects in the invariant [dec_ok]: the
    plaintext of a frame that is not empty is not longer than the frame, and a
    call with a buffer of the promised size returns, keeps the invariant and
    the size of the buffer and does not report more bytes than that. *)
Class FrameDecryptorLaws (D : Type) `{FrameDecryptorInterface D} : Type := {
  dec_ok : D -> Prop;
  dec_max : forall d mt n, 0 < n < 2 ^ 64 -> 0 <= GetMaxPlaintextByteSize d mt n <= n;
  dec_returns : forall d mt aad data buffer,
    dec_ok d -> bytes data -> bytes buffer -> 0 < size data < 2 ^ 64 ->
    size buffer = GetMaxPlaintextByteSize d mt (size data) ->
    exists d' st n out,
      Decrypt d mt aad data buffer = Ok (d', st, n, out) /\
      dec_ok d' /\ bytes out /\ length out = length buffer /\ (st = kOk -> 0 <= n <= size buffer) }.

Module BufferedFrameDecryptor.

Definition kMaxStashedFrames : nat := 24.

(** [RtpFrameObject]: the payload and the bytes
    [RtpDescriptorAuthentication] derives from the header. *)
Record RtpFrameObject : Type := Frame {
  data : list Z;
  header_auth : list Z }.

Inductive FrameDecision : Set := kStash | kDecrypted | kDrop.

(** Calls to the two callbacks. *)
Inductive event : Type :=
| OnDecryptedFrame (frame : RtpFrameObject)
| OnDecryptionStatusChange (status : Status).

Record t (D : Type) : Type := Mk {
  generic_descriptor_auth_experiment_ : bool;
  first_frame_decrypted_ : bool;
  last_status_ : Status;
  frame_decryptor_ : option D;
  stashed_frames_ : list RtpFrameObject;
  events : list event }.
Arguments Mk {D} _ _ _ _ _ _.
Arguments generic_descriptor_auth_experiment_ {D} _.
Arguments first_frame_decrypted_ {D} _.
Arguments last_status_ {D} _.
Arguments frame_decryptor_ {D} _.
Arguments stashed_frames_ {D} _.
Arguments events {D} _.

Section Operations.
Context {D : Type} `{FrameDecryptorInterface D}.

Definition make (experiment : bool) : t D := Mk experiment false kUnknown None [] [].

Definition SetFrameDecryptor (b : t D) (frame_decryptor : option D) : t D :=
  Mk (generic_descriptor_auth_experiment_ b) (first_frame_decrypted_ b) (last_status_ b)
     frame_decryptor (stashed_frames_ b) (events b).

Definition set_stash (b : t D) (stash : list RtpFrameObject) : t D :=
  Mk (generic_descriptor_auth_experiment_ b) (first_frame_decrypted_ b) (last_status_ b)
     (frame_decryptor_ b) stash (events b).

Definition notify (b : t D) (e : event) : t D :=
  Mk (generic_descriptor_auth_experiment_ b) (first_frame_decrypted_ b) (last_status_ b)
     (frame_decryptor_ b) (stashed_frames_ b) (events b ++ [e]).

(** [DecryptFrame]: the plaintext is written over the frame, whose prefix
    of [max_plaintext_byte_size] bytes is the output buffer. *)
Definition DecryptFrame (b : t D) (frame : RtpFrameObject)
    : res (t D * RtpFrameObject * FrameDecision) :=
  match frame_decryptor_ b with
  | None => Ok (b, frame, kStash)
  | Some d =>
      let max_plaintext_byte_size :=
        GetMaxPlaintextByteSize d MEDIA_TYPE_VIDEO (size (data frame)) in
      if negb (max_plaintext_byte_size <=? size (data frame)) then
        Fatal "max_plaintext_byte_size <= frame->size()"
      else
        let n := Z.to_nat max_plaintext_byte_size in
        let additional_data :=
          if generic_descriptor_auth_experiment_ b then header_auth frame else [] in
        let* (d', status, bytes_written, out) :=
          Decrypt d MEDIA_TYPE_VIDEO additional_data (data frame) (take n (data frame)) in
        let frame := Frame (out ++ drop n (data frame)) (header_auth frame) in
        let b := Mk (generic_descriptor_auth_experiment_ b) (first_frame_decrypted_ b)
                    status (Some d') (stashed_frames_ b)
                    (if decide (status = last_status_ b) then events b
                     else events b ++ [OnDecryptionStatusChange status]) in
        if negb (bool_decide (status = kOk)) then
          Ok (b, frame, if first_frame_decrypted_ b then kDrop else kStash)
        else if negb (bytes_written <=? max_plaintext_byte_size) then
          Fatal "decrypt_result.bytes_written <= max_plaintext_byte_size"
        else
          let frame := Frame (take (Z.to_nat bytes_written) (data frame)) (header_auth frame) in
          let b := Mk (generic_descriptor_auth_experiment_ b) true (last_status_ b)
                      (frame_decryptor_ b) (stashed_frames_ b) (events b) in
          Ok (b, frame, kDecrypted)
  end.

Definition RetryStashedFrames (b : t D) : res (t D) :=
  let* b := for_fold (fun b frame =>
      let* (b, frame, decision) := DecryptFrame b frame in
      match decision with
      | kDecrypted => Ok (notify b (OnDecryptedFrame frame))
      | _ => Ok b
      end) b (stashed_frames_ b) in
  Ok (set_stash b []).

Definition ManageEncryptedFrame (b : t D) (encrypted_frame : RtpFrameObject) : res (t D) :=
  let* (b, frame, decision) := DecryptFrame b encrypted_frame in
  match decision with
  | kStash =>
      let stash :=
        if Nat.leb kMaxStashedFrames (length (stashed_frames_ b))
        then drop 1 (stashed_frames_ b) else stashed_frames_ b in
      Ok (set_stash b (stash ++ [frame]))
  | kDecrypted =>
      let* b := RetryStashedFrames b in
      Ok (notify b (OnDecryptedFrame frame))
  | kDrop => Ok b
  end.
End Operations.
End BufferedFrameDecryptor.
Import BufferedFrameDecryptor.

(** ** The sender *)

(** The encryption step of [RTPSenderVideo::SendVideo]: [None] when the frame is
    not sent ([return false]), otherwise the encryptor and the payload that is
    packetised.  Without an encryptor the payload goes out as it is, also when
    [require_frame_encryption_] is set, which only logs a warning. *)
Definition SendVideo_encrypt (frame_encryptor_ : option HCCrypto.t)
    (require_frame_encryption_ : bool) (t0 t1 : Z) (payload : list Z)
    : res (option (option HCCrypto.t * list Z)) :=
  match frame_encryptor_ with
  | Some c =>
      let max_ciphertext_size :=
        HCCrypto.GetMaxCiphertextByteSize MEDIA_TYPE_VIDEO (size payload) in
      let encrypted_video_payload := replicate (Z.to_nat max_ciphertext_size) 0 in
      let* r := HCCrypto.Encrypt c t0 t1 MEDIA_TYPE_VIDEO payload encrypted_video_payload 0 in
      if negb (HCCrypto.status r =? 0) then Ok None
      else Ok (Some (Some (HCCrypto.self r),
                     take (Z.to_nat (HCCrypto.bytes_written r)) (HCCrypto.encrypted_frame r)))
  | None => Ok (Some (None, payload))
  end.

(** ** [HCCryptoDecryptor] implements the interface *)

(** The decryptor and the readings of the clock still to come. *)
Record timed : Type := Timed {
  object : HCCryptoDecryptor.t;
  clock : nat -> Z;
  tick : nat }.

#[export] Instance HCCryptoDecryptor_interface : FrameDecryptorInterface timed := {
  GetMaxPlaintextByteSize _ mt n := HCCryptoDecryptor.GetMaxPlaintextByteSize mt n;
  Decrypt d mt _ encrypted_frame frame :=
    let* r := HCCryptoDecryptor.Decrypt (object d) (clock d (tick d)) (clock d (tick d + 1))
                (clock d (tick d + 2)) mt encrypted_frame frame in
    Ok (Timed (HCCryptoDecryptor.self r) (clock d) (tick d + 3),
        HCCryptoDecryptor.status r, HCCryptoDecryptor.bytes_written r, HCCryptoDecryptor.frame r) }.

Lemma plaintext_shape d mt body pf :
  block_ok (HCCryptoDecryptor.sm4_ctr_ d) -> bytes body ->
  bytes (plaintext d mt body pf) /\ length (plaintext d mt body pf) = length body.
Proof.
  intros [Hl Hb] Hbody. unfold plaintext. destruct (decrypts d mt _ pf); [|done].
  split; [by apply sm4_crypt_bytes|by apply sm4_crypt_length].
Qed.

Lemma after_ctr d mt pf now e :
  HCCryptoDecryptor.sm4_ctr_ (after d mt pf now e) = HCCryptoDecryptor.sm4_ctr_ d.
Proof.
  unfold after, HCCryptoDecryptor.count_frame, HCCryptoDecryptor.track_version.
  destruct (decide _), (version_mismatch d pf); cbv zeta;
    repeat match goal with |- context [if ?b then _ else _] => destruct b end; reflexivity.
Qed.

#[export] Instance HCCryptoDecryptor_laws : FrameDecryptorLaws timed.
Proof.
  refine {| dec_ok := fun d => block_ok (HCCryptoDecryptor.sm4_ctr_ (object d)) |}.
  - intros d mt n Hn. simpl. unfold HCCryptoDecryptor.GetMaxPlaintextByteSize.
    rewrite u64_small by lia. lia.
  - intros d mt aad data buffer Hd Hbd Hbb Hs Hb.
    cbn [GetMaxPlaintextByteSize Decrypt HCCryptoDecryptor_interface] in *.
    destruct (HCCryptoDecryptor.fail_decryption_ (object d)) eqn:Hf.
    { rewrite Decrypt_fail by done. do 4 eexists. split; [reflexivity|].
      split; [done|]. split; [done|]. split; [done|]. intros ?; discriminate. }
    destruct (DecryptorInvariant.data_split _ _ _ Hs Hb) as (body & pf & -> & Hl & Hs').
    rewrite Decrypt_eq by done. apply Forall_app in Hbd as [Hbody _].
    destruct (plaintext_shape (object d) mt body pf Hd Hbody) as [Hpb Hpl].
    do 4 eexists. split; [reflexivity|].
    cbn [object HCCryptoDecryptor.self HCCryptoDecryptor.frame HCCryptoDecryptor.bytes_written].
    rewrite after_ctr, Hpl. unfold size in *. split; [done|]. split; [done|]. split; lia.
Defined.

(** ** The buffer against the interface *)

Section Client.
Context {D : Type} `{FrameDecryptorLaws D}.

(** A frame the packet buffer may hand over: bytes, not empty. *)
Definition received_ok (f : RtpFrameObject) : Prop :=
  bytes (data f) /\ 0 < size (data f) < 2 ^ 64.

Record inv (b : t D) : Prop := Inv {
  inv_decryptor : forall d, frame_decryptor_ b = Some d -> dec_ok d;
  inv_stash : Forall received_ok (stashed_frames_ b);
  inv_bound : (length (stashed_frames_ b) <= kMaxStashedFrames)%nat }.

(** What one attempt leaves: the frame is still a frame of the same size
    unless it was decrypted, and the events only grow. *)
Lemma DecryptFrame_ok b f :
  inv b -> received_ok f ->
  exists b' f' decision,
    DecryptFrame b f = Ok (b', f', decision) /\ inv b' /\
    stashed_frames_ b' = stashed_frames_ b /\
    (decision <> kDecrypted -> received_ok f') /\
    (decision = kDecrypted -> first_frame_decrypted_ b' = true) /\
    (first_frame_decrypted_ b = true -> frame_decryptor_ b <> None -> decision <> kStash) /\
    (frame_decryptor_ b' = None <-> frame_decryptor_ b = None) /\
    events b `prefix_of` events b'.
Proof.
  intros [Hd Hst Hlen] [Hfb Hfs]. unfold DecryptFrame.
  destruct (frame_decryptor_ b) as [d|] eqn:Ed.
  2: { do 3 eexists. split; [reflexivity|]. split; [constructor; [by rewrite Ed|done|done]|].
       rewrite Ed. split; [done|]. split; [by split|]. split; [done|]. split; [done|]. by split. }
  pose proof (dec_max d MEDIA_TYPE_VIDEO _ Hfs) as Hmax.
  set (m := GetMaxPlaintextByteSize d MEDIA_TYPE_VIDEO (size (data f))) in *.
  rewrite (proj2 (Z.leb_le _ _)) by lia. cbn [negb].
  assert (Htake : size (take (Z.to_nat m) (data f)) = m).
  { unfold size in *. rewrite length_take. lia. }
  destruct (dec_returns d MEDIA_TYPE_VIDEO
              (if generic_descriptor_auth_experiment_ b then header_auth f else [])
              (data f) (take (Z.to_nat m) (data f)))
    as (d' & st & n & out & -> & Hd' & Hob & Hol & Hn); [by apply Hd|done|by apply Forall_take|done|done|].
  cbn [bind].
  assert (Hev : events b `prefix_of`
    (if decide (st = last_status_ b) then events b else events b ++ [OnDecryptionStatusChange st])).
  { destruct (decide _); [done|by apply prefix_app_r]. }
  assert (Hr : received_ok (Frame (out ++ drop (Z.to_nat m) (data f)) (header_auth f))).
  { split; cbn [data]; [by apply Forall_app; split; [|apply Forall_drop]|].
    unfold size in *. rewrite length_app, Hol, length_take, length_drop. lia. }
  destruct (bool_decide_reflect (st = kOk)) as [->|Hne]; cbn [negb].
  - rewrite Htake in Hn. specialize (Hn eq_refl). rewrite (proj2 (Z.leb_le n m)) by lia. cbn [negb].
    do 3 eexists. split; [reflexivity|]. split; [constructor; [|done|done]; by intros ? [= <-]|].
    split; [done|]. split; [done|]. split; [done|]. split; [done|]. split; [done|exact Hev].
  - do 3 eexists. split; [reflexivity|]. split; [constructor; [|done|done]; by intros ? [= <-]|].
    cbn [first_frame_decrypted_]. split; [done|]. split; [done|].
    split; [by destruct (first_frame_decrypted_ b)|].
    split; [by intros ->|]. split; [done|exact Hev].
Qed.

Lemma RetryStashedFrames_ok b :
  inv b -> exists b', RetryStashedFrames b = Ok b' /\ inv b' /\ stashed_frames_ b' = [] /\
                      events b `prefix_of` events b'.
Proof.
  intros Hb. unfold RetryStashedFrames.
  set (body := fun (b0 : t D) frame => _).
  set (I := fun b' => inv b' /\ events b `prefix_of` events b').
  assert (Hfold : forall l, Forall received_ok l -> forall b0, I b0 ->
            post (for_fold body b0 l) I (fun _ => False)).
  { intros l Hl b0 Hb0. eapply for_fold_post; [exact Hl| |exact Hb0].
    intros b1 f [Hb1 Hp1] Hf. unfold body.
    destruct (DecryptFrame_ok b1 f Hb1 Hf) as (b2 & f2 & dec & -> & [Hi1 Hi2 Hi3] & _ & _ & _ & _ & _ & Hp2).
    cbn [bind]. destruct dec; apply post_Ok; (split; [by constructor|]).
    - by trans (events b1).
    - simpl. trans (events b1); [done|]. trans (events b2); [done|]. by apply prefix_app_r.
    - by trans (events b1). }
  destruct (post_total (for_fold body b (stashed_frames_ b)) I) as (b' & -> & [[Hd _ _] Hp]).
  { apply Hfold; [apply Hb|]. by split. }
  cbn [bind]. eexists. split; [reflexivity|]. split; [|by split].
  constructor; [done|constructor|simpl; unfold kMaxStashedFrames; lia].
Qed.

Lemma ManageEncryptedFrame_ok b f :
  inv b -> received_ok f ->
  exists b', ManageEncryptedFrame b f = Ok b' /\ inv b' /\ events b `prefix_of` events b'.
Proof.
  intros Hb Hf. unfold ManageEncryptedFrame.
  destruct (DecryptFrame_ok b f Hb Hf) as (b1 & f1 & dec & -> & Hb1 & Hst & Hf1 & _ & _ & _ & Hp).
  cbn [bind]. destruct dec.
  - eexists. split; [reflexivity|]. split; [|done]. destruct Hb1 as [Hi1 Hi2 Hi3].
    constructor; [done|..]; cbn [stashed_frames_ set_stash].
    + apply Forall_app. split; [|by repeat constructor; apply Hf1].
      destruct (Nat.leb _ _); [by apply Forall_drop|done].
    + rewrite length_app. destruct (Nat.leb_spec kMaxStashedFrames (length (stashed_frames_ b1)));
        [rewrite length_drop|]; unfold kMaxStashedFrames in *; simpl; lia.
  - destruct (RetryStashedFrames_ok b1 Hb1) as (b2 & -> & [Hi1 Hi2 Hi3] & _ & Hp2). cbn [bind].
    eexists. split; [reflexivity|]. split; [by constructor|].
    simpl. trans (events b1); [done|]. trans (events b2); [done|]. by apply prefix_app_r.
  - by eexists.
Qed.
End Client.

(** The calls made on a [BufferedFrameDecryptor]. *)
Inductive buffer_op (D : Type) : Type :=
| Receive (frame : RtpFrameObject)
| Attach (frame_decryptor : option D).
Arguments Receive {D} _.
Arguments Attach {D} _.

Definition buffer_step {D} `{FrameDecryptorInterface D} (b : t D) (o : buffer_op D) : res (t D) :=
  match o with
  | Receive f => ManageEncryptedFrame b f
  | Attach d => Ok (SetFrameDecryptor b d)
  end.

Definition buffer_op_ok {D} `{FrameDecryptorLaws D} (o : buffer_op D) : Prop :=
  match o with
  | Receive f => received_ok f
  | Attach (Some d) => dec_ok d
  | Attach None => True
  end.


Definition test_decryptor : timed := Timed HCCryptoDecryptor.make_default (fun n => Z.of_nat n) 0.


(** An empty frame kills the process once a decryptor is attached:
    [GetMaxPlaintextByteSize(0)] is 2^64 - 1 and the size check that
    follows it aborts. *)
Theorem empty_frame_aborts (b : t timed) (d : timed) auth :
  frame_decryptor_ b = Some d ->
  ManageEncryptedFrame b (Frame [] auth) = Fatal "max_plaintext_byte_size <= frame->size()".
Proof. intros Hd. unfold ManageEncryptedFrame, DecryptFrame. by rewrite Hd. Qed.

Lemma empty_frame_aborts_witness :
  ManageEncryptedFrame (SetFrameDecryptor (make false) (Some test_decryptor)) (Frame [] []) =
  Fatal "max_plaintext_byte_size <= frame->size()".
Proof. apply (empty_frame_aborts _ test_decryptor). reflexivity. Defined.

(** ** From the sender to the receiver *)

(** A frame to send: the clock around the call, the payload and the bytes
    derived from its header. *)
Record outgoing : Type := Outgoing {
  o_start : Z; o_end : Z; o_payload : list Z; o_auth : list Z }.

(** The frames that go out when a sequence of frames is sent. *)
Fixpoint send_all (enc : option HCCrypto.t) (req : bool) (os : list outgoing)
    : res (list RtpFrameObject) :=
  match os with
  | [] => Ok []
  | o :: os =>
      let* r := SendVideo_encrypt enc req (o_start o) (o_end o) (o_payload o) in
      match r with
      | None => send_all enc req os
      | Some (enc, payload) =>
          let* fs := send_all enc req os in Ok (Frame payload (o_auth o) :: fs)
      end
  end.

Definition delivered (o : outgoing) : event := OnDecryptedFrame (Frame (o_payload o) (o_auth o)).

Section EndToEnd.
Context (key : SM4_KEY) (ctr : list Z) (version : Z).
Context (Hctr : block_ok ctr) (Hversion : 0 <= version < 128).

(** An encryptor and a decryptor in full mode under this key, counter and
    version. *)
Definition seals (c : HCCrypto.t) : Prop :=
  HCCrypto.sm4_key_ c = key /\ HCCrypto.sm4_ctr_ c = ctr /\ HCCrypto.key_version_ c = version /\
  HCCrypto.use_sm4_encryption_ c = true /\ HCCrypto.fail_encryption_ c = false.

Definition opens (d : HCCryptoDecryptor.t) : Prop :=
  HCCryptoDecryptor.sm4_key_ d = key /\ HCCryptoDecryptor.sm4_ctr_ d = ctr /\
  HCCryptoDecryptor.key_version_ d = version /\
  HCCryptoDecryptor.use_sm4_decryption_ d = true /\ HCCryptoDecryptor.fail_decryption_ d = false.

Definition sealed (payload : list Z) : list Z :=
  (sm4_ctr_encrypt key ctr payload).2 ++ [postfix_of version].

Lemma SendVideo_seals c req t0 t1 p :
  seals c -> frame_ok p ->
  exists c', SendVideo_encrypt (Some c) req t0 t1 p = Ok (Some (Some c', sealed p)) /\ seals c'.
Proof using Hctr.
  intros (Hk & Hc & Hv & Hu & Hf) [Hb Hs]. destruct Hctr as [Hl Hcb]. unfold SendVideo_encrypt.
  rewrite Encrypt_eq; [|done|].
  - cbn [bind HCCrypto.status HCCrypto.self HCCrypto.bytes_written HCCrypto.encrypted_frame].
    unfold ciphertext, perform_crypto. rewrite Hu, Hk, Hc, Hv.
    rewrite take_ge; [by eexists|].
    rewrite length_app, sm4_crypt_length by done.
    rewrite u64_small by (unfold size in *; lia). unfold size. simpl. lia.
  - unfold HCCrypto.GetMaxCiphertextByteSize.
    rewrite u64_small by (unfold size in *; lia). unfold size at 1.
    rewrite length_replicate. unfold size; lia.
Qed.

Lemma after_opens d mt pf now e : opens d -> opens (after d mt pf now e).
Proof using Type.
  unfold after, HCCryptoDecryptor.count_frame, HCCryptoDecryptor.track_version.
  destruct (decide _), (version_mismatch d pf); cbv zeta;
    repeat match goal with |- context [if ?b then _ else _] => destruct b end; exact (fun H => H).
Qed.

Lemma Decrypt_sealed d t0 now t1 mt p buffer :
  opens d -> frame_ok p -> length buffer = length p ->
  exists d', HCCryptoDecryptor.Decrypt d t0 now t1 mt (sealed p) buffer =
             Ok (HCCryptoDecryptor.Result d' kOk (size p) p) /\ opens d'.
Proof using Hctr Hversion.
  intros Hd [Hb Hs] Hbuf. pose proof Hd as (Hk & Hc & Hv & Hu & Hf). destruct Hctr as [Hl Hcb].
  pose proof (sm4_crypt_length key ctr p Hl Hcb Hb) as Hlen.
  unfold sealed. rewrite Decrypt_eq; [|done|by rewrite Hlen|unfold size in *; by rewrite Hlen].
  eexists. split; [|by apply after_opens]. unfold size at 1. rewrite Hlen. f_equal. f_equal.
  unfold plaintext, decrypts.
  rewrite postfix_of_encrypted, postfix_of_version, Z.mod_small, Hv, Z.eqb_refl, Hu by done.
  cbn [andb orb]. rewrite Hk, Hc. by apply sm4_crypt_involutive.
Qed.

(** A buffer that has a decryptor for this key. *)
Definition attached (b : t timed) : Prop :=
  exists d, frame_decryptor_ b = Some d /\ opens (object d).

Definition status_events (b : t timed) : list event :=
  if decide (kOk = last_status_ b) then events b else events b ++ [OnDecryptionStatusChange kOk].

Lemma DecryptFrame_sealed b p auth :
  attached b -> frame_ok p ->
  exists b', DecryptFrame b (Frame (sealed p) auth) = Ok (b', Frame p auth, kDecrypted) /\
             attached b' /\ last_status_ b' = kOk /\ events b' = status_events b /\
             stashed_frames_ b' = stashed_frames_ b.
Proof using Hctr Hversion.
  intros (d & Hd & Ho) Hp. pose proof Hp as [Hb Hs]. destruct Hctr as [Hl Hcb].
  unfold DecryptFrame. rewrite Hd.
  cbn [data header_auth GetMaxPlaintextByteSize HCCryptoDecryptor_interface Decrypt].
  assert (Hsz : size (sealed p) = size p + 1).
  { unfold sealed. rewrite size_app_one. unfold size. by rewrite sm4_crypt_length. }
  unfold HCCryptoDecryptor.GetMaxPlaintextByteSize. rewrite Hsz.
  assert (Hm : u64 (size p + 1 - 1) = size p) by (rewrite u64_small; unfold size in *; lia).
  rewrite Hm, (proj2 (Z.leb_le _ _)) by lia. cbn [negb].
  set (buf := take _ (sealed p)).
  assert (Hbuf : length buf = length p).
  { unfold buf. rewrite length_take. unfold size in *. lia. }
  destruct (Decrypt_sealed (object d) (clock d (tick d)) (clock d (tick d + 1)) (clock d (tick d + 2))
              MEDIA_TYPE_VIDEO p buf Ho Hp Hbuf) as (d' & -> & Ho').
  cbn [bind HCCryptoDecryptor.status HCCryptoDecryptor.bytes_written HCCryptoDecryptor.frame
       HCCryptoDecryptor.self bool_decide decide_rel data].
  rewrite bool_decide_true by done. cbn [negb]. rewrite (proj2 (Z.leb_le _ _)) by lia. cbn [negb].
  unfold size at 1. rewrite Nat2Z.id, take_app_length.
  eexists. split; [reflexivity|]. split; [by eexists|]. split; [done|]. by split.
Qed.

Definition sealed_frame (o : outgoing) : RtpFrameObject := Frame (sealed (o_payload o)) (o_auth o).

Lemma send_all_seals c req os :
  seals c -> Forall (fun o => frame_ok (o_payload o)) os ->
  send_all (Some c) req os = Ok (map sealed_frame os).
Proof using Hctr.
  intros Hc Hos. revert c Hc. induction Hos as [|o os Ho Hos IH]; intros c Hc; [done|]. cbn [send_all].
  destruct (SendVideo_seals c req (o_start o) (o_end o) (o_payload o) Hc Ho) as (c' & -> & Hc').
  cbn [bind]. by rewrite (IH c' Hc').
Qed.

Lemma stash_all (b : t timed) fs :
  frame_decryptor_ b = None -> (length (stashed_frames_ b) + length fs <= kMaxStashedFrames)%nat ->
  for_fold buffer_step b (map Receive fs) = Ok (set_stash b (stashed_frames_ b ++ fs)).
Proof using Type.
  revert b. induction fs as [|f fs IH]; intros b Hb Hlen; simpl in *.
  { rewrite app_nil_r. by destruct b. }
  unfold ManageEncryptedFrame at 1, DecryptFrame at 1. rewrite Hb. cbn [bind].
  destruct (Nat.leb_spec kMaxStashedFrames (length (stashed_frames_ b))); [lia|].
  rewrite IH; [|done|cbn [stashed_frames_ set_stash]; rewrite length_app; simpl; lia].
  cbn [stashed_frames_ set_stash]. by rewrite <- app_assoc.
Qed.

Lemma retry_all (b : t timed) os :
  attached b -> last_status_ b = kOk -> Forall (fun o => frame_ok (o_payload o)) os ->
  stashed_frames_ b = map sealed_frame os ->
  exists b', RetryStashedFrames b = Ok b' /\ stashed_frames_ b' = [] /\
             events b' = events b ++ map delivered os.
Proof using Hctr Hversion.
  intros Ha Hst Hos Hstash. unfold RetryStashedFrames. rewrite Hstash.
  set (body := fun (b0 : t timed) frame => _).
  assert (Hloop : exists b', for_fold body b (map sealed_frame os) = Ok b' /\
                             events b' = events b ++ map delivered os).
  { clear Hstash. revert b Ha Hst. induction Hos as [|o os Ho Hos IH]; intros b Ha Hst.
    { exists b. by rewrite app_nil_r. }
    cbn [map for_fold]. unfold body at 1, sealed_frame at 1.
    destruct (DecryptFrame_sealed b (o_payload o) (o_auth o) Ha Ho)
      as (b1 & -> & (d & Hd & Hod) & Hl1 & He1 & _).
    cbn [bind]. destruct (IH (notify b1 (OnDecryptedFrame (Frame (o_payload o) (o_auth o)))))
      as (b2 & -> & He2); [by exists d|done|].
    exists b2. split; [done|]. rewrite He2. cbn [events notify].
    unfold status_events in He1. rewrite Hst, decide_True in He1 by done.
    by rewrite He1, <- app_assoc. }
  destruct Hloop as (b' & -> & He). cbn [bind]. eexists. split; [reflexivity|]. by split.
Qed.
End EndToEnd.

(** C12. Frames that arrive before the decryptor is attached are not lost: up to
    24 of them are kept, and when the first frame after the attachment arrives
    the application is told that decryption works and receives all of
    them and then the new one, in the order they were sent, each with the
    payload its sender had. *)
Theorem early_frames_delivered_in_order c d req experiment (early : list outgoing) (o : outgoing) :
  seals (HCCrypto.sm4_key_ c) (HCCrypto.sm4_ctr_ c) (HCCrypto.key_version_ c) c ->
  opens (HCCrypto.sm4_key_ c) (HCCrypto.sm4_ctr_ c) (HCCrypto.key_version_ c) (object d) ->
  block_ok (HCCrypto.sm4_ctr_ c) -> 0 <= HCCrypto.key_version_ c < 128 ->
  Forall (fun o => frame_ok (o_payload o)) (early ++ [o]) ->
  (length early <= kMaxStashedFrames)%nat ->
  exists sent last b,
    send_all (Some c) req (early ++ [o]) = Ok (sent ++ [last]) /\
    for_fold buffer_step (make experiment)
      (map Receive sent ++ [Attach (Some d); Receive last]) = Ok b /\
    events b = OnDecryptionStatusChange kOk :: map delivered (early ++ [o]) /\
    stashed_frames_ b = [].
Proof.
  set (key := HCCrypto.sm4_key_ c). set (ctr := HCCrypto.sm4_ctr_ c).
  set (v := HCCrypto.key_version_ c). intros Hc Hd Hctr Hv Hos Hlen.
  pose proof Hos as [Hearly Ho]%Forall_app. apply Forall_cons in Ho as [Ho _].
  exists (map (sealed_frame key ctr v) early), (sealed_frame key ctr v o).
  pose (b0 := SetFrameDecryptor (set_stash (make experiment) (map (sealed_frame key ctr v) early)) (Some d)).
  destruct (DecryptFrame_sealed key ctr v Hctr Hv b0 (o_payload o) (o_auth o))
    as (b1 & E1 & Ha1 & Hl1 & He1 & Hs1); [by exists d|done|].
  destruct (retry_all key ctr v Hctr Hv b1 early Ha1 Hl1 Hearly Hs1) as (b2 & E2 & Hs2 & He2).
  exists (notify b2 (delivered o)). split; [|split; [|split]].
  - rewrite (send_all_seals key ctr v Hctr) by done. by rewrite map_app.
  - rewrite for_fold_app, stash_all by (done || by rewrite length_map).
    cbn [bind for_fold]. unfold buffer_step at 1. cbn [bind].
    change (SetFrameDecryptor _ _) with b0. unfold buffer_step, ManageEncryptedFrame, sealed_frame.
    rewrite E1. cbn [bind]. by rewrite E2.
  - cbn [events notify]. rewrite He2, He1, map_app. unfold status_events. simpl. done.
  - done.
Qed.

Lemma early_frames_delivered_in_order_witness :
  exists sent last b,
    send_all (Some HCCrypto.make_default) false
      [Outgoing 0 1 [5; 6] []; Outgoing 2 3 [] []] = Ok (sent ++ [last]) /\
    for_fold buffer_step (make true)
      (map Receive sent ++ [Attach (Some test_decryptor); Receive last]) = Ok b /\
    events b = [OnDecryptionStatusChange kOk; OnDecryptedFrame (Frame [5; 6] []);
                OnDecryptedFrame (Frame [] [])] /\
    stashed_frames_ b = [].
Proof.
  apply (early_frames_delivered_in_order HCCrypto.make_default test_decryptor false true
           [Outgoing 0 1 [5; 6] []] (Outgoing 2 3 [] []));
    [repeat split|repeat split| | | |].
  - split; [reflexivity|solve_bytes].
  - simpl; lia.
  - repeat constructor; simpl; unfold byte, in_range, size; simpl; lia.
  - simpl; unfold kMaxStashedFrames; lia.
Defined.
