(* ===== verification/CryptoJni.v ===== *)
(** The JNI entry points of the frame encryptor and decryptor.

    Models [src/main/jni/hc_crypto_jni.cpp] and
    [src/main/jni/hc_crypto_decryptor_jni.cpp] over a heap of reference-counted
    native objects ([rtc::RefCountedObject], [rtc::make_ref_counted]).  A
    pointer that names no live object of the right class is undefined
    behaviour; the exceptions the entry points catch cannot be raised by the
    calls they make, so there is no other error path than the guards. *)

From Stdlib Require Import ZArith Lia.
From stdpp Require Import gmap.
From S2P Require Import Prelude Words Sm4 FrameCrypto.

Inductive native : Type :=
| NEncryptor (c : HCCrypto.t)
| NDecryptor (d : HCCryptoDecryptor.t).

Record cell : Type := Cell { ref_count_ : Z; object_of : native }.

Abbreviation heap := (gmap Z cell).

(** [new RefCountedObject<T>] has count 0 and the [scoped_refptr] it is returned
    in adds one reference. *)
Definition make_ref_counted (h : heap) (fresh : Z) (o : native) : heap := <[fresh := Cell 1 o]> h.

Definition AddRef (h : heap) (ptr : Z) : res heap :=
  match h !! ptr with
  | None => Undef UbDeref
  | Some c => Ok (<[ptr := Cell (ref_count_ c + 1) (object_of c)]> h)
  end.

(** [Release] deletes the object with the last reference. *)
Definition Release (h : heap) (ptr : Z) : res heap :=
  match h !! ptr with
  | None => Undef UbDeref
  | Some c =>
      if ref_count_ c - 1 =? 0 then Ok (delete ptr h)
      else Ok (<[ptr := Cell (ref_count_ c - 1) (object_of c)]> h)
  end.

(** A [jbyteArray]: null or signed bytes. *)
Definition jbyteArray : Type := option (list Z).

(** [memcpy] of Java bytes into [uint8_t]. *)
Definition to_uint8 (l : list Z) : list Z := map u8 l.

Definition array16 (a : jbyteArray) : option (list Z) :=
  match a with
  | Some l => if Nat.eqb (length l) 16 then Some (to_uint8 l) else None
  | None => None
  end.

Definition on_encryptor (h : heap) (ptr : Z) (f : HCCrypto.t -> HCCrypto.t) : res heap :=
  match h !! ptr with
  | Some (Cell n (NEncryptor c)) => Ok (<[ptr := Cell n (NEncryptor (f c))]> h)
  | _ => Undef UbDeref
  end.

Definition on_decryptor (h : heap) (ptr : Z) (f : HCCryptoDecryptor.t -> HCCryptoDecryptor.t) : res heap :=
  match h !! ptr with
  | Some (Cell n (NDecryptor d)) => Ok (<[ptr := Cell n (NDecryptor (f d))]> h)
  | _ => Undef UbDeref
  end.

Module HCCryptoJni.
Definition nativeCreateHCCrypto (h : heap) (fresh : Z) : res (heap * Z) :=
  let h := make_ref_counted h fresh (NEncryptor HCCrypto.make_default) in
  let* h := AddRef h fresh in
  Ok (h, fresh).

Definition nativeDestroyHCCrypto (h : heap) (native_ptr : Z) : res heap :=
  if native_ptr =? 0 then Ok h else Release h native_ptr.

Definition nativeEnableSM4Encryption (h : heap) (native_ptr : Z) (enable : bool) : res heap :=
  if native_ptr =? 0 then Ok h
  else on_encryptor h native_ptr (fun c => HCCrypto.EnableSM4Encryption c enable).

Definition nativeSetSM4Key (h : heap) (native_ptr : Z) (key : jbyteArray) : res heap :=
  if native_ptr =? 0 then Ok h
  else match array16 key with
       | None => Ok h
       | Some sm4_key => on_encryptor h native_ptr (fun c => HCCrypto.SetSM4Key c sm4_key)
       end.

Definition nativeSetSM4CTR (h : heap) (native_ptr : Z) (ctr : jbyteArray) : res heap :=
  if native_ptr =? 0 then Ok h
  else match array16 ctr with
       | None => Ok h
       | Some sm4_ctr => on_encryptor h native_ptr (fun c => HCCrypto.SetSM4CTR c sm4_ctr)
       end.

Definition nativeSetSM4KeyWithVersion (h : heap) (native_ptr : Z) (key : jbyteArray) (version : Z)
    : res heap :=
  if native_ptr =? 0 then Ok h
  else match array16 key with
       | None => Ok h
       | Some sm4_key =>
           on_encryptor h native_ptr (fun c => HCCrypto.SetSM4KeyWithVersion c sm4_key version)
       end.

Definition nativeGetKeyVersion (h : heap) (native_ptr : Z) : res Z :=
  if native_ptr =? 0 then Ok 0
  else match h !! native_ptr with
       | Some (Cell _ (NEncryptor c)) => Ok (HCCrypto.GetKeyVersion c)
       | _ => Undef UbDeref
       end.
End HCCryptoJni.

Module HCCryptoDecryptorJni.
Definition nativeCreateHCCryptoDecryptor (h : heap) (fresh : Z) : res (heap * Z) :=
  let h := make_ref_counted h fresh (NDecryptor HCCryptoDecryptor.make_default) in
  let* h := AddRef h fresh in
  Ok (h, fresh).

Definition nativeDestroyHCCryptoDecryptor (h : heap) (native_ptr : Z) : res heap :=
  if native_ptr =? 0 then Ok h else Release h native_ptr.

Definition nativeEnableSM4Decryption (h : heap) (native_ptr : Z) (enable : bool) : res heap :=
  if native_ptr =? 0 then Ok h
  else on_decryptor h native_ptr (fun d => HCCryptoDecryptor.EnableSM4Decryption d enable).

Definition nativeSetSM4Key (h : heap) (native_ptr : Z) (key : jbyteArray) : res heap :=
  if native_ptr =? 0 then Ok h
  else match array16 key with
       | None => Ok h
       | Some sm4_key => on_decryptor h native_ptr (fun d => HCCryptoDecryptor.SetSM4Key d sm4_key)
       end.

Definition nativeSetSM4CTR (h : heap) (native_ptr : Z) (ctr : jbyteArray) : res heap :=
  if native_ptr =? 0 then Ok h
  else match array16 ctr with
       | None => Ok h
       | Some sm4_ctr => on_decryptor h native_ptr (fun d => HCCryptoDecryptor.SetSM4CTR d sm4_ctr)
       end.

Definition nativeSetSM4KeyWithVersion (h : heap) (native_ptr : Z) (key : jbyteArray) (version : Z)
    : res heap :=
  if native_ptr =? 0 then Ok h
  else match array16 key with
       | None => Ok h
       | Some sm4_key =>
           on_decryptor h native_ptr
             (fun d => HCCryptoDecryptor.SetSM4KeyWithVersion d sm4_key version)
       end.

Definition nativeGetKeyVersion (h : heap) (native_ptr : Z) : res Z :=
  if native_ptr =? 0 then Ok 0
  else match h !! native_ptr with
       | Some (Cell _ (NDecryptor d)) => Ok (HCCryptoDecryptor.GetKeyVersion d)
       | _ => Undef UbDeref
       end.
End HCCryptoDecryptorJni.

(** What happens to one encryptor after Java has created it: Java calls its
    methods, and RTP senders take ([AddRef]) and drop ([Release]) references. *)
Inductive enc_event : Type :=
| EvEnable (enable : bool)
| EvSetKey (key : jbyteArray)
| EvSetCTR (ctr : jbyteArray)
| EvSetKeyWithVersion (key : jbyteArray) (version : Z)
| EvAttach
| EvDetach
| EvDestroy.

Definition enc_step (ptr : Z) (h : heap) (e : enc_event) : res heap :=
  match e with
  | EvEnable b => HCCryptoJni.nativeEnableSM4Encryption h ptr b
  | EvSetKey k => HCCryptoJni.nativeSetSM4Key h ptr k
  | EvSetCTR v => HCCryptoJni.nativeSetSM4CTR h ptr v
  | EvSetKeyWithVersion k v => HCCryptoJni.nativeSetSM4KeyWithVersion h ptr k v
  | EvAttach => AddRef h ptr
  | EvDetach => Release h ptr
  | EvDestroy => HCCryptoJni.nativeDestroyHCCrypto h ptr
  end.

(** References an event takes. *)
Definition delta (e : enc_event) : Z :=
  match e with EvAttach => 1 | EvDetach | EvDestroy => -1 | _ => 0 end.

(** The count after each event of a sequence, started at [n], stays positive. *)
Fixpoint stays_referenced (n : Z) (es : list enc_event) : bool :=
  match es with
  | [] => true
  | e :: es => (0 <? n + delta e) && stays_referenced (n + delta e) es
  end.

Definition total_delta (es : list enc_event) : Z := foldr (fun e z => delta e + z) 0 es.

(** ** Facts *)

Lemma array16_ok a l : array16 a = Some l -> block_ok l.
Proof.
  destruct a as [b|]; simpl; [|done]. destruct (Nat.eqb_spec (length b) 16) as [Hl|]; [|done].
  intros [= <-]. unfold to_uint8, block_ok. rewrite length_map. split; [done|].
  apply Forall_fmap, Forall_true. intros z. apply u8_range.
Qed.

(** The object at [ptr]: an encryptor in its invariant with count [n]. *)
Definition holds (h : heap) (ptr n : Z) : Prop :=
  exists c, h !! ptr = Some (Cell n (NEncryptor c)) /\ EncryptorInvariant.wf c.

Lemma on_encryptor_holds h ptr n f :
  holds h ptr n -> (forall c, EncryptorInvariant.wf c -> EncryptorInvariant.wf (f c)) ->
  exists h', on_encryptor h ptr f = Ok h' /\ holds h' ptr n.
Proof.
  intros (c & Hc & Hw) Hf. unfold on_encryptor. rewrite Hc. eexists. split; [reflexivity|].
  exists (f c). rewrite lookup_insert_eq. split; [done|by apply Hf].
Qed.

Lemma enc_setter_wf c o c' :
  EncryptorInvariant.op_ok o -> HCCrypto.step c o = Ok c' ->
  EncryptorInvariant.wf c -> EncryptorInvariant.wf c'.
Proof.
  intros Ho Hs Hw. pose proof (EncryptorInvariant.step_wf c o Hw Ho) as H. by rewrite Hs in H.
Qed.

Lemma enc_step_holds h ptr n e :
  holds h ptr n -> ptr <> 0 -> 0 < n + delta e ->
  exists h', enc_step ptr h e = Ok h' /\ holds h' ptr (n + delta e).
Proof.
  intros Hh Hp Hn. pose proof (proj2 (Z.eqb_neq ptr 0) Hp) as Hp'.
  assert (Hset : forall o, EncryptorInvariant.op_ok o -> forall f,
            (forall c, HCCrypto.step c o = Ok (f c)) ->
            exists h', on_encryptor h ptr f = Ok h' /\ holds h' ptr (n + 0)).
  { intros o Ho f Hf. rewrite Z.add_0_r. apply on_encryptor_holds; [done|].
    intros c. eapply enc_setter_wf; [exact Ho|apply Hf]. }
  destruct e; cbn [enc_step delta] in *;
    unfold HCCryptoJni.nativeEnableSM4Encryption, HCCryptoJni.nativeSetSM4Key,
      HCCryptoJni.nativeSetSM4CTR, HCCryptoJni.nativeSetSM4KeyWithVersion,
      HCCryptoJni.nativeDestroyHCCrypto; rewrite ?Hp'.
  - by apply (Hset (HCCrypto.OpEnableSM4Encryption enable)).
  - destruct (array16 key) as [l|] eqn:E; [|exists h; by rewrite Z.add_0_r].
    apply (Hset (HCCrypto.OpSetSM4Key l)); [by apply (array16_ok key)|done].
  - destruct (array16 ctr) as [l|] eqn:E; [|exists h; by rewrite Z.add_0_r].
    apply (Hset (HCCrypto.OpSetSM4CTR l)); [by apply (array16_ok ctr)|done].
  - destruct (array16 key) as [l|] eqn:E; [|exists h; by rewrite Z.add_0_r].
    apply (Hset (HCCrypto.OpSetSM4KeyWithVersion l version)); [by apply (array16_ok key)|done].
  - destruct Hh as (c & Hc & Hw). unfold AddRef. rewrite Hc. eexists. split; [reflexivity|].
    exists c. by rewrite lookup_insert_eq.
  - destruct Hh as (c & Hc & Hw). unfold Release. rewrite Hc. cbn [ref_count_ object_of].
    rewrite (proj2 (Z.eqb_neq (n - 1) 0)) by lia. eexists. split; [reflexivity|].
    exists c. by rewrite lookup_insert_eq.
  - destruct Hh as (c & Hc & Hw). unfold Release. rewrite Hc. cbn [ref_count_ object_of].
    rewrite (proj2 (Z.eqb_neq (n - 1) 0)) by lia. eexists. split; [reflexivity|].
    exists c. by rewrite lookup_insert_eq.
Qed.

Lemma enc_run_holds ptr es h n :
  holds h ptr n -> ptr <> 0 -> stays_referenced n es = true ->
  exists h', for_fold (enc_step ptr) h es = Ok h' /\ holds h' ptr (n + total_delta es).
Proof.
  revert h n. induction es as [|e es IH]; intros h n Hh Hp Hs; cbn [for_fold total_delta foldr] in *.
  { exists h. by rewrite Z.add_0_r. }
  apply andb_true_iff in Hs as [H1%Z.ltb_lt H2].
  destruct (enc_step_holds h ptr n e Hh Hp H1) as (h1 & -> & Hh1). cbn [bind].
  destruct (IH h1 (n + delta e) Hh1 Hp H2) as (h2 & E & Hh2). exists h2. split; [done|].
  by rewrite Z.add_assoc.
Qed.

Lemma create_holds h ptr :
  exists h', HCCryptoJni.nativeCreateHCCrypto h ptr = Ok (h', ptr) /\ holds h' ptr 2.
Proof.
  unfold HCCryptoJni.nativeCreateHCCrypto, AddRef, make_ref_counted. rewrite lookup_insert_eq.
  cbn [bind ref_count_ object_of]. eexists. split; [reflexivity|]. eexists. rewrite lookup_insert_eq.
  split; [reflexivity|]. apply EncryptorInvariant.make_wf.
Qed.

(** ** Theorems *)

(** C13. As long as the references taken and dropped leave one, every call
    on a created encryptor, with whatever arrays Java passes, reaches a live
    object in its invariant, and its reference count is the two of the creation
    plus the references taken minus those dropped. *)
Theorem native_calls_reach_live_object h ptr es :
  ptr <> 0 -> stays_referenced 2 es = true ->
  exists h1 h2 c,
    HCCryptoJni.nativeCreateHCCrypto h ptr = Ok (h1, ptr) /\
    for_fold (enc_step ptr) h1 es = Ok h2 /\
    h2 !! ptr = Some (Cell (2 + total_delta es) (NEncryptor c)) /\ EncryptorInvariant.wf c.
Proof.
  intros Hp Hs. destruct (create_holds h ptr) as (h1 & E1 & Hh1).
  destruct (enc_run_holds ptr es h1 2 Hh1 Hp Hs) as (h2 & E2 & c & Hc & Hw).
  by exists h1, h2, c.
Qed.

Lemma native_calls_reach_live_object_witness :
  exists h1 h2 c,
    HCCryptoJni.nativeCreateHCCrypto ∅ 7 = Ok (h1, 7) /\
    for_fold (enc_step 7) h1 [EvAttach; EvSetKey (Some (replicate 16 (-1))); EvSetCTR None; EvDestroy] =
      Ok h2 /\
    h2 !! 7 = Some (Cell 2 (NEncryptor c)) /\ EncryptorInvariant.wf c.
Proof.
  apply (native_calls_reach_live_object ∅ 7
           [EvAttach; EvSetKey (Some (replicate 16 (-1))); EvSetCTR None; EvDestroy]);
    [discriminate|reflexivity].
Defined.

(** Java creates an encryptor, uses it, lets senders attach and detach it in
    pairs, and destroys it once at the end. *)
Definition java_lifecycle (n : nat) (setters : list enc_event) : list enc_event :=
  replicate n EvAttach ++ setters ++ replicate n EvDetach ++ [EvDestroy].

Lemma stays_referenced_app n es es' :
  stays_referenced n (es ++ es') = stays_referenced n es && stays_referenced (n + total_delta es) es'.
Proof.
  revert n. induction es as [|e es IH]; intros n; simpl; [by rewrite Z.add_0_r|].
  by rewrite IH, <- andb_assoc, Z.add_assoc.
Qed.

Lemma attach_delta k n :
  0 < n -> stays_referenced n (replicate k EvAttach) = true /\
  total_delta (replicate k EvAttach) = Z.of_nat k.
Proof.
  revert n. induction k as [|k IH]; intros n Hn; [done|]. cbn [replicate stays_referenced total_delta foldr].
  destruct (IH (n + delta EvAttach)) as [-> H2]; [simpl; lia|].
  unfold total_delta in H2. rewrite H2. split; [|simpl delta; lia].
  apply andb_true_iff. split; [apply Z.ltb_lt; simpl; lia|done].
Qed.

Lemma detach_delta k n :
  Z.of_nat k < n -> stays_referenced n (replicate k EvDetach) = true /\
  total_delta (replicate k EvDetach) = - Z.of_nat k.
Proof.
  revert n. induction k as [|k IH]; intros n Hn; [done|]. cbn [replicate stays_referenced total_delta foldr].
  destruct (IH (n + delta EvDetach)) as [-> H2]; [simpl delta; lia|].
  unfold total_delta in H2. rewrite H2. split; [|simpl delta; lia].
  apply andb_true_iff. split; [apply Z.ltb_lt; simpl delta; lia|done].
Qed.

Lemma total_delta_app es es' : total_delta (es ++ es') = total_delta es + total_delta es'.
Proof. induction es as [|e es IH]; simpl; [done|]. rewrite IH. lia. Qed.

Lemma setters_delta es n :
  0 < n -> Forall (fun e => delta e = 0) es ->
  stays_referenced n es = true /\ total_delta es = 0.
Proof.
  intros Hn Hes. revert n Hn. induction Hes as [|e es He Hes IH]; intros n Hn; [done|].
  cbn [stays_referenced total_delta foldr]. rewrite He, Z.add_0_r. destruct (IH n Hn) as [-> H].
  unfold total_delta in H. rewrite H. split; [|done]. apply andb_true_iff. split; [by apply Z.ltb_lt|done].
Qed.

(** The native object is never freed: the creation leaves two references,
    [make_ref_counted]'s own, which [release()] hands to Java, and the
    explicit [AddRef], and the destructor drops one, so after a complete life
    the object is still there with count 1. *)
Theorem destroyed_encryptor_leaks h ptr n setters :
  ptr <> 0 -> Forall (fun e => delta e = 0) setters ->
  exists h1 h2 c,
    HCCryptoJni.nativeCreateHCCrypto h ptr = Ok (h1, ptr) /\
    for_fold (enc_step ptr) h1 (java_lifecycle n setters) = Ok h2 /\
    h2 !! ptr = Some (Cell 1 (NEncryptor c)).
Proof.
  intros Hp Hes. destruct (create_holds h ptr) as (h1 & E1 & Hh1).
  destruct (attach_delta n 2 ltac:(lia)) as [A1 A2].
  destruct (setters_delta setters (2 + Z.of_nat n) ltac:(lia) Hes) as [S1 S2].
  destruct (detach_delta n (2 + Z.of_nat n) ltac:(lia)) as [D1 D2].
  destruct (enc_run_holds ptr (java_lifecycle n setters) h1 2 Hh1 Hp) as (h2 & E2 & c & Hc & _).
  - unfold java_lifecycle. rewrite !stays_referenced_app, A1, A2, S1, S2, Z.add_0_r, D1, D2.
    cbn [stays_referenced delta andb]. rewrite andb_true_r. apply Z.ltb_lt. lia.
  - exists h1, h2, c. split; [done|]. split; [done|]. rewrite Hc. do 2 f_equal.
    unfold java_lifecycle. rewrite !total_delta_app, A2, S2, D2. cbn [total_delta foldr delta]. lia.
Qed.

Lemma destroyed_encryptor_leaks_witness :
  exists h1 h2 c,
    HCCryptoJni.nativeCreateHCCrypto ∅ 7 = Ok (h1, 7) /\
    for_fold (enc_step 7) h1 (java_lifecycle 1 [EvEnable false]) = Ok h2 /\
    h2 !! 7 = Some (Cell 1 (NEncryptor c)).
Proof. apply (destroyed_encryptor_leaks ∅ 7 1 [EvEnable false]); [discriminate|by repeat constructor]. Defined.

(** Java configures both ends with the same key and version. *)
Definition configure (h : heap) (p q : Z) (key : jbyteArray) (version : Z) : res heap :=
  let* (h, p) := HCCryptoJni.nativeCreateHCCrypto h p in
  let* (h, q) := HCCryptoDecryptorJni.nativeCreateHCCryptoDecryptor h q in
  let* h := HCCryptoJni.nativeSetSM4KeyWithVersion h p key version in
  HCCryptoDecryptorJni.nativeSetSM4KeyWithVersion h q key version.

Lemma configure_eq h p q key version sm4_key :
  p <> 0 -> q <> 0 -> p <> q -> array16 key = Some sm4_key ->
  configure h p q key version =
  Ok (<[q := Cell 2 (NDecryptor (HCCryptoDecryptor.SetSM4KeyWithVersion
                                   HCCryptoDecryptor.make_default sm4_key version))]>
     (<[p := Cell 2 (NEncryptor (HCCrypto.SetSM4KeyWithVersion HCCrypto.make_default sm4_key version))]> h)).
Proof.
  intros Hp Hq Hne Ha.
  unfold configure, HCCryptoJni.nativeCreateHCCrypto, HCCryptoDecryptorJni.nativeCreateHCCryptoDecryptor,
    HCCryptoJni.nativeSetSM4KeyWithVersion, HCCryptoDecryptorJni.nativeSetSM4KeyWithVersion,
    make_ref_counted, AddRef.
  rewrite lookup_insert_eq. cbn [bind ref_count_ object_of]. rewrite lookup_insert_eq.
  cbn [bind ref_count_ object_of]. rewrite (proj2 (Z.eqb_neq p 0)), (proj2 (Z.eqb_neq q 0)), Ha by done.
  unfold on_encryptor, on_decryptor.
  rewrite !insert_insert_eq, lookup_insert_ne, lookup_insert_eq by done. cbn [bind].
  rewrite lookup_insert_ne, lookup_insert_eq by done.
  rewrite (insert_insert_ne _ p q), !insert_insert_eq by done. reflexivity.
Qed.

(** C14. When Java gives both natives the same 16-byte key and the same version
    in 0..127, every frame the encryptor object encrypts is delivered intact by
    the decryptor object. *)
Theorem configured_natives_roundtrip h p q key version t0 t1 now t2 mt frame :
  p <> 0 -> q <> 0 -> p <> q -> (exists l, key = Some l /\ length l = 16%nat) ->
  0 <= version < 128 -> frame_ok frame ->
  exists h' c d n m,
    configure h p q key version = Ok h' /\
    h' !! p = Some (Cell n (NEncryptor c)) /\ h' !! q = Some (Cell m (NDecryptor d)) /\
    transmit c d t0 t1 now t2 mt frame = Ok (HCCrypto.status_OK, kOk, frame).
Proof.
  intros Hp Hq Hne (l & -> & Hl) Hv Hf.
  assert (Ha : array16 (Some l) = Some (to_uint8 l)) by (simpl; by rewrite Hl).
  set (c := HCCrypto.SetSM4KeyWithVersion HCCrypto.make_default (to_uint8 l) version).
  set (d := HCCryptoDecryptor.SetSM4KeyWithVersion HCCryptoDecryptor.make_default (to_uint8 l) version).
  assert (Hpair : paired c d).
  { constructor; try reflexivity. exact (paired_ctr_bytes _ _ default_paired). }
  do 5 eexists. split; [by apply configure_eq|]. split; [by rewrite lookup_insert_ne, lookup_insert_eq|].
  split; [by rewrite lookup_insert_eq|]. by apply full_mode_transmit.
Qed.

Lemma configured_natives_roundtrip_witness :
  exists h' c d n m,
    configure ∅ 7 8 (Some (replicate 16 (-3))) 9 = Ok h' /\
    h' !! 7 = Some (Cell n (NEncryptor c)) /\ h' !! 8 = Some (Cell m (NDecryptor d)) /\
    transmit c d 0 5 6 7 MEDIA_TYPE_AUDIO [1; 2] = Ok (HCCrypto.status_OK, kOk, [1; 2]).
Proof.
  apply (configured_natives_roundtrip ∅ 7 8 (Some (replicate 16 (-3))) 9);
    [discriminate|discriminate|discriminate|by eexists|lia|].
  split; [solve_bytes|unfold size; simpl; lia].
Defined.
