(* ===== verification/H264.v ===== *)
(** H.264 profile and level negotiation.

    Models [api/video_codecs/h264_profile_level_id.{h,cc}] and the H.264 part of
    [media/base/sdp_video_format_utils.cc], which decide whether two H.264
    codecs are compatible and which [profile-level-id] the answer carries.
    A parameter set ([std::map<std::string, std::string>]) is a [gmap]. *)

From Stdlib Require Import ZArith Lia Ascii.
From stdpp Require Import gmap.
From S2P Require Import Prelude Words.

Inductive H264Profile : Set :=
| kProfileConstrainedBaseline
| kProfileBaseline
| kProfileMain
| kProfileConstrainedHigh
| kProfileHigh.

Inductive H264Level : Set :=
| kLevel1_b | kLevel1 | kLevel1_1 | kLevel1_2 | kLevel1_3
| kLevel2 | kLevel2_1 | kLevel2_2
| kLevel3 | kLevel3_1 | kLevel3_2
| kLevel4 | kLevel4_1 | kLevel4_2
| kLevel5 | kLevel5_1 | kLevel5_2.

#[export] Instance H264Profile_eq_dec : EqDecision H264Profile.
Proof. solve_decision. Defined.
#[export] Instance H264Level_eq_dec : EqDecision H264Level.
Proof. solve_decision. Defined.

(** The values of the enumeration. *)
Definition level_value (l : H264Level) : Z :=
  match l with
  | kLevel1_b => 0 | kLevel1 => 10 | kLevel1_1 => 11 | kLevel1_2 => 12 | kLevel1_3 => 13
  | kLevel2 => 20 | kLevel2_1 => 21 | kLevel2_2 => 22
  | kLevel3 => 30 | kLevel3_1 => 31 | kLevel3_2 => 32
  | kLevel4 => 40 | kLevel4_1 => 41 | kLevel4_2 => 42
  | kLevel5 => 50 | kLevel5_1 => 51 | kLevel5_2 => 52
  end.

Record H264ProfileLevelId : Set := ProfileLevelId { profile : H264Profile; level : H264Level }.

Definition kConstraintSet3Flag : Z := 0x10.

(** ** Bit patterns *)

Definition bit_of (c : ascii) (s : string) (i : nat) : Z :=
  match String.get i s with Some a => Z.b2z (Ascii.eqb a c) | None => 0 end.

Definition ByteMaskString (c : ascii) (str : string) : Z :=
  Z.lor (Z.shiftl (bit_of c str 0) 7) (Z.lor (Z.shiftl (bit_of c str 1) 6)
  (Z.lor (Z.shiftl (bit_of c str 2) 5) (Z.lor (Z.shiftl (bit_of c str 3) 4)
  (Z.lor (Z.shiftl (bit_of c str 4) 3) (Z.lor (Z.shiftl (bit_of c str 5) 2)
  (Z.lor (Z.shiftl (bit_of c str 6) 1) (Z.shiftl (bit_of c str 7) 0))))))).

(** [BitPattern(str).IsMatch(value)] *)
Definition IsMatch (str : string) (value : Z) : bool :=
  let mask := u8 (Z.lnot (ByteMaskString "x" str)) in
  ByteMaskString "1" str =? Z.land value mask.

Definition kProfilePatterns : list (Z * string * H264Profile) :=
  [(0x42, "x1xx0000", kProfileConstrainedBaseline);
   (0x4D, "1xxx0000", kProfileConstrainedBaseline);
   (0x58, "11xx0000", kProfileConstrainedBaseline);
   (0x42, "x0xx0000", kProfileBaseline);
   (0x58, "10xx0000", kProfileBaseline);
   (0x4D, "0x0x0000", kProfileMain);
   (0x64, "00000000", kProfileHigh);
   (0x64, "00001100", kProfileConstrainedHigh)].

(** ** [strtol(str, nullptr, 16)] *)

Definition hex_digit (a : ascii) : option Z :=
  let n := Z.of_nat (nat_of_ascii a) in
  if (48 <=? n) && (n <=? 57) then Some (n - 48)
  else if (65 <=? n) && (n <=? 70) then Some (n - 55)
  else if (97 <=? n) && (n <=? 102) then Some (n - 87)
  else None.

Fixpoint hex_value (acc : Z) (s : string) : Z :=
  match s with
  | EmptyString => acc
  | String a s' => match hex_digit a with
                   | Some d => hex_value (acc * 16 + d) s'
                   | None => acc
                   end
  end.

Definition is_space (a : ascii) : bool :=
  let n := nat_of_ascii a in Nat.eqb n 32 || (Nat.leb 9 n && Nat.leb n 13).

Fixpoint skip_spaces (s : string) : string :=
  match s with
  | String a s' => if is_space a then skip_spaces s' else s
  | EmptyString => s
  end.

(** The [0x] prefix counts only when a digit follows it. *)
Definition skip_hex_prefix (s : string) : string :=
  match s with
  | String "0" (String x (String a s')) =>
      if (Ascii.eqb x "x" || Ascii.eqb x "X") &&
         match hex_digit a with Some _ => true | None => false end
      then String a s' else s
  | _ => s
  end.

Definition strtol16 (s : string) : Z :=
  match skip_spaces s with
  | String "-" s' => - hex_value 0 (skip_hex_prefix s')
  | String "+" s' => hex_value 0 (skip_hex_prefix s')
  | s' => hex_value 0 (skip_hex_prefix s')
  end.

(** [c_str()]: what a C function sees of a string. *)
Fixpoint c_str (s : string) : string :=
  match s with
  | String a s' => if Ascii.eqb a "000" then EmptyString else String a (c_str s')
  | EmptyString => EmptyString
  end.

(** ** Parsing and printing *)

(** The [switch] over [level_idc]. *)
Definition parse_level (level_idc profile_iop : Z) : option H264Level :=
  if level_idc =? 11 then
    Some (if negb (Z.land profile_iop kConstraintSet3Flag =? 0) then kLevel1_b else kLevel1_1)
  else
    list_find (fun l => level_value l = level_idc)
      [kLevel1; kLevel1_2; kLevel1_3; kLevel2; kLevel2_1; kLevel2_2; kLevel3; kLevel3_1;
       kLevel3_2; kLevel4; kLevel4_1; kLevel4_2; kLevel5; kLevel5_1; kLevel5_2]
    ≫= fun p => Some p.2.

Definition parse_profile (profile_idc profile_iop : Z) : option H264Profile :=
  match List.find (fun p => (p.1.1 =? profile_idc) && IsMatch p.1.2 profile_iop) kProfilePatterns with
  | Some (_, p) => Some p
  | None => None
  end.

Definition ParseH264ProfileLevelId (str : string) : option H264ProfileLevelId :=
  if negb (Nat.eqb (String.length str) 6) then None
  else
    let profile_level_id_numeric := u32 (strtol16 str) in
    if profile_level_id_numeric =? 0 then None
    else
      let level_idc := u8 (Z.land profile_level_id_numeric 0xFF) in
      let profile_iop := u8 (Z.land (Z.shiftr profile_level_id_numeric 8) 0xFF) in
      let profile_idc := u8 (Z.land (Z.shiftr profile_level_id_numeric 16) 0xFF) in
      match parse_level level_idc profile_iop with
      | None => None
      | Some level =>
          match parse_profile profile_idc profile_iop with
          | Some profile => Some (ProfileLevelId profile level)
          | None => None
          end
      end.

Abbreviation Parameters := (gmap string string).

Definition kProfileLevelId : string := "profile-level-id".
Definition kH264LevelAsymmetryAllowed : string := "level-asymmetry-allowed".

Definition ParseSdpForH264ProfileLevelId (params : Parameters) : option H264ProfileLevelId :=
  match params !! kProfileLevelId with
  | None => Some (ProfileLevelId kProfileConstrainedBaseline kLevel3_1)
  | Some s => ParseH264ProfileLevelId (c_str s)
  end.

Definition hex_char (d : Z) : ascii :=
  ascii_of_nat (Z.to_nat (if d <? 10 then 48 + d else 87 + d)).

(** [snprintf("%02x")] of a value below 256. *)
Definition hex2 (v : Z) : string := String (hex_char (v / 16)) (String (hex_char (v `mod` 16)) EmptyString).

Definition H264ProfileLevelIdToString (p : H264ProfileLevelId) : option string :=
  if decide (level p = kLevel1_b) then
    match profile p with
    | kProfileConstrainedBaseline => Some "42f00b"
    | kProfileBaseline => Some "42100b"
    | kProfileMain => Some "4d100b"
    | _ => None
    end
  else
    let profile_idc_iop_string :=
      match profile p with
      | kProfileConstrainedBaseline => "42e0"
      | kProfileBaseline => "4200"
      | kProfileMain => "4d00"
      | kProfileConstrainedHigh => "640c"
      | kProfileHigh => "6400"
      end in
    Some (profile_idc_iop_string +:+ hex2 (level_value (level p))).

Definition H264IsSameProfile (params1 params2 : Parameters) : bool :=
  match ParseSdpForH264ProfileLevelId params1, ParseSdpForH264ProfileLevelId params2 with
  | Some a, Some b => bool_decide (profile a = profile b)
  | _, _ => false
  end.

(** ** The answer *)

Definition IsH264LevelAsymmetryAllowed (params : Parameters) : bool :=
  match params !! kH264LevelAsymmetryAllowed with
  | Some s => String.eqb (c_str s) "1"
  | None => false
  end.

Definition H264LevelIsLess (a b : H264Level) : bool :=
  if decide (a = kLevel1_b) then bool_decide (b <> kLevel1) && bool_decide (b <> kLevel1_b)
  else if decide (b = kLevel1_b) then bool_decide (a = kLevel1)
  else level_value a <? level_value b.

Definition H264LevelMin (a b : H264Level) : H264Level :=
  if H264LevelIsLess a b then a else b.

(** Dereferencing an empty optional is undefined; the [RTC_DCHECK]s are not
    compiled into a release build. *)
Definition H264GenerateProfileLevelIdForAnswer
    (local_supported_params remote_offered_params answer_params : Parameters) : res Parameters :=
  match local_supported_params !! kProfileLevelId, remote_offered_params !! kProfileLevelId with
  | None, None => Ok answer_params
  | _, _ =>
      match ParseSdpForH264ProfileLevelId local_supported_params,
            ParseSdpForH264ProfileLevelId remote_offered_params with
      | Some local, Some remote =>
          let level_asymmetry_allowed :=
            IsH264LevelAsymmetryAllowed local_supported_params &&
            IsH264LevelAsymmetryAllowed remote_offered_params in
          let min_level := H264LevelMin (level local) (level remote) in
          let answer_level := if level_asymmetry_allowed then level local else min_level in
          match H264ProfileLevelIdToString (ProfileLevelId (profile local) answer_level) with
          | Some s => Ok (<[kProfileLevelId := s]> answer_params)
          | None => Undef UbDeref
          end
      | _, _ => Undef UbDeref
      end
  end.

(** ** Facts *)

Ltac each_level := repeat match goal with l : H264Level |- _ => destruct l | p : H264Profile |- _ => destruct p end.

Example parse_baseline :
  ParseH264ProfileLevelId "42e01f" = Some (ProfileLevelId kProfileConstrainedBaseline kLevel3_1).
Proof. reflexivity. Qed.

(** A string that is printed is not cut short by [c_str]. *)
Lemma to_string_c_str p s : H264ProfileLevelIdToString p = Some s -> c_str s = s.
Proof. destruct p as [p l]. each_level; by intros [= <-]. Qed.

Lemma parse_to_string p s : H264ProfileLevelIdToString p = Some s -> ParseH264ProfileLevelId s = Some p.
Proof. destruct p as [p l]. each_level; by intros [= <-]. Qed.

(** Level 1b comes with constraint flag 3, which the two high profiles
    exclude. *)
Lemma parse_profile_high iop idc p :
  parse_profile idc iop = Some p -> Z.testbit iop 4 = true ->
  p <> kProfileHigh /\ p <> kProfileConstrainedHigh.
Proof.
  intros H Hbit. unfold parse_profile in H.
  assert (Hno : forall s, Z.testbit (ByteMaskString "1" s) 4 = false ->
            Z.testbit (u8 (Z.lnot (ByteMaskString "x" s))) 4 = true -> IsMatch s iop = false).
  { intros s H1 H2. unfold IsMatch. apply Z.eqb_neq. intros E.
    apply (f_equal (fun z => Z.testbit z 4)) in E. rewrite Z.land_spec, H1, H2, Hbit in E. done. }
  destruct (List.find _ _) as [[[i s] p']|] eqn:E; [|done]. injection H as ->.
  apply List.find_some in E as [Hin Hm]. apply andb_true_iff in Hm as [_ Hm]. cbn [fst snd] in Hm.
  repeat (destruct Hin as [[= <- <- <-]|Hin]; [try done; by rewrite Hno in Hm|]). destruct Hin.
Qed.

Lemma parse_1b_profile s p :
  ParseH264ProfileLevelId s = Some (ProfileLevelId p kLevel1_b) ->
  p <> kProfileHigh /\ p <> kProfileConstrainedHigh.
Proof.
  unfold ParseH264ProfileLevelId. destruct (negb _); [done|]. cbv zeta.
  destruct (_ =? 0); [done|].
  set (iop := u8 (Z.land (Z.shiftr _ 8) 255)). unfold parse_level.
  destruct (_ =? 11).
  - destruct (Z.land iop kConstraintSet3Flag =? 0) eqn:E; cbn [negb].
    { by destruct (parse_profile _ iop). }
    destruct (parse_profile _ iop) as [p'|] eqn:Ep; [|done]. intros [= <-].
    apply (parse_profile_high iop _ p' Ep). destruct (Z.testbit iop 4) eqn:Hb; [done|].
    exfalso. apply Z.eqb_neq in E. apply E. apply Z.bits_inj'. intros n Hn.
    rewrite Z.land_spec, Z.bits_0. destruct (Z.eqb_spec n 4) as [->|Hn4]; [by rewrite Hb|].
    unfold kConstraintSet3Flag. change 16 with (2 ^ 4). rewrite Z.pow2_bits_false by lia.
    apply andb_false_r.
  - destruct (list_find _ _) as [[i l]|] eqn:El; [|done]. cbn.
    destruct (parse_profile _ iop); [|done]. intros [= -> ->].
    apply list_find_Some in El as (Hl & _ & _). exfalso.
    apply list_elem_of_lookup_2, list_elem_of_In in Hl. simpl in Hl. intuition discriminate.
Qed.

Lemma sdp_1b_profile params p :
  ParseSdpForH264ProfileLevelId params = Some (ProfileLevelId p kLevel1_b) ->
  p <> kProfileHigh /\ p <> kProfileConstrainedHigh.
Proof.
  unfold ParseSdpForH264ProfileLevelId. destruct (params !! kProfileLevelId); [|done].
  apply parse_1b_profile.
Qed.

Lemma to_string_some p l :
  (l = kLevel1_b -> p <> kProfileHigh /\ p <> kProfileConstrainedHigh) ->
  exists s, H264ProfileLevelIdToString (ProfileLevelId p l) = Some s.
Proof.
  intros H. unfold H264ProfileLevelIdToString. cbn [level profile].
  destruct (decide (l = kLevel1_b)) as [->|]; [|by eexists].
  destruct (H eq_refl). destruct p; try done; by eexists.
Qed.

(** The order on levels puts 1b between 1 and 1.1. *)
Definition level_rank (l : H264Level) : Z :=
  match l with kLevel1_b => 105 | _ => 10 * level_value l end.

Lemma level_less_rank a b : H264LevelIsLess a b = (level_rank a <? level_rank b).
Proof. by destruct a, b. Qed.

Lemma level_min_rank a b : level_rank (H264LevelMin a b) = Z.min (level_rank a) (level_rank b).
Proof.
  unfold H264LevelMin. rewrite level_less_rank. destruct (Z.ltb_spec (level_rank a) (level_rank b)); lia.
Qed.

Lemma level_min_cases a b : H264LevelMin a b = a \/ H264LevelMin a b = b.
Proof. unfold H264LevelMin. destruct (H264LevelIsLess a b); auto. Qed.

Lemma answer_spec local remote answer :
  H264IsSameProfile local remote = true ->
  exists answer', H264GenerateProfileLevelIdForAnswer local remote answer = Ok answer' /\
    ((local !! kProfileLevelId = None /\ remote !! kProfileLevelId = None /\ answer' = answer) \/
     exists a b c,
       ParseSdpForH264ProfileLevelId local = Some a /\ ParseSdpForH264ProfileLevelId remote = Some b /\
       ParseSdpForH264ProfileLevelId answer' = Some c /\ profile c = profile a /\ profile c = profile b /\
       if IsH264LevelAsymmetryAllowed local && IsH264LevelAsymmetryAllowed remote
       then level c = level a
       else H264LevelIsLess (level a) (level c) = false /\ H264LevelIsLess (level b) (level c) = false /\
            (level c = level a \/ level c = level b)).
Proof.
  unfold H264IsSameProfile. intros H.
  destruct (ParseSdpForH264ProfileLevelId local) as [[pa la]|] eqn:Ea; [|done].
  destruct (ParseSdpForH264ProfileLevelId remote) as [[pb lb]|] eqn:Eb; [|done].
  apply bool_decide_eq_true in H. cbn [profile] in H. subst pb.
  unfold H264GenerateProfileLevelIdForAnswer. rewrite Ea, Eb. cbn [profile level].
  set (asym := IsH264LevelAsymmetryAllowed local && IsH264LevelAsymmetryAllowed remote).
  set (l := if asym then la else H264LevelMin la lb).
  destruct (to_string_some pa l) as [s Hs].
  { intros Hl. assert (Hc : la = kLevel1_b \/ lb = kLevel1_b).
    { unfold l in Hl. destruct asym; [by left|]. destruct (level_min_cases la lb) as [E|E]; rewrite E in Hl; auto. }
    destruct Hc as [-> | ->]; [by apply (sdp_1b_profile local)|by apply (sdp_1b_profile remote)]. }
  assert (Hc : ParseSdpForH264ProfileLevelId (<[kProfileLevelId := s]> answer) = Some (ProfileLevelId pa l)).
  { unfold ParseSdpForH264ProfileLevelId. rewrite lookup_insert_eq.
    rewrite (to_string_c_str (ProfileLevelId pa l)) by done. by apply parse_to_string. }
  assert (Hbranch : exists answer', match H264ProfileLevelIdToString (ProfileLevelId pa l) with
              | Some s => Ok (<[kProfileLevelId := s]> answer) | None => Undef UbDeref end = Ok answer' /\
            exists a b c, Some (ProfileLevelId pa la) = Some a /\ Some (ProfileLevelId pa lb) = Some b /\
              ParseSdpForH264ProfileLevelId answer' = Some c /\ profile c = profile a /\ profile c = profile b /\
              if asym then level c = level a
              else H264LevelIsLess (level a) (level c) = false /\ H264LevelIsLess (level b) (level c) = false /\
                   (level c = level a \/ level c = level b)).
  { rewrite Hs. eexists. split; [reflexivity|]. do 3 eexists. split; [reflexivity|]. split; [reflexivity|].
    split; [exact Hc|]. cbn [profile level]. split; [done|]. split; [done|]. unfold l. destruct asym; [done|].
    rewrite !level_less_rank, level_min_rank, !Z.ltb_ge. split; [lia|]. split; [lia|apply level_min_cases]. }
  destruct Hbranch as (answer' & Hans & Hspec).
  destruct (local !! kProfileLevelId), (remote !! kProfileLevelId); try (exists answer'; by auto).
  exists answer. split; [done|]. by left.
Qed.

(** ** Theorems *)

(** C22. Printing and parsing a profile-level-id agree: what is printed parses
    back to the same profile and level, and every id that was parsed can be
    printed, so the optional the answer dereferences is never empty for it. *)
Theorem profile_level_id_roundtrip :
  (forall p s, H264ProfileLevelIdToString p = Some s -> ParseH264ProfileLevelId (c_str s) = Some p) /\
  (forall s p, ParseH264ProfileLevelId s = Some p -> exists s', H264ProfileLevelIdToString p = Some s').
Proof.
  split.
  - intros p s H. rewrite (to_string_c_str p) by done. by apply parse_to_string.
  - intros s [p l] H. apply to_string_some. intros ->. by apply (parse_1b_profile s).
Qed.

(** For codecs that [H264IsSameProfile] accepts the answer is always
    produced; unless neither side names a profile-level-id, it carries an id of
    the same profile, whose level is the local one when both sides allow
    asymmetry and otherwise the lower of the two. *)
Theorem answer_profile_level_id local remote answer :
  H264IsSameProfile local remote = true ->
  exists answer', H264GenerateProfileLevelIdForAnswer local remote answer = Ok answer' /\
    ((local !! kProfileLevelId = None /\ remote !! kProfileLevelId = None /\ answer' = answer) \/
     exists a b c,
       ParseSdpForH264ProfileLevelId local = Some a /\ ParseSdpForH264ProfileLevelId remote = Some b /\
       ParseSdpForH264ProfileLevelId answer' = Some c /\ profile c = profile a /\ profile c = profile b /\
       if IsH264LevelAsymmetryAllowed local && IsH264LevelAsymmetryAllowed remote
       then level c = level a
       else H264LevelIsLess (level a) (level c) = false /\ H264LevelIsLess (level b) (level c) = false /\
            (level c = level a \/ level c = level b)).
Proof. exact (answer_spec local remote answer). Qed.

Lemma answer_profile_level_id_witness :
  let local : Parameters := {["profile-level-id" := "42e01f"]} in
  let remote : Parameters := {["profile-level-id" := "42f00b"]} in
  exists answer', H264GenerateProfileLevelIdForAnswer local remote ∅ = Ok answer' /\
    answer' !! "profile-level-id" = Some "42f00b".
Proof.
  intros local remote.
  destruct (answer_profile_level_id local remote ∅) as (answer' & H & _); [reflexivity|].
  exists answer'. split; [exact H|]. vm_compute in H. by injection H as <-.
Defined.
