(* ===== verification/OrtcValidate.v ===== *)
(** The validators of [ortc.cpp].

    Every object that reaches the library from the application or the server
    goes through one of these functions, which check it, fill in missing
    fields and throw a type error when it cannot be used.  A validator is a
    function from the value it is given to the value it leaves; iterators
    obtained with [find] at the top of a function keep what they found there,
    as in the source, also when the value is changed afterwards. *)

From Stdlib Require Import ZArith Lia Ascii.
From S2P Require Import Prelude Json.

(** ** Reading the result of [find] *)

(** [it != end() && it->p()] *)
Definition opt_is (p : json -> bool) (it : option json) : bool :=
  match it with Some v => p v | None => false end.

(** [it != end() && !it->p()] *)
Definition opt_not (p : json -> bool) (it : option json) : bool :=
  match it with Some v => negb (p v) | None => false end.

(** [it == end()] *)
Definition at_end (it : option json) : bool :=
  match it with Some _ => false | None => true end.

(** [it->is_string() && !it->get<std::string>().empty()] *)
Definition is_nonempty_string (j : json) : bool :=
  match j with JString s => negb (str_empty s) | _ => false end.

Definition elements (it : option json) : list json :=
  match it with Some (JArray l) => l | _ => [] end.

Definition members (it : option json) : object :=
  match it with Some (JObject o) => o | _ => [] end.

Definition type_error (s : string) : exn := MscTypeError s.

(** ** Regular expressions *)

(** [.] of an ECMAScript expression. *)
Definition not_line_terminator (a : ascii) : bool :=
  negb (Ascii.eqb a "010") && negb (Ascii.eqb a "013").

(** [regex_match] with [^(audio|video)/(.+)], ignoring case: the two groups. *)
Definition mime_match (s : string) : option (string * string) :=
  let kind := String.substring 0 5 s in
  let rest := String.substring 6 (String.length s) s in
  let lower := str_lower kind in
  if (String.eqb lower "audio" || String.eqb lower "video") &&
     String.eqb (String.substring 5 1 s) "/" &&
     negb (str_empty rest) && str_forallb not_line_terminator rest
  then Some (kind, rest) else None.

(** [regex_match] with an alternative of words, ignoring case. *)
Definition word_match (words : list string) (s : string) : bool :=
  existsb (String.eqb (str_lower s)) words.

(** ** RTP capabilities *)

Definition validateRtcpFeedback (fb : json) : res json :=
  do* throw_if (negb (is_object fb)) (type_error "fb is not an object") in
  let typeIt := jfind fb "type" in
  let parameterIt := jfind fb "parameter" in
  do* throw_if (negb (opt_is is_string typeIt)) (type_error "missing fb.type") in
  if negb (opt_is is_string parameterIt) then jset fb "parameter" (JString "") else Ok fb.

(** The loop over [codec.parameters], the same in both codec validators. *)
Definition check_codec_parameter (kv : string * json) : res unit :=
  let '(key, value) := kv in
  do* throw_if (negb (is_string value) && negb (is_number value) && negb (is_null value))
        (type_error "invalid codec parameter") in
  throw_if (String.eqb key "apt" && negb (is_number_integer value))
    (type_error "invalid codec apt parameter").

Definition check_codec_parameters (o : object) : res unit :=
  for_fold (fun _ kv => check_codec_parameter kv) tt o.

Definition validateRtpCodecCapability (codec : json) : res json :=
  do* throw_if (negb (is_object codec)) (type_error "codec is not an object") in
  let mimeTypeIt := jfind codec "mimeType" in
  let preferredPayloadTypeIt := jfind codec "preferredPayloadType" in
  let clockRateIt := jfind codec "clockRate" in
  let channelsIt := jfind codec "channels" in
  let parametersIt := jfind codec "parameters" in
  let rtcpFeedbackIt := jfind codec "rtcpFeedback" in
  match mimeTypeIt with
  | Some (JString regexTarget) =>
      match mime_match regexTarget with
      | None => Throw (type_error "invalid codec.mimeType")
      | Some (kind, _) =>
          let* codec := jset codec "kind" (JString kind) in
          do* throw_if (opt_not is_number_integer preferredPayloadTypeIt)
                (type_error "invalid codec.preferredPayloadType") in
          do* throw_if (negb (opt_is is_number_integer clockRateIt))
                (type_error "missing codec.clockRate") in
          let* codec :=
            if String.eqb kind "audio" then
              if negb (opt_is is_number_integer channelsIt)
              then jset codec "channels" (JInt 1) else Ok codec
            else
              if negb (at_end channelsIt) then jerase codec "channels" else Ok codec in
          let* codec :=
            if negb (opt_is is_object parametersIt)
            then jset codec "parameters" (JObject []) else Ok codec in
          do* check_codec_parameters (members (jfind codec "parameters")) in
          let* codec :=
            if negb (opt_is is_array rtcpFeedbackIt)
            then jset codec "rtcpFeedback" (JArray []) else Ok codec in
          let* fbs := for_each validateRtcpFeedback (elements (jfind codec "rtcpFeedback")) in
          jset codec "rtcpFeedback" (JArray fbs)
      end
  | _ => Throw (type_error "missing codec.mimeType")
  end.

Definition validateRtpHeaderExtension (ext : json) : res json :=
  do* throw_if (negb (is_object ext)) (type_error "ext is not an object") in
  let kindIt := jfind ext "kind" in
  let uriIt := jfind ext "uri" in
  let preferredIdIt := jfind ext "preferredId" in
  let preferredEncryptIt := jfind ext "preferredEncrypt" in
  let directionIt := jfind ext "direction" in
  match kindIt with
  | Some (JString kind) =>
      do* throw_if (negb (String.eqb kind "audio") && negb (String.eqb kind "video"))
            (type_error "invalid ext.kind") in
      do* throw_if (negb (opt_is is_nonempty_string uriIt)) (type_error "missing ext.uri") in
      do* throw_if (negb (opt_is is_number_integer preferredIdIt))
            (type_error "missing ext.preferredId") in
      do* throw_if (opt_not is_boolean preferredEncryptIt)
            (type_error "invalid ext.preferredEncrypt") in
      let* ext :=
        if at_end preferredEncryptIt then jset ext "preferredEncrypt" (JBool false) else Ok ext in
      do* throw_if (opt_not is_string directionIt) (type_error "invalid ext.direction") in
      if at_end directionIt then jset ext "direction" (JString "sendrecv") else Ok ext
  | _ => Throw (type_error "missing ext.kind")
  end.

(** An array field that is filled with an empty array when it is not there and
    whose elements are then validated. *)
Definition optional_array (j : json) (k : string) (it : option json) (error : string)
    (validate : json -> res json) : res json :=
  do* throw_if (opt_not is_array it) (type_error error) in
  let* j := if at_end it then jset j k (JArray []) else Ok j in
  let* l := for_each validate (elements (jfind j k)) in
  jset j k (JArray l).

Definition validateRtpCapabilities (caps : json) : res json :=
  do* throw_if (negb (is_object caps)) (type_error "caps is not an object") in
  let codecsIt := jfind caps "codecs" in
  let headerExtensionsIt := jfind caps "headerExtensions" in
  let* caps := optional_array caps "codecs" codecsIt "caps.codecs is not an array"
                 validateRtpCodecCapability in
  optional_array caps "headerExtensions" headerExtensionsIt
    "caps.headerExtensions is not an array" validateRtpHeaderExtension.

(** ** RTP parameters *)

Definition validateRtpCodecParameters (codec : json) : res json :=
  do* throw_if (negb (is_object codec)) (type_error "codec is not an object") in
  let mimeTypeIt := jfind codec "mimeType" in
  let payloadTypeIt := jfind codec "payloadType" in
  let clockRateIt := jfind codec "clockRate" in
  let channelsIt := jfind codec "channels" in
  let parametersIt := jfind codec "parameters" in
  let rtcpFeedbackIt := jfind codec "rtcpFeedback" in
  match mimeTypeIt with
  | Some (JString regexTarget) =>
      match mime_match regexTarget with
      | None => Throw (type_error "invalid codec.mimeType")
      | Some (kind, _) =>
          do* throw_if (negb (opt_is is_number_integer payloadTypeIt))
                (type_error "missing codec.payloadType") in
          do* throw_if (negb (opt_is is_number_integer clockRateIt))
                (type_error "missing codec.clockRate") in
          let* codec :=
            if String.eqb kind "audio" then
              if negb (opt_is is_number_integer channelsIt)
              then jset codec "channels" (JInt 1) else Ok codec
            else
              if negb (at_end channelsIt) then jerase codec "channels" else Ok codec in
          let* codec :=
            if negb (opt_is is_object parametersIt)
            then jset codec "parameters" (JObject []) else Ok codec in
          do* check_codec_parameters (members (jfind codec "parameters")) in
          let* codec :=
            if negb (opt_is is_array rtcpFeedbackIt)
            then jset codec "rtcpFeedback" (JArray []) else Ok codec in
          let* fbs := for_each validateRtcpFeedback (elements (jfind codec "rtcpFeedback")) in
          jset codec "rtcpFeedback" (JArray fbs)
      end
  | _ => Throw (type_error "missing codec.mimeType")
  end.

Definition check_extension_parameter (kv : string * json) : res unit :=
  throw_if (negb (is_string kv.2) && negb (is_number kv.2))
    (type_error "invalid header extension parameter").

Definition validateRtpHeaderExtensionParameters (ext : json) : res json :=
  do* throw_if (negb (is_object ext)) (type_error "ext is not an object") in
  let uriIt := jfind ext "uri" in
  let idIt := jfind ext "id" in
  let encryptIt := jfind ext "encrypt" in
  let parametersIt := jfind ext "parameters" in
  do* throw_if (negb (opt_is is_nonempty_string uriIt)) (type_error "missing ext.uri") in
  do* throw_if (negb (opt_is is_number_integer idIt)) (type_error "missing ext.id") in
  do* throw_if (opt_not is_boolean encryptIt) (type_error "invalid ext.encrypt") in
  let* ext := if at_end encryptIt then jset ext "encrypt" (JBool false) else Ok ext in
  let* ext :=
    if negb (opt_is is_object parametersIt)
    then jset ext "parameters" (JObject []) else Ok ext in
  do* for_fold (fun _ kv => check_extension_parameter kv) tt (members (jfind ext "parameters")) in
  Ok ext.

Definition validateRtpEncodingParameters (encoding : json) : res json :=
  do* throw_if (negb (is_object encoding)) (type_error "encoding is not an object") in
  let ssrcIt := jfind encoding "ssrc" in
  let ridIt := jfind encoding "rid" in
  let rtxIt := jfind encoding "rtx" in
  let dtxIt := jfind encoding "dtx" in
  let scalabilityModeIt := jfind encoding "scalabilityMode" in
  do* throw_if (opt_not is_number_integer ssrcIt) (type_error "invalid encoding.ssrc") in
  do* throw_if (opt_not is_nonempty_string ridIt) (type_error "invalid encoding.rid") in
  do* throw_if (opt_not is_object rtxIt) (type_error "invalid encoding.rtx") in
  do* throw_if
        (match rtxIt with
         | Some rtx => negb (opt_is is_number_integer (jfind rtx "ssrc"))
         | None => false
         end) (type_error "missing encoding.rtx.ssrc") in
  let* encoding :=
    if negb (opt_is is_boolean dtxIt) then jset encoding "dtx" (JBool false) else Ok encoding in
  do* throw_if (opt_not is_nonempty_string scalabilityModeIt)
        (type_error "invalid encoding.scalabilityMode") in
  Ok encoding.

Definition validateRtcpParameters (rtcp : json) : res json :=
  do* throw_if (negb (is_object rtcp)) (type_error "rtcp is not an object") in
  let cnameIt := jfind rtcp "cname" in
  let reducedSizeIt := jfind rtcp "reducedSize" in
  do* throw_if (opt_not is_string cnameIt) (type_error "invalid rtcp.cname") in
  if negb (opt_is is_boolean reducedSizeIt)
  then jset rtcp "reducedSize" (JBool true) else Ok rtcp.

Definition validateRtpParameters (params : json) : res json :=
  do* throw_if (negb (is_object params)) (type_error "params is not an object") in
  let midIt := jfind params "mid" in
  let codecsIt := jfind params "codecs" in
  let headerExtensionsIt := jfind params "headerExtensions" in
  let encodingsIt := jfind params "encodings" in
  let rtcpIt := jfind params "rtcp" in
  do* throw_if (opt_not is_nonempty_string midIt) (type_error "params.mid is not a string") in
  do* throw_if (negb (opt_is is_array codecsIt)) (type_error "missing params.codecs") in
  let* codecs := for_each validateRtpCodecParameters (elements codecsIt) in
  let* params := jset params "codecs" (JArray codecs) in
  let* params := optional_array params "headerExtensions" headerExtensionsIt
                   "params.headerExtensions is not an array" validateRtpHeaderExtensionParameters in
  let* params := optional_array params "encodings" encodingsIt
                   "params.encodings is not an array" validateRtpEncodingParameters in
  do* throw_if (opt_not is_object rtcpIt) (type_error "params.rtcp is not an object") in
  let* params := if at_end rtcpIt then jset params "rtcp" (JObject []) else Ok params in
  match jfind params "rtcp" with
  | None => Undef UbDeref
  | Some rtcp =>
      let* rtcp := validateRtcpParameters rtcp in
      jset params "rtcp" rtcp
  end.

(** ** SCTP *)

Definition validateNumSctpStreams (numStreams : json) : res json :=
  do* throw_if (negb (is_object numStreams)) (type_error "numStreams is not an object") in
  let osIt := jfind numStreams "OS" in
  let misIt := jfind numStreams "MIS" in
  do* throw_if (negb (opt_is is_number_integer osIt)) (type_error "missing numStreams.OS") in
  do* throw_if (negb (opt_is is_number_integer misIt)) (type_error "missing numStreams.MIS") in
  Ok numStreams.

Definition validateSctpCapabilities (caps : json) : res json :=
  do* throw_if (negb (is_object caps)) (type_error "caps is not an object") in
  match jfind caps "numStreams" with
  | Some (JObject o) =>
      let* numStreams := validateNumSctpStreams (JObject o) in
      jset caps "numStreams" numStreams
  | _ => Throw (type_error "missing caps.numStreams")
  end.

Definition validateSctpParameters (params : json) : res json :=
  do* throw_if (negb (is_object params)) (type_error "params is not an object") in
  let portIt := jfind params "port" in
  let osIt := jfind params "OS" in
  let misIt := jfind params "MIS" in
  let maxMessageSizeIt := jfind params "maxMessageSize" in
  do* throw_if (negb (opt_is is_number_integer portIt)) (type_error "missing params.port") in
  do* throw_if (negb (opt_is is_number_integer osIt)) (type_error "missing params.OS") in
  do* throw_if (negb (opt_is is_number_integer misIt)) (type_error "missing params.MIS") in
  do* throw_if (negb (opt_is is_number_integer maxMessageSizeIt))
        (type_error "missing params.maxMessageSize") in
  Ok params.

Definition validateSctpStreamParameters (params : json) : res json :=
  do* throw_if (negb (is_object params)) (type_error "params is not an object") in
  let streamIdIt := jfind params "streamId" in
  let orderedIt := jfind params "ordered" in
  let maxPacketLifeTimeIt := jfind params "maxPacketLifeTime" in
  let maxRetransmitsIt := jfind params "maxRetransmits" in
  let labelIt := jfind params "label" in
  let protocolIt := jfind params "protocol" in
  do* throw_if (negb (opt_is is_number_integer streamIdIt)) (type_error "missing params.streamId") in
  let orderedGiven := opt_is is_boolean orderedIt in
  let* params := if orderedGiven then Ok params else jset params "ordered" (JBool true) in
  let* params :=
    if negb (opt_is is_number_integer maxPacketLifeTimeIt)
    then jset params "maxPacketLifeTime" (JUint 0) else Ok params in
  let* params :=
    if negb (opt_is is_number_integer maxRetransmitsIt)
    then jset params "maxRetransmits" (JUint 0) else Ok params in
  do* throw_if (negb (at_end maxPacketLifeTimeIt) && negb (at_end maxRetransmitsIt))
        (type_error "cannot provide both maxPacketLifeTime and maxRetransmits") in
  let limited := negb (at_end maxPacketLifeTimeIt) || negb (at_end maxRetransmitsIt) in
  let ordered := opt_is (fun v => json_eqb v (JBool true)) (jfind params "ordered") in
  do* throw_if (orderedGiven && ordered && limited)
        (type_error "cannot be ordered with maxPacketLifeTime or maxRetransmits") in
  let* params :=
    if negb orderedGiven && limited then jset params "ordered" (JBool false) else Ok params in
  let* params :=
    if negb (opt_is is_string labelIt) then jset params "label" (JString "") else Ok params in
  if negb (opt_is is_string protocolIt) then jset params "protocol" (JString "") else Ok params.

(** ** ICE and DTLS *)

Definition validateIceParameters (params : json) : res json :=
  do* throw_if (negb (is_object params)) (type_error "params is not an object") in
  let usernameFragmentIt := jfind params "usernameFragment" in
  let passwordIt := jfind params "password" in
  let iceLiteIt := jfind params "iceLite" in
  do* throw_if (negb (opt_is is_nonempty_string usernameFragmentIt))
        (type_error "missing params.usernameFragment") in
  do* throw_if (negb (opt_is is_nonempty_string passwordIt)) (type_error "missing params.password") in
  if negb (opt_is is_boolean iceLiteIt) then jset params "iceLite" (JBool false) else Ok params.

Definition validateIceCandidate (params : json) : res json :=
  do* throw_if (negb (is_object params)) (type_error "params is not an object") in
  let foundationIt := jfind params "foundation" in
  let priorityIt := jfind params "priority" in
  let ipIt := jfind params "ip" in
  let protocolIt := jfind params "protocol" in
  let portIt := jfind params "port" in
  let typeIt := jfind params "type" in
  do* throw_if (negb (opt_is is_nonempty_string foundationIt))
        (type_error "missing params.foundation") in
  do* throw_if (negb (opt_is is_number_unsigned priorityIt)) (type_error "missing params.priority") in
  do* throw_if (negb (opt_is is_nonempty_string ipIt)) (type_error "missing params.ip") in
  do* throw_if (negb (opt_is is_nonempty_string protocolIt)) (type_error "missing params.protocol") in
  do* throw_if
        (negb (opt_is (fun v => match v with JString s => word_match ["udp"; "tcp"] s | _ => false end)
                 protocolIt)) (type_error "invalid params.protocol") in
  do* throw_if (negb (opt_is is_number_unsigned portIt)) (type_error "missing params.port") in
  do* throw_if (negb (opt_is is_nonempty_string typeIt)) (type_error "missing params.type") in
  do* throw_if
        (negb (opt_is (fun v => match v with
                                | JString s => word_match ["host"; "srflx"; "prflx"; "relay"] s
                                | _ => false
                                end) typeIt)) (type_error "invalid params.type") in
  Ok params.

Definition validateIceCandidates (params : json) : res json :=
  match params with
  | JArray l =>
      let* l := for_each validateIceCandidate l in
      Ok (JArray l)
  | _ => Throw (type_error "params is not an array")
  end.

Definition validateDtlsFingerprint (params : json) : res json :=
  do* throw_if (negb (is_object params)) (type_error "params is not an object") in
  let algorithmIt := jfind params "algorithm" in
  let valueIt := jfind params "value" in
  do* throw_if (negb (opt_is is_nonempty_string algorithmIt)) (type_error "missing params.algorithm") in
  do* throw_if (negb (opt_is is_nonempty_string valueIt)) (type_error "missing params.value") in
  Ok params.

Definition validateDtlsParameters (params : json) : res json :=
  do* throw_if (negb (is_object params)) (type_error "params is not an object") in
  let roleIt := jfind params "role" in
  let fingerprintsIt := jfind params "fingerprints" in
  do* throw_if (negb (opt_is is_nonempty_string roleIt)) (type_error "missing params.role") in
  do* throw_if
        (negb (opt_is (fun v => match v with
                                | JString s => word_match ["auto"; "client"; "server"] s
                                | _ => false
                                end) roleIt)) (type_error "invalid params.role") in
  do* throw_if (negb (opt_is is_array fingerprintsIt) || Nat.eqb (length (elements fingerprintsIt)) 0)
        (type_error "missing params.fingerprints") in
  let* fingerprints := for_each validateDtlsFingerprint (elements fingerprintsIt) in
  jset params "fingerprints" (JArray fingerprints).

(** ** Producer options *)

Definition optional_field (params : json) (k : string) (p : json -> bool) : res unit :=
  throw_if (opt_not p (jfind params k)) (type_error ("invalid params." +:+ k)).

Definition validateProducerCodecOptions (params : json) : res json :=
  do* throw_if (negb (is_object params)) (type_error "params is not an object") in
  do* optional_field params "opusStereo" is_boolean in
  do* optional_field params "opusFec" is_boolean in
  do* optional_field params "opusDtx" is_boolean in
  do* optional_field params "opusCbr" is_boolean in
  do* optional_field params "opusMaxPlaybackRate" is_number_unsigned in
  do* optional_field params "opusMaxAverageBitrate" is_number_unsigned in
  do* optional_field params "opusPtime" is_number_integer in
  do* optional_field params "videoGoogleStartBitrate" is_number_integer in
  do* optional_field params "videoGoogleMaxBitrate" is_number_integer in
  do* optional_field params "videoGoogleMinBitrate" is_number_integer in
  Ok params.

(** ** What a validated value looks like *)

Definition wf_feedback (j : json) : bool :=
  is_object j && opt_is is_string (jfind j "type") && opt_is is_string (jfind j "parameter").

Definition wf_codec_parameter (kv : string * json) : bool :=
  (is_string kv.2 || is_number kv.2 || is_null kv.2) &&
  (negb (String.eqb kv.1 "apt") || is_number_integer kv.2).

(** The fields both codec validators leave behind. *)
Definition wf_codec_common (kind : string) (j : json) : bool :=
  opt_is is_number_integer (jfind j "clockRate") &&
  (if String.eqb kind "audio" then opt_is is_number_integer (jfind j "channels")
   else at_end (jfind j "channels")) &&
  opt_is is_object (jfind j "parameters") &&
  forallb wf_codec_parameter (members (jfind j "parameters")) &&
  opt_is is_array (jfind j "rtcpFeedback") &&
  forallb wf_feedback (elements (jfind j "rtcpFeedback")).

Definition mime_kind (j : json) : option string :=
  match jfind j "mimeType" with
  | Some (JString s) => option_map fst (mime_match s)
  | _ => None
  end.

Definition wf_codec_capability (j : json) : bool :=
  is_object j &&
  match mime_kind j with
  | None => false
  | Some kind =>
      opt_is (fun v => match v with JString s => String.eqb s kind | _ => false end) (jfind j "kind") &&
      negb (opt_not is_number_integer (jfind j "preferredPayloadType")) &&
      wf_codec_common kind j
  end.

Definition is_kind_string (j : json) : bool :=
  match j with JString k => String.eqb k "audio" || String.eqb k "video" | _ => false end.

Definition wf_header_extension (j : json) : bool :=
  is_object j && opt_is is_kind_string (jfind j "kind") &&
  opt_is is_nonempty_string (jfind j "uri") &&
  opt_is is_number_integer (jfind j "preferredId") &&
  opt_is is_boolean (jfind j "preferredEncrypt") &&
  opt_is is_string (jfind j "direction").

Definition wf_array (wf : json -> bool) (j : json) (k : string) : bool :=
  opt_is is_array (jfind j k) && forallb wf (elements (jfind j k)).

Definition wf_capabilities (j : json) : bool :=
  is_object j && wf_array wf_codec_capability j "codecs" &&
  wf_array wf_header_extension j "headerExtensions".

Definition wf_codec_parameters (j : json) : bool :=
  is_object j &&
  match mime_kind j with
  | None => false
  | Some kind =>
      opt_is is_number_integer (jfind j "payloadType") && wf_codec_common kind j
  end.

Definition wf_extension_parameters (j : json) : bool :=
  is_object j && opt_is is_nonempty_string (jfind j "uri") &&
  opt_is is_number_integer (jfind j "id") && opt_is is_boolean (jfind j "encrypt") &&
  opt_is is_object (jfind j "parameters") &&
  forallb (fun kv => is_string kv.2 || is_number kv.2) (members (jfind j "parameters")).

Definition wf_encoding (j : json) : bool :=
  is_object j && negb (opt_not is_number_integer (jfind j "ssrc")) &&
  negb (opt_not is_nonempty_string (jfind j "rid")) &&
  negb (opt_not (fun rtx => is_object rtx && opt_is is_number_integer (jfind rtx "ssrc")) (jfind j "rtx")) &&
  opt_is is_boolean (jfind j "dtx") &&
  negb (opt_not is_nonempty_string (jfind j "scalabilityMode")).

Definition wf_rtcp (j : json) : bool :=
  is_object j && negb (opt_not is_string (jfind j "cname")) &&
  opt_is is_boolean (jfind j "reducedSize").

Definition wf_parameters (j : json) : bool :=
  is_object j && negb (opt_not is_nonempty_string (jfind j "mid")) &&
  wf_array wf_codec_parameters j "codecs" &&
  wf_array wf_extension_parameters j "headerExtensions" &&
  wf_array wf_encoding j "encodings" && opt_is wf_rtcp (jfind j "rtcp").

(** ** Automation *)

#[local] Arguments obj_set : simpl never.
#[local] Arguments obj_del : simpl never.
#[local] Arguments obj_get : simpl never.

(** Normalise boolean hypotheses. *)
Ltac bool_hyps :=
  repeat match goal with
  | H : negb _ = false |- _ => apply negb_false_iff in H
  | H : negb _ = true |- _ => apply negb_true_iff in H
  | H : _ && _ = true |- _ => apply andb_true_iff in H as [? H]
  | H : _ || _ = false |- _ => apply orb_false_iff in H as [? H]
  | H : (?a =? ?b)%string = true |- _ => apply String.eqb_eq in H
  end.

(** Look up a field of an updated object. *)
Ltac jsimp :=
  repeat first
    [ rewrite obj_get_set_eq
    | rewrite obj_get_set_ne by discriminate
    | rewrite obj_get_del_eq
    | rewrite obj_get_del_ne by discriminate ].

(** Run a validator under [post]: a fact per check, a case per branch. *)
Ltac vstep :=
  first
    [ progress cbn [bind jset jerase jfind is_object negb throw_if]
    | post_step
    | match goal with |- post (match ?x with _ => _ end) _ _ => destruct x eqn:? end
    | done ].

Ltac use_hyps :=
  cbv beta in *;
  repeat match goal with
  | H : ?x = true |- context [?x] => rewrite H
  | H : ?x = false |- context [?x] => rewrite H
  end.

Lemma opt_is_present p it : opt_not p it = false -> at_end it = false -> opt_is p it = true.
Proof. destruct it; simpl; [|done]. by intros ->%negb_false_iff. Qed.

Lemma feedback_post fb : post (validateRtcpFeedback fb) (fun j => wf_feedback j = true) is_msc_type_error.
Proof.
  unfold validateRtcpFeedback, wf_feedback. destruct fb; try done.
  cbv zeta. repeat vstep; bool_hyps; cbn [is_object jfind]; jsimp; use_hyps; done.
Qed.

Lemma feedback_id fb : wf_feedback fb = true -> validateRtcpFeedback fb = Ok fb.
Proof.
  unfold validateRtcpFeedback, wf_feedback. destruct fb; try done. intros H. bool_hyps.
  cbv zeta. cbn [is_object negb throw_if bind]. by use_hyps.
Qed.

(** A loop that only checks. *)
Lemma check_loop_post {A} (f : A -> res unit) (p : A -> bool) l (E : exn -> Prop) :
  (forall x, post (f x) (fun _ => p x = true) E) ->
  post (for_fold (fun _ x => f x) tt l) (fun _ => forallb p l = true) E.
Proof.
  intros Hf. induction l as [|x l IH]; simpl; [done|]. apply post_bind.
  eapply post_mono; [apply Hf| |done]. intros [] _ ->. exact IH.
Qed.

Lemma check_loop_id {A} (f : A -> res unit) (p : A -> bool) l :
  (forall x, p x = true -> f x = Ok tt) -> forallb p l = true ->
  for_fold (fun _ x => f x) tt l = Ok tt.
Proof.
  intros Hf. induction l as [|x l IH]; simpl; [done|]. intros [Hx Hl]%andb_true_iff.
  rewrite Hf by done. by apply IH.
Qed.

(** A loop that validates every element. *)
Lemma validate_loop_post (f : json -> res json) (p : json -> bool) l (E : exn -> Prop) :
  (forall x, post (f x) (fun j => p j = true) E) ->
  post (for_each f l) (fun l' => forallb p l' = true) E.
Proof.
  intros Hf. eapply post_mono; [apply (for_each_post f l (fun _ => True) (fun j => p j = true))| |done].
  - by apply Forall_true.
  - auto.
  - intros l' _ Hl'. apply forallb_forall. intros x Hx. rewrite Forall_forall in Hl'.
    by apply Hl', list_elem_of_In.
Qed.

Lemma validate_loop_id (f : json -> res json) (p : json -> bool) l :
  (forall x, p x = true -> f x = Ok x) -> forallb p l = true -> for_each f l = Ok l.
Proof.
  intros Hf Hl. apply for_each_id. rewrite forallb_forall in Hl. apply Forall_forall.
  intros x Hx. apply Hf, Hl. by apply list_elem_of_In.
Qed.

Lemma elements_some l : elements (Some (JArray l)) = l.
Proof. done. Qed.

Lemma codec_parameter_post kv :
  post (check_codec_parameter kv) (fun _ => wf_codec_parameter kv = true) is_msc_type_error.
Proof.
  destruct kv as [k v]. unfold check_codec_parameter, wf_codec_parameter. cbn [fst snd].
  destruct (is_string v), (is_number v), (is_null v), (String.eqb k "apt"), (is_number_integer v); done.
Qed.

Lemma codec_parameter_id kv : wf_codec_parameter kv = true -> check_codec_parameter kv = Ok tt.
Proof.
  destruct kv as [k v]. unfold check_codec_parameter, wf_codec_parameter. cbn [fst snd].
  destruct (is_string v), (is_number v), (is_null v), (String.eqb k "apt"), (is_number_integer v); done.
Qed.

(** The common tail of the two codec validators. *)
Definition codec_tail (kind : string) (channelsIt parametersIt rtcpFeedbackIt : option json)
    (codec : json) : res json :=
  let* codec :=
    if String.eqb kind "audio" then
      if negb (opt_is is_number_integer channelsIt)
      then jset codec "channels" (JInt 1) else Ok codec
    else
      if negb (at_end channelsIt) then jerase codec "channels" else Ok codec in
  let* codec :=
    if negb (opt_is is_object parametersIt)
    then jset codec "parameters" (JObject []) else Ok codec in
  do* check_codec_parameters (members (jfind codec "parameters")) in
  let* codec :=
    if negb (opt_is is_array rtcpFeedbackIt)
    then jset codec "rtcpFeedback" (JArray []) else Ok codec in
  let* fbs := for_each validateRtcpFeedback (elements (jfind codec "rtcpFeedback")) in
  jset codec "rtcpFeedback" (JArray fbs).

(** Fields the tail does not write. *)
Definition tail_key (k : string) : bool :=
  negb (String.eqb k "channels") && negb (String.eqb k "parameters") && negb (String.eqb k "rtcpFeedback").

Lemma tail_key_ne k : tail_key k = true -> "channels" <> k /\ "parameters" <> k /\ "rtcpFeedback" <> k.
Proof.
  unfold tail_key. rewrite !andb_true_iff, !negb_true_iff, !String.eqb_neq.
  intros [[H1 H2] H3]. repeat split; congruence.
Qed.

Lemma channels_post kind o :
  post (if String.eqb kind "audio" then
          if negb (opt_is is_number_integer (obj_get "channels" o))
          then jset (JObject o) "channels" (JInt 1) else Ok (JObject o)
        else
          if negb (at_end (obj_get "channels" o)) then jerase (JObject o) "channels" else Ok (JObject o))
    (fun j => exists o', j = JObject o' /\
       (if String.eqb kind "audio" then opt_is is_number_integer (obj_get "channels" o')
        else at_end (obj_get "channels" o')) = true /\
       forall k, "channels" <> k -> obj_get k o' = obj_get k o) is_msc_type_error.
Proof.
  destruct (String.eqb kind "audio").
  - destruct (opt_is is_number_integer (obj_get "channels" o)) eqn:E; cbn [negb jset].
    + apply post_Ok. by exists o.
    + apply post_Ok. eexists. split; [reflexivity|]. jsimp. split; [done|].
      intros k Hk. by rewrite obj_get_set_ne.
  - destruct (at_end (obj_get "channels" o)) eqn:E; cbn [negb jerase].
    + apply post_Ok. by exists o.
    + apply post_Ok. eexists. split; [reflexivity|]. jsimp. split; [done|].
      intros k Hk. by rewrite obj_get_del_ne.
Qed.

(** A default for a field that is missing or of the wrong type. *)
Lemma default_post p k v o o0 :
  p v = true -> obj_get k o = obj_get k o0 ->
  post (if negb (opt_is p (obj_get k o0)) then jset (JObject o) k v else Ok (JObject o))
    (fun j => exists o', j = JObject o' /\ opt_is p (obj_get k o') = true /\
                         forall k', k <> k' -> obj_get k' o' = obj_get k' o) is_msc_type_error.
Proof.
  intros Hp He. destruct (opt_is p (obj_get k o0)) eqn:E; cbn [negb jset]; apply post_Ok.
  - exists o. split; [done|]. by rewrite He.
  - eexists. split; [reflexivity|]. jsimp. split; [done|]. intros. by rewrite obj_get_set_ne.
Qed.

Lemma codec_tail_post kind o o0 :
  (forall k, tail_key k = false -> obj_get k o = obj_get k o0) ->
  opt_is is_number_integer (obj_get "clockRate" o) = true ->
  post (codec_tail kind (obj_get "channels" o0) (obj_get "parameters" o0) (obj_get "rtcpFeedback" o0)
          (JObject o))
    (fun j => exists o', j = JObject o' /\ wf_codec_common kind j = true /\
                         forall k, tail_key k = true -> obj_get k o' = obj_get k o) is_msc_type_error.
Proof.
  intros Hsame Hclock. unfold codec_tail. rewrite <- (Hsame "channels") by done.
  apply post_bind. eapply post_mono; [apply channels_post| |done].
  intros ? _ (o1 & -> & Hch & Hk1). apply post_bind.
  eapply post_mono; [apply (default_post is_object)| |done]; [done|by rewrite Hk1, Hsame|].
  intros ? _ (o2 & -> & Hpar & Hk2). apply post_bind.
  eapply post_mono; [apply (check_loop_post check_codec_parameter wf_codec_parameter), codec_parameter_post| |done].
  intros [] _ Hps. apply post_bind.
  eapply post_mono; [apply (default_post is_array)| |done]; [done|by rewrite Hk2, Hk1, Hsame|].
  intros ? _ (o3 & -> & Hfb & Hk3). apply post_bind.
  eapply post_mono; [apply (validate_loop_post validateRtcpFeedback wf_feedback), feedback_post| |done].
  intros fbs _ Hfbs. cbn [jset jfind] in *. apply post_Ok. eexists. split; [reflexivity|]. split.
  - unfold wf_codec_common. cbn [jfind]. jsimp. rewrite !(Hk3 "clockRate"), !(Hk3 "channels"), !(Hk3 "parameters") by done.
    rewrite !(Hk2 "clockRate"), !(Hk2 "channels"), !(Hk1 "clockRate") by done.
    rewrite Hclock, Hch, Hpar, Hps. cbn [opt_is is_array elements andb]. done.
  - intros k Hk. apply tail_key_ne in Hk as (H1 & H2 & H3).
    by rewrite obj_get_set_ne, Hk3, Hk2, Hk1.
Qed.

Lemma codec_tail_id kind o :
  wf_codec_common kind (JObject o) = true ->
  codec_tail kind (obj_get "channels" o) (obj_get "parameters" o) (obj_get "rtcpFeedback" o) (JObject o) =
  Ok (JObject o).
Proof.
  unfold wf_codec_common, codec_tail. cbn [jfind]. intros H. bool_hyps.
  assert (Hch : (if String.eqb kind "audio" then
          if negb (opt_is is_number_integer (obj_get "channels" o))
          then jset (JObject o) "channels" (JInt 1) else Ok (JObject o)
        else
          if negb (at_end (obj_get "channels" o)) then jerase (JObject o) "channels" else Ok (JObject o))
        = Ok (JObject o)).
  { destruct (String.eqb kind "audio"); by use_hyps. }
  rewrite Hch. cbn [bind]. use_hyps. cbn [negb bind jfind].
  rewrite (check_loop_id check_codec_parameter wf_codec_parameter) by (done || apply codec_parameter_id).
  cbn [bind]. destruct (obj_get "rtcpFeedback" o) as [[| | | | | |l|]|] eqn:Hfb; try done.
  rewrite (validate_loop_id _ wf_feedback) by (done || apply feedback_id).
  cbn [bind jset elements]. by rewrite obj_set_id.
Qed.

Lemma mime_kind_eq o s kind rest :
  obj_get "mimeType" o = Some (JString s) -> mime_match s = Some (kind, rest) ->
  mime_kind (JObject o) = Some kind.
Proof. intros H1 H2. unfold mime_kind. cbn [jfind]. by rewrite H1, H2. Qed.

Lemma mime_kind_inv j kind :
  mime_kind j = Some kind ->
  exists s rest, jfind j "mimeType" = Some (JString s) /\ mime_match s = Some (kind, rest).
Proof.
  unfold mime_kind. destruct (jfind j "mimeType") as [[| | | | |s| |]|]; try done.
  destruct (mime_match s) as [[k r]|] eqn:E; [|done]. intros [= <-]. by exists s, r.
Qed.

Lemma codec_capability_post codec :
  post (validateRtpCodecCapability codec) (fun j => wf_codec_capability j = true) is_msc_type_error.
Proof.
  unfold validateRtpCodecCapability. destruct codec as [| | | | | | |o]; try done. cbv zeta.
  cbn [is_object negb throw_if bind jfind].
  destruct (obj_get "mimeType" o) as [[| | | | |s| |]|] eqn:Hm; try done.
  destruct (mime_match s) as [[kind rest]|] eqn:Hmm; [|done]. cbn [jset bind].
  do 2 post_step. bool_hyps.
  eapply post_mono; [apply (codec_tail_post kind (obj_set "kind" (JString kind) o) o)| |done].
  - intros k Hk. apply obj_get_set_ne. intros <-. done.
  - jsimp. done.
  - intros ? _ (o' & -> & Hwf & Hk). unfold wf_codec_capability.
    rewrite (mime_kind_eq o' s kind rest), Hwf by (done || by rewrite Hk; [jsimp|]).
    cbn [is_object jfind]. rewrite !Hk by done. jsimp. cbn [opt_is]. rewrite String.eqb_refl.
    by use_hyps.
Qed.

Lemma codec_capability_id codec :
  wf_codec_capability codec = true -> validateRtpCodecCapability codec = Ok codec.
Proof.
  unfold wf_codec_capability, validateRtpCodecCapability. destruct codec as [| | | | | | |o]; try done.
  destruct (mime_kind (JObject o)) as [kind|] eqn:Hk; [|done]. cbn [is_object andb]. intros H.
  destruct (mime_kind_inv _ _ Hk) as (s & rest & Hm & Hmm). cbn [jfind] in *. bool_hyps.
  cbv zeta. cbn [negb throw_if bind]. rewrite Hm, Hmm. cbn [jset bind].
  assert (Hkind : obj_get "kind" o = Some (JString kind)).
  { destruct (obj_get "kind" o) as [[| | | | |k| |]|]; try done. cbn [opt_is] in *. bool_hyps. by subst. }
  rewrite (obj_set_id "kind") by done.
  pose proof (codec_tail_id kind o ltac:(done)) as Htail. unfold codec_tail in Htail.
  assert (Hclock : opt_is is_number_integer (obj_get "clockRate" o) = true).
  { match goal with Hw : wf_codec_common _ _ = true |- _ => revert Hw end.
    unfold wf_codec_common. cbn [jfind]. intros Hw. by bool_hyps. }
  use_hyps. exact Htail.
Qed.

Lemma codec_parameters_post codec :
  post (validateRtpCodecParameters codec) (fun j => wf_codec_parameters j = true) is_msc_type_error.
Proof.
  unfold validateRtpCodecParameters. destruct codec as [| | | | | | |o]; try done. cbv zeta.
  cbn [is_object negb throw_if bind jfind].
  destruct (obj_get "mimeType" o) as [[| | | | |s| |]|] eqn:Hm; try done.
  destruct (mime_match s) as [[kind rest]|] eqn:Hmm; [|done].
  do 2 post_step. bool_hyps.
  eapply post_mono; [apply (codec_tail_post kind o o)| |done]; [done|done|].
  intros ? _ (o' & -> & Hwf & Hk). unfold wf_codec_parameters.
  rewrite (mime_kind_eq o' s kind rest), Hwf by (done || by rewrite Hk).
  cbn [is_object jfind]. rewrite !Hk by done. by use_hyps.
Qed.

Lemma codec_parameters_id codec :
  wf_codec_parameters codec = true -> validateRtpCodecParameters codec = Ok codec.
Proof.
  unfold wf_codec_parameters, validateRtpCodecParameters. destruct codec as [| | | | | | |o]; try done.
  destruct (mime_kind (JObject o)) as [kind|] eqn:Hk; [|done]. cbn [is_object andb]. intros H.
  destruct (mime_kind_inv _ _ Hk) as (s & rest & Hm & Hmm). cbn [jfind] in *. bool_hyps.
  cbv zeta. cbn [negb throw_if bind]. rewrite Hm, Hmm.
  pose proof (codec_tail_id kind o ltac:(done)) as Htail. unfold codec_tail in Htail.
  assert (Hclock : opt_is is_number_integer (obj_get "clockRate" o) = true).
  { match goal with Hw : wf_codec_common _ _ = true |- _ => revert Hw end.
    unfold wf_codec_common. cbn [jfind]. intros Hw. by bool_hyps. }
  use_hyps. exact Htail.
Qed.

Lemma header_extension_post ext :
  post (validateRtpHeaderExtension ext) (fun j => wf_header_extension j = true) is_msc_type_error.
Proof.
  unfold validateRtpHeaderExtension, wf_header_extension. destruct ext as [| | | | | | |o]; try done.
  cbv zeta. cbn [is_object negb throw_if bind jfind].
  destruct (obj_get "kind" o) as [[| | | | |k| |]|] eqn:Hk; try done.
  repeat vstep; bool_hyps; cbn [is_object jfind]; jsimp; rewrite ?Hk;
    repeat match goal with
    | H : opt_not ?p ?it = false, H' : at_end ?it = false |- _ =>
        pose proof (opt_is_present p it H H'); clear H
    end; use_hyps; cbn [opt_is is_kind_string andb is_boolean is_string];
    destruct (String.eqb k "audio"), (String.eqb k "video"); done.
Qed.

Lemma opt_is_not p it : opt_is p it = true -> opt_not p it = false /\ at_end it = false.
Proof. destruct it; simpl; [|done]. by intros ->. Qed.

Lemma header_extension_id ext :
  wf_header_extension ext = true -> validateRtpHeaderExtension ext = Ok ext.
Proof.
  unfold validateRtpHeaderExtension, wf_header_extension. destruct ext as [| | | | | | |o]; try done.
  cbn [is_object jfind]. intros H. bool_hyps.
  cbv zeta. cbn [negb throw_if bind].
  destruct (obj_get "kind" o) as [[| | | | |k| |]|] eqn:Hk; try done.
  destruct (opt_is_not is_boolean (obj_get "preferredEncrypt" o)) as [-> ->]; [done|].
  destruct (opt_is_not is_string (obj_get "direction" o)) as [-> ->]; [done|].
  use_hyps. cbn [opt_is is_kind_string] in *.
  destruct (String.eqb k "audio"), (String.eqb k "video"); done.
Qed.

(** The array fields. *)
Section OptionalArray.
Context (validate : json -> res json) (wf : json -> bool).
Context (Hpost : forall j, post (validate j) (fun j' => wf j' = true) is_msc_type_error).
Context (Hid : forall j, wf j = true -> validate j = Ok j).

Lemma optional_array_post o o0 k error :
  obj_get k o = obj_get k o0 ->
  post (optional_array (JObject o) k (obj_get k o0) error validate)
    (fun j => exists o', j = JObject o' /\ wf_array wf j k = true /\
                         forall k', k <> k' -> obj_get k' o' = obj_get k' o) is_msc_type_error.
Proof using Hpost.
  intros He. unfold optional_array. post_step. apply post_bind.
  assert (Hset : post (if at_end (obj_get k o0) then jset (JObject o) k (JArray []) else Ok (JObject o))
            (fun j => exists o', j = JObject o' /\
                       forall k', k <> k' -> obj_get k' o' = obj_get k' o) is_msc_type_error).
  { destruct (at_end (obj_get k o0)); apply post_Ok; eexists; (split; [reflexivity|]); [|done].
    intros. by rewrite obj_get_set_ne. }
  eapply post_mono; [exact Hset| |done]. intros ? _ (o1 & -> & Hk1). apply post_bind.
  eapply post_mono; [apply (validate_loop_post validate wf), Hpost| |done].
  intros l _ Hl. cbn [jset]. apply post_Ok. eexists. split; [reflexivity|].
  unfold wf_array. cbn [jfind]. jsimp. cbn [opt_is is_array elements andb]. split; [done|].
  intros k' Hk'. by rewrite obj_get_set_ne, Hk1.
Qed.

Lemma optional_array_id o k error :
  wf_array wf (JObject o) k = true ->
  optional_array (JObject o) k (obj_get k o) error validate = Ok (JObject o).
Proof using Hid.
  unfold wf_array, optional_array. cbn [jfind]. intros H. bool_hyps.
  destruct (obj_get k o) as [[| | | | | |l|]|] eqn:Hk; try done.
  cbn [opt_not is_array negb throw_if bind at_end jfind]. rewrite Hk.
  rewrite (validate_loop_id validate wf) by done. cbn [bind jset elements]. by rewrite obj_set_id.
Qed.
End OptionalArray.

Lemma wf_array_ext wf o o' k : obj_get k o' = obj_get k o -> wf_array wf (JObject o') k = wf_array wf (JObject o) k.
Proof. intros H. unfold wf_array. cbn [jfind]. by rewrite H. Qed.

Lemma capabilities_post caps :
  post (validateRtpCapabilities caps) (fun j => wf_capabilities j = true) is_msc_type_error.
Proof.
  unfold validateRtpCapabilities. destruct caps as [| | | | | | |o]; try done. cbv zeta.
  cbn [is_object negb throw_if bind jfind]. apply post_bind.
  eapply post_mono; [apply (optional_array_post _ _ codec_capability_post)| |done]; [done|].
  intros ? _ (o1 & -> & H1 & Hk1).
  eapply post_mono; [apply (optional_array_post _ _ header_extension_post)| |done]; [by rewrite Hk1|].
  intros ? _ (o2 & -> & H2 & Hk2). unfold wf_capabilities.
  rewrite H2, (wf_array_ext _ o1), H1 by (by rewrite Hk2). done.
Qed.

Lemma capabilities_id caps : wf_capabilities caps = true -> validateRtpCapabilities caps = Ok caps.
Proof.
  unfold wf_capabilities, validateRtpCapabilities. destruct caps as [| | | | | | |o]; try done.
  intros H. bool_hyps. cbv zeta. cbn [is_object negb throw_if bind jfind].
  rewrite (optional_array_id _ _ codec_capability_id) by done. cbn [bind].
  by rewrite (optional_array_id _ _ header_extension_id).
Qed.

Lemma extension_parameters_post ext :
  post (validateRtpHeaderExtensionParameters ext) (fun j => wf_extension_parameters j = true)
    is_msc_type_error.
Proof.
  unfold validateRtpHeaderExtensionParameters. destruct ext as [| | | | | | |o]; try done. cbv zeta.
  cbn [is_object negb throw_if bind jfind]. do 3 post_step. bool_hyps. apply post_bind.
  assert (Henc : post (if at_end (obj_get "encrypt" o) then jset (JObject o) "encrypt" (JBool false)
                       else Ok (JObject o))
            (fun j => exists o', j = JObject o' /\ opt_is is_boolean (obj_get "encrypt" o') = true /\
                       forall k', "encrypt" <> k' -> obj_get k' o' = obj_get k' o) is_msc_type_error).
  { destruct (at_end (obj_get "encrypt" o)) eqn:E; apply post_Ok; eexists; (split; [reflexivity|]).
    - jsimp. split; [done|]. intros. by rewrite obj_get_set_ne.
    - split; [by apply opt_is_present|done]. }
  eapply post_mono; [exact Henc| |done]. intros ? _ (o1 & -> & He & Hk1). apply post_bind.
  eapply post_mono; [apply (default_post is_object)| |done]; [done|by rewrite Hk1|].
  intros ? _ (o2 & -> & Hp & Hk2). apply post_bind.
  eapply post_mono; [apply (check_loop_post check_extension_parameter
    (fun kv => is_string kv.2 || is_number kv.2))| |done].
  { intros [k v]. unfold check_extension_parameter. cbn [snd]. by destruct (is_string v), (is_number v). }
  intros [] _ Hps. apply post_Ok. unfold wf_extension_parameters. cbn [is_object jfind] in *.
  rewrite Hps, Hp, !Hk2, !(Hk1 "uri"), !(Hk1 "id") by done. by use_hyps.
Qed.

Lemma extension_parameters_id ext :
  wf_extension_parameters ext = true -> validateRtpHeaderExtensionParameters ext = Ok ext.
Proof.
  unfold wf_extension_parameters, validateRtpHeaderExtensionParameters.
  destruct ext as [| | | | | | |o]; try done. cbn [is_object jfind]. intros H. bool_hyps.
  cbv zeta. cbn [negb throw_if bind].
  destruct (opt_is_not is_boolean (obj_get "encrypt" o)) as [-> ->]; [done|].
  use_hyps. cbn [negb throw_if bind jfind].
  by rewrite (check_loop_id check_extension_parameter (fun kv => is_string kv.2 || is_number kv.2));
    [|intros [k v]; unfold check_extension_parameter; cbn [snd];
      destruct (is_string v), (is_number v)|].
Qed.

Lemma encoding_post e :
  post (validateRtpEncodingParameters e) (fun j => wf_encoding j = true) is_msc_type_error.
Proof.
  unfold validateRtpEncodingParameters. destruct e as [| | | | | | |o]; try done. cbv zeta.
  cbn [is_object negb throw_if bind jfind]. do 4 post_step. bool_hyps. apply post_bind.
  eapply post_mono; [apply (default_post is_boolean)| |done]; [done|done|].
  intros ? _ (o1 & -> & Hd & Hk1). post_step. apply post_Ok. unfold wf_encoding.
  cbn [is_object jfind]. rewrite Hd, !Hk1 by done. use_hyps.
  destruct (obj_get "rtx" o) as [r|]; [|done]. cbn [opt_not] in *. bool_hyps. by use_hyps.
Qed.

Lemma encoding_id e : wf_encoding e = true -> validateRtpEncodingParameters e = Ok e.
Proof.
  unfold wf_encoding, validateRtpEncodingParameters. destruct e as [| | | | | | |o]; try done.
  cbn [is_object jfind]. intros H. bool_hyps. cbv zeta. cbn [negb throw_if bind]. use_hyps.
  destruct (obj_get "rtx" o) as [r|]; [|done]. cbn [opt_not] in *. bool_hyps. by use_hyps.
Qed.

Lemma rtcp_post r : post (validateRtcpParameters r) (fun j => wf_rtcp j = true) is_msc_type_error.
Proof.
  unfold validateRtcpParameters, wf_rtcp. destruct r; try done.
  cbv zeta. repeat vstep; bool_hyps; cbn [is_object jfind]; jsimp; use_hyps; done.
Qed.

Lemma rtcp_id r : wf_rtcp r = true -> validateRtcpParameters r = Ok r.
Proof.
  unfold wf_rtcp, validateRtcpParameters. destruct r; try done. intros H. bool_hyps.
  cbv zeta. cbn [is_object negb throw_if bind]. by use_hyps.
Qed.

Lemma parameters_post params :
  post (validateRtpParameters params) (fun j => wf_parameters j = true) is_msc_type_error.
Proof.
  unfold validateRtpParameters. destruct params as [| | | | | | |o]; try done. cbv zeta.
  cbn [is_object negb throw_if bind jfind]. do 2 post_step. bool_hyps. apply post_bind.
  eapply post_mono; [apply (validate_loop_post _ _ _ _ codec_parameters_post)| |done].
  intros codecs _ Hcodecs. cbn [jset bind]. apply post_bind.
  eapply post_mono; [apply (optional_array_post _ _ extension_parameters_post)| |done]; [by jsimp|].
  intros ? _ (o1 & -> & Hexts & Hk1). apply post_bind.
  eapply post_mono; [apply (optional_array_post _ _ encoding_post)| |done]; [by rewrite Hk1; jsimp|].
  intros ? _ (o2 & -> & Hencs & Hk2). post_step. apply post_bind.
  assert (Hrtcp : post (if at_end (obj_get "rtcp" o) then jset (JObject o2) "rtcp" (JObject []) else Ok (JObject o2))
            (fun j => exists o3, j = JObject o3 /\ opt_is is_object (obj_get "rtcp" o3) = true /\
                       forall k', "rtcp" <> k' -> obj_get k' o3 = obj_get k' o2) is_msc_type_error).
  { destruct (at_end (obj_get "rtcp" o)) eqn:E; apply post_Ok; eexists; (split; [reflexivity|]).
    - jsimp. split; [done|]. intros. by rewrite obj_get_set_ne.
    - split; [|done]. rewrite Hk2, Hk1 by done. jsimp. by apply opt_is_present. }
  eapply post_mono; [exact Hrtcp| |done]. intros ? _ (o3 & -> & Hobj & Hk3). cbn [jfind].
  destruct (obj_get "rtcp" o3) as [r|]; [|done]. apply post_bind.
  eapply post_mono; [apply rtcp_post| |done]. intros r' _ Hr'. cbn [jset]. apply post_Ok.
  assert (Hget : forall k, "rtcp" <> k -> obj_get k (obj_set "rtcp" r' o3) = obj_get k o2).
  { intros k Hk. by rewrite obj_get_set_ne, Hk3. }
  unfold wf_parameters.
  rewrite (wf_array_ext wf_encoding o2), Hencs by (by apply Hget).
  rewrite (wf_array_ext wf_extension_parameters o1), Hexts by (rewrite Hget by done; apply Hk2; discriminate).
  unfold wf_array. cbn [is_object jfind].
  rewrite !Hget, !Hk2, !Hk1 by done. jsimp. cbn [opt_is is_array elements]. by use_hyps.
Qed.

Lemma parameters_id params : wf_parameters params = true -> validateRtpParameters params = Ok params.
Proof.
  unfold wf_parameters, validateRtpParameters. destruct params as [| | | | | | |o]; try done.
  cbn [is_object jfind]. intros H. bool_hyps. cbv zeta. cbn [negb throw_if bind]. use_hyps.
  cbn [throw_if bind].
  assert (Hc : wf_array wf_codec_parameters (JObject o) "codecs" = true) by done.
  unfold wf_array in Hc. cbn [jfind] in Hc. bool_hyps.
  destruct (obj_get "codecs" o) as [[| | | | | |l|]|] eqn:Hl; try done.
  cbn [opt_is is_array negb throw_if bind elements] in *.
  rewrite (validate_loop_id _ _ _ codec_parameters_id) by done. cbn [bind jset].
  rewrite (obj_set_id "codecs") by done.
  rewrite (optional_array_id _ _ extension_parameters_id) by done. cbn [bind].
  rewrite (optional_array_id _ _ encoding_id) by done. cbn [bind].
  destruct (obj_get "rtcp" o) as [r|] eqn:Hr; [|done].
  assert (Ho : is_object r = true).
  { cbn [opt_is] in *. match goal with Hw : wf_rtcp r = true |- _ => revert Hw end.
    unfold wf_rtcp. by destruct r. }
  cbn [opt_not at_end]. rewrite Ho. cbn [negb throw_if bind jfind]. rewrite Hr, rtcp_id by done.
  cbn [bind jset]. by rewrite obj_set_id.
Qed.

(** ** SCTP, ICE and DTLS *)

Definition wf_num_streams (j : json) : bool :=
  is_object j && opt_is is_number_integer (jfind j "OS") && opt_is is_number_integer (jfind j "MIS").

Definition wf_sctp_capabilities (j : json) : bool :=
  is_object j && opt_is wf_num_streams (jfind j "numStreams").

Definition wf_sctp_parameters (j : json) : bool :=
  is_object j && opt_is is_number_integer (jfind j "port") &&
  opt_is is_number_integer (jfind j "OS") && opt_is is_number_integer (jfind j "MIS") &&
  opt_is is_number_integer (jfind j "maxMessageSize").

Definition wf_ice_parameters (j : json) : bool :=
  is_object j && opt_is is_nonempty_string (jfind j "usernameFragment") &&
  opt_is is_nonempty_string (jfind j "password") && opt_is is_boolean (jfind j "iceLite").

Definition is_word (words : list string) (j : json) : bool :=
  match j with JString s => negb (str_empty s) && word_match words s | _ => false end.

Definition wf_ice_candidate (j : json) : bool :=
  is_object j && opt_is is_nonempty_string (jfind j "foundation") &&
  opt_is is_number_unsigned (jfind j "priority") && opt_is is_nonempty_string (jfind j "ip") &&
  opt_is (is_word ["udp"; "tcp"]) (jfind j "protocol") &&
  opt_is is_number_unsigned (jfind j "port") &&
  opt_is (is_word ["host"; "srflx"; "prflx"; "relay"]) (jfind j "type").

Definition wf_ice_candidates (j : json) : bool :=
  match j with JArray l => forallb wf_ice_candidate l | _ => false end.

Definition wf_fingerprint (j : json) : bool :=
  is_object j && opt_is is_nonempty_string (jfind j "algorithm") &&
  opt_is is_nonempty_string (jfind j "value").

Definition wf_dtls_parameters (j : json) : bool :=
  is_object j && opt_is (is_word ["auto"; "client"; "server"]) (jfind j "role") &&
  wf_array wf_fingerprint j "fingerprints" &&
  negb (Nat.eqb (length (elements (jfind j "fingerprints"))) 0).

Lemma num_streams_post j : post (validateNumSctpStreams j) (fun j => wf_num_streams j = true) is_msc_type_error.
Proof.
  unfold validateNumSctpStreams, wf_num_streams. destruct j; try done.
  cbv zeta. repeat vstep; bool_hyps; cbn [is_object jfind]; use_hyps; done.
Qed.

Lemma num_streams_id j : wf_num_streams j = true -> validateNumSctpStreams j = Ok j.
Proof.
  unfold wf_num_streams, validateNumSctpStreams. destruct j; try done. intros H. bool_hyps.
  cbv zeta. cbn [is_object negb throw_if bind]. by use_hyps.
Qed.

Lemma sctp_capabilities_post j :
  post (validateSctpCapabilities j) (fun j => wf_sctp_capabilities j = true) is_msc_type_error.
Proof.
  unfold validateSctpCapabilities. destruct j as [| | | | | | |o]; try done.
  cbn [is_object negb throw_if bind jfind].
  destruct (obj_get "numStreams" o) as [[| | | | | | |n]|]; try done. apply post_bind.
  eapply post_mono; [apply num_streams_post| |done]. intros n' _ Hn'. cbn [jset]. apply post_Ok.
  unfold wf_sctp_capabilities. cbn [is_object jfind]. by jsimp.
Qed.

Lemma sctp_capabilities_id j : wf_sctp_capabilities j = true -> validateSctpCapabilities j = Ok j.
Proof.
  unfold validateSctpCapabilities, wf_sctp_capabilities. destruct j as [| | | | | | |o]; try done.
  cbn [is_object negb throw_if bind jfind andb].
  destruct (obj_get "numStreams" o) as [[| | | | | | |n]|] eqn:E; try done. intros H.
  rewrite num_streams_id by done. cbn [bind jset]. by rewrite obj_set_id.
Qed.

Lemma sctp_parameters_post j :
  post (validateSctpParameters j) (fun j => wf_sctp_parameters j = true) is_msc_type_error.
Proof.
  unfold validateSctpParameters, wf_sctp_parameters. destruct j; try done.
  cbv zeta. repeat vstep; bool_hyps; cbn [is_object jfind]; use_hyps; done.
Qed.

Lemma sctp_parameters_id j : wf_sctp_parameters j = true -> validateSctpParameters j = Ok j.
Proof.
  unfold wf_sctp_parameters, validateSctpParameters. destruct j; try done. intros H. bool_hyps.
  cbv zeta. cbn [is_object negb throw_if bind]. by use_hyps.
Qed.

Lemma ice_parameters_post j :
  post (validateIceParameters j) (fun j => wf_ice_parameters j = true) is_msc_type_error.
Proof.
  unfold validateIceParameters, wf_ice_parameters. destruct j; try done.
  cbv zeta. repeat vstep; bool_hyps; cbn [is_object jfind]; jsimp; use_hyps; done.
Qed.

Lemma ice_parameters_id j : wf_ice_parameters j = true -> validateIceParameters j = Ok j.
Proof.
  unfold wf_ice_parameters, validateIceParameters. destruct j; try done. intros H. bool_hyps.
  cbv zeta. cbn [is_object negb throw_if bind]. by use_hyps.
Qed.

Lemma is_word_split words it :
  opt_is (is_word words) it =
  opt_is is_nonempty_string it &&
  opt_is (fun v => match v with JString s => word_match words s | _ => false end) it.
Proof. by destruct it as [[]|]. Qed.

Lemma ice_candidate_post j :
  post (validateIceCandidate j) (fun j => wf_ice_candidate j = true) is_msc_type_error.
Proof.
  unfold validateIceCandidate, wf_ice_candidate. destruct j; try done.
  cbv zeta. repeat vstep; bool_hyps; cbn [is_object jfind]; rewrite !is_word_split; use_hyps; done.
Qed.

Lemma ice_candidate_id j : wf_ice_candidate j = true -> validateIceCandidate j = Ok j.
Proof.
  unfold wf_ice_candidate, validateIceCandidate. destruct j; try done. rewrite !is_word_split.
  intros H. bool_hyps. cbv zeta. cbn [is_object negb throw_if bind]. by use_hyps.
Qed.

Lemma ice_candidates_post j :
  post (validateIceCandidates j) (fun j => wf_ice_candidates j = true) is_msc_type_error.
Proof.
  destruct j; try done. cbn [validateIceCandidates]. apply post_bind.
  eapply post_mono; [apply (validate_loop_post _ _ _ _ ice_candidate_post)| |done]. by intros.
Qed.

Lemma ice_candidates_id j : wf_ice_candidates j = true -> validateIceCandidates j = Ok j.
Proof.
  destruct j; try done. cbn [validateIceCandidates wf_ice_candidates]. intros H.
  by rewrite (validate_loop_id _ _ _ ice_candidate_id).
Qed.

Lemma fingerprint_post j : post (validateDtlsFingerprint j) (fun j => wf_fingerprint j = true) is_msc_type_error.
Proof.
  unfold validateDtlsFingerprint, wf_fingerprint. destruct j; try done.
  cbv zeta. repeat vstep; bool_hyps; cbn [is_object jfind]; use_hyps; done.
Qed.

Lemma fingerprint_id j : wf_fingerprint j = true -> validateDtlsFingerprint j = Ok j.
Proof.
  unfold wf_fingerprint, validateDtlsFingerprint. destruct j; try done. intros H. bool_hyps.
  cbv zeta. cbn [is_object negb throw_if bind]. by use_hyps.
Qed.

Lemma dtls_parameters_post j :
  post (validateDtlsParameters j) (fun j => wf_dtls_parameters j = true) is_msc_type_error.
Proof.
  unfold validateDtlsParameters. destruct j as [| | | | | | |o]; try done. cbv zeta.
  cbn [is_object negb throw_if bind jfind]. do 3 post_step. bool_hyps. apply post_bind.
  eapply post_mono; [apply (validate_loop_post _ _ _ _ fingerprint_post)| |done].
  intros l Hl Hfp. cbn [jset]. apply post_Ok. unfold wf_dtls_parameters, wf_array.
  cbn [is_object jfind]. jsimp. rewrite is_word_split. cbn [elements opt_is is_array].
  apply for_each_length in Hl. rewrite Hl. by use_hyps.
Qed.

Lemma dtls_parameters_id j : wf_dtls_parameters j = true -> validateDtlsParameters j = Ok j.
Proof.
  unfold wf_dtls_parameters, wf_array, validateDtlsParameters. destruct j as [| | | | | | |o]; try done.
  rewrite !is_word_split. cbn [is_object jfind]. intros H. bool_hyps. cbv zeta.
  cbn [negb throw_if bind]. use_hyps. cbn [negb throw_if bind orb].
  destruct (obj_get "fingerprints" o) as [[| | | | | |l|]|] eqn:Hl; try done.
  rewrite (validate_loop_id _ _ _ fingerprint_id) by done. cbn [bind jset elements]. by rewrite obj_set_id.
Qed.

(** The producer options: every option that is there has its type. *)
Definition wf_codec_options (j : json) : bool :=
  is_object j &&
  forallb (fun kp => negb (opt_not kp.2 (jfind j kp.1)))
    [("opusStereo", is_boolean); ("opusFec", is_boolean); ("opusDtx", is_boolean);
     ("opusCbr", is_boolean); ("opusMaxPlaybackRate", is_number_unsigned);
     ("opusMaxAverageBitrate", is_number_unsigned); ("opusPtime", is_number_integer);
     ("videoGoogleStartBitrate", is_number_integer); ("videoGoogleMaxBitrate", is_number_integer);
     ("videoGoogleMinBitrate", is_number_integer)].

Lemma codec_options_spec j :
  if wf_codec_options j then validateProducerCodecOptions j = Ok j
  else exists s, validateProducerCodecOptions j = Throw (MscTypeError s).
Proof.
  unfold wf_codec_options, validateProducerCodecOptions, optional_field.
  destruct j as [| | | | | | |o]; try by eexists.
  cbn [is_object negb throw_if bind jfind forallb fst snd andb].
  repeat match goal with
  | |- context [opt_not ?p ?it] => destruct (opt_not p it); cbn [negb throw_if bind andb]; [by eexists|]
  end. done.
Qed.

(** ** The specification of a validator

    It returns a well-formed value that it would itself return unchanged, or it
    throws a type error, and then only on a value that was not well formed. *)
Definition validator_spec (validate : json -> res json) (wf : json -> bool) (j : json) : Prop :=
  match validate j with
  | Ok j' => wf j' = true /\ validate j' = Ok j' /\ (wf j = true -> j' = j)
  | Throw (MscTypeError _) => wf j = false
  | _ => False
  end.

Lemma validator_spec_intro validate wf j :
  (forall j, post (validate j) (fun j' => wf j' = true) is_msc_type_error) ->
  (forall j, wf j = true -> validate j = Ok j) -> validator_spec validate wf j.
Proof.
  intros Hpost Hid. unfold validator_spec. pose proof (Hpost j) as H. unfold post in H.
  destruct (validate j) as [j'|e|u|d] eqn:E; try done.
  - split; [done|]. split; [by apply Hid|]. intros Hw. rewrite Hid in E by done. congruence.
  - destruct e; try done. destruct (wf j) eqn:Hw; [|done]. by rewrite Hid in E.
Qed.

(** ** Theorems *)




(** [ordered] as the caller gave it, if it is a boolean. *)
Definition given_ordered (o : object) : option bool :=
  match obj_get "ordered" o with Some (JBool b) => Some b | _ => None end.

Definition limited_by (o : object) (k : string) : bool := negb (at_end (obj_get k o)).

Lemma given_ordered_is o :
  opt_is is_boolean (obj_get "ordered" o) = match given_ordered o with Some _ => true | None => false end.
Proof. unfold given_ordered. by destruct (obj_get "ordered" o) as [[]|]. Qed.

Lemma given_ordered_some o b : given_ordered o = Some b -> obj_get "ordered" o = Some (JBool b).
Proof. unfold given_ordered. destruct (obj_get "ordered" o) as [[]|]; try done. by intros [= ->]. Qed.

(** The two string fields at the end. *)
Lemma stream_strings o o1 :
  obj_get "label" o1 = obj_get "label" o -> obj_get "protocol" o1 = obj_get "protocol" o ->
  exists o2,
    (let* params :=
       if negb (opt_is is_string (obj_get "label" o))
       then Ok (JObject (obj_set "label" (JString "") o1)) else Ok (JObject o1) in
     if negb (opt_is is_string (obj_get "protocol" o)) then jset params "protocol" (JString "")
     else Ok params) = Ok (JObject o2) /\
    opt_is is_string (obj_get "label" o2) = true /\ opt_is is_string (obj_get "protocol" o2) = true /\
    forall k, "label" <> k -> "protocol" <> k -> obj_get k o2 = obj_get k o1.
Proof.
  intros Hl Hp. destruct (opt_is is_string (obj_get "label" o)) eqn:El,
    (opt_is is_string (obj_get "protocol" o)) eqn:Ep; cbn [negb bind jset];
    (eexists; split; [reflexivity|]); jsimp; rewrite ?Hl, ?Hp, ?El, ?Ep;
    repeat (split; [done|]); intros; by rewrite ?obj_get_set_ne.
Qed.

(** Complete parameters are rejected. *)
Lemma stream_again o' :
  opt_is is_number_integer (obj_get "streamId" o') = true ->
  opt_is is_number_integer (obj_get "maxPacketLifeTime" o') = true ->
  opt_is is_number_integer (obj_get "maxRetransmits" o') = true ->
  exists s, validateSctpStreamParameters (JObject o') = Throw (MscTypeError s).
Proof.
  intros H1 H3 H4. unfold validateSctpStreamParameters. cbv zeta.
  cbn [is_object negb throw_if bind jfind]. rewrite H1, H3, H4. cbn [negb].
  destruct (obj_get "maxPacketLifeTime" o'), (obj_get "maxRetransmits" o'); try done.
  destruct (opt_is is_boolean (obj_get "ordered" o')); by eexists.
Qed.

(** [validateSctpStreamParameters] accepts exactly the parameters with an
    integer [streamId], at most one of the two reliability limits, and not
    explicitly ordered when there is one; the result is ordered as asked for, or
    else just when there is no limit, and has every other field.  A result is
    never accepted a second time, since both limits are then filled in. *)
Theorem validateSctpStreamParameters_spec (o : object) :
  let limited := limited_by o "maxPacketLifeTime" || limited_by o "maxRetransmits" in
  let admissible :=
    opt_is is_number_integer (obj_get "streamId" o) &&
    negb (limited_by o "maxPacketLifeTime" && limited_by o "maxRetransmits") &&
    negb (match given_ordered o with Some b => b | None => false end && limited) in
  match validateSctpStreamParameters (JObject o) with
  | Ok j =>
      admissible = true /\
      jfind j "ordered" = Some (JBool (match given_ordered o with Some b => b | None => negb limited end)) /\
      jfind j "streamId" = obj_get "streamId" o /\
      opt_is is_number_integer (jfind j "maxPacketLifeTime") = true /\
      opt_is is_number_integer (jfind j "maxRetransmits") = true /\
      opt_is is_string (jfind j "label") = true /\ opt_is is_string (jfind j "protocol") = true /\
      exists s, validateSctpStreamParameters j = Throw (MscTypeError s)
  | Throw (MscTypeError _) => admissible = false
  | _ => False
  end.
Proof.
  unfold limited_by. cbv zeta.
  unfold validateSctpStreamParameters at 1. cbv zeta. cbn [is_object negb throw_if bind jfind].
  destruct (opt_is is_number_integer (obj_get "streamId" o)) eqn:Hs; cbn [negb throw_if bind andb]; [|done].
  rewrite given_ordered_is.
  destruct (obj_get "maxPacketLifeTime" o) as [p|] eqn:Hp;
  destruct (obj_get "maxRetransmits" o) as [r|] eqn:Hr;
  destruct (given_ordered o) as [[]|] eqn:Ho; try apply given_ordered_some in Ho;
  try (destruct (is_number_integer p) eqn:Hpi); try (destruct (is_number_integer r) eqn:Hri);
  cbn [opt_is at_end negb bind jset jfind throw_if andb orb]; rewrite ?Hpi, ?Hri;
  cbn [opt_is at_end negb bind jset jfind throw_if andb orb]; jsimp; rewrite ?Ho;
  cbn [opt_is json_eqb Bool.eqb andb orb negb throw_if bind jset]; try done;
  match goal with |- context [bind (if negb (opt_is is_string _) then _ else Ok (JObject ?o1)) _] =>
    destruct (stream_strings o o1) as (o2 & -> & Hl2 & Hp2 & Hk2); [by jsimp|by jsimp|]
  end; (split; [done|]); cbn [jfind]; rewrite !Hk2, Hl2, Hp2 by done;
  jsimp; rewrite ?Ho, ?Hp, ?Hr; cbn [opt_is is_number_integer];
  repeat (split; [done|]); apply stream_again; rewrite Hk2 by done; jsimp; rewrite ?Ho, ?Hp, ?Hr; done.
Qed.
