(* ===== verification/Ortc.v ===== *)
(** The negotiation functions of [ortc.cpp].

    They combine the capabilities of the device and of the router into extended
    capabilities and derive from those the capabilities for receiving and the
    parameters for sending.  [const operator[]] on a missing key is undefined
    ([jat]); the non-const one inserts null ([jref]).  Functions that take
    [json&] return the values they leave there. *)

From Stdlib Require Import ZArith Lia Ascii.
From stdpp Require Import gmap pretty.
From S2P Require Import Prelude Json OrtcValidate H264.

(** ** Helpers *)

(** A read through the non-const [operator[]] of a field that is there: the
    container is not changed. *)
Definition jget (j : json) (k : string) : res json :=
  let* (_, v) := jref j k in Ok v.

(** [std::find_if], the position and the element. *)
Fixpoint find_idx {A : Type} (p : A -> res bool) (l : list A) : res (option (nat * A)) :=
  match l with
  | [] => Ok None
  | x :: l' =>
      let* b := p x in
      if b then Ok (Some (0%nat, x))
      else
        let* r := find_idx p l' in
        Ok (match r with Some (i, y) => Some (S i, y) | None => None end)
  end.

(** [std::to_string] *)
Definition to_string (z : Z) : string := pretty z.

(** ** Private helpers *)

Definition isRtxCodec (codec : json) : res bool :=
  let* m := jat codec "mimeType" in
  let* mimeType := get_string m in
  Ok (word_match ["audio/rtx"; "video/rtx"] mimeType).

Definition getH264PacketizationMode (codec : json) : res Z :=
  let* parameters := jat codec "parameters" in
  match jfind parameters "packetization-mode" with
  | Some v => if is_number_integer v then get_uint8 v else Ok 0
  | None => Ok 0
  end.

Definition getH264LevelAssimetryAllowed (codec : json) : res Z :=
  let* parameters := jat codec "parameters" in
  match jfind parameters "level-asymmetry-allowed" with
  | Some v => if is_number_integer v then get_uint8 v else Ok 0
  | None => Ok 0
  end.

Definition getH264ProfileLevelId (codec : json) : res string :=
  let* parameters := jat codec "parameters" in
  match jfind parameters "profile-level-id" with
  | None => Ok EmptyString
  | Some v =>
      if is_number v then let* z := get_int32 v in Ok (to_string z) else get_string v
  end.

Definition getVP9ProfileId (codec : json) : res string :=
  let* parameters := jat codec "parameters" in
  match jfind parameters "profile-id" with
  | None => Ok "0"
  | Some v =>
      if is_number v then let* z := get_int32 v in Ok (to_string z) else get_string v
  end.

(** The parameter map handed to the H.264 functions. *)
Definition h264_parameters (codec : json) (packetizationMode : Z) : res Parameters :=
  let* asymmetry := getH264LevelAssimetryAllowed codec in
  let* profileLevelId := getH264ProfileLevelId codec in
  Ok (<["level-asymmetry-allowed" := to_string asymmetry]>
     (<["packetization-mode" := to_string packetizationMode]>
     (<["profile-level-id" := profileLevelId]> ∅))).

(** [codec["parameters"]["profile-level-id"] = id], or its removal. *)
Definition set_profile_level_id (codec : json) (id : option string) : res json :=
  let* (codec, parameters) := jref codec "parameters" in
  let* parameters :=
    match id with
    | Some s => jset parameters "profile-level-id" (JString s)
    | None => jerase parameters "profile-level-id"
    end in
  jset codec "parameters" parameters.

Definition mime_of (codec : json) : res string :=
  match jfind codec "mimeType" with
  | None => Undef UbDeref
  | Some m => let* s := get_string m in Ok (str_lower s)
  end.

(** [matchCodecs]: whether the codecs match, and both of them afterwards. *)
Definition matchCodecs (aCodec bCodec : json) (strict modify : bool) : res (bool * json * json) :=
  let* aMimeType := mime_of aCodec in
  let* bMimeType := mime_of bCodec in
  if negb (String.eqb aMimeType bMimeType) then Ok (false, aCodec, bCodec)
  else
    let* (aCodec, aClockRate) := jref aCodec "clockRate" in
    let* (bCodec, bClockRate) := jref bCodec "clockRate" in
    if negb (json_eqb aClockRate bClockRate) then Ok (false, aCodec, bCodec)
    else if negb (Bool.eqb (jcontains aCodec "channels") (jcontains bCodec "channels"))
    then Ok (false, aCodec, bCodec)
    else
      let* channels_differ :=
        if jcontains aCodec "channels" then
          let* a := jget aCodec "channels" in
          let* b := jget bCodec "channels" in
          Ok (negb (json_eqb a b))
        else Ok false in
      if channels_differ then Ok (false, aCodec, bCodec)
      else if String.eqb aMimeType "video/h264" then
        if strict then
          let* aPacketizationMode := getH264PacketizationMode aCodec in
          let* bPacketizationMode := getH264PacketizationMode bCodec in
          if negb (aPacketizationMode =? bPacketizationMode) then Ok (false, aCodec, bCodec)
          else
            let* aParameters := h264_parameters aCodec aPacketizationMode in
            let* bParameters := h264_parameters bCodec bPacketizationMode in
            if negb (H264IsSameProfile aParameters bParameters) then Ok (false, aCodec, bCodec)
            else
              let* newParameters := H264GenerateProfileLevelIdForAnswer aParameters bParameters ∅ in
              if modify then
                let id := newParameters !! "profile-level-id" in
                let* aCodec := set_profile_level_id aCodec id in
                let* bCodec := set_profile_level_id bCodec id in
                Ok (true, aCodec, bCodec)
              else Ok (true, aCodec, bCodec)
        else Ok (true, aCodec, bCodec)
      else if String.eqb aMimeType "video/vp9" then
        if strict then
          let* aProfileId := getVP9ProfileId aCodec in
          let* bProfileId := getVP9ProfileId bCodec in
          Ok (String.eqb aProfileId bProfileId, aCodec, bCodec)
        else Ok (true, aCodec, bCodec)
      else Ok (true, aCodec, bCodec).

Definition matchHeaderExtensions (aExt bExt : json) : res bool :=
  let* aKind := jat aExt "kind" in
  let* bKind := jat bExt "kind" in
  if negb (json_eqb aKind bKind) then Ok false
  else
    let* aUri := jat aExt "uri" in
    let* bUri := jat bExt "uri" in
    Ok (json_eqb aUri bUri).

(** The predicate of the inner [find_if]. *)
Definition same_feedback (aFb bFb : json) : res bool :=
  let* aType := jat aFb "type" in
  let* bType := jat bFb "type" in
  if json_eqb aType bType then
    let* aParameter := jat aFb "parameter" in
    let* bParameter := jat bFb "parameter" in
    Ok (json_eqb aParameter bParameter)
  else Ok false.

Definition reduceRtcpFeedback (codecA codecB : json) : res json :=
  match jfind codecA "rtcpFeedback", jfind codecB "rtcpFeedback" with
  | Some fbA, Some fbB =>
      let* l := for_fold (fun reduced aFb =>
          let* r := find_if (same_feedback aFb) (jiter fbB) in
          Ok (match r with Some fb => reduced ++ [fb] | None => reduced end)) [] (jiter fbA) in
      Ok (JArray l)
  | _, _ => Undef UbDeref
  end.

(** ** Extended capabilities *)

(** [std::find_if] over the local codecs with [matchCodecs(.., true, true)]:
    the codecs before the match, the match, the codecs after it and the remote
    codec. *)
Fixpoint find_local (locals : list json) (remoteCodec : json)
    : res (list json * option (json * list json) * json) :=
  match locals with
  | [] => Ok ([], None, remoteCodec)
  | localCodec :: rest =>
      let* (b, localCodec, remoteCodec) := matchCodecs localCodec remoteCodec true true in
      if b then Ok ([], Some (localCodec, rest), remoteCodec)
      else
        let* (before, found, remoteCodec) := find_local rest remoteCodec in
        Ok (localCodec :: before, found, remoteCodec)
  end.

(** The codec that is appended for a matching pair, and the pair. *)
Definition extend_codec (localCodec remoteCodec : json) : res (json * json * json) :=
  let* mimeType := jget localCodec "mimeType" in
  let* kind := jget localCodec "kind" in
  let* clockRate := jget localCodec "clockRate" in
  let* (localCodec, localPayloadType) := jref localCodec "preferredPayloadType" in
  let* (remoteCodec, remotePayloadType) := jref remoteCodec "preferredPayloadType" in
  let* localParameters := jget localCodec "parameters" in
  let* remoteParameters := jget remoteCodec "parameters" in
  let* rtcpFeedback := reduceRtcpFeedback localCodec remoteCodec in
  let extendedCodec := JObj
    [("mimeType", mimeType); ("kind", kind); ("clockRate", clockRate);
     ("localPayloadType", localPayloadType); ("localRtxPayloadType", JNull);
     ("remotePayloadType", remotePayloadType); ("remoteRtxPayloadType", JNull);
     ("localParameters", localParameters); ("remoteParameters", remoteParameters);
     ("rtcpFeedback", rtcpFeedback)] in
  let* extendedCodec :=
    if jcontains localCodec "channels" then
      let* channels := jget localCodec "channels" in
      jset extendedCodec "channels" channels
    else Ok extendedCodec in
  Ok (extendedCodec, localCodec, remoteCodec).

(** The loop over the remote codecs: local codecs, extended codecs and remote
    codecs so far. *)
Definition match_remote_codec (st : list json * list json * list json) (remoteCodec : json)
    : res (list json * list json * list json) :=
  let '(locals, extended, remotes) := st in
  let* rtx := isRtxCodec remoteCodec in
  if rtx then Ok (locals, extended, remotes ++ [remoteCodec])
  else
    let* (before, found, remoteCodec) := find_local locals remoteCodec in
    match found with
    | None => Ok (before, extended, remotes ++ [remoteCodec])
    | Some (localCodec, after) =>
        let* (extendedCodec, localCodec, remoteCodec) := extend_codec localCodec remoteCodec in
        Ok (before ++ localCodec :: after, extended ++ [extendedCodec], remotes ++ [remoteCodec])
    end.

(** [isRtxCodec(codec) && codec["parameters"]["apt"] == payloadType] *)
Definition is_rtx_of (payloadType codec : json) : res bool :=
  let* rtx := isRtxCodec codec in
  if rtx then
    let* parameters := jat codec "parameters" in
    let* apt := jat parameters "apt" in
    Ok (json_eqb apt payloadType)
  else Ok false.

(** The loop that adds the RTX payload types to the extended codecs. *)
Definition match_rtx (st : list json * list json * list json) (extendedCodec : json)
    : res (list json * list json * list json) :=
  let '(locals, extended, remotes) := st in
  let* localPayloadType := jget extendedCodec "localPayloadType" in
  let* localIt := find_idx (is_rtx_of localPayloadType) locals in
  match localIt with
  | None => Ok (locals, extended ++ [extendedCodec], remotes)
  | Some (i, localRtx) =>
      let* remotePayloadType := jget extendedCodec "remotePayloadType" in
      let* remoteIt := find_idx (is_rtx_of remotePayloadType) remotes in
      match remoteIt with
      | None => Ok (locals, extended ++ [extendedCodec], remotes)
      | Some (k, remoteRtx) =>
          let* (localRtx, localPt) := jref localRtx "preferredPayloadType" in
          let* extendedCodec := jset extendedCodec "localRtxPayloadType" localPt in
          let* (remoteRtx, remotePt) := jref remoteRtx "preferredPayloadType" in
          let* extendedCodec := jset extendedCodec "remoteRtxPayloadType" remotePt in
          Ok (<[i := localRtx]> locals, extended ++ [extendedCodec], <[k := remoteRtx]> remotes)
      end
  end.

(** The direction seen from the other side; an unknown one is not set. *)
Definition reverse_direction (direction : string) : option string :=
  if String.eqb direction "sendrecv" then Some "sendrecv"
  else if String.eqb direction "recvonly" then Some "sendonly"
  else if String.eqb direction "sendonly" then Some "recvonly"
  else if String.eqb direction "inactive" then Some "inactive"
  else None.

Definition match_extension (localExts : list json) (extended : list json) (remoteExt : json)
    : res (list json) :=
  let* localIt := find_if (fun localExt => matchHeaderExtensions localExt remoteExt) localExts in
  match localIt with
  | None => Ok extended
  | Some localExt =>
      let* kind := jget remoteExt "kind" in
      let* uri := jget remoteExt "uri" in
      let* sendId := jget localExt "preferredId" in
      let* recvId := jget remoteExt "preferredId" in
      let* encrypt := jget localExt "preferredEncrypt" in
      let extendedExt := JObj
        [("kind", kind); ("uri", uri); ("sendId", sendId); ("recvId", recvId); ("encrypt", encrypt)] in
      let* d := jget remoteExt "direction" in
      let* direction := get_string d in
      let* extendedExt :=
        match reverse_direction direction with
        | Some d => jset extendedExt "direction" (JString d)
        | None => Ok extendedExt
        end in
      Ok (extended ++ [extendedExt])
  end.

(** [getExtendedRtpCapabilities]: the extended capabilities and the two
    arguments afterwards. *)
Definition getExtendedRtpCapabilities (localCaps remoteCaps : json) : res (json * json * json) :=
  let* localCaps := validateRtpCapabilities localCaps in
  let* remoteCaps := validateRtpCapabilities remoteCaps in
  let locals := elements (jfind localCaps "codecs") in
  let remotes := elements (jfind remoteCaps "codecs") in
  let* (locals, extended, remotes) := for_fold match_remote_codec (locals, [], []) remotes in
  let* (locals, extended, remotes) := for_fold match_rtx (locals, [], remotes) extended in
  let* localCaps := jset localCaps "codecs" (JArray locals) in
  let* remoteCaps := jset remoteCaps "codecs" (JArray remotes) in
  let* extensions :=
    for_fold (match_extension (elements (jfind localCaps "headerExtensions"))) []
      (elements (jfind remoteCaps "headerExtensions")) in
  Ok (JObj [("codecs", JArray extended); ("headerExtensions", JArray extensions)],
      localCaps, remoteCaps).

(** ** Capabilities for receiving *)

Definition copy_channels (from to : json) : res json :=
  if jcontains from "channels" then
    let* channels := jat from "channels" in
    jset to "channels" channels
  else Ok to.

Definition recv_codecs (codecs : list json) (extendedCodec : json) : res (list json) :=
  let* mimeType := jat extendedCodec "mimeType" in
  let* kind := jat extendedCodec "kind" in
  let* remotePayloadType := jat extendedCodec "remotePayloadType" in
  let* clockRate := jat extendedCodec "clockRate" in
  let* localParameters := jat extendedCodec "localParameters" in
  let* rtcpFeedback := jat extendedCodec "rtcpFeedback" in
  let codec := JObj
    [("mimeType", mimeType); ("kind", kind); ("preferredPayloadType", remotePayloadType);
     ("clockRate", clockRate); ("parameters", localParameters); ("rtcpFeedback", rtcpFeedback)] in
  let* codec := copy_channels extendedCodec codec in
  let codecs := codecs ++ [codec] in
  let* remoteRtxPayloadType := jat extendedCodec "remoteRtxPayloadType" in
  if is_null remoteRtxPayloadType then Ok codecs
  else
    let* k := get_string kind in
    let* apt := get_uint8 remotePayloadType in
    let rtxCodec := JObj
      [("mimeType", JString (k +:+ "/rtx")); ("kind", kind);
       ("preferredPayloadType", remoteRtxPayloadType); ("clockRate", clockRate);
       ("parameters", JObj [("apt", JUint apt)]); ("rtcpFeedback", JArray [])] in
    Ok (codecs ++ [rtxCodec]).

Definition recv_extension (exts : list json) (extendedExtension : json) : res (list json) :=
  let* d := jat extendedExtension "direction" in
  let* direction := get_string d in
  if negb (String.eqb direction "sendrecv") && negb (String.eqb direction "recvonly") then Ok exts
  else
    let* kind := jat extendedExtension "kind" in
    let* uri := jat extendedExtension "uri" in
    let* recvId := jat extendedExtension "recvId" in
    let* encrypt := jat extendedExtension "encrypt" in
    Ok (exts ++ [JObj [("kind", kind); ("uri", uri); ("preferredId", recvId);
                       ("preferredEncrypt", encrypt); ("direction", d)]]).

Definition getRecvRtpCapabilities (extendedRtpCapabilities : json) : res json :=
  let* extCodecs := jat extendedRtpCapabilities "codecs" in
  let* codecs := for_fold recv_codecs [] (jiter extCodecs) in
  let* extExtensions := jat extendedRtpCapabilities "headerExtensions" in
  let* exts := for_fold recv_extension [] (jiter extExtensions) in
  Ok (JObj [("codecs", JArray codecs); ("headerExtensions", JArray exts)]).

(** ** Parameters for sending *)

(** The codec and its RTX codec for an extended codec; [parametersKey] is the
    only difference between the two functions below. *)
Definition sending_codecs (parametersKey : string) (extendedCodec : json) : res (list json) :=
  let* kind := jat extendedCodec "kind" in
  let* mimeType := jat extendedCodec "mimeType" in
  let* localPayloadType := jat extendedCodec "localPayloadType" in
  let* clockRate := jat extendedCodec "clockRate" in
  let* parameters := jat extendedCodec parametersKey in
  let* rtcpFeedback := jat extendedCodec "rtcpFeedback" in
  let codec := JObj
    [("mimeType", mimeType); ("payloadType", localPayloadType); ("clockRate", clockRate);
     ("parameters", parameters); ("rtcpFeedback", rtcpFeedback)] in
  let* codec := copy_channels extendedCodec codec in
  let* localRtxPayloadType := jat extendedCodec "localRtxPayloadType" in
  if is_null localRtxPayloadType then Ok [codec]
  else
    let* k := get_string kind in
    let* apt := get_uint8 localPayloadType in
    Ok [codec;
        JObj [("mimeType", JString (k +:+ "/rtx")); ("payloadType", localRtxPayloadType);
              ("clockRate", clockRate); ("parameters", JObj [("apt", JUint apt)]);
              ("rtcpFeedback", JArray [])]].

Definition has_kind (kind : string) (extended : json) : res bool :=
  let* k := jat extended "kind" in
  let* s := get_string k in
  Ok (String.eqb kind s).

(** The loop that stops at the first codec of the kind. *)
Definition sending_codec_loop (parametersKey kind : string) (extCodecs : list json) : res (list json) :=
  let* r := find_if (has_kind kind) extCodecs in
  match r with
  | Some extendedCodec => sending_codecs parametersKey extendedCodec
  | None => Ok []
  end.

Definition sending_extension (kind : string) (exts : list json) (extendedExtension : json)
    : res (list json) :=
  let* same := has_kind kind extendedExtension in
  if negb same then Ok exts
  else
    let* d := jat extendedExtension "direction" in
    let* direction := get_string d in
    if negb (String.eqb direction "sendrecv") && negb (String.eqb direction "sendonly") then Ok exts
    else
      let* uri := jat extendedExtension "uri" in
      let* sendId := jat extendedExtension "sendId" in
      let* encrypt := jat extendedExtension "encrypt" in
      Ok (exts ++ [JObj [("uri", uri); ("id", sendId); ("encrypt", encrypt); ("parameters", JObj [])]]).

Definition sending_parameters (codecs exts : list json) : json :=
  JObj [("mid", JNull); ("codecs", JArray codecs); ("headerExtensions", JArray exts);
        ("encodings", JArray []); ("rtcp", JObj [])].

Definition getSendingRtpParameters (kind : string) (extendedRtpCapabilities : json) : res json :=
  let* extCodecs := jat extendedRtpCapabilities "codecs" in
  let* codecs := sending_codec_loop "localParameters" kind (jiter extCodecs) in
  let* extExtensions := jat extendedRtpCapabilities "headerExtensions" in
  let* exts := for_fold (sending_extension kind) [] (jiter extExtensions) in
  Ok (sending_parameters codecs exts).

Definition TRANSPORT_CC_URI : string :=
  "http://www.ietf.org/id/draft-holmer-rmcat-transport-wide-cc-extensions-01".
Definition ABS_SEND_TIME_URI : string :=
  "http://www.webrtc.org/experiments/rtp-hdrext/abs-send-time".

Definition has_uri (uri : string) (ext : json) : res bool :=
  let* u := jget ext "uri" in
  let* s := get_string u in
  Ok (String.eqb s uri).

(** The erasing loop over [codec["rtcpFeedback"]], an array here. *)
Definition erase_feedback (unwanted : string -> bool) (codec : json) : res json :=
  let* (codec, rtcpFeedback) := jref codec "rtcpFeedback" in
  let* kept := for_fold (fun kept fb =>
      let* t := jget fb "type" in
      let* type := get_string t in
      Ok (if unwanted type then kept else kept ++ [fb])) [] (jiter rtcpFeedback) in
  jset codec "rtcpFeedback" (JArray kept).

Definition getSendingRemoteRtpParameters (kind : string) (extendedRtpCapabilities : json) : res json :=
  let* extCodecs := jat extendedRtpCapabilities "codecs" in
  let* codecs := sending_codec_loop "remoteParameters" kind (jiter extCodecs) in
  let* extExtensions := jat extendedRtpCapabilities "headerExtensions" in
  let* exts := for_fold (sending_extension kind) [] (jiter extExtensions) in
  let* transport_cc := find_if (has_uri TRANSPORT_CC_URI) exts in
  match transport_cc with
  | Some _ =>
      let* codecs := for_each (erase_feedback (String.eqb "goog-remb")) codecs in
      Ok (sending_parameters codecs exts)
  | None =>
      let* abs_send_time := find_if (has_uri ABS_SEND_TIME_URI) exts in
      match abs_send_time with
      | Some _ =>
          let* codecs := for_each (erase_feedback (String.eqb "transport-cc")) codecs in
          Ok (sending_parameters codecs exts)
      | None =>
          let* codecs := for_each (erase_feedback (fun type =>
              String.eqb "transport-cc" type || String.eqb "goog-remb" type)) codecs in
          Ok (sending_parameters codecs exts)
      end
  end.

(** ** The probator, [canSend], [canReceive], [reduceCodecs] *)

Definition ProbatorSsrc : Z := 1234.
Definition ProbatorMid : string := "probator".

Definition generateProbatorRtpParameters (videoRtpParameters : json) : res json :=
  let* validatedRtpParameters := validateRtpParameters videoRtpParameters in
  let* codecs := jget validatedRtpParameters "codecs" in
  let* (_, codec) := jidx_ref codecs 0 in
  let* headerExtensions := jget validatedRtpParameters "headerExtensions" in
  let* exts := for_fold (fun exts ext =>
      let* uri := jget ext "uri" in
      Ok (if json_eqb uri (JString ABS_SEND_TIME_URI) || json_eqb uri (JString TRANSPORT_CC_URI)
          then exts ++ [ext] else exts)) [] (jiter headerExtensions) in
  Ok (JObj
    [("mid", JString ProbatorMid); ("codecs", JArray [codec]); ("headerExtensions", JArray exts);
     ("encodings", JArray [JObj [("ssrc", JUint ProbatorSsrc)]]);
     ("rtcp", JObj [("cname", JString "probator")])]).

Definition canSend (kind : string) (extendedRtpCapabilities : json) : res bool :=
  let* codecs := jat extendedRtpCapabilities "codecs" in
  let* r := find_if (has_kind kind) (jiter codecs) in
  Ok (match r with Some _ => true | None => false end).

(** The answer and the parameters as validated. *)
Definition canReceive (rtpParameters extendedRtpCapabilities : json) : res (bool * json) :=
  let* rtpParameters := validateRtpParameters rtpParameters in
  let* codecs := jget rtpParameters "codecs" in
  if jempty codecs then Ok (false, rtpParameters)
  else
    let* (_, firstMediaCodec) := jidx_ref codecs 0 in
    let* extCodecs := jat extendedRtpCapabilities "codecs" in
    let* r := find_if (fun codec =>
        let* remotePayloadType := jat codec "remotePayloadType" in
        let* payloadType := jget firstMediaCodec "payloadType" in
        Ok (json_eqb remotePayloadType payloadType)) (jiter extCodecs) in
    Ok (match r with Some _ => true | None => false end, rtpParameters).

(** The search of [reduceCodecs]: [fuel] bounds the index, which the loop
    condition [idx < codecs.size()] keeps below the size. *)
Fixpoint reduce_loop (fuel : nat) (codecs : json) (capCodec : json) (idx : nat) : res (json * list json) :=
  match fuel with
  | O => Ok (codecs, [])
  | S fuel =>
      if negb (Nat.ltb idx (jsize codecs)) then Ok (codecs, [])
      else
        let* (codecs, codec) := jidx_ref codecs idx in
        let* (b, codec, capCodec) := matchCodecs codec capCodec false false in
        let* codecs := jidx_set codecs idx codec in
        if b then
          let* (codecs, codec) := jidx_ref codecs idx in
          let* (codecs, next) := jidx_ref codecs (S idx) in
          let* rtx := isRtxCodec next in
          Ok (codecs, if rtx then [codec; next] else [codec])
        else reduce_loop fuel codecs capCodec (S idx)
  end.

(** The filtered codecs, and [codecs] afterwards. *)
Definition reduceCodecs (codecs : json) (capCodec : option json) : res (json * json) :=
  match capCodec with
  | Some (JObject cap) =>
      let* (codecs, filteredCodecs) := reduce_loop (S (jsize codecs)) codecs (JObject cap) 0 in
      do* throw_if (Nat.eqb (length filteredCodecs) 0) (type_error "no matching codec found") in
      Ok (JArray filteredCodecs, codecs)
  | _ =>
      let* (codecs, first) := jidx_ref codecs 0 in
      if Nat.ltb 1 (jsize codecs) then
        let* (codecs, second) := jidx_ref codecs 1 in
        let* rtx := isRtxCodec second in
        Ok (JArray (if rtx then [first; second] else [first]), codecs)
      else Ok (JArray [first], codecs)
  end.
