(* ===== verification/OrtcFacts.v ===== *)
(** The negotiation functions of [ortc.cpp]: what they guarantee.

    The main result follows the way [Device::Load] goes: capabilities that are
    complete negotiate without undefined behaviour or exceptions, the extended
    capabilities have every field the later functions read, and what is derived
    from them is accepted by the validators. *)

From Stdlib Require Import ZArith Lia Ascii.
From stdpp Require Import gmap.
From S2P Require Import Prelude Json OrtcValidate H264 Ortc.

#[local] Arguments obj_set : simpl never.
#[local] Arguments obj_del : simpl never.
#[local] Arguments obj_get : simpl never.

Definition no_exn (e : exn) : Prop := False.

(** ** Reading fields that are there *)

Lemma jref_some j k v : jfind j k = Some v -> jref j k = Ok (j, v).
Proof. destruct j; try done. cbn [jfind]. intros H. unfold jref. by rewrite H. Qed.

Lemma jget_some j k v : jfind j k = Some v -> jget j k = Ok v.
Proof. intros H. unfold jget. by rewrite (jref_some _ _ _ H). Qed.

Lemma jat_some j k v : jfind j k = Some v -> jat j k = Ok v.
Proof. destruct j; try done. cbn [jfind]. intros H. unfold jat. by rewrite H. Qed.

Lemma opt_is_some p it : opt_is p it = true -> exists v, it = Some v /\ p v = true.
Proof. destruct it as [v|]; [|done]. by exists v. Qed.

(** [field k v E P]: the value [v] of a field that has been checked. *)
Tactic Notation "field" constr(k) ident(v) ident(E) ident(P) :=
  match goal with
  | H : opt_is _ (obj_get k _) = true |- _ => destruct (opt_is_some _ _ H) as (v & E & P)
  end.

Tactic Notation "field" constr(k) "of" constr(o) "as" ident(v) ident(E) ident(P) :=
  match goal with
  | H : opt_is _ (obj_get k o) = true |- _ => destruct (opt_is_some _ _ H) as (v & E & P)
  end.
Tactic Notation "field" constr(k) "of" constr(o) "by" constr(p) "as" ident(v) ident(E) ident(P) :=
  match goal with
  | H : opt_is p (obj_get k o) = true |- _ => destruct (opt_is_some _ _ H) as (v & E & P)
  end.

Lemma is_string_inv j : is_string j = true -> exists s, j = JString s.
Proof. destruct j; try done. by eexists. Qed.

Lemma is_object_inv j : is_object j = true -> exists o, j = JObject o.
Proof. destruct j; try done. by eexists. Qed.

Lemma is_array_inv j : is_array j = true -> exists l, j = JArray l.
Proof. destruct j; try done. by eexists. Qed.

Lemma get_uint8_int j : is_number_integer j = true -> exists z, get_uint8 j = Ok z.
Proof. destruct j; try done; by eexists. Qed.

Lemma get_int32_int j : is_number_integer j = true -> exists z, get_int32 j = Ok z.
Proof. destruct j; try done; by eexists. Qed.

(** ** Codecs the negotiation can handle *)

(** A string or an integer. *)
Definition is_text (j : json) : bool := is_string j || is_number_integer j.

Definition parameters_of (j : json) : object := members (jfind j "parameters").

Definition is_rtx_mime (j : json) : bool :=
  match jfind j "mimeType" with
  | Some (JString s) => word_match ["audio/rtx"; "video/rtx"] s
  | _ => false
  end.

(** A validated codec with a payload type, with [apt] when it is an RTX codec,
    and whose profile parameters are strings or integers. *)
Definition negotiable_codec (j : json) : bool :=
  wf_codec_capability j &&
  opt_is is_number_integer (jfind j "preferredPayloadType") &&
  (negb (is_rtx_mime j) || opt_is is_number_integer (obj_get "apt" (parameters_of j))) &&
  negb (opt_not is_text (obj_get "profile-level-id" (parameters_of j))) &&
  negb (opt_not is_text (obj_get "profile-id" (parameters_of j))).

(** What the functions below read from such a codec. *)
Record codec_view (o : object) (s kind rest : string) (params : object) (fbs : list json)
    (rate pt : json) : Prop := CodecView {
  cv_mime : obj_get "mimeType" o = Some (JString s);
  cv_match : mime_match s = Some (kind, rest);
  cv_kind : obj_get "kind" o = Some (JString kind);
  cv_rate : obj_get "clockRate" o = Some rate;
  cv_rate_int : is_number_integer rate = true;
  cv_pt : obj_get "preferredPayloadType" o = Some pt;
  cv_pt_int : is_number_integer pt = true;
  cv_params : obj_get "parameters" o = Some (JObject params);
  cv_params_wf : forallb wf_codec_parameter params = true;
  cv_fbs : obj_get "rtcpFeedback" o = Some (JArray fbs);
  cv_fbs_wf : forallb wf_feedback fbs = true;
  cv_channels : (if String.eqb kind "audio" then opt_is is_number_integer (obj_get "channels" o)
                 else at_end (obj_get "channels" o)) = true;
  cv_apt : word_match ["audio/rtx"; "video/rtx"] s = true ->
           opt_is is_number_integer (obj_get "apt" params) = true;
  cv_pli : opt_not is_text (obj_get "profile-level-id" params) = false;
  cv_pid : opt_not is_text (obj_get "profile-id" params) = false }.

Lemma negotiable_view j :
  negotiable_codec j = true ->
  exists o s kind rest params fbs rate pt, j = JObject o /\ codec_view o s kind rest params fbs rate pt.
Proof.
  unfold negotiable_codec, wf_codec_capability, wf_codec_common, parameters_of, is_rtx_mime. intros H.
  destruct j as [| | | | | | |o]; try done. cbn [jfind is_object andb] in H.
  destruct (mime_kind (JObject o)) as [kind|] eqn:Hmk; [|done].
  destruct (mime_kind_inv _ _ Hmk) as (s & rest & Hm & Hmm). cbn [jfind] in Hm. bool_hyps.
  field "clockRate" rate Hr Hri.
  field "preferredPayloadType" pt Hp Hpi.
  field "parameters" ps Hps Hpo.
  destruct (is_object_inv _ Hpo) as [params ->].
  field "rtcpFeedback" fb Hfb Hfa.
  destruct (is_array_inv _ Hfa) as [fbs ->].
  field "kind" k Hk Hks.
  destruct k as [| | | | |k| |]; try done. apply String.eqb_eq in Hks as ->.
  rewrite Hps, Hfb, Hm in *. cbn [members elements] in *.
  exists o, s, kind, rest, params, fbs, rate, pt. split; [done|]. constructor; try done.
  intros Hrtx. rewrite Hrtx in *. done.
Qed.

Lemma view_negotiable o s kind rest params fbs rate pt :
  codec_view o s kind rest params fbs rate pt -> negotiable_codec (JObject o) = true.
Proof.
  intros []. unfold negotiable_codec, wf_codec_capability, wf_codec_common, parameters_of, is_rtx_mime.
  rewrite (mime_kind_eq o s kind rest) by done. cbn [is_object jfind].
  rewrite cv_mime0, cv_kind0, cv_rate0, cv_pt0, cv_params0, cv_fbs0.
  cbn [opt_is opt_not members elements is_object is_array]. rewrite String.eqb_refl, cv_channels0.
  rewrite cv_rate_int0, cv_pt_int0, cv_params_wf0, cv_fbs_wf0, cv_pli0, cv_pid0. cbn [andb negb].
  destruct (word_match _ s); cbn [negb orb]; [|done]. by rewrite cv_apt0.
Qed.

(** Other parameters: the codec stays negotiable when [apt] and [profile-id] do
    not change. *)
Lemma view_set_params o s kind rest params fbs rate pt params' :
  codec_view o s kind rest params fbs rate pt ->
  forallb wf_codec_parameter params' = true ->
  obj_get "apt" params' = obj_get "apt" params ->
  obj_get "profile-id" params' = obj_get "profile-id" params ->
  opt_not is_text (obj_get "profile-level-id" params') = false ->
  codec_view (obj_set "parameters" (JObject params') o) s kind rest params' fbs rate pt.
Proof.
  intros [] Hwf Ha Hi Hl. constructor; jsimp; rewrite ?Ha, ?Hi; done.
Qed.

Lemma forallb_obj_update (p : string * json -> bool) k v o :
  p (k, v) = true -> forallb p o = true -> forallb p (obj_update k v o) = true.
Proof.
  intros Hp. induction o as [|[k' v'] o IH]; cbn [obj_update forallb]; [done|].
  intros [H1 H2]%andb_true_iff. destruct (String.eqb_spec k k') as [<-|]; cbn [forallb]; [by rewrite Hp|].
  by rewrite H1, IH.
Qed.

Lemma forallb_obj_insert (p : string * json -> bool) k v o :
  p (k, v) = true -> forallb p o = true -> forallb p (obj_insert k v o) = true.
Proof.
  intros Hp. induction o as [|[k' v'] o IH]; cbn [obj_insert forallb]; [by rewrite Hp|].
  intros [H1 H2]%andb_true_iff. destruct (String.ltb k k'); cbn [forallb]; [by rewrite Hp, H1, H2|].
  by rewrite H1, IH.
Qed.

Lemma forallb_obj_set (p : string * json -> bool) k v o :
  p (k, v) = true -> forallb p o = true -> forallb p (obj_set k v o) = true.
Proof.
  intros. unfold obj_set. destruct (obj_mem k o); [by apply forallb_obj_update|by apply forallb_obj_insert].
Qed.

Lemma forallb_obj_del (p : string * json -> bool) k o :
  forallb p o = true -> forallb p (obj_del k o) = true.
Proof.
  unfold obj_del. induction o as [|[k' v'] o IH]; cbn [List.filter forallb]; [done|].
  intros [H1 H2]%andb_true_iff. destruct (negb _); cbn [forallb]; [by rewrite H1, IH|by apply IH].
Qed.

Lemma set_profile_level_id_view o s kind rest params fbs rate pt id :
  codec_view o s kind rest params fbs rate pt ->
  exists o' params', set_profile_level_id (JObject o) id = Ok (JObject o') /\ codec_view o' s kind rest params' fbs rate pt.
Proof.
  intros Hv. unfold set_profile_level_id.
  rewrite (jref_some (JObject o) "parameters" (JObject params)) by apply Hv. cbn [bind].
  destruct id as [id|]; cbn [jset jerase bind]; do 2 eexists; (split; [reflexivity|]);
    (eapply view_set_params; [exact Hv|..]); jsimp; try done.
  - apply forallb_obj_set; [done|apply Hv].
  - apply forallb_obj_del, Hv.
Qed.

Section OneCodec.
Context {o : object} {s kind rest : string} {params : object} {fbs : list json} {rate pt : json}.
Context (Hv : codec_view o s kind rest params fbs rate pt).

Lemma view_mime : mime_of (JObject o) = Ok (str_lower s).
Proof using Hv. unfold mime_of. cbn [jfind]. by rewrite (cv_mime _ _ _ _ _ _ _ _ Hv). Qed.

Lemma view_rtx : isRtxCodec (JObject o) = Ok (word_match ["audio/rtx"; "video/rtx"] s).
Proof using Hv.
  unfold isRtxCodec. by rewrite (jat_some _ _ (JString s)) by apply Hv.
Qed.

Lemma view_parameters : jat (JObject o) "parameters" = Ok (JObject params).
Proof using Hv. apply jat_some. apply Hv. Qed.

Lemma view_packetization_mode : exists z, getH264PacketizationMode (JObject o) = Ok z.
Proof using Hv.
  unfold getH264PacketizationMode. rewrite view_parameters. cbn [bind jfind].
  destruct (obj_get "packetization-mode" params) as [v|]; [|by eexists].
  destruct (is_number_integer v) eqn:E; [by apply get_uint8_int|by eexists].
Qed.

Lemma view_text k :
  opt_not is_text (obj_get k params) = false ->
  forall d, exists t, match obj_get k params with
                      | None => Ok d
                      | Some v => if is_number v then let* z := get_int32 v in Ok (to_string z) else get_string v
                      end = Ok t.
Proof using Type.
  intros H d. destruct (obj_get k params) as [v|]; [|by eexists]. cbn [opt_not] in H.
  apply negb_false_iff in H. destruct v; try done; by eexists.
Qed.

Lemma view_h264_parameters m : exists P, h264_parameters (JObject o) m = Ok P.
Proof using Hv.
  unfold h264_parameters, getH264LevelAssimetryAllowed, getH264ProfileLevelId.
  rewrite view_parameters. cbn [bind jfind].
  assert (Ha : exists z, match obj_get "level-asymmetry-allowed" params with
               | Some v => if is_number_integer v then get_uint8 v else Ok 0 | None => Ok 0 end = Ok z).
  { destruct (obj_get "level-asymmetry-allowed" params) as [v|]; [|by eexists].
    destruct (is_number_integer v) eqn:E; [by apply get_uint8_int|by eexists]. }
  destruct Ha as [z ->]. cbn [bind].
  destruct (view_text "profile-level-id" ltac:(apply Hv) EmptyString) as [t ->]. by eexists.
Qed.

Lemma view_vp9_profile : exists t, getVP9ProfileId (JObject o) = Ok t.
Proof using Hv.
  unfold getVP9ProfileId. rewrite view_parameters. cbn [bind jfind].
  apply view_text, Hv.
Qed.
End OneCodec.

Lemma channels_differ_ok a b :
  jcontains a "channels" = jcontains b "channels" ->
  exists d, (if jcontains a "channels" then
               let* x := jget a "channels" in
               let* y := jget b "channels" in Ok (negb (json_eqb x y)) else Ok false) = Ok d.
Proof.
  intros H. rewrite H. unfold jcontains in *.
  destruct (jfind b "channels") eqn:Eb, (jfind a "channels") eqn:Ea; try done; [|by eexists].
  rewrite (jget_some _ _ _ Ea), (jget_some _ _ _ Eb). by eexists.
Qed.

(** Two negotiable codecs are compared without errors and stay negotiable, and
    only codecs with the same MIME type and clock rate match. *)
Lemma matchCodecs_ok oa sa ka ra pa fa rta pta ob sb kb rb pb fb rtb ptb strict modify :
  codec_view oa sa ka ra pa fa rta pta -> codec_view ob sb kb rb pb fb rtb ptb ->
  exists r oa' ob' pa' pb',
    matchCodecs (JObject oa) (JObject ob) strict modify = Ok (r, JObject oa', JObject ob') /\
    codec_view oa' sa ka ra pa' fa rta pta /\ codec_view ob' sb kb rb pb' fb rtb ptb /\
    (r = true -> str_lower sa = str_lower sb /\ json_eqb rta rtb = true).
Proof.
  intros Ha Hb. unfold matchCodecs. rewrite (view_mime Ha), (view_mime Hb). cbn [bind].
  destruct (String.eqb_spec (str_lower sa) (str_lower sb)) as [Hm|Hm]; cbn [negb].
  2: { by exists false, oa, ob, pa, pb. }
  rewrite (jref_some (JObject oa) "clockRate" rta), (jref_some (JObject ob) "clockRate" rtb)
    by (apply Ha || apply Hb). cbn [bind].
  destruct (json_eqb rta rtb) eqn:Hr; cbn [negb]; [|by exists false, oa, ob, pa, pb].
  assert (Hsame : exists r oa' ob' pa' pb', Ok (true, JObject oa, JObject ob) = Ok (r, JObject oa', JObject ob') /\
            codec_view oa' sa ka ra pa' fa rta pta /\ codec_view ob' sb kb rb pb' fb rtb ptb /\
            (r = true -> str_lower sa = str_lower sb /\ true = true)) by (by exists true, oa, ob, pa, pb).
  destruct (Bool.eqb _ _) eqn:Hch; cbn [negb]; [|by exists false, oa, ob, pa, pb].
  apply Bool.eqb_prop in Hch.
  destruct (channels_differ_ok _ _ Hch) as [d ->]. cbn [bind]. destruct d; [by exists false, oa, ob, pa, pb|].
  destruct (String.eqb (str_lower sa) "video/h264").
  - destruct strict; [|exact Hsame].
    destruct (view_packetization_mode Ha) as [ma ->], (view_packetization_mode Hb) as [mb ->]. cbn [bind].
    destruct (ma =? mb); cbn [negb]; [|by exists false, oa, ob, pa, pb].
    destruct (view_h264_parameters Ha ma) as [Pa ->], (view_h264_parameters Hb mb) as [Pb ->]. cbn [bind].
    destruct (H264IsSameProfile Pa Pb) eqn:Hp; cbn [negb]; [|by exists false, oa, ob, pa, pb].
    destruct (answer_spec Pa Pb ∅ Hp) as (ans & -> & _). cbn [bind]. destruct modify; [|exact Hsame].
    destruct (set_profile_level_id_view _ _ _ _ _ _ _ _ (ans !! "profile-level-id") Ha) as (oa' & pa' & -> & Ha').
    destruct (set_profile_level_id_view _ _ _ _ _ _ _ _ (ans !! "profile-level-id") Hb) as (ob' & pb' & -> & Hb').
    cbn [bind]. by exists true, oa', ob', pa', pb'.
  - destruct (String.eqb (str_lower sa) "video/vp9"); [|exact Hsame]. destruct strict; [|exact Hsame].
    destruct (view_vp9_profile Ha) as [ta ->], (view_vp9_profile Hb) as [tb ->]. cbn [bind].
    by exists (String.eqb ta tb), oa, ob, pa, pb.
Qed.

Definition negotiable (j : json) : Prop := negotiable_codec j = true.

Lemma matchCodecs_negotiable a b strict modify :
  negotiable a -> negotiable b ->
  exists r a' b', matchCodecs a b strict modify = Ok (r, a', b') /\ negotiable a' /\ negotiable b' /\
                  is_rtx_mime b' = is_rtx_mime b.
Proof.
  intros Ha Hb. destruct (negotiable_view a Ha) as (oa & sa & ka & ra & pa & fa & rta & pta & -> & Va).
  destruct (negotiable_view b Hb) as (ob & sb & kb & rb & pb & fb & rtb & ptb & -> & Vb).
  destruct (matchCodecs_ok _ _ _ _ _ _ _ _ _ _ _ _ _ _ _ _ strict modify Va Vb)
    as (r & oa' & ob' & pa' & pb' & -> & Va' & Vb' & _).
  do 3 eexists. split; [reflexivity|]. split; [by eapply view_negotiable|]. split; [by eapply view_negotiable|].
  unfold is_rtx_mime. cbn [jfind].
  by rewrite (cv_mime _ _ _ _ _ _ _ _ Vb), (cv_mime _ _ _ _ _ _ _ _ Vb').
Qed.

Lemma find_local_ok locals remote :
  Forall negotiable locals -> negotiable remote ->
  exists before found remote',
    find_local locals remote = Ok (before, found, remote') /\
    Forall negotiable before /\ negotiable remote' /\
    match found with Some (l, rest) => negotiable l /\ Forall negotiable rest | None => True end.
Proof.
  intros Hl. revert remote. induction Hl as [|l locals Hl Hls IH]; intros remote Hr; cbn [find_local].
  { by exists [], None, remote. }
  destruct (matchCodecs_negotiable l remote true true Hl Hr) as (b & l' & r' & -> & Hl' & Hr' & _).
  cbn [bind]. destruct b.
  - by exists [], (Some (l', locals)), r'.
  - destruct (IH r' Hr') as (before & found & r'' & -> & Hb & Hr'' & Hf). cbn [bind].
    exists (l' :: before), found, r''. by repeat (split; [done || by constructor|]).
Qed.

(** ** Feedback *)

Lemma wf_feedback_fields fb :
  wf_feedback fb = true ->
  exists t p, jat fb "type" = Ok (JString t) /\ jat fb "parameter" = Ok (JString p).
Proof.
  unfold wf_feedback. destruct fb as [| | | | | | |o]; try done. cbn [is_object jfind]. intros H. bool_hyps.
  field "type" t Ht Hts. field "parameter" p Hp Hps.
  destruct (is_string_inv _ Hts) as [t' ->], (is_string_inv _ Hps) as [p' ->].
  exists t', p'. split; by apply jat_some.
Qed.

Lemma same_feedback_ok a b :
  wf_feedback a = true -> wf_feedback b = true -> exists r, same_feedback a b = Ok r.
Proof.
  intros Ha Hb. destruct (wf_feedback_fields a Ha) as (ta & pa & Hta & Hpa).
  destruct (wf_feedback_fields b Hb) as (tb & pb & Htb & Hpb).
  unfold same_feedback. rewrite Hta, Htb. cbn [bind]. destruct (json_eqb _ _); [|by eexists].
  rewrite Hpa, Hpb. by eexists.
Qed.

Lemma find_if_ok {A} (p : A -> res bool) (P : A -> Prop) l :
  Forall P l -> (forall x, P x -> exists b, p x = Ok b) ->
  exists r, find_if p l = Ok r /\ match r with Some x => P x /\ x ∈ l /\ p x = Ok true | None => True end.
Proof.
  intros Hl Hp. induction Hl as [|x l Hx Hl IH]; cbn [find_if]; [by exists None|].
  destruct (Hp x Hx) as [b Hb]. rewrite Hb. cbn [bind]. destruct b.
  - exists (Some x). split; [done|]. split; [done|]. split; [left|done].
  - destruct IH as (r & -> & Hr). exists r. split; [done|].
    destruct r as [y|]; [|done]. destruct Hr as (H1 & H2 & H3). split; [done|]. split; [by right|done].
Qed.

Lemma forallb_Forall_true {A} (p : A -> bool) l : forallb p l = true <-> Forall (fun x => p x = true) l.
Proof.
  rewrite forallb_forall, Forall_forall. split; intros H x Hx; apply H; by apply list_elem_of_In.
Qed.

Lemma reduceRtcpFeedback_ok a b fa fb :
  jfind a "rtcpFeedback" = Some (JArray fa) -> jfind b "rtcpFeedback" = Some (JArray fb) ->
  forallb wf_feedback fa = true -> forallb wf_feedback fb = true ->
  exists l, reduceRtcpFeedback a b = Ok (JArray l) /\
    Forall (fun x => x ∈ fb /\ exists y, y ∈ fa /\ same_feedback y x = Ok true) l.
Proof.
  intros Ha Hb Hfa Hfb. unfold reduceRtcpFeedback. rewrite Ha, Hb. cbn [jiter].
  set (body := fun (reduced : list json) (aFb : json) => _).
  set (I := Forall (fun x => x ∈ fb /\ exists y, y ∈ fa /\ same_feedback y x = Ok true)).
  destruct (post_total (for_fold body [] fa) I) as (l & -> & Hl); [|by exists l].
  eapply (for_fold_post _ _ (fun x => wf_feedback x = true /\ x ∈ fa)); [|intros red x Hr [Hx Hin]|constructor].
  - apply Forall_forall. intros x Hx. split; [|done]. apply forallb_Forall_true in Hfa.
    by eapply Forall_forall in Hfa.
  - unfold body. destruct (find_if_ok (same_feedback x) (fun y => wf_feedback y = true) fb) as (r & -> & Hf);
      [by apply forallb_Forall_true|intros; by apply same_feedback_ok|].
    cbn [bind]. apply post_Ok. destruct r as [y|]; [|done]. destruct Hf as (_ & Hy & Hs).
    apply Forall_app. split; [done|]. constructor; [|constructor]. split; [done|]. by exists x.
Qed.

(** ** Extended codecs *)

Definition null_or_integer (j : json) : bool := is_null j || is_number_integer j.

(** What the later functions read from an extended codec. *)
Record extended_view (o : object) (s kind rest : string) (lp rp : object) (fbs : list json)
    (rate lpt rpt lrtx rrtx : json) : Prop := ExtendedView {
  ev_mime : obj_get "mimeType" o = Some (JString s);
  ev_match : mime_match s = Some (kind, rest);
  ev_kind : obj_get "kind" o = Some (JString kind);
  ev_rate : obj_get "clockRate" o = Some rate;
  ev_rate_int : is_number_integer rate = true;
  ev_lpt : obj_get "localPayloadType" o = Some lpt;
  ev_lpt_int : is_number_integer lpt = true;
  ev_rpt : obj_get "remotePayloadType" o = Some rpt;
  ev_rpt_int : is_number_integer rpt = true;
  ev_lrtx : obj_get "localRtxPayloadType" o = Some lrtx;
  ev_lrtx_int : null_or_integer lrtx = true;
  ev_rrtx : obj_get "remoteRtxPayloadType" o = Some rrtx;
  ev_rrtx_int : null_or_integer rrtx = true;
  ev_lp : obj_get "localParameters" o = Some (JObject lp);
  ev_lp_wf : forallb wf_codec_parameter lp = true;
  ev_rp : obj_get "remoteParameters" o = Some (JObject rp);
  ev_rp_wf : forallb wf_codec_parameter rp = true;
  ev_fbs : obj_get "rtcpFeedback" o = Some (JArray fbs);
  ev_fbs_wf : forallb wf_feedback fbs = true;
  ev_channels : (if String.eqb kind "audio" then opt_is is_number_integer (obj_get "channels" o)
                 else at_end (obj_get "channels" o)) = true }.

Definition extended_codec (j : json) : Prop :=
  exists o s kind rest lp rp fbs rate lpt rpt lrtx rrtx,
    j = JObject o /\ extended_view o s kind rest lp rp fbs rate lpt rpt lrtx rrtx.

Lemma extend_codec_ok l r :
  negotiable l -> negotiable r ->
  exists ext, extend_codec l r = Ok (ext, l, r) /\ extended_codec ext.
Proof.
  intros Hl Hr. destruct (negotiable_view l Hl) as (ol & sl & kl & rl & pl & fl & rtl & ptl & -> & Vl).
  destruct (negotiable_view r Hr) as (oR & sr & kr & rr & pr & fr & rtr & ptr & -> & Vr).
  destruct (reduceRtcpFeedback_ok (JObject ol) (JObject oR) fl fr) as (fbs & Efb & Hfbs);
    [apply Vl|apply Vr|apply Vl|apply Vr|].
  assert (Hwf : forallb wf_feedback fbs = true).
  { apply forallb_Forall_true. apply Forall_forall. intros x Hx. rewrite Forall_forall in Hfbs.
    destruct (Hfbs x Hx) as [Hin _]. pose proof (cv_fbs_wf _ _ _ _ _ _ _ _ Vr) as Hw.
    apply forallb_Forall_true in Hw. by eapply Forall_forall in Hw. }
  unfold extend_codec. destruct Vl, Vr.
  rewrite (jget_some (JObject ol) "mimeType" (JString sl)), (jget_some (JObject ol) "kind" (JString kl)),
    (jget_some (JObject ol) "clockRate" rtl), (jref_some (JObject ol) "preferredPayloadType" ptl) by done. cbn [bind].
  rewrite (jref_some (JObject oR) "preferredPayloadType" ptr) by done. cbn [bind].
  rewrite (jget_some (JObject ol) "parameters" (JObject pl)), (jget_some (JObject oR) "parameters" (JObject pr))
    by done. cbn [bind]. rewrite Efb. cbn [bind].
  unfold jcontains. cbn [jfind]. destruct (obj_get "channels" ol) as [ch|] eqn:Hch.
  - rewrite (jget_some (JObject ol) "channels" ch) by done. cbn [bind jset JObj].
    eexists. split; [reflexivity|].
    exists (obj_set "channels" ch (obj_of
      [("mimeType", JString sl); ("kind", JString kl); ("clockRate", rtl); ("localPayloadType", ptl);
       ("localRtxPayloadType", JNull); ("remotePayloadType", ptr); ("remoteRtxPayloadType", JNull);
       ("localParameters", JObject pl); ("remoteParameters", JObject pr); ("rtcpFeedback", JArray fbs)])),
      sl, kl, rl, pl, pr, fbs, rtl, ptl, ptr, JNull, JNull.
    split; [done|]. constructor; jsimp; first [reflexivity|done|idtac].
  - cbn [bind]. eexists. split; [reflexivity|].
    eexists _, sl, kl, rl, pl, pr, fbs, rtl, ptl, ptr, JNull, JNull. split; [reflexivity|].
    constructor; first [reflexivity|done|idtac].
Qed.

Lemma find_idx_ok {A} (p : A -> res bool) (P : A -> Prop) l :
  Forall P l -> (forall x, P x -> exists b, p x = Ok b) ->
  exists r, find_idx p l = Ok r /\
    match r with Some (i, x) => P x /\ l !! i = Some x | None => True end.
Proof.
  intros Hl Hp. induction Hl as [|x l Hx Hl IH]; cbn [find_idx]; [by exists None|].
  destruct (Hp x Hx) as [b ->]. cbn [bind]. destruct b; [by exists (Some (0%nat, x))|].
  destruct IH as (r & -> & Hr). cbn [bind]. destruct r as [[i y]|]; [|by exists None].
  by exists (Some (S i, y)).
Qed.

Lemma is_rtx_of_ok pt c : negotiable c -> exists b, is_rtx_of pt c = Ok b.
Proof.
  intros Hc. destruct (negotiable_view c Hc) as (o & s & k & r & p & f & rt & pt' & -> & V).
  unfold is_rtx_of. rewrite (view_rtx V). cbn [bind].
  destruct (word_match _ s) eqn:Hm; [|by eexists]. rewrite (view_parameters V). cbn [bind].
  destruct (opt_is_some _ _ (cv_apt _ _ _ _ _ _ _ _ V Hm)) as (apt & Ha & _).
  rewrite (jat_some (JObject p) "apt" apt) by done. by eexists.
Qed.

Lemma negotiable_payload c : negotiable c -> exists pt, jref c "preferredPayloadType" = Ok (c, pt) /\ is_number_integer pt = true.
Proof.
  intros Hc. destruct (negotiable_view c Hc) as (o & s & k & r & p & f & rt & pt & -> & V).
  exists pt. split; [apply jref_some, V|apply V].
Qed.

(** The state of the loops: local codecs, extended codecs, remote codecs. *)
Definition loop_ok (st : list json * list json * list json) : Prop :=
  let '(locals, extended, remotes) := st in
  Forall negotiable locals /\ Forall extended_codec extended /\ Forall negotiable remotes.

Lemma Forall_snoc {A} (P : A -> Prop) l x : Forall P l -> P x -> Forall P (l ++ [x]).
Proof. intros. apply Forall_app. by repeat constructor. Qed.

Lemma match_remote_codec_ok st r :
  loop_ok st -> negotiable r -> post (match_remote_codec st r) loop_ok no_exn.
Proof.
  destruct st as [[locals extended] remotes]. intros (Hl & He & Hrs) Hr. unfold match_remote_codec.
  destruct (negotiable_view r Hr) as (o & s & k & rs & p & f & rt & pt & -> & V).
  rewrite (view_rtx V). cbn [bind].
  destruct (word_match _ s); [apply post_Ok; split; [done|]; split; [done|by apply Forall_snoc]|].
  destruct (find_local_ok locals (JObject o) Hl Hr) as (before & found & r' & -> & Hb & Hr' & Hf).
  cbn [bind]. destruct found as [[l rest]|].
  - destruct Hf as [Hln Hrest]. destruct (extend_codec_ok l r' Hln Hr') as (ext & -> & Hext). cbn [bind].
    apply post_Ok. split; [apply Forall_app; split; [done|by constructor]|].
    split; by apply Forall_snoc.
  - apply post_Ok. split; [done|]. split; [done|]. by apply Forall_snoc.
Qed.

Lemma match_rtx_ok st ext :
  loop_ok st -> extended_codec ext -> post (match_rtx st ext) loop_ok no_exn.
Proof.
  destruct st as [[locals extended] remotes]. intros (Hl & He & Hrs) Hx. unfold match_rtx.
  destruct Hx as (o & s & kind & rest & lp & rp & fbs & rate & lpt & rpt & lrtx & rrtx & -> & V).
  assert (Hx : extended_codec (JObject o)) by (by do 12 eexists).
  rewrite (jget_some (JObject o) "localPayloadType" lpt) by apply V. cbn [bind].
  destruct (find_idx_ok (is_rtx_of lpt) negotiable locals) as (li & -> & Hli); [done|by intros; apply is_rtx_of_ok|].
  cbn [bind]. assert (Hskip : loop_ok (locals, extended ++ [JObject o], remotes))
    by (split; [done|]; split; [by apply Forall_snoc|done]).
  destruct li as [[i lx]|]; [|by apply post_Ok].
  rewrite (jget_some (JObject o) "remotePayloadType" rpt) by apply V. cbn [bind].
  destruct (find_idx_ok (is_rtx_of rpt) negotiable remotes) as (ri & -> & Hri); [done|by intros; apply is_rtx_of_ok|].
  cbn [bind]. destruct ri as [[k rx]|]; [|by apply post_Ok].
  destruct Hli as [Hlx _], Hri as [Hrx _].
  destruct (negotiable_payload lx Hlx) as (lpt' & -> & Hlpt), (negotiable_payload rx Hrx) as (rpt' & -> & Hrpt).
  cbn [bind jset]. apply post_Ok. split; [by apply Forall_insert|]. split; [|by apply Forall_insert].
  apply Forall_snoc; [done|].
  eexists _, s, kind, rest, lp, rp, fbs, rate, lpt, rpt, lpt', rpt'. split; [reflexivity|].
  destruct V. constructor; jsimp; try done; unfold null_or_integer; apply orb_true_iff; by right.
Qed.

(** ** Header extensions *)

Definition known_direction (j : json) : bool :=
  match j with
  | JString d => existsb (String.eqb d) ["sendrecv"; "recvonly"; "sendonly"; "inactive"]
  | _ => false
  end.

Definition negotiable_extension (j : json) : bool :=
  wf_header_extension j && opt_is known_direction (jfind j "direction").

Definition extended_extension (j : json) : bool :=
  is_object j && opt_is is_kind_string (jfind j "kind") &&
  opt_is is_nonempty_string (jfind j "uri") && opt_is is_number_integer (jfind j "sendId") &&
  opt_is is_number_integer (jfind j "recvId") && opt_is is_boolean (jfind j "encrypt") &&
  opt_is known_direction (jfind j "direction").

Lemma matchHeaderExtensions_ok a b :
  wf_header_extension a = true -> wf_header_extension b = true -> exists r, matchHeaderExtensions a b = Ok r.
Proof.
  unfold wf_header_extension. destruct a as [| | | | | | |oa], b as [| | | | | | |ob]; try done.
  cbn [is_object jfind]. intros Ha Hb. bool_hyps. unfold matchHeaderExtensions.
  repeat match goal with
  | H : opt_is _ (obj_get ?k ?o) = true |- _ =>
      let v := fresh "v" in let E := fresh "E" in
      destruct (opt_is_some _ _ H) as (v & E & _); clear H;
      try rewrite (jat_some (JObject o) k v) by exact E
  end. cbn [bind]. destruct (json_eqb _ _); by eexists.
Qed.

Lemma known_direction_reverse d :
  known_direction (JString d) = true ->
  exists d', reverse_direction d = Some d' /\ known_direction (JString d') = true.
Proof.
  unfold known_direction, reverse_direction. cbn [existsb].
  destruct (String.eqb d "sendrecv"); [by eexists|].
  destruct (String.eqb d "recvonly"); [by eexists|].
  destruct (String.eqb d "sendonly"); [by eexists|].
  destruct (String.eqb d "inactive"); [by eexists|done].
Qed.

Lemma match_extension_ok locals extended r :
  Forall (fun j => negotiable_extension j = true) locals -> negotiable_extension r = true ->
  Forall (fun j => extended_extension j = true) extended ->
  post (match_extension locals extended r) (Forall (fun j => extended_extension j = true)) no_exn.
Proof.
  intros Hl Hr He. unfold match_extension.
  assert (Hwf : forall x, negotiable_extension x = true -> wf_header_extension x = true)
    by (intros x Hx; unfold negotiable_extension in Hx; by bool_hyps).
  destruct (find_if_ok (fun x => matchHeaderExtensions x r) (fun j => negotiable_extension j = true) locals)
    as (f & -> & Hf); [done|intros; apply matchHeaderExtensions_ok; auto|].
  cbn [bind]. destruct f as [l|]; [|by apply post_Ok]. destruct Hf as (Hln & _ & _).
  unfold negotiable_extension, wf_header_extension in Hr, Hln.
  destruct r as [| | | | | | |oR]; try done. destruct l as [| | | | | | |ol]; try done.
  cbn [is_object jfind andb] in *. bool_hyps.
  field "preferredId" of ol as sid Es Hs.
  field "preferredEncrypt" of ol as enc Ee Hen.
  field "kind" of oR by is_kind_string as k Ek Hk.
  field "uri" of oR as u Eu Hu.
  field "preferredId" of oR as rid Er Hri.
  field "direction" of oR by known_direction as d Ed Hd.
  rewrite (jget_some (JObject oR) "kind" k), (jget_some (JObject oR) "uri" u),
    (jget_some (JObject ol) "preferredId" sid), (jget_some (JObject oR) "preferredId" rid),
    (jget_some (JObject ol) "preferredEncrypt" enc), (jget_some (JObject oR) "direction" d) by done.
  cbn [bind]. destruct d as [| | | | |d| |]; try done. cbn [get_string bind].
  destruct (known_direction_reverse d Hd) as (d' & -> & Hd'). cbn [JObj jset bind]. apply post_Ok.
  apply Forall_snoc; [done|]. unfold extended_extension. cbn [is_object jfind]. jsimp.
  change (obj_get "kind" _) with (Some k). change (obj_get "uri" _) with (Some u).
  change (obj_get "sendId" _) with (Some sid). change (obj_get "recvId" _) with (Some rid).
  change (obj_get "encrypt" _) with (Some enc). cbn [opt_is]. by rewrite Hk, Hu, Hs, Hri, Hen, Hd'.
Qed.

(** ** Capabilities for receiving *)

(** The validator accepts the value. *)
Definition accepted (validate : json -> res json) (j : json) : Prop := exists j', validate j = Ok j'.

Lemma codec_capability_accepted o s kind rest params fbs :
  obj_get "mimeType" o = Some (JString s) -> mime_match s = Some (kind, rest) ->
  opt_not is_number_integer (obj_get "preferredPayloadType" o) = false ->
  opt_is is_number_integer (obj_get "clockRate" o) = true ->
  obj_get "parameters" o = Some (JObject params) -> forallb wf_codec_parameter params = true ->
  obj_get "rtcpFeedback" o = Some (JArray fbs) -> forallb wf_feedback fbs = true ->
  accepted validateRtpCodecCapability (JObject o).
Proof.
  intros Hm Hmm Hp Hr Hps Hpw Hfb Hfw. unfold accepted, validateRtpCodecCapability. cbv zeta.
  cbn [is_object negb throw_if bind jfind]. rewrite Hm, Hmm. cbn [jset bind]. rewrite Hp, Hr.
  cbn [negb throw_if bind]. set (o1 := obj_set "kind" (JString kind) o).
  assert (Hch : exists o2, (if String.eqb kind "audio" then
            if negb (opt_is is_number_integer (obj_get "channels" o)) then jset (JObject o1) "channels" (JInt 1)
            else Ok (JObject o1)
          else if negb (at_end (obj_get "channels" o)) then jerase (JObject o1) "channels" else Ok (JObject o1))
          = Ok (JObject o2) /\ forall k, "channels" <> k -> obj_get k o2 = obj_get k o1).
  { destruct (String.eqb kind "audio");
      [destruct (opt_is is_number_integer (obj_get "channels" o))|destruct (at_end (obj_get "channels" o))]; cbn [negb jset jerase];
      (eexists; split; [reflexivity|]); try done; intros; by rewrite ?obj_get_set_ne, ?obj_get_del_ne. }
  cbn [jset jerase] in *. destruct Hch as (o2 & -> & Hk). cbn [bind]. rewrite Hps, Hfb. cbn [opt_is is_object is_array negb bind jfind].
  rewrite !Hk by done. unfold o1. jsimp. rewrite Hps, Hfb. cbn [members elements].
  rewrite (check_loop_id check_codec_parameter wf_codec_parameter) by (done || apply codec_parameter_id).
  cbn [bind]. rewrite (validate_loop_id _ wf_feedback) by (done || apply feedback_id). by eexists.
Qed.

(** A kind and ["/rtx"] make a MIME type of that kind. *)
Lemma mime_match_rtx s kind rest :
  mime_match s = Some (kind, rest) -> mime_match (kind +:+ "/rtx") = Some (kind, "rtx").
Proof.
  unfold mime_match at 1. cbv zeta. set (k := String.substring 0 5 s).
  destruct (_ && _) eqn:E; [|done]. intros [= <- _]. bool_hyps. unfold mime_match.
  match goal with H : (_ || _) = true |- _ => apply orb_true_iff in H as [H|H]; apply String.eqb_eq in H end.
  all: destruct k as [|c1 [|c2 [|c3 [|c4 [|c5 [|c6 k]]]]]]; try done.
  all: match goal with H : str_lower _ = _ |- _ => cbn [str_lower] in H; injection H as E1 E2 E3 E4 E5 end.
  all: unfold String.append; cbn -[ascii_lower]; rewrite E1, E2, E3, E4, E5; done.
Qed.

Lemma copy_channels_get o c :
  exists c', copy_channels (JObject o) (JObject c) = Ok (JObject c') /\
             forall k, "channels" <> k -> obj_get k c' = obj_get k c.
Proof.
  unfold copy_channels, jcontains. cbn [jfind]. destruct (obj_get "channels" o) as [ch|] eqn:E; [|by exists c].
  rewrite (jat_some (JObject o) "channels" ch) by done. cbn [bind jset]. eexists. split; [reflexivity|].
  intros. by rewrite obj_get_set_ne.
Qed.

Lemma recv_codecs_ok codecs ext :
  Forall (accepted validateRtpCodecCapability) codecs -> extended_codec ext ->
  post (recv_codecs codecs ext) (Forall (accepted validateRtpCodecCapability)) no_exn.
Proof.
  intros Hc (o & s & kind & rest & lp & rp & fbs & rate & lpt & rpt & lrtx & rrtx & -> & V).
  unfold recv_codecs. destruct V.
  rewrite (jat_some (JObject o) "mimeType" (JString s)), (jat_some (JObject o) "kind" (JString kind)),
    (jat_some (JObject o) "remotePayloadType" rpt), (jat_some (JObject o) "clockRate" rate),
    (jat_some (JObject o) "localParameters" (JObject lp)), (jat_some (JObject o) "rtcpFeedback" (JArray fbs))
    by done. cbn [bind].
  set (c := obj_of [("mimeType", JString s); ("kind", JString kind); ("preferredPayloadType", rpt);
     ("clockRate", rate); ("parameters", JObject lp); ("rtcpFeedback", JArray fbs)]).
  match goal with |- context [copy_channels _ ?x] => change x with (JObject c) end.
  destruct (copy_channels_get o c) as (c' & -> & Hk). cbn [bind].
  assert (Hacc : accepted validateRtpCodecCapability (JObject c')).
  { apply (codec_capability_accepted c' s kind rest lp fbs); rewrite ?Hk by done; try done.
    - change (opt_not is_number_integer (Some rpt) = false). cbn [opt_not]. by rewrite ev_rpt_int0. }
  rewrite (jat_some (JObject o) "remoteRtxPayloadType" rrtx) by done. cbn [bind].
  destruct (is_null rrtx) eqn:Hnull; [by apply post_Ok, Forall_snoc|].
  cbn [get_string bind]. destruct (get_uint8_int rpt) as [z ->]; [done|]. cbn [bind]. apply post_Ok.
  apply Forall_snoc; [by apply Forall_snoc|].
  eapply (codec_capability_accepted _ (kind +:+ "/rtx") kind "rtx"); try reflexivity; [by eapply mime_match_rtx|..].
  - change (opt_not is_number_integer (Some rrtx) = false). cbn [opt_not].
    unfold null_or_integer in *. rewrite Hnull in *. cbn [orb] in *. by rewrite ev_rrtx_int0.
  - change (is_number_integer rate = true). done.
Qed.

Lemma recv_extension_ok exts ext :
  Forall (accepted validateRtpHeaderExtension) exts -> extended_extension ext = true ->
  post (recv_extension exts ext) (Forall (accepted validateRtpHeaderExtension)) no_exn.
Proof.
  intros Hx He. unfold recv_extension, extended_extension in *. destruct ext as [| | | | | | |o]; try done.
  cbn [is_object jfind andb] in He. bool_hyps.
  field "kind" of o as k Ek Hk. field "uri" of o as u Eu Hu. field "recvId" of o as r Er Hr.
  field "encrypt" of o as e Ee Hen. field "direction" of o as d Ed Hd.
  rewrite (jat_some (JObject o) "direction" d) by done. destruct d as [| | | | |d| |]; try done.
  cbn [bind get_string]. destruct (negb _ && negb _); [by apply post_Ok|].
  rewrite (jat_some (JObject o) "kind" k), (jat_some (JObject o) "uri" u), (jat_some (JObject o) "recvId" r),
    (jat_some (JObject o) "encrypt" e) by done. cbn [bind]. apply post_Ok, Forall_snoc; [done|].
  eexists. apply header_extension_id. unfold wf_header_extension, JObj. cbn [is_object jfind].
  change (obj_get "kind" _) with (Some k). change (obj_get "uri" _) with (Some u).
  change (obj_get "preferredId" _) with (Some r). change (obj_get "preferredEncrypt" _) with (Some e).
  change (obj_get "direction" _) with (Some (JString d)). cbn [opt_is is_string]. by rewrite Hk, Hu, Hr, Hen.
Qed.

(** ** The whole negotiation *)

Definition negotiable_capabilities (caps : json) : bool :=
  wf_capabilities caps &&
  forallb negotiable_codec (elements (jfind caps "codecs")) &&
  forallb negotiable_extension (elements (jfind caps "headerExtensions")).

Lemma for_each_accepted f l : Forall (accepted f) l -> exists l', for_each f l = Ok l'.
Proof.
  induction 1 as [|x l [y Hy] Hl [l' IH]]; cbn [for_each]; [by eexists|].
  rewrite Hy, IH. by eexists.
Qed.

Definition extended_capabilities (ext : json) : Prop :=
  exists codecs exts,
    ext = JObj [("codecs", JArray codecs); ("headerExtensions", JArray exts)] /\
    Forall extended_codec codecs /\ Forall (fun j => extended_extension j = true) exts.

Lemma getExtendedRtpCapabilities_ok local remote l r :
  validateRtpCapabilities local = Ok l -> validateRtpCapabilities remote = Ok r ->
  negotiable_capabilities l = true -> negotiable_capabilities r = true ->
  exists ext l' r', getExtendedRtpCapabilities local remote = Ok (ext, l', r') /\ extended_capabilities ext.
Proof.
  intros Hl Hr Nl Nr. unfold getExtendedRtpCapabilities. rewrite Hl, Hr. cbn [bind].
  unfold negotiable_capabilities in Nl, Nr. bool_hyps.
  repeat match goal with H : forallb _ _ = true |- _ => apply forallb_Forall_true in H end.
  destruct l as [| | | | | | |ol]; try done. destruct r as [| | | | | | |oR]; try done. cbn [jfind] in *.
  destruct (post_total (for_fold match_remote_codec (elements (obj_get "codecs" ol), [], [])
              (elements (obj_get "codecs" oR))) loop_ok) as ([[locals extended] remotes] & -> & Hok1).
  { eapply for_fold_post; [eassumption|intros; by apply match_remote_codec_ok|]. by split. }
  cbn [bind]. destruct Hok1 as (Hl1 & He1 & Hr1).
  destruct (post_total (for_fold match_rtx (locals, [], remotes) extended) loop_ok)
    as ([[locals' extended'] remotes'] & -> & (Hl2 & He2 & Hr2)).
  { eapply for_fold_post; [exact He1|intros; by apply match_rtx_ok|]. by split. }
  cbn [bind jset jfind]. jsimp.
  destruct (post_total (for_fold (match_extension (elements (obj_get "headerExtensions" ol))) []
              (elements (obj_get "headerExtensions" oR))) (Forall (fun j => extended_extension j = true)))
    as (exts & -> & Hexts).
  { eapply for_fold_post; [eassumption|intros; by apply match_extension_ok|constructor]. }
  cbn [bind]. do 3 eexists. split; [reflexivity|]. by exists extended', exts.
Qed.

Lemma getRecvRtpCapabilities_ok ext :
  extended_capabilities ext ->
  exists recv recv', getRecvRtpCapabilities ext = Ok recv /\ validateRtpCapabilities recv = Ok recv'.
Proof.
  intros (codecs & exts & -> & Hc & He). unfold getRecvRtpCapabilities.
  rewrite (jat_some (JObj _) "codecs" (JArray codecs)), (jat_some (JObj _) "headerExtensions" (JArray exts))
    by reflexivity. cbn [bind jiter].
  destruct (post_total (for_fold recv_codecs [] codecs) (Forall (accepted validateRtpCodecCapability)))
    as (cs & -> & Hcs).
  { eapply for_fold_post; [exact Hc|intros; by apply recv_codecs_ok|constructor]. }
  cbn [bind].
  destruct (post_total (for_fold recv_extension [] exts) (Forall (accepted validateRtpHeaderExtension)))
    as (es & -> & Hes).
  { eapply for_fold_post; [exact He|intros; by apply recv_extension_ok|constructor]. }
  cbn [bind]. eexists. destruct (for_each_accepted _ _ Hcs) as [cs' Ecs], (for_each_accepted _ _ Hes) as [es' Ees].
  eexists. split; [reflexivity|]. unfold validateRtpCapabilities, optional_array. cbv zeta.
  change (jfind (JObj _) "codecs") with (Some (JArray cs)).
  change (jfind (JObj _) "headerExtensions") with (Some (JArray es)).
  unfold JObj. cbn [is_object negb throw_if bind opt_not is_array at_end].
  change (jfind (JObject _) "codecs") with (Some (JArray cs)). cbn [elements]. rewrite Ecs.
  cbn [bind jset jfind]. jsimp. change (obj_get "headerExtensions" _) with (Some (JArray es)).
  cbn [elements]. rewrite Ees. reflexivity.
Qed.

(** ** Theorems *)


Module Sample.
Definition opus : json := JObj
  [("mimeType", JString "audio/opus"); ("preferredPayloadType", JInt 111); ("clockRate", JInt 48000);
   ("channels", JInt 2); ("rtcpFeedback", JArray [JObj [("type", JString "transport-cc")]])].
Definition vp8 : json := JObj
  [("mimeType", JString "video/VP8"); ("preferredPayloadType", JInt 96); ("clockRate", JInt 90000);
   ("rtcpFeedback", JArray [JObj [("type", JString "goog-remb")]; JObj [("type", JString "transport-cc")]])].
Definition rtx : json := JObj
  [("mimeType", JString "video/rtx"); ("preferredPayloadType", JInt 97); ("clockRate", JInt 90000);
   ("parameters", JObj [("apt", JInt 96)])].
Definition h264 : json := JObj
  [("mimeType", JString "video/H264"); ("preferredPayloadType", JInt 100); ("clockRate", JInt 90000);
   ("parameters", JObj [("profile-level-id", JString "42e01f"); ("packetization-mode", JInt 1)])].
Definition ext : json := JObj
  [("kind", JString "video"); ("uri", JString ABS_SEND_TIME_URI); ("preferredId", JInt 3)].
Definition caps : json := JObj
  [("codecs", JArray [opus; vp8; rtx; h264]); ("headerExtensions", JArray [ext])].
(** An RTX codec whose [apt] is missing. *)
Definition rtx_no_apt : json := JObj
  [("mimeType", JString "video/rtx"); ("preferredPayloadType", JInt 97); ("clockRate", JInt 90000)].
Definition caps_no_apt : json := JObj [("codecs", JArray [vp8; rtx_no_apt])].
End Sample.

Definition result_of {A} (r : res A) (d : A) : A := match r with Ok a => a | _ => d end.


(** An RTX codec without [apt] passes validation and then makes the
    negotiation undefined: [parameters["apt"]] is read from a const object that
    does not have it. *)
Theorem rtx_without_apt_undefined :
  (exists v, validateRtpCapabilities Sample.caps_no_apt = Ok v) /\
  getExtendedRtpCapabilities Sample.caps_no_apt Sample.caps_no_apt = Undef (UbMissingKey "apt").
Proof. split; [eexists|]; vm_compute; reflexivity. Qed.

(** ** Matching and feedback *)

(** Matching never fails on negotiable codecs and is sound: the codecs that
    match have the same MIME type up to case and the same clock rate, and both
    stay negotiable with their payload types, whether or not an H.264
    match rewrote their profile. *)
Theorem matchCodecs_sound a b strict modify :
  negotiable a -> negotiable b ->
  exists r a' b',
    matchCodecs a b strict modify = Ok (r, a', b') /\ negotiable a' /\ negotiable b' /\
    jfind a' "preferredPayloadType" = jfind a "preferredPayloadType" /\
    jfind b' "preferredPayloadType" = jfind b "preferredPayloadType" /\
    (r = true -> mime_of a = mime_of b /\
       exists ra rb, jfind a "clockRate" = Some ra /\ jfind b "clockRate" = Some rb /\ json_eqb ra rb = true).
Proof.
  intros Ha Hb. destruct (negotiable_view a Ha) as (oa & sa & ka & ra & pa & fa & rta & pta & -> & Va).
  destruct (negotiable_view b Hb) as (ob & sb & kb & rb & pb & fb & rtb & ptb & -> & Vb).
  destruct (matchCodecs_ok _ _ _ _ _ _ _ _ _ _ _ _ _ _ _ _ strict modify Va Vb)
    as (r & oa' & ob' & pa' & pb' & -> & Va' & Vb' & Hr).
  do 3 eexists. split; [reflexivity|]. split; [by eapply view_negotiable|]. split; [by eapply view_negotiable|].
  cbn [jfind]. rewrite (cv_pt _ _ _ _ _ _ _ _ Va), (cv_pt _ _ _ _ _ _ _ _ Va'),
    (cv_pt _ _ _ _ _ _ _ _ Vb), (cv_pt _ _ _ _ _ _ _ _ Vb'). split; [done|]. split; [done|].
  intros ->. destruct (Hr eq_refl) as [Hm He]. split; [by rewrite (view_mime Va), (view_mime Vb), Hm|].
  exists rta, rtb. split; [apply Va|]. split; [apply Vb|done].
Qed.

Definition valid_codec (j : json) : json := result_of (validateRtpCodecCapability j) JNull.

Lemma matchCodecs_sound_witness :
  exists r a' b',
    matchCodecs (valid_codec Sample.h264) (valid_codec Sample.h264) true true = Ok (r, a', b') /\
    negotiable a' /\ negotiable b' /\ r = true.
Proof.
  destruct (matchCodecs_sound (valid_codec Sample.h264) (valid_codec Sample.h264) true true)
    as (r & a' & b' & E & Ha & Hb & _); [vm_compute; reflexivity|vm_compute; reflexivity|].
  exists r, a', b'. split; [exact E|]. split; [exact Ha|]. split; [exact Hb|].
  vm_compute in E. by injection E as <- _ _.
Defined.

(** H.264 codecs that name no profile never match strictly: an absent
    [profile-level-id] is passed on as the empty string, which does not
    parse, so the default profile of the H.264 library is never used. *)
Theorem h264_without_profile_never_matches a b modify :
  negotiable a -> negotiable b -> mime_of a = Ok "video/h264" ->
  obj_get "profile-level-id" (parameters_of a) = None ->
  exists a' b', matchCodecs a b true modify = Ok (false, a', b').
Proof.
  intros Ha Hb Hm Hno. destruct (negotiable_view a Ha) as (oa & sa & ka & ra & pa & fa & rta & pta & -> & Va).
  destruct (negotiable_view b Hb) as (ob & sb & kb & rb & pb & fb & rtb & ptb & -> & Vb).
  unfold parameters_of in Hno. cbn [jfind] in Hno. rewrite (cv_params _ _ _ _ _ _ _ _ Va) in Hno. cbn [members] in Hno.
  unfold matchCodecs. rewrite Hm, (view_mime Vb). cbn [bind].
  destruct (negb _); [by do 2 eexists|].
  rewrite (jref_some (JObject oa) "clockRate" rta), (jref_some (JObject ob) "clockRate" rtb)
    by (apply Va || apply Vb). cbn [bind].
  destruct (negb _); [by do 2 eexists|].
  destruct (Bool.eqb _ _) eqn:Hch; cbn [negb]; [|by do 2 eexists].
  apply Bool.eqb_prop in Hch. destruct (channels_differ_ok _ _ Hch) as [d ->]. cbn [bind]. destruct d; [by do 2 eexists|].
  change (String.eqb "video/h264" "video/h264") with true. cbn iota.
  destruct (view_packetization_mode Va) as [ma ->], (view_packetization_mode Vb) as [mb ->]. cbn [bind].
  destruct (negb _); [by do 2 eexists|].
  assert (HPa : exists z, h264_parameters (JObject oa) ma =
    Ok (<["level-asymmetry-allowed" := to_string z]> (<["packetization-mode" := to_string ma]>
       (<["profile-level-id" := EmptyString]> ∅)))).
  { unfold h264_parameters, getH264LevelAssimetryAllowed, getH264ProfileLevelId.
    rewrite (view_parameters Va). cbn [bind jfind]. rewrite Hno.
    destruct (obj_get "level-asymmetry-allowed" pa) as [v|]; [|by eexists].
    destruct (is_number_integer v) eqn:E; [|by eexists].
    destruct (get_uint8_int v E) as [z ->]. by exists z. }
  destruct HPa as [z ->]. destruct (view_h264_parameters Vb mb) as [Pb ->]. cbn [bind].
  assert (Hfalse : H264IsSameProfile (<["level-asymmetry-allowed" := to_string z]>
     (<["packetization-mode" := to_string ma]> (<["profile-level-id" := EmptyString]> ∅))) Pb = false).
  { unfold H264IsSameProfile, ParseSdpForH264ProfileLevelId at 1, kProfileLevelId.
    rewrite !lookup_insert_ne, lookup_insert_eq by done. done. }
  rewrite Hfalse. by do 2 eexists.
Qed.

Lemma h264_without_profile_never_matches_witness :
  let c := valid_codec (JObj [("mimeType", JString "video/H264"); ("preferredPayloadType", JInt 100);
                              ("clockRate", JInt 90000)]) in
  exists a' b', matchCodecs c c true true = Ok (false, a', b').
Proof. intros c. apply (h264_without_profile_never_matches c c true); vm_compute; reflexivity. Defined.

(** ** Sending *)

Definition has_feedback (type : string) (codec : json) : bool :=
  existsb (fun fb => opt_is (fun v => json_eqb v (JString type)) (jfind fb "type"))
    (elements (jfind codec "rtcpFeedback")).

(** A codec with a list of well-formed feedback entries. *)
Definition feedback_codec (c : json) : Prop :=
  exists o fbs, c = JObject o /\ obj_get "rtcpFeedback" o = Some (JArray fbs) /\ forallb wf_feedback fbs = true.

Lemma erase_feedback_ok unwanted c :
  feedback_codec c ->
  exists c', erase_feedback unwanted c = Ok c' /\
    forall t, unwanted t = true -> has_feedback t c' = false.
Proof.
  intros (o & fbs & -> & Hf & Hw). unfold erase_feedback.
  rewrite (jref_some (JObject o) "rtcpFeedback" (JArray fbs)) by done. cbn [bind jiter].
  set (body := fun (kept : list json) (fb : json) => _).
  set (I := Forall (fun fb => exists t, jfind fb "type" = Some (JString t) /\ unwanted t = false)).
  destruct (post_total (for_fold body [] fbs) I) as (kept & -> & Hkept).
  { eapply (for_fold_post _ _ (fun fb => wf_feedback fb = true)); [by apply forallb_Forall_true| |constructor].
    intros kept fb Hk Hfb. unfold body. unfold wf_feedback in Hfb. destruct fb as [| | | | | | |ofb]; try done.
    cbn [is_object jfind andb] in Hfb. bool_hyps. field "type" of ofb as t Et Ht.
    destruct (is_string_inv _ Ht) as [ty ->]. rewrite (jget_some (JObject ofb) "type" (JString ty)) by done.
    cbn [bind get_string]. apply post_Ok. destruct (unwanted ty) eqn:E; [done|].
    apply Forall_snoc; [done|]. by exists ty. }
  cbn [bind jset]. eexists. split; [reflexivity|]. intros t Ht. unfold has_feedback. cbn [jfind]. jsimp.
  cbn [elements]. unfold I in Hkept. clear Hf Hw. induction Hkept as [|fb l (ty & E & Hu) Hl IH]; [done|]. cbn [existsb].
  rewrite E, IH. cbn [opt_is json_eqb]. destruct (String.eqb_spec ty t) as [->|]; [congruence|done].
Qed.

Lemma for_each_ok {A B} (f : A -> res B) (P : A -> Prop) (Q : B -> Prop) l :
  Forall P l -> (forall x, P x -> exists y, f x = Ok y /\ Q y) ->
  exists l', for_each f l = Ok l' /\ Forall Q l'.
Proof.
  intros Hl Hf. induction Hl as [|x l Hx Hl (l' & E & Hl')]; cbn [for_each]; [by exists []|].
  destruct (Hf x Hx) as (y & -> & Hy). rewrite E. exists (y :: l'). split; [done|by constructor].
Qed.

Lemma sending_codecs_ok key ext :
  extended_codec ext -> key = "localParameters" \/ key = "remoteParameters" ->
  exists l, sending_codecs key ext = Ok l /\ Forall feedback_codec l.
Proof.
  intros (o & s & kind & rest & lp & rp & fbs & rate & lpt & rpt & lrtx & rrtx & -> & V) Hkey.
  destruct V. unfold sending_codecs.
  assert (Hp : exists p, jat (JObject o) key = Ok p).
  { destruct Hkey as [-> | ->]; eexists; by apply jat_some. }
  destruct Hp as [p Hp].
  rewrite (jat_some (JObject o) "mimeType" (JString s)), (jat_some (JObject o) "kind" (JString kind)),
    (jat_some (JObject o) "localPayloadType" lpt), (jat_some (JObject o) "clockRate" rate), Hp,
    (jat_some (JObject o) "rtcpFeedback" (JArray fbs)) by done. cbn [bind]. unfold JObj at 1.
  destruct (copy_channels_get o (obj_of [("mimeType", JString s); ("payloadType", lpt); ("clockRate", rate);
    ("parameters", p); ("rtcpFeedback", JArray fbs)])) as (c & -> & Hk). cbn [bind].
  assert (Hc : feedback_codec (JObject c)).
  { exists c, fbs. split; [done|]. split; [|done]. by rewrite Hk. }
  rewrite (jat_some (JObject o) "localRtxPayloadType" lrtx) by done. cbn [bind].
  destruct (is_null lrtx); [eexists; split; [reflexivity|by repeat constructor]|].
  cbn [get_string bind]. destruct (get_uint8_int lpt) as [z ->]; [done|]. cbn [bind].
  eexists. split; [reflexivity|]. constructor; [done|]. constructor; [|constructor].
  eexists _, []. split; [reflexivity|]. by split.
Qed.

Lemma has_kind_ok kind c : extended_codec c -> exists b, has_kind kind c = Ok b.
Proof.
  intros (o & s & k & rest & lp & rp & fbs & rate & lpt & rpt & lrtx & rrtx & -> & V). unfold has_kind.
  rewrite (jat_some (JObject o) "kind" (JString k)) by apply V. by eexists.
Qed.

Lemma sending_extension_ok kind exts ext :
  Forall (fun j => exists u, jfind j "uri" = Some (JString u)) exts -> extended_extension ext = true ->
  post (sending_extension kind exts ext) (Forall (fun j => exists u, jfind j "uri" = Some (JString u))) no_exn.
Proof.
  intros Hx He. unfold sending_extension, has_kind, extended_extension in *.
  destruct ext as [| | | | | | |o]; try done. cbn [is_object jfind andb] in He. bool_hyps.
  field "kind" of o as k Ek Hk. field "uri" of o as u Eu Hu. field "sendId" of o as r Er Hr.
  field "encrypt" of o as e Ee Hen. field "direction" of o as d Ed Hd.
  rewrite (jat_some (JObject o) "kind" k) by done. destruct k as [| | | | |k| |]; try done.
  cbn [bind get_string]. destruct (negb (String.eqb kind k)); [by apply post_Ok|].
  rewrite (jat_some (JObject o) "direction" d) by done. destruct d as [| | | | |d| |]; try done.
  cbn [bind get_string]. destruct (negb _ && negb _); [by apply post_Ok|].
  rewrite (jat_some (JObject o) "uri" u), (jat_some (JObject o) "sendId" r), (jat_some (JObject o) "encrypt" e) by done.
  cbn [bind]. apply post_Ok, Forall_snoc; [done|]. destruct u as [| | | | |u| |]; try done. by exists u.
Qed.

Definition codecs_of (params : json) : list json := elements (jfind params "codecs").

(** What is sent to the router uses one congestion control: for extended
    capabilities the parameters are always produced, and their codecs either all
    lack [goog-remb] feedback or all lack [transport-cc]. *)
Theorem one_congestion_control kind ext :
  extended_capabilities ext ->
  exists params, getSendingRemoteRtpParameters kind ext = Ok params /\
    (Forall (fun c => has_feedback "goog-remb" c = false) (codecs_of params) \/
     Forall (fun c => has_feedback "transport-cc" c = false) (codecs_of params)).
Proof.
  intros (codecs & exts & -> & Hc & He). unfold getSendingRemoteRtpParameters.
  rewrite (jat_some (JObj _) "codecs" (JArray codecs)), (jat_some (JObj _) "headerExtensions" (JArray exts))
    by reflexivity. cbn [bind jiter].
  assert (Hloop : exists l, sending_codec_loop "remoteParameters" kind codecs = Ok l /\ Forall feedback_codec l).
  { unfold sending_codec_loop. destruct (find_if_ok (has_kind kind) extended_codec codecs) as (r & -> & Hr);
      [done|by intros; apply has_kind_ok|]. cbn [bind].
    destruct r as [c|]; [|by exists []]. apply sending_codecs_ok; [apply Hr|by right]. }
  destruct Hloop as (l & -> & Hl). cbn [bind].
  destruct (post_total (for_fold (sending_extension kind) [] exts)
              (Forall (fun j => exists u, jfind j "uri" = Some (JString u)))) as (es & -> & Hes).
  { eapply for_fold_post; [exact He|intros; by apply sending_extension_ok|constructor]. }
  assert (Huri : forall uri, exists r, find_if (has_uri uri) es = Ok r).
  { intros uri. destruct (find_if_ok (has_uri uri) (fun j => exists u, jfind j "uri" = Some (JString u)) es)
      as (r & Er & _); [done| |by exists r].
    intros x (u & Hu). unfold has_uri. rewrite (jget_some _ _ _ Hu). by eexists. }
  assert (Herase : forall w, exists l', for_each (erase_feedback w) l = Ok l' /\
            Forall (fun c => forall t, w t = true -> has_feedback t c = false) l').
  { intros w. apply (for_each_ok _ feedback_codec); [done|]. intros; by apply erase_feedback_ok. }
  cbn [bind]. destruct (Huri TRANSPORT_CC_URI) as [r ->]. cbn [bind]. destruct r as [e|].
  - destruct (Herase (String.eqb "goog-remb")) as (l' & -> & Hl'). eexists. split; [reflexivity|]. left.
    eapply Forall_impl; [exact Hl'|]. intros c H. by apply H.
  - destruct (Huri ABS_SEND_TIME_URI) as [r ->]. cbn [bind]. destruct r as [e|].
    + destruct (Herase (String.eqb "transport-cc")) as (l' & -> & Hl'). eexists. split; [reflexivity|]. right.
      eapply Forall_impl; [exact Hl'|]. intros c H. by apply H.
    + destruct (Herase (fun type => String.eqb "transport-cc" type || String.eqb "goog-remb" type))
        as (l' & -> & Hl'). eexists. split; [reflexivity|]. left.
      eapply Forall_impl; [exact Hl'|]. intros c H. by apply H.
Qed.

Definition sample_extended : json :=
  Eval vm_compute in (result_of (getExtendedRtpCapabilities Sample.caps Sample.caps) (JNull, JNull, JNull)).1.1.

Lemma sample_extended_ok : extended_capabilities sample_extended.
Proof.
  destruct (getExtendedRtpCapabilities_ok Sample.caps Sample.caps
    (result_of (validateRtpCapabilities Sample.caps) JNull)
    (result_of (validateRtpCapabilities Sample.caps) JNull)) as (ext & l' & r' & E & H);
    [vm_compute; reflexivity..|].
  vm_compute in E. by injection E as <- _ _.
Qed.

Lemma one_congestion_control_witness :
  exists params, getSendingRemoteRtpParameters "video" sample_extended = Ok params /\
    (Forall (fun c => has_feedback "goog-remb" c = false) (codecs_of params) \/
     Forall (fun c => has_feedback "transport-cc" c = false) (codecs_of params)).
Proof. apply (one_congestion_control "video" sample_extended). exact sample_extended_ok. Defined.

Lemma find_if_iff {A} (p : A -> res bool) (q : A -> bool) l :
  Forall (fun x => p x = Ok (q x)) l ->
  exists r, find_if p l = Ok r /\ (match r with Some _ => true | None => false end) = existsb q l.
Proof.
  induction 1 as [|x l Hx Hl (r & E & Hr)]; cbn [find_if existsb]; [by exists None|].
  rewrite Hx. cbn [bind]. destruct (q x); [by exists (Some x)|]. exists r. by split.
Qed.

Definition kind_is (kind : string) (c : json) : bool :=
  match jfind c "kind" with Some (JString k) => String.eqb kind k | _ => false end.

(** [canSend] answers, for extended capabilities, whether some extended codec
    has the kind; and when it says no there is no codec in the sending
    parameters, when it says yes there is one. *)
Lemma canSend_spec kind ext codecs exts :
  ext = JObj [("codecs", JArray codecs); ("headerExtensions", JArray exts)] ->
  extended_capabilities ext ->
  canSend kind ext = Ok (existsb (kind_is kind) codecs) /\
  exists params, getSendingRtpParameters kind ext = Ok params /\
    (codecs_of params = [] <-> existsb (kind_is kind) codecs = false).
Proof.
  intros -> (codecs' & exts' & Heq & Hc & He).
  assert (codecs' = codecs /\ exts' = exts) as [-> ->] by (by injection Heq as -> ->).
  assert (Hp : Forall (fun c => has_kind kind c = Ok (kind_is kind c)) codecs).
  { eapply Forall_impl; [exact Hc|].
    intros c (o & s & k & rest & lp & rp & fbs & rate & lpt & rpt & lrtx & rrtx & -> & V).
    unfold has_kind, kind_is. cbn [jfind]. rewrite (jat_some (JObject o) "kind" (JString k)) by apply V.
    by rewrite (ev_kind _ _ _ _ _ _ _ _ _ _ _ _ V). }
  destruct (find_if_iff _ _ _ Hp) as (r & Er & Hr).
  unfold canSend, getSendingRtpParameters, sending_codec_loop.
  rewrite (jat_some (JObj _) "codecs" (JArray codecs)), (jat_some (JObj _) "headerExtensions" (JArray exts))
    by reflexivity. cbn [bind jiter]. rewrite Er. cbn [bind]. rewrite Hr. split; [done|].
  destruct (post_total (for_fold (sending_extension kind) [] exts)
              (Forall (fun j => exists u, jfind j "uri" = Some (JString u)))) as (es & -> & _).
  { eapply for_fold_post; [exact He|intros; by apply sending_extension_ok|constructor]. }
  rewrite <- Hr. destruct r as [c|]; [|by eexists].
  destruct (find_if_ok (has_kind kind) extended_codec codecs) as (r' & Er' & Hc'); [done|by intros; apply has_kind_ok|].
  rewrite Er in Er'. injection Er' as <-. destruct Hc' as (Hce & _ & _).
  destruct Hce as (o & s & k & rest & lp & rp & fbs & rate & lpt & rpt & lrtx & rrtx & -> & V).
  destruct (sending_codecs_ok "localParameters" (JObject o)) as (l & El & _); [by do 12 eexists|by left|].
  rewrite El. cbn [bind]. eexists. split; [reflexivity|]. change (codecs_of _) with l.
  split; [|done]. intros ->. exfalso. revert El. unfold sending_codecs.
  repeat match goal with
  | |- bind ?m _ = _ -> _ => destruct m; cbn [bind]; try done
  | |- (if ?b then _ else _) = _ -> _ => destruct b; try done
  end.
Qed.

(** ** [reduceCodecs] *)

(** A codec that does not match leaves itself and the capability alone. *)
Definition mismatches (cap c : json) : Prop := matchCodecs c cap false false = Ok (false, c, cap).

Lemma reduce_loop_skip cap l rest fuel i :
  Forall (mismatches cap) rest -> (i + length rest <= length l)%nat ->
  take (length rest) (drop i l) = rest ->
  reduce_loop (length rest + fuel) (JArray l) cap i = reduce_loop fuel (JArray l) cap (i + length rest).
Proof.
  intros Hr. revert i. induction Hr as [|c rest Hc Hr IH]; intros i Hlen Htake; cbn [length] in *.
  { by rewrite Nat.add_0_r. }
  assert (Hi : l !! i = Some c).
  { rewrite <- (Nat.add_0_r i), <- lookup_drop. destruct (drop i l); [done|]. by injection Htake as ->. }
  cbn [Nat.add reduce_loop]. unfold jsize at 1. cbn [jiter].
  rewrite (proj2 (Nat.ltb_lt i (length l))) by lia. cbn [negb jidx_ref]. rewrite Hi. cbn [bind].
  rewrite Hc. cbn [bind]. unfold jidx_set. cbn [jidx_ref]. rewrite Hi. cbn [bind].
  rewrite list_insert_id by done. rewrite IH; [f_equal; lia|lia|].
  rewrite (drop_S l c i Hi) in Htake. cbn [take] in Htake. by injection Htake.
Qed.

Lemma reduce_loop_match cap l i c fuel :
  l !! i = Some c -> matchCodecs c cap false false = Ok (true, c, cap) ->
  reduce_loop (S fuel) (JArray l) cap i =
  let* (codecs, next) := jidx_ref (JArray l) (S i) in
  let* rtx := isRtxCodec next in
  Ok (codecs, if rtx then [c; next] else [c]).
Proof.
  intros Hi Hc. cbn [reduce_loop]. unfold jsize. cbn [jiter].
  rewrite (proj2 (Nat.ltb_lt i (length l))) by (by eapply lookup_lt_Some). cbn [negb jidx_ref].
  rewrite Hi. cbn [bind]. rewrite Hc. cbn [bind]. unfold jidx_set. cbn [jidx_ref]. rewrite Hi. cbn [bind].
  rewrite list_insert_id by done. cbn [jidx_ref]. rewrite Hi. reflexivity.
Qed.

Lemma reduceCodecs_at pre c rest cap :
  Forall (mismatches (JObject cap)) pre -> matchCodecs c (JObject cap) false false = Ok (true, c, JObject cap) ->
  reduceCodecs (JArray (pre ++ c :: rest)) (Some (JObject cap)) =
  let* (codecs, filtered) :=
    (let* (codecs, next) := jidx_ref (JArray (pre ++ c :: rest)) (S (length pre)) in
     let* rtx := isRtxCodec next in
     Ok (codecs, if rtx then [c; next] else [c])) in
  Ok (JArray filtered, codecs).
Proof.
  intros Hpre Hc. unfold reduceCodecs. unfold jsize at 1. cbn [jiter].
  set (l := pre ++ c :: rest).
  replace (S (length l)) with (length pre + S (S (length rest)))%nat
    by (unfold l; rewrite length_app; simpl; lia).
  rewrite reduce_loop_skip; [|done|unfold l; rewrite length_app; simpl; lia|by unfold l; rewrite drop_0, take_app_length].
  rewrite (reduce_loop_match _ _ _ c) by (done || by unfold l; rewrite Nat.add_0_l, list_lookup_middle).
  cbn [Nat.add]. destruct (jidx_ref (JArray l) (S (length pre))) as [[codecs next]|e|u|d]; try done. cbn [bind].
  destruct (isRtxCodec next) as [[]|e|u|d]; done.
Qed.

(** [reduceCodecs] with a capability codec returns the first matching codec,
    followed by the codec after it when that is an RTX codec. *)
Theorem reduceCodecs_first_match pre c next rest cap rtx :
  Forall (mismatches (JObject cap)) pre ->
  matchCodecs c (JObject cap) false false = Ok (true, c, JObject cap) -> isRtxCodec next = Ok rtx ->
  reduceCodecs (JArray (pre ++ c :: next :: rest)) (Some (JObject cap)) =
  Ok (JArray (if rtx then [c; next] else [c]), JArray (pre ++ c :: next :: rest)).
Proof.
  intros Hpre Hc Hn. rewrite reduceCodecs_at by done. cbn [jidx_ref].
  assert (Hl : (pre ++ c :: next :: rest) !! S (length pre) = Some next).
  { rewrite lookup_app_r by lia. by replace (S (length pre) - length pre)%nat with 1%nat by lia. }
  rewrite Hl. cbn [bind]. rewrite Hn. by destruct rtx.
Qed.

Lemma reduceCodecs_first_match_witness :
  let c := valid_codec Sample.vp8 in let x := valid_codec Sample.rtx in
  exists cap, c = JObject cap /\
  reduceCodecs (JArray [valid_codec Sample.opus; c; x]) (Some (JObject cap)) =
  Ok (JArray [c; x], JArray [valid_codec Sample.opus; c; x]).
Proof.
  intros c x. eexists. split; [vm_compute; reflexivity|].
  refine (reduceCodecs_first_match [valid_codec Sample.opus] c x [] _ true _ _ _).
  - constructor; [vm_compute; reflexivity|constructor].
  - vm_compute; reflexivity.
  - vm_compute; reflexivity.
Defined.

(** When the matching codec is the last one, [reduceCodecs] throws a JSON
    type error instead of returning it: reading [codecs[idx + 1]] appends a null
    codec, and that is then asked for its MIME type. *)
Theorem reduceCodecs_last_codec_throws pre c cap :
  Forall (mismatches (JObject cap)) pre ->
  matchCodecs c (JObject cap) false false = Ok (true, c, JObject cap) ->
  reduceCodecs (JArray (pre ++ [c])) (Some (JObject cap)) = Throw (JsonTypeError 305).
Proof.
  intros Hpre Hc. rewrite reduceCodecs_at by done. cbn [jidx_ref].
  rewrite lookup_ge_None_2 by (rewrite length_app; simpl; lia). reflexivity.
Qed.

Lemma reduceCodecs_last_codec_throws_witness :
  let c := valid_codec Sample.vp8 in
  exists cap, c = JObject cap /\
  reduceCodecs (JArray [valid_codec Sample.opus; c]) (Some (JObject cap)) = Throw (JsonTypeError 305).
Proof.
  intros c. eexists. split; [vm_compute; reflexivity|].
  refine (reduceCodecs_last_codec_throws [valid_codec Sample.opus] c _ _ _).
  - constructor; [vm_compute; reflexivity|constructor].
  - vm_compute; reflexivity.
Defined.

(** A header extension whose direction is none of the four words passes
    validation, is left without a direction in the extended capabilities, and
    makes [getRecvRtpCapabilities] undefined. *)
Theorem unknown_direction_undefined :
  let caps := JObj [("headerExtensions", JArray
    [JObj [("kind", JString "video"); ("uri", JString "u"); ("preferredId", JInt 1);
           ("direction", JString "both")]])] in
  exists ext l r, getExtendedRtpCapabilities caps caps = Ok (ext, l, r) /\
                  getRecvRtpCapabilities ext = Undef (UbMissingKey "direction").
Proof. intros caps. do 3 eexists. split; vm_compute; reflexivity. Qed.
