(* ===== verification/Regex.v ===== *)
(** Regular expressions of [<regex>] with the ECMAScript grammar, as far as the
    sources use it: a reader for the pattern syntax, the backtracking matcher
    (leftmost match, alternatives in order, greedy quantifiers), a declarative
    semantics, and the proof that the matcher is sound and complete for it. *)

From Stdlib Require Import ZArith Lia Ascii.
From S2P Require Import Prelude.

(** ** Syntax *)

(** The members of a character class: a range, or an escape such as [\d]. *)
Inductive item : Type :=
| Range (lo hi : ascii)
| Digit | Word | Space | NotSpace.

Inductive re : Type :=
| Emp
| Chars (negated : bool) (items : list item)
| Cat (a b : re)
| Or (a b : re)
| Many (a : re)
| Cap (group : nat) (a : re)
| Begin
| End_.

Definition in_range_ascii (lo hi c : ascii) : bool :=
  (N_of_ascii lo <=? N_of_ascii c)%N && (N_of_ascii c <=? N_of_ascii hi)%N.

Definition is_digit (c : ascii) : bool := in_range_ascii "0" "9" c.
Definition is_word (c : ascii) : bool :=
  in_range_ascii "a" "z" c || in_range_ascii "A" "Z" c || is_digit c || Ascii.eqb c "_".
(** [std::isspace] in the C locale. *)
Definition is_space (c : ascii) : bool :=
  in_range_ascii "009" "013" c || Ascii.eqb c " ".

Definition in_item (c : ascii) (i : item) : bool :=
  match i with
  | Range lo hi => in_range_ascii lo hi c
  | Digit => is_digit c
  | Word => is_word c
  | Space => is_space c
  | NotSpace => negb (is_space c)
  end.

Definition in_class (negated : bool) (items : list item) (c : ascii) : bool :=
  xorb negated (existsb (in_item c) items).

Definition single (c : ascii) : re := Chars false [Range c c].
(** [.]: anything but a line terminator. *)
Definition any : re := Chars true [Range "010" "010"; Range "013" "013"].
Definition opt (a : re) : re := Or a Emp.
Definition some (a : re) : re := Cat a (Many a).

(** ** Reading a pattern *)

Definition escape (c : ascii) : item :=
  if Ascii.eqb c "d" then Digit
  else if Ascii.eqb c "w" then Word
  else if Ascii.eqb c "s" then Space
  else if Ascii.eqb c "S" then NotSpace
  else if Ascii.eqb c "t" then Range "009" "009"
  else Range c c.

(** The rest of a class after its opening bracket. *)
Fixpoint read_class (fuel : nat) (s : string) (acc : list item) : option (list item * string) :=
  match fuel, s with
  | S fuel, String "]" s => Some (rev acc, s)
  | S fuel, String "\" (String c s) => read_class fuel s (escape c :: acc)
  | S fuel, String a (String "-" (String b s)) =>
      if Ascii.eqb b "]" then read_class fuel (String b s) (Range "-" "-" :: Range a a :: acc)
      else read_class fuel s (Range a b :: acc)
  | S fuel, String a s => read_class fuel s (Range a a :: acc)
  | _, _ => None
  end.

(** A quantifier after an atom. *)
Definition read_quantifier (a : re) (s : string) : re * string :=
  match s with
  | String "*" s => (Many a, s)
  | String "+" s => (some a, s)
  | String "?" s => (opt a, s)
  | String "{" (String "0" (String "," (String "1" (String "}" s)))) => (opt a, s)
  | _ => (a, s)
  end.

(** An alternative, up to a closing parenthesis or the end; [n] is the number
    of the next group and [acc] what was read of the current branch. *)
Fixpoint read_re (fuel : nat) (n : nat) (acc : re) (s : string) : option (re * nat * string) :=
  match fuel with
  | O => None
  | S fuel =>
      let continue a n s := let '(a, s) := read_quantifier a s in read_re fuel n (Cat acc a) s in
      let group cap n s :=
        match read_re fuel n Emp s with
        | Some (a, n, String ")" s) => continue (cap a) n s
        | _ => None
        end in
      match s with
      | EmptyString => Some (acc, n, s)
      | String ")" _ => Some (acc, n, s)
      | String "|" s =>
          match read_re fuel n Emp s with
          | Some (b, n, s) => Some (Or acc b, n, s)
          | None => None
          end
      | String "(" (String "?" (String ":" s)) => group id n s
      | String "(" s => group (Cap n) (S n) s
      | String "[" (String "^" s) =>
          match read_class fuel s [] with
          | Some (items, s) => continue (Chars true items) n s
          | None => None
          end
      | String "[" s =>
          match read_class fuel s [] with
          | Some (items, s) => continue (Chars false items) n s
          | None => None
          end
      | String "\" (String c s) => continue (Chars false [escape c]) n s
      | String "^" s => continue Begin n s
      | String "$" s => continue End_ n s
      | String "." s => continue any n s
      | String c s => continue (single c) n s
      end
  end.

(** [std::regex(pattern)]; the patterns of the sources are all well formed, so
    nothing depends on what an ill-formed one stands for. *)
Definition regex (pattern : string) : re :=
  match read_re (S (String.length pattern)) 1 Emp pattern with
  | Some (a, _, EmptyString) => a
  | _ => Emp
  end.

Definition well_formed (pattern : string) : bool :=
  match read_re (S (String.length pattern)) 1 Emp pattern with
  | Some (_, _, EmptyString) => true
  | _ => false
  end.

(** The number of groups. *)
Fixpoint groups (r : re) : nat :=
  match r with
  | Cat a b | Or a b => Nat.max (groups a) (groups b)
  | Many a => groups a
  | Cap n a => Nat.max n (groups a)
  | _ => O
  end.

(** ** Matching *)

(** What the groups captured, the latest first. *)
Abbreviation captures := (list (nat * string)).

Fixpoint group (c : captures) (n : nat) : string :=
  match c with
  | [] => EmptyString
  | (m, s) :: c => if Nat.eqb n m then s else group c n
  end.

(** The text between two positions given by what follows them. *)
Definition between (s s' : string) : string :=
  String.substring 0 (String.length s - String.length s') s.

(** The loop of a greedy [*] around [body].  An iteration must consume
    something, so as many iterations as there are characters are enough. *)
Fixpoint many {A : Type} (body : string -> captures -> (string -> captures -> option A) -> option A)
    (k : string -> captures -> option A) (fuel : nat) (s : string) (c : captures) : option A :=
  match fuel with
  | O => k s c
  | S fuel =>
      match body s c (fun s' c' =>
              if Nat.eqb (String.length s') (String.length s) then None
              else many body k fuel s' c') with
      | Some x => Some x
      | None => k s c
      end
  end.

(** [matcher total r s c k] matches [r] at the front of [s] and goes on with
    [k]; [total] is the length of the whole subject, which tells its
    beginning. *)
Fixpoint matcher {A : Type} (total : nat) (r : re) (s : string) (c : captures)
    (k : string -> captures -> option A) {struct r} : option A :=
  match r with
  | Emp => k s c
  | Chars negated items =>
      match s with
      | String a s' => if in_class negated items a then k s' c else None
      | EmptyString => None
      end
  | Cat a b => matcher total a s c (fun s' c' => matcher total b s' c' k)
  | Or a b =>
      match matcher total a s c k with
      | Some x => Some x
      | None => matcher total b s c k
      end
  | Many a => many (fun s c k => matcher total a s c k) k (String.length s) s c
  | Cap n a => matcher total a s c (fun s' c' => k s' ((n, between s s') :: c'))
  | Begin => if Nat.eqb (String.length s) total then k s c else None
  | End_ => match s with EmptyString => k s c | _ => None end
  end.

Fixpoint search_from (total : nat) (r : re) (s : string) : option captures :=
  match matcher total r s [] (fun _ c => Some c) with
  | Some c => Some c
  | None => match s with EmptyString => None | String _ s' => search_from total r s' end
  end.

(** [std::regex_search] *)
Definition regex_search (r : re) (s : string) : option captures :=
  search_from (String.length s) r s.

(** [std::regex_match] *)
Definition regex_match (r : re) (s : string) : option captures :=
  matcher (String.length s) r s []
    (fun s' c => match s' with EmptyString => Some c | _ => None end).

Create HintDb regex_db.

(** ** Declarative semantics

    [matches total r s c s' c']: [r] matches a prefix of [s] that leaves [s'],
    with the captures [c'] on top of [c]. *)
Inductive matches (total : nat) : re -> string -> captures -> string -> captures -> Prop :=
| matches_Emp s c : matches total Emp s c s c
| matches_Chars negated items a s c :
    in_class negated items a = true -> matches total (Chars negated items) (String a s) c s c
| matches_Cat a b s c s1 c1 s2 c2 :
    matches total a s c s1 c1 -> matches total b s1 c1 s2 c2 -> matches total (Cat a b) s c s2 c2
| matches_Or_l a b s c s' c' : matches total a s c s' c' -> matches total (Or a b) s c s' c'
| matches_Or_r a b s c s' c' : matches total b s c s' c' -> matches total (Or a b) s c s' c'
| matches_Many_nil a s c : matches total (Many a) s c s c
| matches_Many_step a s c s1 c1 s2 c2 :
    matches total a s c s1 c1 -> String.length s1 <> String.length s ->
    matches total (Many a) s1 c1 s2 c2 -> matches total (Many a) s c s2 c2
| matches_Cap n a s c s' c' :
    matches total a s c s' c' -> matches total (Cap n a) s c s' ((n, between s s') :: c')
| matches_Begin s c : String.length s = total -> matches total Begin s c s c
| matches_End c : matches total End_ EmptyString c EmptyString c.

#[export] Hint Constructors matches : regex_db.

Section Semantics.
Context (total : nat).

Lemma matches_length r s c s' c' :
  matches total r s c s' c' -> (String.length s' <= String.length s)%nat.
Proof. induction 1; simpl; lia. Qed.

(** What the matcher finds is a match. *)
Lemma matcher_sound {A} r s c (k : string -> captures -> option A) x :
  matcher total r s c k = Some x -> exists s' c', matches total r s c s' c' /\ k s' c' = Some x.
Proof.
  revert s c k x. induction r as [|neg items|a IHa b IHb|a IHa b IHb|a IHa|n a IHa| |]; intros s c k x; simpl.
  - eauto with regex_db.
  - destruct s as [|ch s]; [done|]. destruct (in_class neg items ch) eqn:E; [|done]. eauto with regex_db.
  - intros (s1 & c1 & H1 & (s2 & c2 & H2 & Hk)%IHb)%IHa. eauto with regex_db.
  - destruct (matcher total a s c k) eqn:E.
    + intros [= ->]. apply IHa in E as (s1 & c1 & ? & ?). eauto with regex_db.
    + intros (s1 & c1 & ? & ?)%IHb. eauto with regex_db.
  - generalize (String.length s) as fuel. intros fuel. revert s c.
    induction fuel as [|fuel IH]; intros s c; simpl; [eauto with regex_db|].
    destruct (matcher total a s c _) eqn:E; [|eauto with regex_db].
    intros [= ->]. apply IHa in E as (s1 & c1 & H1 & Hk).
    destruct (Nat.eqb_spec (String.length s1) (String.length s)) as [|Hne]; [done|].
    apply IH in Hk as (s2 & c2 & H2 & Hk). eauto with regex_db.
  - intros (s1 & c1 & H1 & Hk)%IHa. eauto with regex_db.
  - destruct (Nat.eqb_spec (String.length s) total); [|done]. eauto with regex_db.
  - destruct s; [|done]. eauto with regex_db.
Qed.

(** The loop explores every number of iterations. *)
Lemma many_complete {A} a (k : string -> captures -> option A) s c s' c' :
  (forall s c (k : string -> captures -> option A) s' c',
     matches total a s c s' c' -> is_Some (k s' c') -> is_Some (matcher total a s c k)) ->
  matches total (Many a) s c s' c' -> is_Some (k s' c') ->
  forall fuel, (String.length s <= fuel)%nat ->
    is_Some (many (fun s c k => matcher total a s c k) k fuel s c).
Proof.
  intros IHa H Hk. remember (Many a) as r eqn:Er. revert Er Hk.
  induction H as [| | | | |a' s c|a' s c s1 c1 s2 c2 H1 _ Hne _ IH| | |]; intros [= ->] Hk fuel Hf.
  - destruct fuel as [|fuel]; simpl; [done|]. by destruct (matcher total a s c _).
  - pose proof (matches_length _ _ _ _ _ H1). destruct fuel as [|fuel]; [lia|]. simpl.
    edestruct (IHa s c (fun s' c' => if Nat.eqb (String.length s') (String.length s) then None
                                     else many (fun s c k => matcher total a s c k) k fuel s' c'))
      as [x ->]; [exact H1| |by eexists].
    rewrite (proj2 (Nat.eqb_neq _ _) Hne). apply IH; [done..|lia].
Qed.

(** If there is a match the rest accepts, the matcher finds one. *)
Lemma matcher_complete {A} r s c (k : string -> captures -> option A) s' c' :
  matches total r s c s' c' -> is_Some (k s' c') -> is_Some (matcher total r s c k).
Proof.
  revert s c k s' c'. induction r as [|neg items|a IHa b IHb|a IHa b IHb|a IHa|n a IHa| |];
    intros s c k s' c' H Hk; simpl.
  - by inversion H; subst.
  - inversion H as [|? ? ? ? ? Hin| | | | | | | |]; subst. by rewrite Hin.
  - inversion H; subst. by eapply IHa, IHb.
  - destruct (matcher total a s c k) eqn:E; [by eexists|]. inversion H; subst; [|by eapply IHb].
    match goal with H : matches total a _ _ _ _ |- _ => destruct (IHa _ _ k _ _ H Hk); congruence end.
  - eapply many_complete; eauto.
  - inversion H; subst. by eapply IHa.
  - inversion H; subst. by rewrite Nat.eqb_refl.
  - by inversion H; subst.
Qed.
End Semantics.

(** [regex_match] succeeds exactly on the strings the expression matches whole. *)
Lemma regex_match_iff r s :
  is_Some (regex_match r s) <-> exists c, matches (String.length s) r s [] EmptyString c.
Proof.
  unfold regex_match. split.
  - intros [x H]. apply matcher_sound in H as (s' & c & H & Hk). destruct s'; [|done]. by exists c.
  - intros [c H]. by eapply matcher_complete.
Qed.

Lemma search_from_iff total r s :
  is_Some (search_from total r s) <->
  exists pre s0 s1 c, s = pre +:+ s0 /\ matches total r s0 [] s1 c.
Proof.
  induction s as [|a s IH]; simpl.
  - destruct (matcher total r "" [] _) eqn:E.
    + apply matcher_sound in E as (s1 & c1 & H & _). split; [intros _; by exists "", "", s1, c1|by eexists].
    + split; [by intros []|]. intros (pre & s0 & s1 & c & Hs & H).
      destruct pre; [change ("" = s0) in Hs; subst s0|done].
      destruct (matcher_complete total r "" [] (fun _ c => Some c) s1 c H) as [x Hx]; [by eexists|congruence].
  - destruct (matcher total r (String a s) [] _) eqn:E.
    + apply matcher_sound in E as (s1 & c1 & H & _).
      split; [intros _; by exists "", (String a s), s1, c1|by eexists].
    + rewrite IH. split; intros (pre & s0 & s1 & c & Hs & H).
      * exists (String a pre), s0, s1, c. by rewrite Hs.
      * destruct pre as [|b pre].
        { change (String a s = s0) in Hs. subst s0. destruct (matcher_complete total r (String a s) [] (fun _ c => Some c) s1 c H) as [x Hx];
            [by eexists|congruence]. }
        injection Hs as -> ->. by exists pre, s0, s1, c.
Qed.

(** [regex_search] succeeds exactly when some position has a match. *)
Lemma regex_search_iff r s :
  is_Some (regex_search r s) <->
  exists pre s0 s1 c, s = pre +:+ s0 /\ matches (String.length s) r s0 [] s1 c.
Proof. apply search_from_iff. Qed.
