(* ===== verification/Streams.v ===== *)
(** Text and numbers as the standard library reads and writes them: [getline],
    extraction from a string stream, [std::stoi] and its relatives, and the
    output of a JSON value to a stream (nlohmann's [dump]). *)

From Stdlib Require Import ZArith Lia SpecFloat Ascii.
From stdpp Require Import pretty.
From S2P Require Import Prelude Json Regex.

(** ** Lines *)

(** The pieces repeated calls of [std::getline(stream, piece, d)] deliver: a
    delimiter at the very end starts no further piece. *)
Fixpoint getlines (d : ascii) (s : string) : list string :=
  match s with
  | EmptyString => []
  | String a s' =>
      if Ascii.eqb a d then EmptyString :: getlines d s'
      else match getlines d s' with
           | [] => [String a EmptyString]
           | l :: ls => String a l :: ls
           end
  end.

Fixpoint skip_space (s : string) : string :=
  match s with
  | String a s' => if is_space a then skip_space s' else s
  | EmptyString => EmptyString
  end.

(** The string up to its last character that is not a space. *)
Fixpoint drop_trailing_space (s : string) : string :=
  match s with
  | EmptyString => EmptyString
  | String a s' =>
      match drop_trailing_space s' with
      | EmptyString => if is_space a then EmptyString else String a EmptyString
      | t => String a t
      end
  end.

(** ** Integers *)

Definition digit_value (a : ascii) : Z := Z.of_N (N_of_ascii a) - 48.

(** The digits at the front: their value on top of [acc], how many there are,
    and the rest. *)
Fixpoint read_digits (acc : Z) (n : nat) (s : string) : Z * nat * string :=
  match s with
  | String a s' =>
      if is_digit a then read_digits (10 * acc + digit_value a) (S n) s' else (acc, n, s)
  | EmptyString => (acc, n, s)
  end.

Lemma digit_value_range a : is_digit a = true -> 0 <= digit_value a < 10.
Proof.
  unfold is_digit, in_range_ascii, digit_value. intros [H1%N.leb_le H2%N.leb_le]%andb_true_iff.
  change (N_of_ascii "0") with 48%N in H1. change (N_of_ascii "9") with 57%N in H2. lia.
Qed.

Lemma read_digits_nonneg acc n s : 0 <= acc -> 0 <= (read_digits acc n s).1.1.
Proof.
  revert acc n. induction s as [|a s IH]; intros acc n Hacc; simpl; [done|].
  destruct (is_digit a) eqn:E; [|done]. apply IH. pose proof (digit_value_range a E). lia.
Qed.

Definition read_sign (s : string) : bool * string :=
  match s with
  | String "-" s' => (true, s')
  | String "+" s' => (false, s')
  | _ => (false, s)
  end.

(** [stream >> std::noskipws >> x] followed by [eof() && !fail()]: the whole
    string is an optional sign and digits, and the value fits. *)
Definition stream_int (lo hi : Z) (s : string) : option Z :=
  let '(negative, s) := read_sign s in
  let '(m, n, rest) := read_digits 0 0 s in
  let z := if negative then - m else m in
  if negb (Nat.eqb n 0) && str_empty rest && (lo <=? z) && (z <=? hi) then Some z else None.

(** The same for an unsigned type, which negates modulo [2 ^ 64]. *)
Definition stream_uint64 (s : string) : option Z :=
  let '(negative, s) := read_sign s in
  let '(m, n, rest) := read_digits 0 0 s in
  if negb (Nat.eqb n 0) && str_empty rest && (m <=? 2 ^ 64 - 1)
  then Some (if negative then u64 (- m) else m) else None.

Definition stream_int64 : string -> option Z := stream_int (- 2 ^ 63) (2 ^ 63 - 1).

(** [std::stoi]: leading space is skipped and what follows the digits is
    ignored. *)
Definition stoi (s : string) : res Z :=
  let '(negative, s) := read_sign (skip_space s) in
  let '(m, n, _) := read_digits 0 0 s in
  let z := if negative then - m else m in
  if Nat.eqb n 0 then Throw StdInvalidArgument
  else if (- 2 ^ 31 <=? z) && (z <=? 2 ^ 31 - 1) then Ok z else Throw StdOutOfRange.

(** [std::stoull] and, where [unsigned long] has 64 bits, [std::stoul]. *)
Definition stoull (s : string) : res Z :=
  let '(negative, s) := read_sign (skip_space s) in
  let '(m, n, _) := read_digits 0 0 s in
  if Nat.eqb n 0 then Throw StdInvalidArgument
  else if m <=? 2 ^ 64 - 1 then Ok (if negative then u64 (- m) else m) else Throw StdOutOfRange.

(** ** Floating-point numbers *)

(** The sign, the digits, and the decimal exponent of a literal that takes up
    the whole string. *)
Definition read_decimal (s : string) : option (bool * Z * Z) :=
  let '(negative, s) := read_sign s in
  let '(whole, n, s) := read_digits 0 0 s in
  let '(digits, k, n', s) :=
    match s with
    | String "." s => let '(d, k, s) := read_digits whole 0 s in (d, k, n + k, s)%nat
    | _ => (whole, O, n, s)
    end in
  let exponent :=
    match s with
    | EmptyString => Some 0
    | String e s =>
        if Ascii.eqb e "e" || Ascii.eqb e "E" then
          let '(neg, s) := read_sign s in
          let '(x, j, s) := read_digits 0 0 s in
          if negb (Nat.eqb j 0) && str_empty s then Some (if neg then - x else x) else None
        else None
    end in
  match exponent with
  | Some x => if Nat.eqb n' 0 then None else Some (negative, digits, x - Z.of_nat k)
  | None => None
  end.

(** [± d * 10 ^ x] rounded to nearest in a binary format.  A quotient is
    computed to more bits than the format has, its last bit telling whether
    anything was cut off, so that the rounding is that of the exact value.
    Beyond [10 ^ 400] and below [10 ^ -800] the result is the same for all. *)
Definition decimal_value (prec emax : Z) (negative : bool) (d x : Z) : spec_float :=
  let x := Z.min 400 (Z.max x (- 800 - Z.log2 (Z.max d 1))) in
  let signed m := if negative then - m else m in
  if 0 <=? x then binary_normalize prec emax (signed (d * 10 ^ x)) 0 negative
  else
    let den := 10 ^ (- x) in
    let shift := Z.log2 den + 1100 in
    let num := Z.shiftl d shift in
    let q := num / den in
    let sticky := if num `mod` den =? 0 then 0 else 1 in
    binary_normalize prec emax (signed (2 * q + sticky)) (- shift - 1) negative.

(** A result the C library reports as out of range: infinite, or smaller than
    every normal number. *)
Definition range_error (prec emax : Z) (d : Z) (f : spec_float) : bool :=
  match f with
  | S754_infinity _ | S754_nan => true
  | S754_zero _ => negb (d =? 0)
  | S754_finite _ m e => (Zpos m <? 2 ^ (prec - 1)) && (e =? 3 - emax - prec)
  end.

Definition stream_float (prec emax : Z) (s : string) : option spec_float :=
  match read_decimal s with
  | Some (negative, d, x) =>
      let f := decimal_value prec emax negative d x in
      if range_error prec emax d f then None else Some f
  | None => None
  end.

(** [stream >> float] and [stream >> double]; where the latter succeeds,
    [std::stod] returns the same value. *)
Definition stream_single : string -> option spec_float := stream_float 24 128.
Definition stream_double : string -> option spec_float := stream_float 53 1024.

(** ** Output of JSON values *)

(** How a double is printed: nlohmann's [dtoa], which is not modelled. *)
Class FloatText : Type := float_text : spec_float -> string.

Definition byte_in (lo hi : Z) (a : ascii) : bool :=
  let n := Z.of_N (N_of_ascii a) in (lo <=? n) && (n <=? hi).

(** Well-formed UTF-8. *)
Fixpoint utf8_ok (s : string) : bool :=
  match s with
  | EmptyString => true
  | String a s1 =>
      if byte_in 0 0x7F a then utf8_ok s1
      else match s1 with
      | EmptyString => false
      | String b s2 =>
          if byte_in 0xC2 0xDF a then byte_in 0x80 0xBF b && utf8_ok s2
          else match s2 with
          | EmptyString => false
          | String c s3 =>
              if byte_in 0xE0 0xEF a then
                byte_in (if byte_in 0xE0 0xE0 a then 0xA0 else 0x80)
                        (if byte_in 0xED 0xED a then 0x9F else 0xBF) b
                && byte_in 0x80 0xBF c && utf8_ok s3
              else match s3 with
              | EmptyString => false
              | String d s4 =>
                  byte_in 0xF0 0xF4 a &&
                  byte_in (if byte_in 0xF0 0xF0 a then 0x90 else 0x80)
                          (if byte_in 0xF4 0xF4 a then 0x8F else 0xBF) b
                  && byte_in 0x80 0xBF c && byte_in 0x80 0xBF d && utf8_ok s4
              end
          end
      end
  end.

Definition hex_digit (n : Z) : ascii :=
  ascii_of_N (Z.to_N (if n <? 10 then 48 + n else 87 + n)).

Definition escaped (a : ascii) : string :=
  let n := Z.of_N (N_of_ascii a) in
  let two c := String "\" (String c EmptyString) in
  if n =? 8 then two "b"%char else if n =? 9 then two "t"%char
  else if n =? 10 then two "n"%char else if n =? 12 then two "f"%char
  else if n =? 13 then two "r"%char
  else if (n =? 34) || (n =? 92) then two a
  else if n <=? 31 then
    "\u00" +:+ String (hex_digit (n / 16)) (String (hex_digit (n `mod` 16)) EmptyString)
  else String a EmptyString.

Fixpoint escape_all (s : string) : string :=
  match s with
  | EmptyString => EmptyString
  | String a s => escaped a +:+ escape_all s
  end.

Definition quote : string := String "034" EmptyString.

Definition dump_string (s : string) : res string :=
  if utf8_ok s then Ok (quote +:+ escape_all s +:+ quote) else Throw (JsonTypeError 316).

Section Dump.
Context `{FloatText}.

(** [stream << value] *)
Fixpoint dump (j : json) : res string :=
  match j with
  | JNull => Ok "null"
  | JBool b => Ok (if b then "true" else "false")
  | JInt z | JUint z => Ok (pretty z)
  | JFloat f => Ok (match f with S754_infinity _ | S754_nan => "null" | _ => float_text f end)
  | JString s => dump_string s
  | JArray l =>
      let* elements := (fix go l := match l with
        | [] => Ok []
        | v :: l => let* s := dump v in let* ss := go l in Ok (s :: ss)
        end) l in
      Ok ("[" +:+ String.concat "," elements +:+ "]")
  | JObject o =>
      let* members := (fix go o := match o with
        | [] => Ok []
        | (k, v) :: o =>
            let* key := dump_string k in
            let* s := dump v in
            let* ss := go o in Ok ((key +:+ ":" +:+ s) :: ss)
        end) o in
      Ok ("{" +:+ String.concat "," members +:+ "}")
  end.
End Dump.

Example stream_examples :
  (map stream_int64 ["12"; "-7"; "+3"; ""; "1x"; " 1"; "9223372036854775808"],
   map stoi ["96"; " 5 6"; "x"; "4294967296"],
   getlines ";" "a;;b;", drop_trailing_space (skip_space "  a b "))
  = ([Some 12; Some (-7); Some 3; None; None; None; None],
     [Ok 96; Ok 5; Throw StdInvalidArgument; Throw StdOutOfRange],
     ["a"; ""; "b"], "a b").
Proof. vm_compute. reflexivity. Qed.

(** 0.1, 29.97, 1e-5 and 1e22 as doubles, 1e39 and 1e-46 out of range of a
    float. *)
Example float_examples :
  (map stream_double ["0.1"; "29.97"; "1e-5"; "1e22"; "1."; "."; "1e"; "-2.5E+1"],
   map stream_single ["1e39"; "1e-46"; "0e99999999999"])
  = ([Some (S754_finite false 7205759403792794 (-56));
      Some (S754_finite false 8435805052018360 (-48));
      Some (S754_finite false 5902958103587057 (-69));
      Some (S754_finite false 4768371582031250 21);
      Some (S754_finite false 4503599627370496 (-52)); None; None;
      Some (S754_finite true 7036874417766400 (-48))],
     [None; None; Some (S754_zero false)]).
Proof. vm_compute. reflexivity. Qed.
