(* ===== verification/Decimal.v ===== *)
(** Decimal numbers: what [std::to_string] and the output of an integer print
    ([pretty]) is read back by [read_digits]. *)

From Stdlib Require Import ZArith Lia Ascii.
From stdpp Require Import pretty.
From S2P Require Import Prelude Regex Streams.

Fixpoint all_chars (p : ascii -> bool) (s : string) : bool :=
  match s with
  | EmptyString => true
  | String a s => p a && all_chars p s
  end.

Definition other_than (d : ascii) (a : ascii) : bool := negb (Ascii.eqb a d).

Lemma all_chars_impl (p q : ascii -> bool) s :
  (forall a, p a = true -> q a = true) -> all_chars p s = true -> all_chars q s = true.
Proof.
  intros Hpq. induction s as [|a s IH]; simpl; [done|]. rewrite !andb_true_iff.
  intros [Ha Hs]. auto.
Qed.

Lemma all_chars_app p a b : all_chars p (a +:+ b) = all_chars p a && all_chars p b.
Proof. induction a as [|c a IH]; [done|]. rewrite str_app_cons. simpl. by rewrite IH, andb_assoc. Qed.

(** A property of the decimal digits, by looking at each. *)
Lemma digit_forall (P : Z -> Prop) n : Forall P (seqZ 0 10) -> 0 <= n < 10 -> P n.
Proof. intros HP Hn. eapply Forall_forall; [exact HP|]. apply elem_of_seqZ. lia. Qed.

Lemma digit_char x : (x < 10)%N ->
  is_digit (pretty_N_char x) = true /\ digit_value (pretty_N_char x) = Z.of_N x.
Proof.
  intros Hx. assert (x = 0 \/ x = 1 \/ x = 2 \/ x = 3 \/ x = 4 \/ x = 5 \/ x = 6 \/ x = 7 \/ x = 8 \/ x = 9)%N
    as Hc by lia. by destruct_or! Hc; subst x.
Qed.

Lemma pretty_go_digits x s : all_chars is_digit s = true -> all_chars is_digit (pretty_N_go x s) = true.
Proof.
  revert s. induction (N.lt_wf_0 x) as [x _ IH]; intros s Hs.
  destruct (decide (x = 0)%N) as [->|Hx]; [by rewrite pretty_N_go_0|].
  rewrite pretty_N_go_step by lia. apply IH; [apply N.div_lt; lia|]. simpl.
  by rewrite (proj1 (digit_char (x `mod` 10)%N ltac:(by apply N.mod_lt))).
Qed.

(** Reading what was printed in front of [s]. *)
Lemma read_pretty_go x s :
  exists k, (x <> 0%N -> k <> O) /\
    forall acc n, read_digits acc n (pretty_N_go x s) = read_digits (acc * 10 ^ Z.of_nat k + Z.of_N x) (n + k) s.
Proof.
  revert s. induction (N.lt_wf_0 x) as [x _ IH]; intros s.
  destruct (decide (x = 0)%N) as [->|Hx].
  { exists O. split; [done|]. intros acc n. rewrite pretty_N_go_0. f_equal; lia. }
  assert (x `mod` 10 < 10)%N as Hm by (by apply N.mod_lt).
  destruct (digit_char _ Hm) as [Hd Hv].
  destruct (IH (x `div` 10)%N ltac:(apply N.div_lt; lia) (String (pretty_N_char (x `mod` 10)) s)) as (k & _ & Hk).
  exists (S k). split; [done|]. intros acc n. rewrite pretty_N_go_step by lia. rewrite Hk. cbn [read_digits].
  rewrite Hd, Hv. f_equal; [|lia]. rewrite Nat2Z.inj_succ, Z.pow_succ_r by lia.
  pose proof (N.div_mod x 10 ltac:(lia)). lia.
Qed.

Lemma pretty_pos z : 0 < z -> pretty z = pretty_N_go (Z.to_N z) "".
Proof. intros Hz. by destruct z as [|p|p]; try lia. Qed.

Lemma pretty_neg z : z < 0 -> pretty z = String "-" (pretty (- z)).
Proof. intros Hz. by destruct z as [|p|p]; try lia. Qed.

Lemma pretty_digits z : 0 <= z -> all_chars is_digit (pretty z) = true.
Proof.
  intros Hz. destruct (decide (z = 0)) as [->|Hne]; [reflexivity|].
  rewrite pretty_pos by lia. by apply pretty_go_digits.
Qed.

Lemma read_pretty z : 0 <= z -> exists n, n <> O /\ read_digits 0 0 (pretty z) = (z, n, "").
Proof.
  intros Hz. destruct (decide (z = 0)) as [->|Hne]; [by exists 1%nat|].
  rewrite pretty_pos by lia. destruct (read_pretty_go (Z.to_N z) "") as (k & Hk & E).
  exists k. split; [apply Hk; lia|]. rewrite E. simpl. do 2 f_equal. lia.
Qed.

(** The first digit of a positive number is not zero. *)
Lemma pretty_go_leading x s : x <> 0%N ->
  exists a s', pretty_N_go x s = String a s' /\ Ascii.eqb a "0" = false.
Proof.
  revert s. induction (N.lt_wf_0 x) as [x _ IH]; intros s Hx.
  rewrite pretty_N_go_step by lia. destruct (decide (x `div` 10 = 0)%N) as [E|E].
  - rewrite E, pretty_N_go_0. do 2 eexists. split; [done|].
    assert (x < 10)%N as Hlt.
    { destruct (decide (10 <= x)%N); [|lia]. pose proof (N.div_str_pos x 10). lia. }
    rewrite N.mod_small by done. assert (x = 1 \/ x = 2 \/ x = 3 \/ x = 4 \/ x = 5 \/ x = 6 \/ x = 7 \/ x = 8 \/ x = 9)%N
      as Hc by lia. by destruct_or! Hc; subst x.
  - apply IH; [apply N.div_lt; lia|done].
Qed.

Lemma pretty_leading z : 0 < z ->
  exists a s, pretty z = String a s /\ Ascii.eqb a "0" = false /\ is_digit a = true /\ all_chars is_digit s = true.
Proof.
  intros Hz. pose proof (pretty_digits z ltac:(lia)) as Hd. rewrite pretty_pos in * by done.
  destruct (pretty_go_leading (Z.to_N z) "") as (a & s & E & H0); [lia|].
  rewrite E in Hd. apply andb_true_iff in Hd as [Ha Hs]. eauto 10.
Qed.

(** Digits are read without a sign or space in front of them. *)
Lemma no_sign s : all_chars is_digit s = true -> skip_space s = s /\ read_sign s = (false, s).
Proof.
  destruct s as [|a s]; [done|]. simpl. intros [Ha _]%andb_true_iff.
  destruct a as [[] [] [] [] [] [] [] []]; try discriminate Ha; done.
Qed.
