(* ===== verification/VideoFormat.v ===== *)
(** What is left of h264_profile_level_id.cc and sdp_video_format_utils.cc: the
    H.264 level a device supports, and the limits of VP8 and VP9 in SDP
    parameters, read with [rtc::StringToNumber] (rtc_base/string_to_number.h). *)

From Stdlib Require Import ZArith Lia SpecFloat Ascii.
From stdpp Require Import gmap pretty.
From S2P Require Import Prelude Words H264 Regex Streams Decimal.

(** ** The supported level *)

Record LevelConstraint : Type := Constraint {
  max_macroblocks_per_second : Z;
  max_macroblock_frame_size : Z;
  constraint_level : H264Level
}.

Definition kLevelConstraints : list LevelConstraint :=
  [Constraint 1485 99 kLevel1; Constraint 1485 99 kLevel1_b; Constraint 3000 396 kLevel1_1;
   Constraint 6000 396 kLevel1_2; Constraint 11880 396 kLevel1_3; Constraint 11880 396 kLevel2;
   Constraint 19800 792 kLevel2_1; Constraint 20250 1620 kLevel2_2; Constraint 40500 1620 kLevel3;
   Constraint 108000 3600 kLevel3_1; Constraint 216000 5120 kLevel3_2; Constraint 245760 8192 kLevel4;
   Constraint 245760 8192 kLevel4_1; Constraint 522240 8704 kLevel4_2; Constraint 589824 22080 kLevel5;
   Constraint 983040 36864 kLevel5_1; Constraint 2073600 36864 kLevel5_2].

Definition kPixelsPerMacroblock : Z := 16 * 16.

(** An [int] where a [float] is expected. *)
Definition single_of_Z (z : Z) : spec_float := binary_normalize 24 128 z 0 false.

(** The condition of the loop; the product and the comparison are in single
    precision. *)
Definition meets (max_frame_pixel_count : Z) (max_fps : spec_float) (c : LevelConstraint) : bool :=
  (max_macroblock_frame_size c * kPixelsPerMacroblock <=? max_frame_pixel_count) &&
  SFleb (single_of_Z (max_macroblocks_per_second c))
    (SFmul 24 128 max_fps (single_of_Z (max_macroblock_frame_size c))).

(** [for (int i = ...; i >= 0; --i)], [i] being one more here. *)
Fixpoint level_from (max_frame_pixel_count : Z) (max_fps : spec_float) (i : nat) : option H264Level :=
  match i with
  | O => None
  | S i =>
      match kLevelConstraints !! i with
      | Some c =>
          if meets max_frame_pixel_count max_fps c then Some (constraint_level c)
          else level_from max_frame_pixel_count max_fps i
      | None => None
      end
  end.

Definition H264SupportedLevel (max_frame_pixel_count : Z) (max_fps : spec_float) : option H264Level :=
  level_from max_frame_pixel_count max_fps (length kLevelConstraints).

(** ** Numbers in parameters *)

(** [ParseSigned] in base 10: [strtoll] converts nothing, and leaves [end] at the
    start, when no digit follows the sign. *)
Definition ParseSigned (str : string) : option Z :=
  let '(negative, digits) :=
    match str with
    | String "-" rest => (true, rest)
    | _ => (false, str)
    end in
  let '(m, n, rest) := read_digits 0 0 digits in
  let value := if negative then - m else m in
  if Nat.eqb n 0 then None
  else if str_empty rest && (- 2 ^ 63 <=? value) && (value <? 2 ^ 63) then Some value
  else None.

(** [StringToNumber<int>] of a string. *)
Definition StringToNumber (str : string) : option Z :=
  match ParseSigned (c_str str) with
  | Some value => if (- 2 ^ 31 <=? value) && (value <=? 2 ^ 31 - 1) then Some value else None
  | None => None
  end.

Definition kVPxFmtpMaxFrameRate : string := "max-fr".
Definition kVPxFmtpMaxFrameSize : string := "max-fs".
Definition kVPxFmtpFrameSizeSubBlockPixels : Z := 256.

Definition ParsePositiveNumberFromParams (params : Parameters) (parameter_name : string) : option Z :=
  match params !! parameter_name with
  | None => None
  | Some s =>
      match StringToNumber s with
      | Some i => if i <=? 0 then None else Some i
      | None => None
      end
  end.

Definition ParseSdpForVPxMaxFrameRate (params : Parameters) : option Z :=
  ParsePositiveNumberFromParams params kVPxFmtpMaxFrameRate.

(** The product of two [int]s is undefined when it does not fit. *)
Definition ParseSdpForVPxMaxFrameSize (params : Parameters) : res (option Z) :=
  match ParsePositiveNumberFromParams params kVPxFmtpMaxFrameSize with
  | Some i =>
      let pixels := i * kVPxFmtpFrameSizeSubBlockPixels in
      if pixels <=? 2 ^ 31 - 1 then Ok (Some pixels) else Undef UbOverflow
  | None => Ok None
  end.

(** ** The level is the last of the table the device meets *)

Lemma level_from_spec px fps n l :
  (n <= length kLevelConstraints)%nat ->
  level_from px fps n = Some l <->
  exists i c, (i < n)%nat /\ kLevelConstraints !! i = Some c /\ constraint_level c = l /\ meets px fps c = true /\
    forall j c', (i < j < n)%nat -> kLevelConstraints !! j = Some c' -> meets px fps c' = false.
Proof.
  induction n as [|n IH]; intros Hn; cbn [level_from].
  { split; [done|]. intros (i & c & Hi & _). lia. }
  destruct (lookup_lt_is_Some_2 kLevelConstraints n Hn) as [c Hc]. rewrite Hc. destruct (meets px fps c) eqn:E.
  - split.
    + intros [= <-]. exists n, c. do 4 (split; [done || lia|]). intros j c' Hj. lia.
    + intros (i & c1 & Hi & Hc1 & <- & E1 & Hlast). destruct (decide (i = n)) as [->|Hne]; [congruence|].
      rewrite (Hlast n c) in E; [done|lia|done].
  - rewrite IH by lia. split; intros (i & c1 & Hi & Hc1 & <- & E1 & Hlast); exists i, c1.
    + do 4 (split; [done || lia|]). intros j c' Hj Hc'. destruct (decide (j = n)) as [->|Hne]; [congruence|].
      apply (Hlast j c'); [lia|done].
    + assert (i <> n) by congruence. do 4 (split; [done || lia|]). intros j c' Hj. apply Hlast. lia.
Qed.

Lemma level_from_none px fps n :
  (n <= length kLevelConstraints)%nat -> level_from px fps n = None -> forall i c, (i < n)%nat -> kLevelConstraints !! i = Some c -> meets px fps c = false.
Proof.
  induction n as [|n IH]; intros Hn E i c Hi Hc; [lia|]. cbn [level_from] in E.
  destruct (kLevelConstraints !! n) as [d|] eqn:Ed.
  - destruct (meets px fps d) eqn:Em; [done|]. destruct (decide (i = n)) as [->|Hne]; [congruence|].
    apply (IH ltac:(lia) E i); [lia|done].
  - apply lookup_ge_None in Ed. lia.
Qed.

Lemma table_sorted i j c c' :
  (i <= j)%nat -> kLevelConstraints !! i = Some c -> kLevelConstraints !! j = Some c' ->
  level_rank (constraint_level c) <= level_rank (constraint_level c').
Proof.
  intros Hij Hc Hc'. pose proof (lookup_lt_Some _ _ _ Hc') as Hj. cbn in Hj.
  assert (forall k, (k < 17)%nat -> forall m, (m <= k)%nat ->
    match kLevelConstraints !! m, kLevelConstraints !! k with
    | Some c, Some c' => level_rank (constraint_level c) <= level_rank (constraint_level c')
    | _, _ => True
    end) as Hall.
  { intros k Hk m Hm. do 17 (destruct k as [|k]; [do 17 (destruct m as [|m]; [cbn; lia|]); lia|]). lia. }
  specialize (Hall j Hj i Hij). by rewrite Hc, Hc' in Hall.
Qed.

(** A level is found exactly when some entry is met, the level of the last such
    entry; more pixels give at least the level fewer pixels give. *)
Theorem supported_level px fps :
  (forall l, H264SupportedLevel px fps = Some l <->
     exists i c, kLevelConstraints !! i = Some c /\ constraint_level c = l /\ meets px fps c = true /\
       forall j c', (i < j)%nat -> kLevelConstraints !! j = Some c' -> meets px fps c' = false) /\
  (forall px' l, px <= px' -> H264SupportedLevel px fps = Some l ->
     exists l', H264SupportedLevel px' fps = Some l' /\ level_rank l <= level_rank l').
Proof.
  assert (forall px l, H264SupportedLevel px fps = Some l <->
     exists i c, kLevelConstraints !! i = Some c /\ constraint_level c = l /\ meets px fps c = true /\
       forall j c', (i < j)%nat -> kLevelConstraints !! j = Some c' -> meets px fps c' = false) as Hspec.
  { intros p l. unfold H264SupportedLevel. rewrite level_from_spec by lia.
    split; intros (i & c & H).
    - destruct H as (Hi & Hc & Hl & E & Hlast). exists i, c. do 3 (split; [done|]). intros j c' Hj Hc'.
      apply (Hlast j c'); [|done]. split; [done|]. by apply (lookup_lt_Some _ _ _ Hc').
    - destruct H as (Hc & Hl & E & Hlast). exists i, c. split; [by apply (lookup_lt_Some _ _ _ Hc)|].
      do 3 (split; [done|]). intros j c' [Hj _]. by apply Hlast. }
  split; [apply Hspec|]. intros px' l Hpx (i & c & Hc & <- & E & _)%Hspec.
  assert (meets px' fps c = true) as E'.
  { unfold meets in *. apply andb_true_iff in E as [E1 ->]. apply Z.leb_le in E1. rewrite andb_true_r. apply Z.leb_le. lia. }
  destruct (H264SupportedLevel px' fps) as [l'|] eqn:El.
  - exists l'. split; [done|]. apply Hspec in El as (j & c' & Hc' & <- & _ & Hlast).
    apply (table_sorted i j c c'); [|done|done]. destruct (decide (i <= j)%nat) as [|Hn]; [done|].
    rewrite (Hlast i c) in E'; [done|lia|done].
  - exfalso. rewrite (level_from_none px' fps _ (le_n _) El i c (lookup_lt_Some _ _ _ Hc) Hc) in E'. done.
Qed.

(** Levels 1, 1.3 and 4 are never the answer: the entry after each has the same
    limits. *)
Theorem shadowed_levels px fps l :
  H264SupportedLevel px fps = Some l -> l <> kLevel1 /\ l <> kLevel1_3 /\ l <> kLevel4.
Proof.
  unfold H264SupportedLevel. cbn [length kLevelConstraints level_from lookup list_lookup].
  intros E. repeat case_match; simplify_eq/=; try (split; [done|]; split; done); exfalso; unfold meets in *; simpl in *; congruence.
Qed.

Lemma shadowed_levels_witness :
  H264SupportedLevel (1280 * 720) (single_of_Z 30) = Some kLevel3_1 /\ kLevel3_1 <> kLevel4.
Proof.
  assert (H264SupportedLevel (1280 * 720) (single_of_Z 30) = Some kLevel3_1) as E by (vm_compute; reflexivity).
  split; [exact E|]. exact (proj2 (proj2 (shadowed_levels _ _ _ E))).
Defined.

(** ** Numbers are read back *)

Lemma digits_c_str s : all_chars is_digit s = true -> c_str s = s.
Proof.
  induction s as [|a s IH]; [done|]. cbn [all_chars c_str]. intros [Ha Hs]%andb_true_iff. rewrite IH by done.
  by destruct a as [[] [] [] [] [] [] [] []]; try discriminate Ha.
Qed.

Lemma pretty_c_str (z : Z) : c_str (pretty z) = pretty z.
Proof.
  destruct (decide (z < 0)) as [Hz|Hz].
  - rewrite pretty_neg by done. cbn [c_str Ascii.eqb Bool.eqb]. rewrite digits_c_str; [done|]. apply pretty_digits. lia.
  - apply digits_c_str, pretty_digits. lia.
Qed.

(** [StringToNumber<int>] reads every [int] back and rejects every other printed
    integer. *)
Theorem string_to_number_printed (z : Z) :
  StringToNumber (pretty z) = if (- 2 ^ 31 <=? z) && (z <=? 2 ^ 31 - 1) then Some z else None.
Proof.
  unfold StringToNumber. rewrite pretty_c_str. unfold ParseSigned. destruct (decide (z < 0)) as [Hz|Hz].
  - rewrite pretty_neg by done. destruct (read_pretty (- z)) as (n & Hn & E); [lia|]. cbv beta iota. rewrite E.
    rewrite (proj2 (Nat.eqb_neq n 0) Hn). cbn [str_empty]. rewrite Z.opp_involutive.
    repeat (match goal with |- context [?a <=? ?b] => destruct (Z.leb_spec a b)
      | |- context [?a <? ?b] => destruct (Z.ltb_spec a b) end; cbn [andb]); try done; lia.
  - destruct (read_pretty z) as (n & Hn & E); [lia|]. pose proof (pretty_digits z ltac:(lia)) as Hd.
    assert ((match pretty z with String "-" rest => (true, rest) | _ => (false, pretty z) end) = (false, pretty z)) as ->.
    { destruct (pretty z) as [|a s]; [done|]. cbn [all_chars] in Hd. apply andb_true_iff in Hd as [Ha _].
      by destruct a as [[] [] [] [] [] [] [] []]; try discriminate Ha. }
    cbv beta iota. rewrite E. rewrite (proj2 (Nat.eqb_neq n 0) Hn). cbn [str_empty].
    repeat (match goal with |- context [?a <=? ?b] => destruct (Z.leb_spec a b)
      | |- context [?a <? ?b] => destruct (Z.ltb_spec a b) end; cbn [andb]); try done; lia.
Qed.

(** The frame size in pixels overflows an [int] for more than 8388607 blocks,
    which a peer may put into its parameters. *)
Theorem max_frame_size params (i : Z) :
  0 < i < 2 ^ 31 -> params !! kVPxFmtpMaxFrameSize = Some (pretty i) ->
  ParseSdpForVPxMaxFrameSize params = if i <=? 8388607 then Ok (Some (i * 256)) else Undef UbOverflow.
Proof.
  intros Hi E. unfold ParseSdpForVPxMaxFrameSize, ParsePositiveNumberFromParams. rewrite E, string_to_number_printed.
  rewrite (proj2 (andb_true_iff _ _)) by (split; apply Z.leb_le; lia). rewrite (proj2 (Z.leb_gt i 0)) by lia.
  unfold kVPxFmtpFrameSizeSubBlockPixels. destruct (Z.leb_spec i 8388607), (Z.leb_spec (i * 256) (2 ^ 31 - 1)); try done; lia.
Qed.

Lemma max_frame_size_witness :
  ParseSdpForVPxMaxFrameSize {[ "max-fs" := "8388608" ]} = Undef UbOverflow.
Proof. rewrite (max_frame_size _ 8388608); [reflexivity|lia|reflexivity]. Defined.
