(* ===== verification/Rounding.v ===== *)
(** Rounding to nearest in binary64: every number strictly between the midpoints to
    the neighbours of a double is rounded to it, whether it comes as a binary
    number ([binary_normalize]) or as decimal digits ([decimal_value]). *)

From Stdlib Require Import ZArith Lia SpecFloat QArith Qpower Lqa.
From S2P Require Import Prelude Streams.
#[local] Open Scope Z_scope.

Abbreviation fexp64 := (fexp 53 1024).

(** ** Shifting right keeps the value and where it lies between two integers *)

Definition shifted (z : Z) (k : nat) (r : shr_record) : Prop :=
  exists low, z = shr_m r * 2 ^ Z.of_nat k + low /\ 0 <= shr_m r /\ 0 <= low < 2 ^ Z.of_nat k /\
    match loc_of_shr_record r with
    | loc_Exact => low = 0
    | loc_Inexact Lt => 0 < 2 * low < 2 ^ Z.of_nat k
    | loc_Inexact Eq => 2 * low = 2 ^ Z.of_nat k
    | loc_Inexact Gt => 2 ^ Z.of_nat k < 2 * low
    end.

Lemma shifted_0 z : 0 <= z -> shifted z 0 (shr_record_of_loc z loc_Exact).
Proof. intros Hz. exists 0. simpl. lia. Qed.

Lemma shr_1_half m r s : 0 <= m ->
  shr_1 (Build_shr_record m r s) = Build_shr_record (m / 2) (Z.odd m) (r || s).
Proof.
  intros Hm. destruct m as [|p|p]; [done| |lia]. destruct p as [p|p|]; simpl; [| |done].
  - f_equal. rewrite (Pos2Z.inj_xI p), Z.add_comm, Z.mul_comm, Z.div_add by lia. done.
  - f_equal. rewrite (Pos2Z.inj_xO p), Z.mul_comm, Z.div_mul by lia. done.
Qed.

Lemma shifted_1 z k r : shifted z k r -> shifted z (S k) (shr_1 r).
Proof.
  destruct r as [m r s]. intros (low & Hz & Hm & Hl & Hloc). cbn [shr_m] in *.
  rewrite shr_1_half by done. pose proof (Z.div_mod m 2 ltac:(lia)) as Hd.
  rewrite Zmod_odd in Hd. assert (2 ^ Z.of_nat (S k) = 2 * 2 ^ Z.of_nat k) as Hp by (rewrite Nat2Z.inj_succ, Z.pow_succ_r; lia).
  exists ((if Z.odd m then 2 ^ Z.of_nat k else 0) + low). cbn [shr_m]. rewrite Hp.
  assert (0 <= m / 2) by (apply Z.div_pos; lia).
  split; [destruct (Z.odd m); nia|]. split; [done|]. split; [destruct (Z.odd m); lia|].
  destruct (Z.odd m), r, s; simpl in *; lia.
Qed.

Lemma shifted_iter z p : forall k r, shifted z k r -> shifted z (k + Pos.to_nat p) (SpecFloat.iter_pos shr_1 p r).
Proof.
  induction p as [p IH|p IH|]; intros k r Hr; simpl.
  - replace (k + Pos.to_nat p~1)%nat with (S k + Pos.to_nat p + Pos.to_nat p)%nat by lia.
    apply IH, IH, shifted_1, Hr.
  - replace (k + Pos.to_nat p~0)%nat with (k + Pos.to_nat p + Pos.to_nat p)%nat by lia. apply IH, IH, Hr.
  - replace (k + Pos.to_nat 1)%nat with (S k) by lia. by apply shifted_1.
Qed.

Lemma shr_shifted z e n : 0 <= z -> 0 <= n ->
  exists r, shr (shr_record_of_loc z loc_Exact) e n = (r, e + n) /\ shifted z (Z.to_nat n) r.
Proof.
  intros Hz Hn. destruct n as [|p|p]; [| |lia].
  - eexists. split; [simpl; by rewrite Z.add_0_r|]. by apply shifted_0.
  - eexists. split; [reflexivity|]. apply (shifted_iter _ _ 0). by apply shifted_0.
Qed.

(** An integer nearer to the shifted number than one half is its rounding. *)
Lemma shifted_round z k r M : shifted z k r -> 2 * Z.abs (z - M * 2 ^ Z.of_nat k) < 2 ^ Z.of_nat k ->
  round_nearest_even (shr_m r) (loc_of_shr_record r) = M.
Proof.
  intros (low & Hz & Hm & Hl & Hloc) HM. set (P := 2 ^ Z.of_nat k) in *. set (m := shr_m r) in *.
  assert (0 < P) by (apply Z.pow_pos_nonneg; lia).
  assert (M = m /\ 2 * low < P \/ M = m + 1 /\ P < 2 * low) as HM'.
  { assert (z - M * P = low - (M - m) * P) as E by lia. rewrite E in HM.
    assert (M - m <= -1 \/ M - m = 0 \/ M - m = 1 \/ 2 <= M - m) as [Ht|[Ht|[Ht|Ht]]] by lia.
    - pose proof (Z.mul_le_mono_nonneg_r _ _ P ltac:(lia) Ht). lia.
    - rewrite Ht in HM. lia.
    - rewrite Ht in HM. lia.
    - pose proof (Z.mul_le_mono_nonneg_r _ _ P ltac:(lia) Ht). lia. }
  destruct (loc_of_shr_record r) as [|[]]; simpl; lia.
Qed.

Lemma digits_log2 p : Zpos (digits2_pos p) = Z.log2 (Zpos p) + 1.
Proof.
  induction p as [p IH|p IH|]; simpl digits2_pos; [| |done].
  - rewrite Pos2Z.inj_succ, IH, (Pos2Z.inj_xI p), Z.log2_succ_double; lia.
  - rewrite Pos2Z.inj_succ, IH, (Pos2Z.inj_xO p), Z.log2_double; lia.
Qed.

Lemma iter_xO p d : Zpos (Pos.iter xO p d) = Zpos p * 2 ^ Zpos d.
Proof.
  induction d as [|d IH] using Pos.peano_ind; [simpl; lia|].
  rewrite Pos.iter_succ, Pos2Z.inj_xO, IH, Pos2Z.inj_succ, Z.pow_succ_r; lia.
Qed.

(** ** Rounding a binary number *)

(** The midpoints to the neighbours of [m * 2 ^ e], in units of [2 ^ (e - 2)]: the
    neighbour below the least significand of a binade is nearer. *)
Definition lower (m e : Z) : Z := if (m =? 2 ^ 52) && (-1074 <? e) then 4 * m - 1 else 4 * m - 2.
Definition upper (m : Z) : Z := 4 * m + 2.

(** A positive double. *)
Definition double (m e : Z) : Prop :=
  0 < m < 2 ^ 53 /\ -1074 <= e <= 971 /\ (2 ^ 52 <= m \/ e = -1074).

Lemma bounded_double m e : bounded 53 1024 m e = true -> double (Zpos m) e.
Proof.
  unfold bounded, canonical_mantissa, fexp, emin. rewrite andb_true_iff, Z.eqb_eq, Z.leb_le, digits_log2.
  intros [H1 H2]. pose proof (Z.log2_spec (Zpos m) ltac:(lia)) as [H3 H4].
  assert (Z.log2 (Zpos m) < 53) as H5 by lia.
  split; [split; [lia|]|].
  { eapply Z.lt_le_trans; [exact H4|]. apply Z.pow_le_mono_r; lia. }
  split; [lia|]. destruct (Z.eq_dec e (-1074)) as [->|He]; [by right|left].
  etransitivity; [|exact H3]. apply Z.pow_le_mono_r; lia.
Qed.

Lemma double_fexp m e : double m e -> fexp64 (Zdigits2 m + e) = e.
Proof.
  intros ([H1 H2] & H3 & H4). destruct m as [|p|p]; try lia. simpl Zdigits2. rewrite digits_log2.
  assert (Z.log2 (Zpos p) < 53) by (apply Z.log2_lt_pow2; lia). unfold fexp, emin.
  destruct H4 as [H4| ->]; [|lia]. assert (52 <= Z.log2 (Zpos p)) by (apply Z.log2_le_pow2; lia). lia.
Qed.

(** The exponent the rounding works at: that of the double, or one less when the
    number is below a double that starts a binade. *)
Lemma exponent_near m e V g : double m e -> 0 <= g -> lower m e * 2 ^ g < V < upper m * 2 ^ g ->
  let e1 := fexp64 (Z.log2 V + 1 + (e - 2 - g)) in
  e1 = e /\ 2 * Z.abs (V - m * 2 ^ (g + 2)) < 2 ^ (g + 2) \/
  m = 2 ^ 52 /\ -1074 < e /\ e1 = e - 1 /\ 2 * Z.abs (V - 2 ^ 53 * 2 ^ (g + 1)) < 2 ^ (g + 1).
Proof.
  intros ([Hm1 Hm2] & He & Hn) Hg [HV1 HV2]. unfold upper, lower in *. set (P := 2 ^ g) in *.
  assert (0 < P) as HP by (apply Z.pow_pos_nonneg; lia).
  assert (2 ^ (g + 2) = 4 * P) as -> by (rewrite Z.pow_add_r by lia; fold P; lia).
  assert (2 ^ (g + 1) = 2 * P) as -> by (rewrite Z.pow_add_r by lia; fold P; lia).
  assert (0 < V) as HV by (destruct (_ && _); nia).
  assert (forall k, 0 <= k -> 2 ^ k * P <= V -> k + g <= Z.log2 V) as Hlo.
  { intros k Hk Hle. apply Z.log2_le_pow2; [done|]. by rewrite Z.pow_add_r by lia. }
  assert (forall k, 0 <= k -> V < 2 ^ k * P -> Z.log2 V < k + g) as Hhi.
  { intros k Hk Hlt. apply Z.log2_lt_pow2; [done|]. by rewrite Z.pow_add_r by lia. }
  unfold fexp, emin.
  assert (Z.log2 V < 55 + g) by (apply Hhi; [lia|nia]).
  destruct (Z.le_gt_cases (2 ^ 54 * P) V) as [Hbig|Hsmall].
  - pose proof (Hlo 54 ltac:(lia) Hbig). left. split; [|destruct (_ && _); nia].
    destruct Hn as [Hn| ->]; [lia|]. destruct (Z.le_gt_cases (2 ^ 52) m); [lia|]. nia.
  - pose proof (Hhi 54 ltac:(lia) Hsmall). destruct (Z.eqb_spec m (2 ^ 52)) as [->|Hne]; simpl in HV1.
    + destruct (Z.ltb_spec (-1074) e) as [He'|He'].
      * right. pose proof (Hlo 53 ltac:(lia) ltac:(nia)). repeat split; try lia; nia.
      * left. split; [lia|nia].
    + left. split; [|nia]. destruct Hn as [Hn| ->]; [nia|lia].
Qed.

(** Aligning to the left keeps the value and its length. *)
Lemma shl_align_spec N E E' : exists mz ez, shl_align N E E' = (mz, ez) /\ ez = Z.min E E' /\
  Zpos mz = Zpos N * 2 ^ (E - ez) /\ Z.log2 (Zpos mz) + ez = Z.log2 (Zpos N) + E.
Proof.
  unfold shl_align. destruct (E' - E) as [|d|d] eqn:Ed.
  1,2: exists N, E; split; [done|]; split; [lia|]; rewrite Z.sub_diag; lia.
  exists (Pos.iter xO N d), E'. split; [done|]. split; [lia|]. rewrite iter_xO.
  replace (E - E') with (Zpos d) by lia. split; [done|]. rewrite Z.log2_mul_pow2 by lia. lia.
Qed.

(** The second normalisation, after the rounding. *)
Lemma renormalize m e M e1 : double m e -> M = m /\ e1 = e \/ m = 2 ^ 52 /\ -1074 < e /\ M = 2 ^ 53 /\ e1 = e - 1 ->
  exists r, shr_fexp 53 1024 M e1 loc_Exact = (r, e) /\ shr_m r = m.
Proof.
  intros Hd [[-> ->]|(-> & He & -> & ->)].
  - unfold shr_fexp. rewrite double_fexp, Z.sub_diag by done. by eexists.
  - unfold shr_fexp, fexp, emin. change (Zdigits2 (2 ^ 53)) with 54.
    replace (Z.max _ _ - (e - 1)) with 1 by lia. eexists. split; [simpl; f_equal; lia|done].
Qed.

Lemma binary_round_near s N E m e g : double m e -> 0 <= g -> e - 2 - g <= E ->
  lower m e * 2 ^ g < Zpos N * 2 ^ (E - (e - 2 - g)) < upper m * 2 ^ g ->
  binary_round 53 1024 s N E = S754_finite s (Z.to_pos m) e.
Proof.
  intros Hd Hg HE HV. set (F := e - 2 - g) in *. set (V := Zpos N * 2 ^ (E - F)) in *.
  pose proof (exponent_near m e V g Hd Hg HV) as Hcase. fold F in Hcase. cbv zeta in Hcase.
  assert (Z.log2 V + 1 + F = Zpos (digits2_pos N) + E) as HT
    by (unfold V; rewrite Z.log2_mul_pow2, digits_log2 by lia; lia).
  rewrite HT in Hcase. unfold binary_round. set (e1 := fexp64 (Zpos (digits2_pos N) + E)) in *.
  destruct (shl_align_spec N E e1) as (mz & ez & -> & Hez & Hmz & Hlog). unfold binary_round_aux.
  unfold shr_fexp at 1. simpl Zdigits2.
  assert (fexp64 (Zpos (digits2_pos mz) + ez) = e1) as ->.
  { unfold e1. f_equal. rewrite !digits_log2. lia. }
  destruct (shr_shifted (Zpos mz) ez (e1 - ez) ltac:(lia) ltac:(lia)) as (r & -> & Hr).
  replace (ez + (e1 - ez)) with e1 by lia.
  assert (exists M, round_nearest_even (shr_m r) (loc_of_shr_record r) = M /\
    (M = m /\ e1 = e \/ m = 2 ^ 52 /\ -1074 < e /\ M = 2 ^ 53 /\ e1 = e - 1)) as (M & -> & HM).
  { assert (F <= ez /\ V = Zpos mz * 2 ^ (ez - F)) as [HF HVz].
    { split; [lia|]. unfold V. rewrite Hmz, <- Z.mul_assoc, <- Z.pow_add_r by lia. do 2 f_equal. lia. }
    assert (0 < 2 ^ (ez - F)) as HP by (apply Z.pow_pos_nonneg; lia).
    destruct Hcase as [[He1 Hab]|(Hm & He & He1 & Hab)].
    - exists m. split; [|by left]. apply (shifted_round _ _ _ _ Hr). rewrite Z2Nat.id by lia.
      replace (g + 2) with (e1 - ez + (ez - F)) in Hab by lia. rewrite Z.pow_add_r, HVz in Hab by lia. nia.
    - exists (2 ^ 53). split; [|by right]. apply (shifted_round _ _ _ _ Hr). rewrite Z2Nat.id by lia.
      replace (g + 1) with (e1 - ez + (ez - F)) in Hab by lia. rewrite Z.pow_add_r, HVz in Hab by lia. nia. }
  destruct (renormalize m e M e1 Hd HM) as (r' & -> & ->). destruct Hd as (Hm & He & _).
  destruct m as [|p|p]; try lia. simpl Z.to_pos. by rewrite (proj2 (Z.leb_le e (1024 - 53))) by lia.
Qed.

(** ** Rounding decimal digits *)

Abbreviation dec d x := (inject_Z d * 10 ^ x)%Q.
Abbreviation bin m e := (inject_Z m * 2 ^ e)%Q.

(** Where the numbers that are rounded to a double lie. *)
Definition near (m e d x : Z) : Prop :=
  (bin (lower m e) (e - 2) < dec d x)%Q /\ (dec d x < bin (upper m) (e - 2))%Q.

Lemma ten_pow x : 0 <= x -> (inject_Z (10 ^ x) == 10 ^ x)%Q.
Proof. intros Hx. by rewrite Zpower_Qpower. Qed.

Lemma two_pow x : 0 <= x -> (inject_Z (2 ^ x) == 2 ^ x)%Q.
Proof. intros Hx. by rewrite Zpower_Qpower. Qed.

Lemma two_pow_pos x : (0 < 2 ^ x)%Q.
Proof. by apply Qpower_0_lt. Qed.

Lemma ten_pow_pos x : (0 < 10 ^ x)%Q.
Proof. by apply Qpower_0_lt. Qed.

Lemma Qlt_scale p a b : (0 < p -> (a < b <-> a * p < b * p))%Q.
Proof. intros Hp. symmetry. by apply Qmult_lt_r. Qed.

(** Comparing the two forms of numbers with integers. *)
Lemma bin_scale a f s : 0 <= f + s -> (bin a f * 2 ^ s == inject_Z (a * 2 ^ (f + s)))%Q.
Proof. intros Hs. rewrite inject_Z_mult, two_pow, Qpower_plus by done. ring. Qed.

Lemma dec_scale_pos d x s : 0 <= x -> 0 <= s -> (dec d x * 2 ^ s == inject_Z (d * 10 ^ x * 2 ^ s))%Q.
Proof. intros Hx Hs. rewrite !inject_Z_mult, two_pow, ten_pow by done. ring. Qed.

Lemma dec_scale_neg d x s : x <= 0 -> 0 <= s ->
  (dec d x * 2 ^ s * inject_Z (10 ^ (- x)) == inject_Z (d * 2 ^ s))%Q.
Proof.
  intros Hx Hs. rewrite !inject_Z_mult, two_pow, ten_pow by lia.
  assert (10 ^ x * 10 ^ (- x) == 1)%Q as E by (rewrite <- Qpower_plus by done; by rewrite Z.add_opp_diag_r).
  transitivity (inject_Z d * 2 ^ s * (10 ^ x * 10 ^ (- x)))%Q; [ring|]. rewrite E. ring.
Qed.

Lemma near_pos m e d x s : near m e d x -> 0 <= x -> 0 <= s -> 0 <= e - 2 + s ->
  lower m e * 2 ^ (e - 2 + s) < d * 10 ^ x * 2 ^ s < upper m * 2 ^ (e - 2 + s).
Proof.
  intros [H1 H2] Hx Hs He. split; [revert H1|revert H2];
    rewrite (Qlt_scale _ _ _ (two_pow_pos s)), bin_scale, dec_scale_pos, <- Zlt_Qlt by done; done.
Qed.

Lemma near_neg m e d x s : near m e d x -> x <= 0 -> 0 <= s -> 0 <= e - 2 + s ->
  lower m e * 2 ^ (e - 2 + s) * 10 ^ (- x) < d * 2 ^ s < upper m * 2 ^ (e - 2 + s) * 10 ^ (- x).
Proof.
  intros [H1 H2] Hx Hs He.
  assert (0 < inject_Z (10 ^ (- x)))%Q as Hp by (rewrite ten_pow by lia; apply ten_pow_pos).
  split; [revert H1|revert H2];
    rewrite (Qlt_scale _ _ _ (two_pow_pos s)), bin_scale, (Qlt_scale _ _ _ Hp), dec_scale_neg, <- inject_Z_mult, <- Zlt_Qlt by done; done.
Qed.

(** A quotient with its sticky bit compares with integers like the exact value. *)
Lemma sticky_lt num den G : 0 < den -> G * den < num ->
  2 * G < 2 * (num / den) + (if num `mod` den =? 0 then 0 else 1).
Proof.
  intros Hd HG. pose proof (Z.div_mod num den ltac:(lia)) as E. pose proof (Z.mod_pos_bound num den Hd).
  destruct (Z.eqb_spec (num `mod` den) 0); nia.
Qed.

Lemma sticky_gt num den G : 0 < den -> num < G * den ->
  2 * (num / den) + (if num `mod` den =? 0 then 0 else 1) < 2 * G.
Proof.
  intros Hd HG. pose proof (Z.div_mod num den ltac:(lia)) as E. pose proof (Z.mod_pos_bound num den Hd).
  destruct (Z.eqb_spec (num `mod` den) 0); nia.
Qed.

Lemma lower_pos m e : 0 < m -> 0 < lower m e.
Proof. intros Hm. unfold lower. destruct (_ && _); lia. Qed.

Lemma binary_normalize_pos N E (s : bool) : 0 < N ->
  binary_normalize 53 1024 (if s then - N else N) E s = binary_round 53 1024 s (Z.to_pos N) E.
Proof. intros HN. destruct N as [|p|p]; try lia. by destruct s. Qed.

Lemma decimal_value_near s d x m e : double m e -> near m e d x -> -800 <= x <= 400 ->
  decimal_value 53 1024 s d x = S754_finite s (Z.to_pos m) e.
Proof.
  intros Hd Hn Hx. pose proof Hd as (Hm & He & _). pose proof (lower_pos m e ltac:(lia)) as Hlo.
  unfold decimal_value. pose proof (Z.log2_nonneg (Z.max d 1)).
  replace (Z.min 400 (Z.max x _)) with x by lia. cbv zeta. destruct (Z.leb_spec 0 x) as [Hx0|Hx0].
  - pose proof (near_pos m e d x (Z.max 0 (2 - e)) Hn Hx0 ltac:(lia) ltac:(lia)) as HV.
    assert (0 < 2 ^ Z.max 0 (2 - e)) by (apply Z.pow_pos_nonneg; lia).
    assert (0 <= 2 ^ (e - 2 + Z.max 0 (2 - e))) by (apply Z.pow_nonneg; lia).
    assert (0 < d * 10 ^ x) as HN by nia.
    rewrite binary_normalize_pos by done. apply (binary_round_near _ _ _ _ _ (e - 2 + Z.max 0 (2 - e)) Hd); [lia|lia|].
    rewrite Z2Pos.id by done. replace (0 - (e - 2 - (e - 2 + Z.max 0 (2 - e)))) with (Z.max 0 (2 - e)) by lia. done.
  - assert (0 < 10 ^ (- x)) as Hden by (apply Z.pow_pos_nonneg; lia).
    pose proof (Z.log2_nonneg (10 ^ (- x))). set (shift := Z.log2 (10 ^ (- x)) + 1100) in *.
    pose proof (near_neg m e d x shift Hn ltac:(lia) ltac:(lia) ltac:(lia)) as [H1 H2].
    rewrite Z.shiftl_mul_pow2 by lia.
    apply sticky_lt in H1; [|done]. apply sticky_gt in H2; [|done].
    match type of H1 with _ < ?n => set (N := n) in * end. assert (0 <= 2 ^ (e - 2 + shift)) by (apply Z.pow_nonneg; lia).
    assert (0 < N) as HN by nia.
    rewrite binary_normalize_pos by done. apply (binary_round_near _ _ _ _ _ (e - 2 + shift + 1) Hd); [lia|lia|].
    rewrite Z2Pos.id by done. replace (- shift - 1 - (e - 2 - (e - 2 + shift + 1))) with 0 by lia.
    rewrite Z.pow_add_r by lia. lia.
Qed.

(** ** What rounding returns is a double *)

Lemma shifted_bounds z k r : shifted z k r -> 0 <= z -> let P := 2 ^ Z.of_nat k in let M := round_nearest_even (shr_m r) (loc_of_shr_record r) in
  shr_m r = z / P /\ (M = z / P \/ M = z / P + 1).
Proof.
  intros (low & Hz & Hm & Hl & _) Hz0. cbv zeta. assert (shr_m r = z / 2 ^ Z.of_nat k) as <-.
  { apply (Z.div_unique_pos _ _ _ low); lia. }
  split; [done|]. unfold round_nearest_even. destruct (loc_of_shr_record r) as [|[]]; try lia. destruct (Z.even _); lia.
Qed.

Lemma canonical_valid s p e : -1074 <= e -> Z.log2 (Zpos p) < 53 -> (Z.log2 (Zpos p) = 52 \/ e = -1074) -> e <= 971 ->
  valid_binary 53 1024 (S754_finite s p e) = true.
Proof.
  intros He Hl Hn Hmax. simpl. unfold bounded, canonical_mantissa, fexp, emin. rewrite digits_log2.
  apply andb_true_iff. rewrite Z.eqb_eq, Z.leb_le. lia.
Qed.

(** The normalisation after the rounding gives a canonical significand. *)
Lemma renormalize_valid s M e1 : 0 <= M <= 2 ^ 53 -> -1074 <= e1 -> (2 ^ 52 <= M \/ e1 = -1074) ->
  valid_binary 53 1024
    (let '(mrs, e) := shr_fexp 53 1024 M e1 loc_Exact in
     match shr_m mrs with
     | Z0 => S754_zero s
     | Zpos m => if e <=? 1024 - 53 then S754_finite s m e else S754_infinity s
     | _ => S754_nan
     end) = true.
Proof.
  intros HM He Hn. unfold shr_fexp. destruct (Z.eq_dec M (2 ^ 53)) as [->|Hne].
  - change (Zdigits2 (2 ^ 53)) with 54. replace (fexp64 (54 + e1) - e1) with 1 by (unfold fexp, emin; lia).
    change (2 ^ 53) with 9007199254740992. cbn [shr SpecFloat.iter_pos shr_1 shr_record_of_loc shr_m].
    destruct (Z.leb_spec (e1 + 1) (1024 - 53)); [|done]. apply (canonical_valid s); [lia|reflexivity|left; reflexivity|lia].
  - destruct M as [|p|p]; [| |lia].
    + simpl Zdigits2. destruct (fexp64 (0 + e1) - e1) as [|q|q] eqn:E; try done. unfold fexp, emin in E. lia.
    + simpl Zdigits2. assert (Z.log2 (Zpos p) < 53) by (apply Z.log2_lt_pow2; lia).
      pose proof (Z.log2_nonneg (Zpos p)).
      destruct (fexp64 (Zpos (digits2_pos p) + e1) - e1) as [|q|q] eqn:E; unfold fexp, emin in E; rewrite digits_log2 in E; try lia;
        cbn [shr shr_record_of_loc shr_m]; (destruct (Z.leb_spec e1 (1024 - 53)); [|done]); apply canonical_valid; try lia;
        (destruct Hn as [Hn|]; [|by right]); left; assert (52 <= Z.log2 (Zpos p)) by (apply Z.log2_le_pow2; lia); lia.
Qed.

Lemma binary_round_valid s N E : valid_binary 53 1024 (binary_round 53 1024 s N E) = true.
Proof.
  unfold binary_round. set (e1 := fexp64 (Zpos (digits2_pos N) + E)).
  destruct (shl_align_spec N E e1) as (mz & ez & -> & Hez & _ & Hlog). unfold binary_round_aux.
  unfold shr_fexp at 1. simpl Zdigits2. replace (fexp64 (Zpos (digits2_pos mz) + ez)) with e1
    by (unfold e1; f_equal; rewrite !digits_log2; lia).
  destruct (shr_shifted (Zpos mz) ez (e1 - ez) ltac:(lia) ltac:(lia)) as (r & -> & Hr).
  destruct (shifted_bounds _ _ _ Hr ltac:(lia)) as [_ HM]. rewrite Z2Nat.id in HM by lia.
  replace (ez + (e1 - ez)) with e1 by lia. set (M := round_nearest_even _ _) in *. clearbody M.
  assert (e1 = Z.max (Z.log2 (Zpos mz) + 1 + ez - 53) (-1074)) as He1
    by (unfold e1, fexp, emin; rewrite digits_log2; lia).
  pose proof (Z.log2_spec (Zpos mz) ltac:(lia)) as [H1 H2]. pose proof (Z.log2_nonneg (Zpos mz)).
  set (k := e1 - ez) in *. assert (0 < 2 ^ k) by (apply Z.pow_pos_nonneg; lia).
  assert (Zpos mz / 2 ^ k < 2 ^ 53) as Hup.
  { apply Z.div_lt_upper_bound; [done|]. eapply Z.lt_le_trans; [exact H2|]. rewrite <- Z.pow_add_r by lia.
    apply Z.pow_le_mono_r; lia. }
  assert (0 <= Zpos mz / 2 ^ k) by (apply Z.div_pos; lia).
  apply renormalize_valid; [lia|lia|]. destruct (Z.eq_dec e1 (-1074)) as [|He]; [by right|left].
  assert (2 ^ 52 <= Zpos mz / 2 ^ k); [|lia]. apply Z.div_le_lower_bound; [done|]. etransitivity; [|exact H1].
  rewrite <- Z.pow_add_r by lia. apply Z.pow_le_mono_r; lia.
Qed.

Lemma binary_normalize_valid m e s : valid_binary 53 1024 (binary_normalize 53 1024 m e s) = true.
Proof. destruct m; [done|apply binary_round_valid..]. Qed.

Lemma decimal_value_valid s d x : valid_binary 53 1024 (decimal_value 53 1024 s d x) = true.
Proof. unfold decimal_value. cbv zeta. destruct (_ <=? _); apply binary_normalize_valid. Qed.
