(* ===== verification/JsonText.v ===== *)
(** JSON text: the lexer and the parser of nlohmann::json
    (deps/libsdptransform/include/json.hpp), which read every JSON value the
    Java side and the WebRTC statistics hand over as text.

    The lexer works on the text that is still to be read: [get] takes its first
    byte, [unget] leaves it there.  Bytes of error messages and positions are
    not kept.  The parser is the loop of the source with its stack of open
    containers, run on fuel; [JsonTextFacts] shows that the fuel is enough for
    every text. *)

From Stdlib Require Import ZArith Lia SpecFloat Ascii.
From S2P Require Import Prelude Json Regex Streams.

Create HintDb jtext_db.

(** ** Tokens *)

Inductive token : Type :=
| literal_true
| literal_false
| literal_null
| value_string (s : string)
| value_unsigned (z : Z)
| value_integer (z : Z)
| value_float (f : spec_float)
| begin_array
| begin_object
| end_array
| end_object
| name_separator
| value_separator
| parse_error
| end_of_input.

(** ** Strings *)

Definition code (a : ascii) : Z := Z.of_N (N_of_ascii a).
Definition char_of (z : Z) : ascii := ascii_of_N (Z.to_N (u8 z)).

Definition hex_value (a : ascii) : option Z :=
  if byte_in 0x30 0x39 a then Some (code a - 0x30)
  else if byte_in 0x41 0x46 a then Some (code a - 0x37)
  else if byte_in 0x61 0x66 a then Some (code a - 0x57)
  else None.

(** The code point of four hexadecimal digits, [None] for -1. *)
Definition get_codepoint (c1 c2 c3 c4 : ascii) : option Z :=
  match hex_value c1, hex_value c2, hex_value c3, hex_value c4 with
  | Some h1, Some h2, Some h3, Some h4 =>
      Some (Z.shiftl h1 12 + Z.shiftl h2 8 + Z.shiftl h3 4 + Z.shiftl h4 0)
  | _, _, _, _ => None
  end.

(** The bytes of a code point. *)
Definition encode_utf8 (codepoint : Z) : list Z :=
  if codepoint <? 0x80 then [codepoint]
  else if codepoint <=? 0x7FF then
    [Z.lor 0xC0 (Z.shiftr codepoint 6); Z.lor 0x80 (Z.land codepoint 0x3F)]
  else if codepoint <=? 0xFFFF then
    [Z.lor 0xE0 (Z.shiftr codepoint 12);
     Z.lor 0x80 (Z.land (Z.shiftr codepoint 6) 0x3F);
     Z.lor 0x80 (Z.land codepoint 0x3F)]
  else
    [Z.lor 0xF0 (Z.shiftr codepoint 18);
     Z.lor 0x80 (Z.land (Z.shiftr codepoint 12) 0x3F);
     Z.lor 0x80 (Z.land (Z.shiftr codepoint 6) 0x3F);
     Z.lor 0x80 (Z.land codepoint 0x3F)].

Definition string_of_bytes (bs : list Z) : string :=
  fold_right (fun b s => String (char_of b) s) EmptyString bs.

(** The character a one-letter escape stands for. *)
Definition simple_escape (a : ascii) : option ascii :=
  if Ascii.eqb a "034" then Some "034"%char
  else if Ascii.eqb a "\" then Some "\"%char
  else if Ascii.eqb a "/" then Some "/"%char
  else if Ascii.eqb a "b" then Some "008"%char
  else if Ascii.eqb a "f" then Some "012"%char
  else if Ascii.eqb a "n" then Some "010"%char
  else if Ascii.eqb a "r" then Some "013"%char
  else if Ascii.eqb a "t" then Some "009"%char
  else None.

(** The ranges of the bytes that follow a first byte of a UTF-8 sequence: none
    for a byte that starts no sequence of two bytes or more. *)
Definition continuation (a : ascii) : option (list (Z * Z)) :=
  if byte_in 0xC2 0xDF a then Some [(0x80, 0xBF)]
  else if byte_in 0xE0 0xE0 a then Some [(0xA0, 0xBF); (0x80, 0xBF)]
  else if byte_in 0xE1 0xEC a || byte_in 0xEE 0xEF a then Some [(0x80, 0xBF); (0x80, 0xBF)]
  else if byte_in 0xED 0xED a then Some [(0x80, 0x9F); (0x80, 0xBF)]
  else if byte_in 0xF0 0xF0 a then Some [(0x90, 0xBF); (0x80, 0xBF); (0x80, 0xBF)]
  else if byte_in 0xF1 0xF3 a then Some [(0x80, 0xBF); (0x80, 0xBF); (0x80, 0xBF)]
  else if byte_in 0xF4 0xF4 a then Some [(0x80, 0x8F); (0x80, 0xBF); (0x80, 0xBF)]
  else None.

(** A piece added to [token_buffer] in front of what the rest of the scan adds;
    the second component is the text after the closing quote. *)
Definition add (piece : string) (r : option (string * string)) : option (string * string) :=
  match r with Some (buffer, rest) => Some (piece +:+ buffer, rest) | None => None end.

(** [scan_string] after the opening quote. *)
Fixpoint scan_string (s : string) : option (string * string) :=
  match s with
  | EmptyString => None
  | String a s1 =>
      if Ascii.eqb a "034" then Some (EmptyString, s1)
      else if Ascii.eqb a "\" then
        match s1 with
        | EmptyString => None
        | String e s2 =>
            match simple_escape e with
            | Some c => add (String c EmptyString) (scan_string s2)
            | None =>
                if Ascii.eqb e "u" then
                  match s2 with
                  | String c1 (String c2 (String c3 (String c4 s3))) =>
                      match get_codepoint c1 c2 c3 c4 with
                      | None => None
                      | Some codepoint1 =>
                          if (0xD800 <=? codepoint1) && (codepoint1 <=? 0xDBFF) then
                            match s3 with
                            | String b (String u (String d1 (String d2 (String d3 (String d4 s4))))) =>
                                if Ascii.eqb b "\" && Ascii.eqb u "u" then
                                  match get_codepoint d1 d2 d3 d4 with
                                  | None => None
                                  | Some codepoint2 =>
                                      if (0xDC00 <=? codepoint2) && (codepoint2 <=? 0xDFFF) then
                                        let codepoint :=
                                          u32 (u32 (Z.shiftl codepoint1 10) + codepoint2 - 0x35FDC00) in
                                        add (string_of_bytes (encode_utf8 codepoint)) (scan_string s4)
                                      else None
                                  end
                                else None
                            | _ => None
                            end
                          else if (0xDC00 <=? codepoint1) && (codepoint1 <=? 0xDFFF) then None
                          else add (string_of_bytes (encode_utf8 codepoint1)) (scan_string s3)
                      end
                  | _ => None
                  end
                else None
            end
        end
      else if byte_in 0x00 0x1F a then None
      else if byte_in 0x20 0x7F a then add (String a EmptyString) (scan_string s1)
      else
        match continuation a, s1 with
        | Some [(lo1, hi1)], String b s2 =>
            if byte_in lo1 hi1 b
            then add (String a (String b EmptyString)) (scan_string s2) else None
        | Some [(lo1, hi1); (lo2, hi2)], String b (String c s3) =>
            if byte_in lo1 hi1 b && byte_in lo2 hi2 c
            then add (String a (String b (String c EmptyString))) (scan_string s3) else None
        | Some [(lo1, hi1); (lo2, hi2); (lo3, hi3)], String b (String c (String d s4)) =>
            if byte_in lo1 hi1 b && byte_in lo2 hi2 c && byte_in lo3 hi3 d
            then add (String a (String b (String c (String d EmptyString)))) (scan_string s4) else None
        | _, _ => None
        end
  end.

(** ** Numbers *)

(** The labels of the state machine. *)
Inductive number_state : Set :=
| n_minus | n_zero | n_any1 | n_decimal1 | n_decimal2 | n_exponent | n_sign | n_any2.

Inductive number_type : Set := t_unsigned | t_integer | t_float.

(** Where a state goes on a byte: [Some] of the next label, [None] for
    [scan_number_done] or an error, which [number_done] tells apart. *)
Definition number_next (st : number_state) (a : ascii) : option number_state :=
  let digit := is_digit a in
  let e := Ascii.eqb a "e" || Ascii.eqb a "E" in
  match st with
  | n_minus => if Ascii.eqb a "0" then Some n_zero else if digit then Some n_any1 else None
  | n_zero => if Ascii.eqb a "." then Some n_decimal1 else if e then Some n_exponent else None
  | n_any1 =>
      if digit then Some n_any1 else if Ascii.eqb a "." then Some n_decimal1
      else if e then Some n_exponent else None
  | n_decimal1 => if digit then Some n_decimal2 else None
  | n_decimal2 => if digit then Some n_decimal2 else if e then Some n_exponent else None
  | n_exponent =>
      if Ascii.eqb a "+" || Ascii.eqb a "-" then Some n_sign else if digit then Some n_any2 else None
  | n_sign => if digit then Some n_any2 else None
  | n_any2 => if digit then Some n_any2 else None
  end.

(** The states whose default branch is [scan_number_done]. *)
Definition number_done (st : number_state) : bool :=
  match st with n_zero | n_any1 | n_decimal2 | n_any2 => true | _ => false end.

(** [number_type] is assigned on entry to three of the states. *)
Definition number_type_at (st : number_state) (t : number_type) : number_type :=
  match st with
  | n_minus => t_integer
  | n_decimal1 | n_exponent => t_float
  | _ => t
  end.

(** From a state to [scan_number_done]: the bytes added to [token_buffer], the
    type, and the text, in which the last byte read is left. *)
Fixpoint scan_digits (st : number_state) (t : number_type) (s : string)
    : option (string * number_type * string) :=
  let t := number_type_at st t in
  match s with
  | EmptyString => if number_done st then Some (EmptyString, t, s) else None
  | String a s' =>
      match number_next st a with
      | Some st' =>
          match scan_digits st' t s' with
          | Some (buffer, t', rest) => Some (String a buffer, t', rest)
          | None => None
          end
      | None => if number_done st then Some (EmptyString, t, s) else None
      end
  end.

(** [strtod] on a complete literal. *)
Definition strtod (s : string) : spec_float :=
  match read_decimal s with
  | Some (negative, d, x) => decimal_value 53 1024 negative d x
  | None => S754_zero false
  end.

(** [strtoull] and [strtoll] on a literal of digits with an optional minus:
    [None] when they set [errno]. *)
Definition strtoull (s : string) : option Z := stream_uint64 s.
Definition strtoll (s : string) : option Z := stream_int64 s.

Definition number_token (t : number_type) (buffer : string) : token :=
  match t with
  | t_unsigned => match strtoull buffer with Some z => value_unsigned z | None => value_float (strtod buffer) end
  | t_integer => match strtoll buffer with Some z => value_integer z | None => value_float (strtod buffer) end
  | t_float => value_float (strtod buffer)
  end.

(** [scan_number], the first byte [a] having been read. *)
Definition scan_number (a : ascii) (s : string) : token * string :=
  let st := if Ascii.eqb a "-" then n_minus else if Ascii.eqb a "0" then n_zero else n_any1 in
  match scan_digits st t_unsigned s with
  | Some (buffer, t, rest) => (number_token t (String a buffer), rest)
  | None => (parse_error, s)
  end.

(** ** Scanner *)

Fixpoint scan_literal (literal_text : string) (return_type : token) (s : string) : token * string :=
  match literal_text, s with
  | EmptyString, _ => (return_type, s)
  | String a l, String b s' => if Ascii.eqb a b then scan_literal l return_type s' else (parse_error, s')
  | String _ _, EmptyString => (parse_error, s)
  end.

(** [skip_bom]: [None] when the text starts with a part of the mark. *)
Definition skip_bom (s : string) : option string :=
  match s with
  | String a s1 =>
      if code a =? 0xEF then
        match s1 with
        | String b (String c s3) => if (code b =? 0xBB) && (code c =? 0xBF) then Some s3 else None
        | _ => None
        end
      else Some s
  | EmptyString => Some s
  end.

Definition is_whitespace (a : ascii) : bool :=
  Ascii.eqb a " " || Ascii.eqb a "009" || Ascii.eqb a "010" || Ascii.eqb a "013".

Fixpoint skip_whitespace (s : string) : string :=
  match s with
  | String a s' => if is_whitespace a then skip_whitespace s' else s
  | EmptyString => EmptyString
  end.

(** [scan], but for the byte order mark at the start of the text. *)
Definition scan (s : string) : token * string :=
  match skip_whitespace s with
  | EmptyString => (end_of_input, EmptyString)
  | String a s' =>
      if Ascii.eqb a "[" then (begin_array, s')
      else if Ascii.eqb a "]" then (end_array, s')
      else if Ascii.eqb a "{" then (begin_object, s')
      else if Ascii.eqb a "}" then (end_object, s')
      else if Ascii.eqb a ":" then (name_separator, s')
      else if Ascii.eqb a "," then (value_separator, s')
      else if Ascii.eqb a "t" then scan_literal "rue" literal_true s'
      else if Ascii.eqb a "f" then scan_literal "alse" literal_false s'
      else if Ascii.eqb a "n" then scan_literal "ull" literal_null s'
      else if Ascii.eqb a "034" then
        match scan_string s' with
        | Some (buffer, rest) => (value_string buffer, rest)
        | None => (parse_error, s')
        end
      else if Ascii.eqb a "-" || is_digit a then scan_number a s'
      else if Ascii.eqb a "000" then (end_of_input, s')
      else (parse_error, s')
  end.

(** The first call of [scan]. *)
Definition scan_first (s : string) : token * string :=
  match skip_bom s with
  | Some s' => scan s'
  | None => (parse_error, s)
  end.

(** ** Building the value: [json_sax_dom_parser]

    [ref_stack] holds references to the open containers.  Here an open container
    is kept in its frame, and goes to its place in the container below when it
    is closed; nothing reads it in between.  [object_element] refers to the
    element of the last key. *)

Inductive frame : Type :=
| FArray (l : list json)
| FObject (o : object) (object_element : option string).

Record dom : Type := Dom { root : json; ref_stack : list frame }.

Definition handle_value (v : json) (d : dom) : res dom :=
  match ref_stack d with
  | [] => Ok (Dom v [])
  | FArray l :: fs => Ok (Dom (root d) (FArray (l ++ [v]) :: fs))
  | FObject o (Some k) :: fs => Ok (Dom (root d) (FObject (obj_set k v o) (Some k) :: fs))
  | FObject o None :: fs => Undef UbDeref
  end.

Definition start_array (d : dom) : dom := Dom (root d) (FArray [] :: ref_stack d).
Definition start_object (d : dom) : dom := Dom (root d) (FObject [] None :: ref_stack d).

(** [key]: the element of the key, null if it is new. *)
Definition sax_key (k : string) (d : dom) : res dom :=
  match ref_stack d with
  | FObject o _ :: fs =>
      Ok (Dom (root d) (FObject (if obj_mem k o then o else obj_set k JNull o) (Some k) :: fs))
  | _ => Undef UbDeref
  end.

Definition end_container (d : dom) : res dom :=
  match ref_stack d with
  | FArray l :: fs => handle_value (JArray l) (Dom (root d) fs)
  | FObject o _ :: fs => handle_value (JObject o) (Dom (root d) fs)
  | [] => Undef UbDeref
  end.

(** ** Parser *)

Record parser : Type := Parser {
  text : string;
  last_token : token;
  (** true for an array, false for an object; the innermost first *)
  states : list bool;
  skip_to_state_evaluation : bool;
  sax : dom
}.

Definition get_token (p : parser) : parser :=
  let '(t, rest) := scan (text p) in
  Parser rest t (states p) (skip_to_state_evaluation p) (sax p).

Definition with_sax (d : dom) (p : parser) : parser :=
  Parser (text p) (last_token p) (states p) (skip_to_state_evaluation p) d.
Definition push_state (b : bool) (p : parser) : parser :=
  Parser (text p) (last_token p) (b :: states p) (skip_to_state_evaluation p) (sax p).
Definition pop_state (p : parser) : parser :=
  Parser (text p) (last_token p) (tail (states p)) true (sax p).
Definition no_skip (p : parser) : parser :=
  Parser (text p) (last_token p) (states p) false (sax p).

Definition syntax_error {A : Type} : res A := Throw (JsonParseError 101).

(** What an iteration of the loop does: [continue], [return true], or fall
    through to the evaluation of the state. *)
Inductive flow : Type := Continue (p : parser) | Return (p : parser).

(** A key, the separator, and the first token of the value. *)
Definition parse_key (p : parser) : res parser :=
  match last_token p with
  | value_string k =>
      let* d := sax_key k (sax p) in
      let p := get_token (with_sax d p) in
      match last_token p with
      | name_separator => Ok p
      | _ => syntax_error
      end
  | _ => syntax_error
  end.

(** After a value. *)
Definition evaluate_state (p : parser) : res flow :=
  match states p with
  | [] => Ok (Return p)
  | true :: _ =>
      let p := get_token p in
      match last_token p with
      | value_separator => Ok (Continue (get_token p))
      | end_array => let* d := end_container (sax p) in Ok (Continue (pop_state (with_sax d p)))
      | _ => syntax_error
      end
  | false :: _ =>
      let p := get_token p in
      match last_token p with
      | value_separator => let* p := parse_key (get_token p) in Ok (Continue (get_token p))
      | end_object => let* d := end_container (sax p) in Ok (Continue (pop_state (with_sax d p)))
      | _ => syntax_error
      end
  end.

(** A value that is no container. *)
Definition scalar (v : json) (p : parser) : res flow :=
  let* d := handle_value v (sax p) in evaluate_state (with_sax d p).

Definition is_finite (f : spec_float) : bool :=
  match f with S754_zero _ | S754_finite _ _ _ => true | _ => false end.

Definition sax_step (p : parser) : res flow :=
  if skip_to_state_evaluation p then evaluate_state (no_skip p)
  else
    match last_token p with
    | begin_object =>
        let p := get_token (with_sax (start_object (sax p)) p) in
        match last_token p with
        | end_object => let* d := end_container (sax p) in evaluate_state (with_sax d p)
        | _ => let* p := parse_key p in Ok (Continue (get_token (push_state false p)))
        end
    | begin_array =>
        let p := get_token (with_sax (start_array (sax p)) p) in
        match last_token p with
        | end_array => let* d := end_container (sax p) in evaluate_state (with_sax d p)
        | _ => Ok (Continue (push_state true p))
        end
    | value_float f => if is_finite f then scalar (JFloat f) p else Throw (JsonOutOfRange 406)
    | literal_false => scalar (JBool false) p
    | literal_null => scalar JNull p
    | literal_true => scalar (JBool true) p
    | value_integer z => scalar (JInt z) p
    | value_string s => scalar (JString s) p
    | value_unsigned z => scalar (JUint z) p
    | _ => syntax_error
    end.

Fixpoint sax_parse_internal (fuel : nat) (p : parser) : res parser :=
  match fuel with
  | O => Fatal "out of fuel"
  | S fuel =>
      let* f := sax_step p in
      match f with
      | Return p => Ok p
      | Continue p => sax_parse_internal fuel p
      end
  end.

(** [json::parse(text)]: the constructor of the parser reads the first token;
    after the value only the end of the input may follow. *)
Definition json_parse (s : string) : res json :=
  let '(t, rest) := scan_first s in
  let p := Parser rest t [] false (Dom JNull []) in
  let* p := sax_parse_internal (S (S (String.length s))) p in
  match last_token (get_token p) with
  | end_of_input => Ok (root (sax p))
  | _ => syntax_error
  end.

Definition q : string := quote.

Example json_parse_examples :
  (json_parse (" {" +:+ q +:+ "b" +:+ q +:+ ": [1, -2, [], {}], " +:+ q +:+ "a" +:+ q +:+ ":" +:+ q +:+
               "x\u00e9\ud83d\ude00\n" +:+ q +:+ "}"),
   json_parse ("{" +:+ q +:+ "k" +:+ q +:+ ":1," +:+ q +:+ "k" +:+ q +:+ ":null}"),
   map json_parse ["[1,]"; "01"; "1e400"; "18446744073709551616"; "-9223372036854775808"; ""; "[1] 2"; "-0"])
  = (Ok (JObject [("a", JString ("x" +:+ string_of_bytes [0xC3; 0xA9; 0xF0; 0x9F; 0x98; 0x80; 10]));
                  ("b", JArray [JUint 1; JInt (-2); JArray []; JObject []])]),
     Ok (JObject [("k", JNull)]),
     [Throw (JsonParseError 101); Throw (JsonParseError 101); Throw (JsonOutOfRange 406);
      Ok (JFloat (S754_finite false 4503599627370496 12)); Ok (JInt (- 2 ^ 63));
      Throw (JsonParseError 101); Throw (JsonParseError 101); Ok (JInt 0)]).
Proof. vm_compute. reflexivity. Qed.
