(* ===== verification/JsonTextFacts.v ===== *)
(** Theorems on JSON text: the parser returns on every text, accepts exactly the
    texts whose tokens the JSON grammar derives and builds their value. *)

From Stdlib Require Import ZArith Lia SpecFloat Ascii.
From stdpp Require Import pretty.
From S2P Require Import Prelude Words Json Regex Streams Decimal Rounding JsonText.

(** ** The grammar, over tokens

    The value of an object takes the last of several members with one key. *)

Inductive value : list token -> json -> Prop :=
| v_null : value [literal_null] JNull
| v_true : value [literal_true] (JBool true)
| v_false : value [literal_false] (JBool false)
| v_string s : value [value_string s] (JString s)
| v_unsigned z : value [value_unsigned z] (JUint z)
| v_integer z : value [value_integer z] (JInt z)
| v_float f : is_finite f = true -> value [value_float f] (JFloat f)
| v_array_empty : value [begin_array; end_array] (JArray [])
| v_array ts l : elements ts l -> value (begin_array :: ts ++ [end_array]) (JArray l)
| v_object_empty : value [begin_object; end_object] (JObject [])
| v_object ts o : members ts o -> value (begin_object :: ts ++ [end_object]) (JObject o)
with elements : list token -> list json -> Prop :=
| e_one ts v : value ts v -> elements ts [v]
| e_more ts l ts' v :
    elements ts l -> value ts' v -> elements (ts ++ value_separator :: ts') (l ++ [v])
with members : list token -> object -> Prop :=
| m_one k ts v : value ts v -> members (value_string k :: name_separator :: ts) [(k, v)]
| m_more ts o k ts' v :
    members ts o -> value ts' v ->
    members (ts ++ value_separator :: value_string k :: name_separator :: ts') (obj_set k v o).

Scheme value_mind := Induction for value Sort Prop
with elements_mind := Induction for elements Sort Prop
with members_mind := Induction for members Sort Prop.
Combined Scheme grammar_ind from value_mind, elements_mind, members_mind.

(** The tokens the scanner delivers one after the other. *)
Inductive lexes : string -> list token -> string -> Prop :=
| lexes_nil s : lexes s [] s
| lexes_cons s t s1 ts rest : scan s = (t, s1) -> lexes s1 ts rest -> lexes s (t :: ts) rest.

Lemma lexes_app s ts ts' rest :
  lexes s (ts ++ ts') rest <-> exists s1, lexes s ts s1 /\ lexes s1 ts' rest.
Proof.
  revert s. induction ts as [|t ts IH]; intros s; simpl.
  - split; [intros H; exists s; split; [constructor|done]|]. intros (s1 & H1 & H2). by inversion H1; subst.
  - split.
    + intros H. inversion H as [|? ? s1 ? ? Hs Hr]; subst. apply IH in Hr as (s2 & H1 & H2).
      exists s2. split; [by econstructor|done].
    + intros (s1 & H1 & H2). inversion H1 as [|? ? s2 ? ? Hs Hr]; subst. econstructor; [done|].
      apply IH. eauto.
Qed.

Lemma lexes_one s t rest : lexes s [t] rest <-> scan s = (t, rest).
Proof.
  split; [|intros; econstructor; [done|constructor]].
  intros H. inversion H as [|? ? s1 ? ? Hs Hr]; subst. by inversion Hr; subst.
Qed.

Lemma value_nonempty ts v : value ts v -> ts <> [].
Proof. by destruct 1. Qed.

(** A value of the grammar starts with none of these. *)
Lemma value_head ts v : value ts v -> exists t ts', ts = t :: ts' /\ t <> end_array.
Proof. destruct 1; eauto. Qed.

Lemma elements_head ts l : elements ts l -> exists t ts', ts = t :: ts' /\ t <> end_array.
Proof.
  induction 1 as [ts v H|ts l ts' v H IH Hv]; [by eapply value_head|].
  destruct IH as (t & ts1 & -> & Ht). simpl. eauto.
Qed.

Lemma members_head ts o : members ts o -> exists k ts', ts = value_string k :: ts'.
Proof. induction 1 as [|? ? ? ? ? ? IH]; [eauto|]. destruct IH as (k' & ts1 & ->). simpl. eauto. Qed.

(** ** The element of a new key is null until its value arrives. *)

Lemma obj_set_twice k v w o : obj_set k v (if obj_mem k o then o else obj_set k w o) = obj_set k v o.
Proof.
  destruct (obj_mem k o) eqn:E; [done|]. unfold obj_set at 2. rewrite E.
  unfold obj_set. rewrite E. unfold obj_mem. rewrite obj_get_insert_eq by done. unfold obj_mem in E.
  induction o as [|[k' v'] o IH]; simpl; [by rewrite String.eqb_refl|]. simpl in E.
  destruct (String.eqb k k') eqn:Ek; [done|].
  destruct (String.ltb k k'); simpl; [by rewrite String.eqb_refl|]. rewrite Ek. f_equal. by apply IH.
Qed.

(** ** Runs of the loop *)

Inductive steps : parser -> parser -> Prop :=
| steps_refl p : steps p p
| steps_next p p1 p2 : sax_step p = Ok (Continue p1) -> steps p1 p2 -> steps p p2.

Lemma steps_trans p p1 p2 : steps p p1 -> steps p1 p2 -> steps p p2.
Proof. induction 1; [done|]. intros. econstructor; eauto. Qed.

(** A run that gets to the evaluation of the state with parser [p1]. *)
Definition evaluates (p p1 : parser) : Prop :=
  exists p0, steps p p0 /\ sax_step p0 = evaluate_state p1.

Lemma evaluates_continue p p1 p2 p3 :
  evaluates p p1 -> evaluate_state p1 = Ok (Continue p2) -> evaluates p2 p3 -> evaluates p p3.
Proof.
  intros (p0 & H0 & E0) E1 (p4 & H4 & E4). exists p4. split; [|done].
  eapply steps_trans; [exact H0|]. econstructor; [by rewrite E0, E1|done].
Qed.

Lemma evaluates_steps p p1 p2 : steps p p1 -> evaluates p1 p2 -> evaluates p p2.
Proof. intros H (p0 & H0 & E0). exists p0. split; [by eapply steps_trans|done]. Qed.

Lemma steps_fuel p p1 n : steps p p1 -> exists m, sax_parse_internal (m + n) p = sax_parse_internal n p1.
Proof.
  induction 1 as [p|p p1 p2 E _ (m & IH)]; [by exists O|]. exists (S m). simpl. by rewrite E.
Qed.

(** Once the loop has returned, more fuel changes nothing. *)
Lemma sax_parse_more n m p r :
  sax_parse_internal n p = r -> (forall d, r <> Fatal d) -> (n <= m)%nat -> sax_parse_internal m p = r.
Proof.
  revert m p. induction n as [|n IH]; intros m p E Hr Hm; simpl in E; [by destruct (Hr "out of fuel")|].
  destruct m as [|m]; [lia|]. simpl. destruct (sax_step p) as [[p1|p1]|e|u|d]; simpl in *; try done.
  apply IH; [done..|lia].
Qed.

(** Reading the next token off a text whose tokens are known. *)
Lemma get_token_eq p t rest : scan (text p) = (t, rest) ->
  get_token p = Parser rest t (states p) (skip_to_state_evaluation p) (sax p).
Proof. unfold get_token. by intros ->. Qed.

(** ** Completeness: the loop builds the value of every derivation *)

(** The current token and the text ahead give the tokens [ts]. *)
Definition lexed (p : parser) (ts : list token) (rest : string) : Prop :=
  exists ts', ts = last_token p :: ts' /\ lexes (text p) ts' rest.

Lemma scalar_evaluates p v d :
  sax_step p = scalar v p -> skip_to_state_evaluation p = false -> handle_value v (sax p) = Ok d ->
  exists t, evaluates p (Parser (text p) t (states p) false d).
Proof.
  intros E Hs Hd. exists (last_token p). exists p. split; [constructor|].
  rewrite E. unfold scalar. rewrite Hd. simpl. unfold with_sax. by rewrite Hs.
Qed.

(** Closing the innermost container after its last element. *)
Lemma close_evaluates b p rest t0 bs f r fs v d :
  evaluates p (Parser rest t0 (b :: bs) false (Dom r (f :: fs))) ->
  (f = FArray v.1 /\ b = true \/ (exists k, f = FObject v.2 k) /\ b = false) ->
  handle_value (if b then JArray v.1 else JObject v.2) (Dom r fs) = Ok d ->
  forall rest', scan rest = (if b then end_array else end_object, rest') ->
  exists t, evaluates p (Parser rest' t bs false d).
Proof.
  intros Hev Hf Hd rest' Hscan. exists (if b then end_array else end_object).
  apply (evaluates_continue _ _ (Parser rest' (if b then end_array else end_object) bs true d) _ Hev).
  - unfold evaluate_state. simpl states.
    destruct Hf as [[-> ->]|[[k ->] ->]]; cbv beta iota zeta;
      erewrite get_token_eq by exact Hscan; cbn [last_token sax]; unfold end_container; cbn [ref_stack root];
      simpl in Hd |- *; rewrite Hd; reflexivity.
  - eexists. by split; [apply steps_refl|].
Qed.

Lemma parse_key_eq p k r o k0 fs rest :
  last_token p = value_string k -> sax p = Dom r (FObject o k0 :: fs) ->
  scan (text p) = (name_separator, rest) ->
  parse_key p = Ok (Parser rest name_separator (states p) (skip_to_state_evaluation p)
    (Dom r (FObject (if obj_mem k o then o else obj_set k JNull o) (Some k) :: fs))).
Proof.
  intros Ht Hs Hscan. unfold parse_key. rewrite Ht, Hs. simpl. by erewrite get_token_eq by exact Hscan.
Qed.

(** What a derivation means for the loop. *)
Definition runs_value (ts : list token) (v : json) : Prop := forall p rest d,
  skip_to_state_evaluation p = false -> lexed p ts rest -> handle_value v (sax p) = Ok d ->
  exists t, evaluates p (Parser rest t (states p) false d).

Definition runs_elements (ts : list token) (l : list json) : Prop := forall p rest r fs bs,
  skip_to_state_evaluation p = false -> states p = true :: bs -> sax p = Dom r (FArray [] :: fs) ->
  lexed p ts rest -> exists t, evaluates p (Parser rest t (true :: bs) false (Dom r (FArray l :: fs))).

(** From the first key on, before the object is pushed on [states]. *)
Definition runs_members (ts : list token) (o : object) : Prop := forall p rest r fs bs,
  skip_to_state_evaluation p = false -> states p = bs -> sax p = Dom r (FObject [] None :: fs) ->
  lexed p ts rest ->
  exists p1 t k, parse_key p = Ok p1 /\
    evaluates (get_token (push_state false p1)) (Parser rest t (false :: bs) false (Dom r (FObject o k :: fs))).

Lemma run_float (f : spec_float) : is_finite f = true -> runs_value [value_float f] (JFloat f).
Proof.
  intros Hf p rest d Hs (ts' & E & Hl) Hd. injection E as E <-. inversion Hl; subst.
  eapply scalar_evaluates; try done. unfold sax_step. by rewrite Hs, <- E, Hf.
Qed.

Lemma run_array_empty : runs_value [begin_array; end_array] (JArray []).
Proof.
  intros p rest d Hs (ts' & E & Hl) Hd. injection E as E <-. apply lexes_one in Hl.
  exists end_array, p. split; [constructor|]. unfold sax_step. rewrite Hs, <- E. cbv zeta.
  erewrite get_token_eq by exact Hl. cbn [last_token sax]. unfold end_container, start_array. simpl.
  replace (Dom _ _) with (sax p) by (by destruct (sax p)). rewrite Hd. simpl. unfold with_sax. simpl. by rewrite Hs.
Qed.

Lemma run_array ts l : elements ts l -> runs_elements ts l -> runs_value (begin_array :: ts ++ [end_array]) (JArray l).
Proof.
  intros He IH p rest d Hs (ts' & E & Hl) Hd. injection E as E <-.
  apply lexes_app in Hl as (s1 & Hl & Hend%lexes_one).
  destruct (elements_head _ _ He) as (t0 & ts0 & -> & Hne). inversion Hl as [|? ? s2 ? ? Hscan Hl']; subst.
  set (p1 := Parser s2 t0 (true :: states p) false (start_array (sax p))).
  destruct (IH p1 s1 (root (sax p)) (ref_stack (sax p)) (states p)) as (t1 & Hev); try done; [by exists ts0|].
  eapply (close_evaluates true p s1 t1 _ _ _ _ (l, [])) in Hend; [exact Hend| |by left|].
  + eapply evaluates_steps; [|exact Hev]. econstructor; [|constructor]. unfold sax_step. rewrite Hs, <- E. cbv zeta.
    erewrite get_token_eq by exact Hscan. cbn [last_token]. unfold push_state, p1. simpl. rewrite Hs.
    by destruct t0.
  + simpl. by destruct (sax p).
Qed.

Lemma run_object_empty : runs_value [begin_object; end_object] (JObject []).
Proof.
  intros p rest d Hs (ts' & E & Hl) Hd. injection E as E <-. apply lexes_one in Hl.
  exists end_object, p. split; [constructor|]. unfold sax_step. rewrite Hs, <- E. cbv zeta.
  erewrite get_token_eq by exact Hl. cbn [last_token sax]. unfold end_container, start_object. simpl.
  replace (Dom _ _) with (sax p) by (by destruct (sax p)). rewrite Hd. simpl. unfold with_sax. simpl. by rewrite Hs.
Qed.

Lemma run_object ts o : members ts o -> runs_members ts o -> runs_value (begin_object :: ts ++ [end_object]) (JObject o).
Proof.
  intros Hm IH p rest d Hs (ts' & E & Hl) Hd. injection E as E <-.
  apply lexes_app in Hl as (s1 & Hl & Hend%lexes_one).
  destruct (members_head _ _ Hm) as (k0 & ts0 & ->). inversion Hl as [|? ? s2 ? ? Hscan Hl']; subst.
  set (p1 := Parser s2 (value_string k0) (states p) false (start_object (sax p))).
  destruct (IH p1 s1 (root (sax p)) (ref_stack (sax p)) (states p)) as (p2 & t1 & k & Hk & Hev);
    try done; [by exists ts0|].
  eapply (close_evaluates false p s1 t1 _ _ _ _ ([], o)) in Hend; [exact Hend| |by right; eauto|].
  + eapply evaluates_steps; [|exact Hev]. econstructor; [|constructor]. unfold sax_step. rewrite Hs, <- E. cbv zeta.
    erewrite get_token_eq by exact Hscan. cbn [last_token]. unfold p1 in Hk. simpl. rewrite Hs.
    unfold with_sax. simpl. by rewrite Hk.
  + simpl. by destruct (sax p).
Qed.

Lemma run_element ts v : value ts v -> runs_value ts v -> runs_elements ts [v].
Proof.
  intros _ IH p rest r fs bs Hs Hb Hsax Hl.
  destruct (IH p rest (Dom r (FArray [v] :: fs))) as (t & Hev); try done; [by rewrite Hsax|].
  rewrite Hb in Hev. eauto.
Qed.

Lemma run_elements ts l ts' v :
  elements ts l -> runs_elements ts l -> value ts' v -> runs_value ts' v ->
  runs_elements (ts ++ value_separator :: ts') (l ++ [v]).
Proof.
  intros He IHe Hv IHv p rest r fs bs Hs Hb Hsax (ts1 & E & Hl).
  destruct (elements_head _ _ He) as (t0 & ts0 & -> & _). injection E as -> <-.
  apply lexes_app in Hl as (s1 & Hl1 & Hl2). inversion Hl2 as [|? ? s2 ? ? Hsep Hl3]; subst.
  destruct (value_head _ _ Hv) as (t' & ts'' & -> & _). inversion Hl3 as [|? ? s3 ? ? Ht' Hl4]; subst.
  destruct (IHe p s1 r fs bs) as (t & Hev); try done; [by exists ts0|].
  destruct (IHv (Parser s3 t' (true :: bs) false (Dom r (FArray l :: fs))) rest
              (Dom r (FArray (l ++ [v]) :: fs))) as (t1 & Hev'); try done; [by exists ts''|].
  exists t1. eapply evaluates_continue; [exact Hev| |exact Hev'].
  unfold evaluate_state. simpl states. cbv iota zeta. erewrite get_token_eq by exact Hsep. cbn [last_token].
  by erewrite get_token_eq by exact Ht'.
Qed.

Lemma run_member k ts v :
  value ts v -> runs_value ts v -> runs_members (value_string k :: name_separator :: ts) [(k, v)].
Proof.
  intros Hv IH p rest r fs bs Hs Hb Hsax (ts1 & E & Hl). injection E as E <-.
  inversion Hl as [|? ? s1 ? ? Hsep Hl1]; subst.
  destruct (value_head _ _ Hv) as (t0 & ts0 & -> & _). inversion Hl1 as [|? ? s2 ? ? Ht0 Hl2]; subst.
  rewrite (parse_key_eq p k r [] None fs s1) by done.
  destruct (IH (Parser s2 t0 (false :: states p) false (Dom r (FObject [(k, JNull)] (Some k) :: fs))) rest
              (Dom r (FObject [(k, v)] (Some k) :: fs))) as (t & Hev); try done; [by exists ts0| |].
  { cbn [sax handle_value ref_stack root]. unfold obj_set, obj_mem, obj_get, obj_update.
    by rewrite !String.eqb_refl. }
  eexists _, t, (Some k). split; [done|]. erewrite get_token_eq by exact Ht0. simpl. by rewrite Hs.
Qed.

Lemma run_members ts o k ts' v :
  members ts o -> runs_members ts o -> value ts' v -> runs_value ts' v ->
  runs_members (ts ++ value_separator :: value_string k :: name_separator :: ts') (obj_set k v o).
Proof.
  intros Hm IHm Hv IHv p rest r fs bs Hs Hb Hsax (ts1 & E & Hl).
  destruct (members_head _ _ Hm) as (k0 & ts0 & ->). injection E as E <-.
  apply lexes_app in Hl as (s1 & Hl1 & Hl2). inversion Hl2 as [|? ? s2 ? ? Hsep Hl3]; subst.
  inversion Hl3 as [|? ? s3 ? ? Hkey Hl4]; subst. inversion Hl4 as [|? ? s4 ? ? Hname Hl5]; subst.
  destruct (value_head _ _ Hv) as (t' & ts'' & -> & _). inversion Hl5 as [|? ? s5 ? ? Ht' Hl6]; subst.
  destruct (IHm p s1 r fs (states p)) as (p1 & t & k1 & Hk1 & Hev); try done; [exists ts0; by rewrite E|].
  destruct (IHv (Parser s5 t' (false :: states p) false
                   (Dom r (FObject (if obj_mem k o then o else obj_set k JNull o) (Some k) :: fs))) rest
              (Dom r (FObject (obj_set k v o) (Some k) :: fs))) as (t1 & Hev'); try done; [by exists ts''| |].
  { cbn [sax handle_value ref_stack root]. by rewrite obj_set_twice. }
  exists p1, t1, (Some k). split; [done|]. eapply evaluates_continue; [exact Hev| |exact Hev'].
  unfold evaluate_state. simpl states. cbv iota zeta. erewrite get_token_eq by exact Hsep. cbn [last_token].
  erewrite get_token_eq by exact Hkey.
  erewrite (parse_key_eq _ k r o k1 fs s4) by done. simpl bind.
  by erewrite get_token_eq by exact Ht'.
Qed.

Lemma grammar_runs :
  (forall ts v, value ts v -> runs_value ts v) /\
  (forall ts l, elements ts l -> runs_elements ts l) /\
  (forall ts o, members ts o -> runs_members ts o).
Proof.
  apply grammar_ind; auto using run_float, run_array_empty, run_array, run_object_empty, run_object,
    run_element, run_elements, run_member, run_members.
  all: intros; intros p rest d Hs (ts' & E & Hl) Hd; injection E as E <-; inversion Hl; subst;
    eapply scalar_evaluates; try done; unfold sax_step; by rewrite Hs, <- E.
Qed.

(** ** What the scanner delivers *)

Lemma add_Some piece r buffer rest : add piece r = Some (buffer, rest) ->
  exists b, r = Some (b, rest) /\ buffer = piece +:+ b.
Proof. destruct r as [[b s]|]; simpl; [|done]. intros [= <- <-]. eauto. Qed.

Lemma code_char_of z : 0 <= z < 256 -> code (char_of z) = z.
Proof.
  intros Hz. unfold code, char_of. rewrite u8_small by lia. rewrite N_ascii_embedding by lia. lia.
Qed.

Lemma byte_in_spec lo hi a : byte_in lo hi a = (lo <=? code a) && (code a <=? hi).
Proof. done. Qed.

Lemma code_range a : 0 <= code a < 256.
Proof. unfold code. pose proof (N_ascii_bounded a). lia. Qed.

Lemma land_63 x : Z.land x 0x3F = x `mod` 64.
Proof. change 0x3F with (Z.ones 6). by rewrite Z.land_ones. Qed.

Lemma lor_byte c n x : 0 <= n -> c `mod` 2 ^ n = 0 -> 0 <= x < 2 ^ n -> Z.lor c x = c + x.
Proof. intros. by apply (lor_add n). Qed.

(** The bytes of a code point, with division for the shifts. *)
Lemma encode_utf8_arith cp : 0 <= cp <= 0x10FFFF ->
  encode_utf8 cp =
    if cp <? 0x80 then [cp]
    else if cp <=? 0x7FF then [0xC0 + cp / 64; 0x80 + cp `mod` 64]
    else if cp <=? 0xFFFF then [0xE0 + cp / 4096; 0x80 + (cp / 64) `mod` 64; 0x80 + cp `mod` 64]
    else [0xF0 + cp / 262144; 0x80 + (cp / 4096) `mod` 64; 0x80 + (cp / 64) `mod` 64; 0x80 + cp `mod` 64].
Proof.
  intros Hcp. unfold encode_utf8. rewrite !land_63, !Z.shiftr_div_pow2 by lia.
  change (2 ^ 6) with 64. change (2 ^ 12) with 4096. change (2 ^ 18) with 262144.
  assert (forall x, Z.lor 0x80 (x `mod` 64) = 0x80 + x `mod` 64) as H80.
  { intros x. apply (lor_byte _ 6); [lia|done|]. apply Z.mod_pos_bound. lia. }
  rewrite !H80. destruct (Z.ltb_spec cp 0x80); [done|].
  destruct (Z.leb_spec cp 0x7FF).
  { rewrite (lor_byte _ 5); [done|lia|done|]. split; [apply Z.div_pos; lia|apply Z.div_lt_upper_bound; lia]. }
  destruct (Z.leb_spec cp 0xFFFF).
  { rewrite (lor_byte _ 4); [done|lia|done|]. split; [apply Z.div_pos; lia|apply Z.div_lt_upper_bound; lia]. }
  rewrite (lor_byte _ 3); [done|lia|done|]. split; [apply Z.div_pos; lia|apply Z.div_lt_upper_bound; lia].
Qed.

(** [decide_bytes] evaluates the byte tests of known characters. *)
Ltac decide_bytes :=
  rewrite ?byte_in_spec, ?code_char_of by lia;
  repeat match goal with
  | |- context [?x <=? ?y] =>
      lazymatch constr:((x, y)) with
      | context [if _ then _ else _] => fail
      | _ => destruct (Z.leb_spec x y); try lia; simpl
      end
  end.

Lemma encode_utf8_ok cp s : 0 <= cp <= 0x10FFFF -> (cp < 0xD800 \/ 0xDFFF < cp) ->
  utf8_ok (string_of_bytes (encode_utf8 cp) +:+ s) = utf8_ok s.
Proof.
  intros Hcp Hs. rewrite encode_utf8_arith by done.
  pose proof (Z.mod_pos_bound cp 64 ltac:(lia)).
  pose proof (Z.mod_pos_bound (cp / 64) 64 ltac:(lia)).
  pose proof (Z.mod_pos_bound (cp / 4096) 64 ltac:(lia)).
  pose proof (Z.div_mod cp 64 ltac:(lia)). pose proof (Z.div_mod (cp / 64) 64 ltac:(lia)).
  pose proof (Z.div_mod (cp / 4096) 64 ltac:(lia)).
  rewrite Z.div_div in * by lia. change (64 * 64) with 4096 in *. change (4096 * 64) with 262144 in *.
  destruct (Z.ltb_spec cp 0x80); [|destruct (Z.leb_spec cp 0x7FF); [|destruct (Z.leb_spec cp 0xFFFF)]];
    cbv [string_of_bytes fold_right String.append]; cbn [utf8_ok]; by decide_bytes.
Qed.

(** [split_bytes] turns byte tests in the context and the goal into
    comparisons. *)
Ltac split_bytes :=
  rewrite ?byte_in_spec in *;
  repeat (match goal with
  | H : context [?x <=? ?y] |- _ =>
      lazymatch constr:((x, y)) with
      | context [if _ then _ else _] => fail
      | _ => destruct (Z.leb_spec x y); try lia; simpl in H
      end
  end; try discriminate); simplify_eq; try discriminate.

Lemma continuation_1 a r1 b s : continuation a = Some [r1] -> byte_in r1.1 r1.2 b = true ->
  utf8_ok (String a (String b s)) = utf8_ok s.
Proof.
  unfold continuation. intros Hc Hb. split_bytes; cbn [utf8_ok]; simpl in *; split_bytes; by decide_bytes.
Qed.

Lemma continuation_2 a r1 r2 b c s : continuation a = Some [r1; r2] ->
  byte_in r1.1 r1.2 b && byte_in r2.1 r2.2 c = true ->
  utf8_ok (String a (String b (String c s))) = utf8_ok s.
Proof.
  unfold continuation. intros Hc [Hb Hd]%andb_true_iff.
  split_bytes; cbn [utf8_ok]; simpl in *; split_bytes; by decide_bytes.
Qed.

Lemma continuation_3 a r1 r2 r3 b c d s : continuation a = Some [r1; r2; r3] ->
  byte_in r1.1 r1.2 b && byte_in r2.1 r2.2 c && byte_in r3.1 r3.2 d = true ->
  utf8_ok (String a (String b (String c (String d s)))) = utf8_ok s.
Proof.
  unfold continuation. intros Hc [[Hb Hd]%andb_true_iff He]%andb_true_iff.
  split_bytes; cbn [utf8_ok]; simpl in *; split_bytes; by decide_bytes.
Qed.

Lemma hex_value_range a h : hex_value a = Some h -> 0 <= h < 16.
Proof. unfold hex_value. intros H. split_bytes; lia. Qed.

Lemma get_codepoint_range c1 c2 c3 c4 cp : get_codepoint c1 c2 c3 c4 = Some cp -> 0 <= cp <= 0xFFFF.
Proof.
  unfold get_codepoint. intros H. repeat case_match; simplify_eq.
  repeat match goal with H : hex_value _ = Some _ |- _ => apply hex_value_range in H end.
  rewrite !Z.shiftl_mul_pow2 by lia. change (2 ^ 12) with 4096. change (2 ^ 8) with 256.
  change (2 ^ 4) with 16. change (2 ^ 0) with 1. lia.
Qed.

(** A surrogate pair is a code point above the first 16 bits. *)
Lemma surrogate_pair cp1 cp2 :
  (0xD800 <=? cp1) && (cp1 <=? 0xDBFF) = true -> (0xDC00 <=? cp2) && (cp2 <=? 0xDFFF) = true ->
  let cp := u32 (u32 (Z.shiftl cp1 10) + cp2 - 0x35FDC00) in
  cp = 0x10000 + (cp1 - 0xD800) * 1024 + (cp2 - 0xDC00) /\ 0x10000 <= cp <= 0x10FFFF.
Proof.
  intros [H1%Z.leb_le H2%Z.leb_le]%andb_true_iff [H3%Z.leb_le H4%Z.leb_le]%andb_true_iff.
  rewrite Z.shiftl_mul_pow2 by lia. change (2 ^ 10) with 1024. cbv zeta.
  rewrite (u32_small (cp1 * 1024)) by lia. rewrite u32_small by lia. lia.
Qed.

Lemma simple_escape_ascii e c s : simple_escape e = Some c -> utf8_ok (String c s) = utf8_ok s.
Proof. unfold simple_escape. intros H. repeat case_match; by simplify_eq. Qed.

Lemma utf8_ok_ascii a s : byte_in 0x20 0x7F a = true -> utf8_ok (String a s) = utf8_ok s.
Proof. intros H. split_bytes. cbn [utf8_ok]. by decide_bytes. Qed.

(** The text left over by a scan of a string, and its result. *)
Lemma scan_string_ok n s b r : (String.length s <= n)%nat -> scan_string s = Some (b, r) ->
  (String.length r < String.length s)%nat /\ utf8_ok b = true.
Proof.
  revert s b r. induction n as [|n IH]; intros s b r Hn E.
  { by destruct s; [|simpl in Hn; lia]. }
  assert (forall piece s' k, (String.length s' + k = String.length s)%nat -> (0 < k)%nat ->
            (forall t, utf8_ok (piece +:+ t) = utf8_ok t) -> add piece (scan_string s') = Some (b, r) ->
            (String.length r < String.length s)%nat /\ utf8_ok b = true) as Hadd.
  { intros piece s' k Hk Hk0 Hp (b' & E' & ->)%add_Some.
    apply IH in E' as [Hr Hb]; [|lia]. rewrite Hp. split; [lia|done]. }
  destruct s as [|a s1]; [done|]. cbn [scan_string] in E.
  destruct (Ascii.eqb a "034"); [injection E as <- <-; split; [simpl; lia|done]|].
  destruct (Ascii.eqb a "\").
  { destruct s1 as [|e s2]; [done|]. destruct (simple_escape e) as [c|] eqn:Ee.
    { eapply (Hadd _ s2 2%nat); [simpl; lia|lia| |exact E]. intros t. by apply (simple_escape_ascii e). }
    destruct (Ascii.eqb e "u"); [|done].
    destruct s2 as [|c1 [|c2 [|c3 [|c4 s3]]]]; try done.
    destruct (get_codepoint c1 c2 c3 c4) as [cp1|] eqn:E1; [|done]. apply get_codepoint_range in E1.
    destruct ((0xD800 <=? cp1) && (cp1 <=? 0xDBFF)) eqn:Hhi.
    - destruct s3 as [|b0 [|u [|d1 [|d2 [|d3 [|d4 s4]]]]]]; try done.
      destruct (Ascii.eqb b0 "\" && Ascii.eqb u "u"); [|done].
      destruct (get_codepoint d1 d2 d3 d4) as [cp2|]; [|done].
      destruct ((0xDC00 <=? cp2) && (cp2 <=? 0xDFFF)) eqn:Hlo; [|done].
      destruct (surrogate_pair cp1 cp2 Hhi Hlo) as [_ Hcp]. cbv zeta in E, Hcp.
      eapply (Hadd _ s4 12%nat); [simpl; lia|lia| |exact E]. intros t. apply encode_utf8_ok; lia.
    - destruct ((0xDC00 <=? cp1) && (cp1 <=? 0xDFFF)) eqn:Hlo; [done|].
      eapply (Hadd _ s3 6%nat); [simpl; lia|lia| |exact E]. intros t. apply encode_utf8_ok; [lia|]. split_bytes; lia. }
  destruct (byte_in 0x00 0x1F a); [done|].
  destruct (byte_in 0x20 0x7F a) eqn:Ea.
  { eapply (Hadd _ s1 1%nat); [simpl; lia|lia| |exact E]. intros t. by apply utf8_ok_ascii. }
  destruct (continuation a) as [[|[lo1 hi1] [|[lo2 hi2] [|[lo3 hi3] [|? ?]]]]|] eqn:Ec; try done.
  - destruct s1 as [|b0 s2]; [done|]. destruct (byte_in lo1 hi1 b0) eqn:Eb; [|done].
    eapply (Hadd _ s2 2%nat); [simpl; lia|lia| |exact E]. intros t. by apply (continuation_1 a (lo1, hi1)).
  - destruct s1 as [|b0 [|c s3]]; try done.
    destruct (byte_in lo1 hi1 b0 && byte_in lo2 hi2 c) eqn:Eb; [|done].
    eapply (Hadd _ s3 3%nat); [simpl; lia|lia| |exact E]. intros t.
    by apply (continuation_2 a (lo1, hi1) (lo2, hi2)).
  - destruct s1 as [|b0 [|c [|d s4]]]; try done.
    destruct (byte_in lo1 hi1 b0 && byte_in lo2 hi2 c && byte_in lo3 hi3 d) eqn:Eb; [|done].
    eapply (Hadd _ s4 4%nat); [simpl; lia|lia| |exact E]. intros t.
    by apply (continuation_3 a (lo1, hi1) (lo2, hi2) (lo3, hi3)).
Qed.

(** ** Values the parser can return *)

(** Strings are UTF-8, integers fit their type, floats are finite, and the keys
    of an object are in order. *)
Fixpoint well_formed (v : json) : bool :=
  match v with
  | JNull | JBool _ => true
  | JInt z => (- 2 ^ 63 <=? z) && (z <? 2 ^ 63)
  | JUint z => (0 <=? z) && (z <? 2 ^ 64)
  | JFloat f => is_finite f && valid_binary 53 1024 f
  | JString s => utf8_ok s
  | JArray l => forallb well_formed l
  | JObject o =>
      keys_sorted (map fst o) && forallb (fun kv => utf8_ok kv.1 && well_formed kv.2) o
  end.

Definition token_ok (t : token) : bool :=
  match t with
  | value_string s => well_formed (JString s)
  | value_unsigned z => well_formed (JUint z)
  | value_integer z => well_formed (JInt z)
  | value_float f => valid_binary 53 1024 f
  | _ => true
  end.

(** The parser goes on only after such a token. *)
Definition live (t : token) : bool :=
  match t with parse_error | end_of_input => false | _ => true end.

Lemma stream_uint64_range s z : stream_uint64 s = Some z -> well_formed (JUint z) = true.
Proof.
  unfold stream_uint64. destruct (read_sign s) as [neg s1].
  pose proof (read_digits_nonneg 0 0 s1 ltac:(lia)) as Hm. destruct (read_digits 0 0 s1) as [[m n] rest].
  destruct (_ && _) eqn:E; [|done]. apply andb_true_iff in E as [_ E%Z.leb_le]. intros [= <-]. simpl in Hm |- *.
  pose proof (u64_range (- m)). destruct neg; apply andb_true_iff; rewrite Z.leb_le, Z.ltb_lt; lia.
Qed.

Lemma stream_int64_range s z : stream_int64 s = Some z -> well_formed (JInt z) = true.
Proof.
  unfold stream_int64, stream_int. destruct (read_sign s) as [neg s1]. destruct (read_digits 0 0 s1) as [[m n] rest].
  destruct (_ && _) eqn:E; [|done]. rewrite !andb_true_iff, !Z.leb_le in E. intros [= <-].
  simpl. apply andb_true_iff. rewrite Z.leb_le, Z.ltb_lt. lia.
Qed.

Lemma scan_digits_length st t s buffer t' rest :
  scan_digits st t s = Some (buffer, t', rest) -> (String.length rest <= String.length s)%nat.
Proof.
  revert st t buffer t' rest. induction s as [|a s IH]; intros st t buffer t' rest; simpl.
  { destruct (number_done st); [|done]. by intros [= <- <- <-]. }
  destruct (number_next st a) as [st'|].
  - destruct (scan_digits st' _ s) as [[[b t1] r]|] eqn:E; [|done]. intros [= <- <- <-].
    apply IH in E. lia.
  - destruct (number_done st); [|done]. by intros [= <- <- <-].
Qed.

Lemma strtod_valid s : valid_binary 53 1024 (strtod s) = true.
Proof. unfold strtod. destruct (read_decimal s) as [[[neg d] x]|]; [apply decimal_value_valid|done]. Qed.

Lemma number_token_ok t buffer : token_ok (number_token t buffer) = true.
Proof.
  destruct t; simpl; unfold strtoull, strtoll; [| |apply strtod_valid].
  - destruct (stream_uint64 buffer) eqn:E; [|apply strtod_valid]. by apply stream_uint64_range in E.
  - destruct (stream_int64 buffer) eqn:E; [|apply strtod_valid]. by apply stream_int64_range in E.
Qed.

Lemma scan_literal_ok l t0 s t rest : token_ok t0 = true -> scan_literal l t0 s = (t, rest) ->
  token_ok t = true /\ (String.length rest <= String.length s)%nat.
Proof.
  intros H0. revert s. induction l as [|a l IH]; intros s; simpl; [by intros [= <- <-]|].
  destruct s as [|b s]; [by intros [= <- <-]|]. destruct (Ascii.eqb a b).
  - intros [H1 H2]%IH. split; [done|simpl; lia].
  - intros [= <- <-]. split; [done|simpl; lia].
Qed.

Lemma skip_whitespace_length s : (String.length (skip_whitespace s) <= String.length s)%nat.
Proof. induction s as [|a s IH]; simpl; [done|]. destruct (is_whitespace a); simpl; lia. Qed.

Lemma scan_ok s t rest : scan s = (t, rest) ->
  token_ok t = true /\ (live t = true -> (String.length rest < String.length s)%nat).
Proof.
  unfold scan. pose proof (skip_whitespace_length s) as Hw.
  destruct (skip_whitespace s) as [|a s']; [by intros [= <- <-]|]. simpl in Hw.
  repeat match goal with
  | |- (if Ascii.eqb a ?c then (_, _) else _) = _ -> _ =>
      destruct (Ascii.eqb a c); [intros [= <- <-]; split; [done|simpl; lia]|]
  | |- (if Ascii.eqb a ?c then scan_literal _ _ _ else _) = _ -> _ =>
      destruct (Ascii.eqb a c); [intros [H1 H2]%scan_literal_ok; [split; [done|lia]|done]|]
  end.
  destruct (Ascii.eqb a "034").
  { destruct (scan_string s') as [[b r]|] eqn:E; intros [= <- <-]; [|done].
    destruct (scan_string_ok _ _ _ _ (le_n _) E) as [Hr Hb]. split; [done|lia]. }
  destruct (Ascii.eqb a "-" || is_digit a).
  { unfold scan_number. destruct (scan_digits _ _ s') as [[[b ty] r]|] eqn:E; intros [= <- <-]; [|done].
    apply scan_digits_length in E. split; [apply number_token_ok|lia]. }
  destruct (Ascii.eqb a "000"); by intros [= <- <-].
Qed.

(** ** The invariant of the loop, and its measure *)

Definition object_ok (o : object) : bool := well_formed (JObject o).

(** A frame of the kind its state says; a value of an object has its key. *)
Definition frame_ok (b : bool) (f : frame) : Prop :=
  match f with
  | FArray l => b = true /\ forallb well_formed l = true
  | FObject o k => b = false /\ object_ok o = true /\
      match k with Some k => utf8_ok k = true | None => False end
  end.

Definition dom_ok (bs : list bool) (d : dom) : Prop :=
  well_formed (root d) = true /\ Forall2 frame_ok bs (ref_stack d).

Definition parser_ok (p : parser) : Prop :=
  token_ok (last_token p) = true /\ dom_ok (states p) (sax p).

(** At most this many iterations are left. *)
Definition measure (p : parser) : nat :=
  if skip_to_state_evaluation p then S (String.length (text p))
  else if live (last_token p) then S (String.length (text p)) else O.

Definition parse_exn (e : exn) : Prop := e = JsonParseError 101 \/ e = JsonOutOfRange 406.

Lemma object_ok_set k v o : object_ok o = true -> utf8_ok k = true -> well_formed v = true ->
  object_ok (obj_set k v o) = true.
Proof.
  unfold object_ok. simpl. intros [Hs Ho]%andb_true_iff Hk Hv. apply andb_true_iff.
  split; [by apply obj_set_sorted|]. unfold obj_set. destruct (obj_mem k o); clear Hs.
  all: induction o as [|[k' v'] o IH]; simpl in *; try (by rewrite ?Hk, ?Hv).
  all: apply andb_true_iff in Ho as [H1 H2].
  - apply andb_true_iff in H1 as [H1 H1']. destruct (String.eqb k k'); simpl; rewrite ?H1, ?H1', ?Hv, ?H2; auto.
  - destruct (String.ltb k k'); simpl; rewrite ?Hk, ?Hv, ?H1, ?H2; auto.
Qed.

Lemma handle_value_ok bs v d : dom_ok bs d -> well_formed v = true ->
  exists d', handle_value v d = Ok d' /\ dom_ok bs d'.
Proof.
  intros [Hr Hf] Hv. unfold handle_value. destruct Hf as [|b f bs fs Hf Hfs]; [by eexists|].
  destruct f as [l|o [k|]]; simpl in Hf; [| |by destruct Hf as (_ & _ & ?)]; eexists; (split; [done|]);
    (split; [done|]); constructor; try done; simpl.
  - destruct Hf as [-> Hl]. split; [done|]. rewrite forallb_app, Hl. simpl. by rewrite Hv.
  - destruct Hf as (-> & Ho & Hk). split; [done|]. split; [|done]. by apply object_ok_set.
Qed.

Lemma end_container_ok b bs r f fs : frame_ok b f -> dom_ok bs (Dom r fs) ->
  exists d', end_container (Dom r (f :: fs)) = Ok d' /\ dom_ok bs d'.
Proof.
  intros Hf Hd. unfold end_container. simpl.
  destruct f as [l|o k]; simpl in Hf; destruct Hf as [-> Hf]; apply handle_value_ok; try done. by destruct Hf.
Qed.

Lemma get_token_ok p : dom_ok (states p) (sax p) ->
  parser_ok (get_token p) /\
  (live (last_token (get_token p)) = true -> (String.length (text (get_token p)) < String.length (text p))%nat).
Proof.
  intros Hd. unfold get_token, parser_ok. destruct (scan (text p)) as [t rest] eqn:E.
  destruct (scan_ok _ _ _ E) as [Ht Hl]. done.
Qed.

Lemma measure_get_token p n : dom_ok (states p) (sax p) -> skip_to_state_evaluation p = false ->
  (String.length (text p) < n)%nat -> (measure (get_token p) < S n)%nat.
Proof.
  intros Hd Hs Hn. destruct (get_token_ok p Hd) as [_ Hl]. unfold measure.
  assert (skip_to_state_evaluation (get_token p) = false) as ->.
  { unfold get_token. by destruct (scan (text p)). }
  destruct (live (last_token (get_token p))); [|lia]. specialize (Hl eq_refl). lia.
Qed.

Lemma get_token_fields p :
  states (get_token p) = states p /\ sax (get_token p) = sax p /\
  skip_to_state_evaluation (get_token p) = skip_to_state_evaluation p.
Proof. unfold get_token. by destruct (scan (text p)). Qed.

Lemma syntax_error_post {A : Type} (Q : A -> Prop) : post syntax_error Q parse_exn.
Proof. by left. Qed.

Lemma parse_key_post p r o k0 fs bs :
  token_ok (last_token p) = true -> sax p = Dom r (FObject o k0 :: fs) -> object_ok o = true ->
  well_formed r = true -> Forall2 frame_ok bs fs ->
  post (parse_key p) (fun p' => states p' = states p /\ skip_to_state_evaluation p' = skip_to_state_evaluation p /\
    dom_ok (false :: bs) (sax p') /\ (String.length (text p') < String.length (text p))%nat) parse_exn.
Proof.
  intros Ht Hs Ho Hr Hfs. unfold parse_key. destruct (last_token p) as [| | |k| | | | | | | | | | |] eqn:Et;
    try apply syntax_error_post. rewrite Hs. unfold sax_key. simpl bind.
  set (d := Dom _ _). set (p1 := with_sax d p).
  assert (object_ok (if obj_mem k o then o else obj_set k JNull o) = true) as Ho'.
  { destruct (obj_mem k o); [done|]. by apply object_ok_set. }
  unfold get_token. destruct (scan (text p1)) as [t rest] eqn:E. destruct (scan_ok _ _ _ E) as [_ Hl].
  simpl last_token. destruct t; try apply syntax_error_post. simpl. repeat split; try done.
  - constructor; [|done]. by repeat split.
  - by apply Hl.
Qed.

Definition flow_ok (n : nat) (f : flow) : Prop :=
  match f with
  | Continue p => parser_ok p /\ (measure p < n)%nat
  | Return p => dom_ok [] (sax p)
  end.

Lemma pop_state_ok p b bs f fs r d n :
  states p = b :: bs -> end_container (Dom r (f :: fs)) = Ok d -> dom_ok bs d -> token_ok (last_token p) = true ->
  (S (String.length (text p)) < n)%nat -> flow_ok n (Continue (pop_state (with_sax d p))).
Proof. intros Hb Hd Hok Ht Hn. simpl. unfold parser_ok, measure. simpl. by rewrite Hb. Qed.

Lemma evaluate_state_post p : dom_ok (states p) (sax p) -> skip_to_state_evaluation p = false ->
  post (evaluate_state p) (flow_ok (S (String.length (text p)))) parse_exn.
Proof.
  intros Hd Hs. destruct (get_token_ok p Hd) as [[Ht Hd1] Hl]. destruct (get_token_fields p) as (Eb & Ed & Es).
  unfold evaluate_state. destruct (states p) as [|b bs] eqn:Hb; [exact Hd|].
  destruct Hd as [Hr Hf]. inversion Hf as [|? f ? fs Hf0 Hfs Eb0 Efs]; subst.
  assert (sax p = Dom (root (sax p)) (f :: fs)) as Esax by (destruct (sax p); simpl in *; by rewrite <- Efs).
  set (r := root (sax p)) in *. rewrite Esax in Ed.
  destruct (end_container_ok b bs r f fs Hf0) as (d & Ec & Hdd); [done|].
  assert (dom_ok (states (get_token p)) (sax (get_token p))) as Hd2 by (by rewrite Eb, Ed; split; [|constructor]).
  destruct (get_token_ok (get_token p) Hd2) as [Hok2 Hl2].
  destruct b; cbv zeta.
  - destruct (last_token (get_token p)) eqn:Et; try apply syntax_error_post; specialize (Hl eq_refl).
    + rewrite Ed, Ec. simpl bind. eapply pop_state_ok; [done|done|done|by rewrite Et|lia].
    + split; [done|]. apply measure_get_token; [done|by rewrite Es|lia].
  - destruct (last_token (get_token p)) eqn:Et; try apply syntax_error_post; specialize (Hl eq_refl).
    + rewrite Ed, Ec. simpl bind. eapply pop_state_ok; [done|done|done|by rewrite Et|lia].
    + destruct f as [l|o k]; simpl in Hf0; destruct Hf0 as [Hf0 Hfo]; [done|]. destruct Hfo as [Ho Hk].
      destruct (get_token_fields (get_token p)) as (Eb2 & Ed2 & Es2).
      apply post_bind. eapply post_mono;
        [apply (parse_key_post _ r o k fs bs); [apply Hok2|by rewrite Ed2, Ed|done..]| |done].
      intros p' Hk' (Hb' & Hs' & Hd' & Hlen). rewrite Eb2, Eb in Hb'. rewrite <- Hb' in Hd'.
      assert (String.length (text (get_token (get_token p))) <= String.length (text (get_token p)))%nat.
      { destruct (live (last_token (get_token (get_token p)))) eqn:El; [specialize (Hl2 eq_refl); lia|].
        unfold parse_key in Hk'. destruct (last_token (get_token (get_token p))); try discriminate. }
      destruct (get_token_ok p' Hd') as [Hok' _].
      split; [done|]. apply measure_get_token; [done| |lia]. by rewrite Hs', Es2, Es.
Qed.

Lemma scalar_post v p : parser_ok p -> skip_to_state_evaluation p = false -> well_formed v = true ->
  post (scalar v p) (flow_ok (S (String.length (text p)))) parse_exn.
Proof.
  intros [_ Hd] Hs Hv. unfold scalar. destruct (handle_value_ok _ v _ Hd Hv) as (d & E & Hd'). rewrite E.
  by apply (evaluate_state_post (with_sax d p)).
Qed.

(** An open container that is closed at once. *)
Lemma open_close_post b f r fs p :
  skip_to_state_evaluation p = false -> sax p = Dom r (f :: fs) ->
  (f = FArray [] /\ b = true \/ f = FObject [] None /\ b = false) -> dom_ok (states p) (Dom r fs) ->
  post (let* d := end_container (sax p) in evaluate_state (with_sax d p))
    (flow_ok (S (String.length (text p)))) parse_exn.
Proof.
  intros Hs Hsax Hf Hd.
  destruct (handle_value_ok (states p) (if b then JArray [] else JObject []) _ Hd) as (d & E & Hd'); [by destruct b|].
  rewrite Hsax. unfold end_container. simpl ref_stack. simpl root.
  destruct Hf as [[-> ->]|[-> ->]]; cbv iota; rewrite E; by apply (evaluate_state_post (with_sax d p)).
Qed.

Lemma flow_ok_mono n m f : (n <= m)%nat -> flow_ok n f -> flow_ok m f.
Proof. destruct f; simpl; [|done]. intros ? [? ?]. split; [done|lia]. Qed.

Lemma begin_array_post p : parser_ok p -> skip_to_state_evaluation p = false ->
  post (let p := get_token (with_sax (start_array (sax p)) p) in
        match last_token p with
        | end_array => let* d := end_container (sax p) in evaluate_state (with_sax d p)
        | _ => Ok (Continue (push_state true p))
        end) (flow_ok (S (String.length (text p)))) parse_exn.
Proof.
  intros [_ [Hr Hf]] Hs. destruct (scan (text p)) as [t rest] eqn:E. destruct (scan_ok _ _ _ E) as [Ht Hl].
  cbv zeta. erewrite get_token_eq by exact E. set (p1 := Parser _ _ _ _ _).
  assert (t = end_array \/ t <> end_array) as [->|Hne] by (destruct t; (by left) || by right).
  - eapply post_mono; [apply (open_close_post true (FArray []) (root (sax p)) (ref_stack (sax p))); [done..|by left|done]| |done].
    intros f _. apply flow_ok_mono. simpl. specialize (Hl eq_refl). lia.
  - assert (flow_ok (S (String.length (text p))) (Continue (push_state true p1))) as H.
    { split; [split; [done|]; split; [done|]; by constructor|]. unfold measure. simpl. rewrite Hs.
      destruct (live t); [specialize (Hl eq_refl)|]; lia. }
    simpl last_token. by destruct t.
Qed.

Lemma begin_object_post p : parser_ok p -> skip_to_state_evaluation p = false ->
  post (let p := get_token (with_sax (start_object (sax p)) p) in
        match last_token p with
        | end_object => let* d := end_container (sax p) in evaluate_state (with_sax d p)
        | _ => let* p := parse_key p in Ok (Continue (get_token (push_state false p)))
        end) (flow_ok (S (String.length (text p)))) parse_exn.
Proof.
  intros [_ [Hr Hf]] Hs. destruct (scan (text p)) as [t rest] eqn:E. destruct (scan_ok _ _ _ E) as [Ht Hl].
  cbv zeta. erewrite get_token_eq by exact E. set (p1 := Parser _ _ _ _ _).
  assert (t = end_object \/ t <> end_object) as [->|Hne] by (destruct t; (by left) || by right).
  - eapply post_mono; [apply (open_close_post false (FObject [] None) (root (sax p)) (ref_stack (sax p))); [done..|by right|done]| |done].
    intros f _. apply flow_ok_mono. simpl. specialize (Hl eq_refl). lia.
  - assert (post (let* p := parse_key p1 in Ok (Continue (get_token (push_state false p))))
              (flow_ok (S (String.length (text p)))) parse_exn) as H.
    { apply post_bind. eapply post_mono;
        [apply (parse_key_post p1 (root (sax p)) [] None (ref_stack (sax p)) (states p)); try done| |done].
      intros p' Hk (Hb' & Hs' & Hd' & Hlen). simpl in Hlen.
      destruct (get_token_ok (push_state false p')) as [Hok' _]; [simpl; by rewrite Hb'|].
      split; [done|]. apply measure_get_token; [simpl; by rewrite Hb'|simpl; by rewrite Hs'|]. simpl.
      unfold parse_key in Hk. simpl in Hk. destruct t; try discriminate. specialize (Hl eq_refl). lia. }
    simpl last_token. by destruct t.
Qed.

Lemma sax_step_post p : parser_ok p -> post (sax_step p) (flow_ok (measure p)) parse_exn.
Proof.
  intros Hok. unfold sax_step, measure. destruct (skip_to_state_evaluation p) eqn:Hs.
  { by apply (evaluate_state_post (no_skip p)); [apply Hok|]. }
  destruct (last_token p) eqn:Et; simpl live; cbv iota;
    try apply syntax_error_post; try (by apply scalar_post; [| |]);
    try (by apply begin_array_post); try (by apply begin_object_post).
  1-3: apply scalar_post; [done..|]; destruct Hok as [Ht _]; by rewrite Et in Ht.
  destruct (is_finite f) eqn:Ef; [|by right]. apply scalar_post; [done..|]. destruct Hok as [Ht _]. rewrite Et in Ht.
  simpl. by rewrite Ef.
Qed.

Lemma sax_parse_post n p : parser_ok p -> (measure p < n)%nat ->
  post (sax_parse_internal n p) (fun p' => dom_ok [] (sax p')) parse_exn.
Proof.
  revert p. induction n as [|n IH]; intros p Hok Hn; [lia|]. simpl. apply post_bind.
  eapply post_mono; [by apply sax_step_post| |done].
  intros [p'|p'] _ H; [|exact H]. destruct H as [Hok' Hm]. apply IH; [done|lia].
Qed.

Lemma skip_bom_length s s' : skip_bom s = Some s' -> (String.length s' <= String.length s)%nat.
Proof.
  destruct s as [|a [|b [|c s]]]; simpl; intros E; repeat case_match; simplify_eq; simpl; lia.
Qed.

Lemma first_parser_ok s t rest : scan_first s = (t, rest) ->
  let p := Parser rest t [] false (Dom JNull []) in
  parser_ok p /\ (measure p < S (S (String.length s)))%nat.
Proof.
  unfold scan_first. destruct (skip_bom s) as [s'|] eqn:Eb.
  - intros E. destruct (scan_ok _ _ _ E) as [Ht Hl]. apply skip_bom_length in Eb.
    split; [by split; [|split; [|constructor]]|]. unfold measure. simpl. destruct (live t); [|lia].
    specialize (Hl eq_refl). lia.
  - intros [= <- <-]. split; [by split; [|split; [|constructor]]|]. unfold measure. simpl. lia.
Qed.

Lemma json_parse_post s : post (json_parse s) (fun v => well_formed v = true) parse_exn.
Proof.
  unfold json_parse. destruct (scan_first s) as [t rest] eqn:E.
  destruct (first_parser_ok _ _ _ E) as [Hok Hm]. apply post_bind.
  eapply post_mono; [by apply sax_parse_post| |done]. intros p _ [Hr _].
  destruct (last_token (get_token p)); try apply syntax_error_post. exact Hr.
Qed.

(** C28. [json::parse] returns on every text (the fuel is always enough and nothing
    undefined happens): a value whose strings are UTF-8, whose integers fit their
    types, whose floats are finite doubles and whose objects are in order, or one of two
    exceptions of the library. *)
Theorem json_parse_total s : post (json_parse s) (fun v => well_formed v = true) parse_exn.
Proof. apply json_parse_post. Qed.

(** ** Soundness: what the loop has read so far *)

(** The tokens read when a value is expected under the open containers. *)
Inductive reads_before : list bool -> list frame -> list token -> Prop :=
| rb_nil : reads_before [] [] []
| rb_array bs fs ts ts' l : reads_before bs fs ts ->
    ts' = [] /\ l = [] \/ (exists ts'', elements ts'' l /\ ts' = ts'' ++ [value_separator]) ->
    reads_before (true :: bs) (FArray l :: fs) (ts ++ begin_array :: ts')
| rb_object bs fs ts ts' o k : reads_before bs fs ts ->
    ts' = [] /\ o = [] \/ (exists ts'', members ts'' o /\ ts' = ts'' ++ [value_separator]) ->
    reads_before (false :: bs)
      (FObject (if obj_mem k o then o else obj_set k JNull o) (Some k) :: fs)
      (ts ++ begin_object :: ts' ++ [value_string k; name_separator]).

(** The tokens read after a value. *)
Inductive reads_after : list bool -> dom -> list token -> Prop :=
| ra_nil v ts : value ts v -> reads_after [] (Dom v []) ts
| ra_array bs fs r ts ts' l : reads_before bs fs ts -> elements ts' l ->
    reads_after (true :: bs) (Dom r (FArray l :: fs)) (ts ++ begin_array :: ts')
| ra_object bs fs r ts ts' o k : reads_before bs fs ts -> members ts' o ->
    reads_after (false :: bs) (Dom r (FObject o k :: fs)) (ts ++ begin_object :: ts').

Lemma members_set ts ts' k o tv v :
  ts = [] /\ o = [] \/ (exists ts'', members ts'' o /\ ts = ts'' ++ [value_separator]) -> value tv v ->
  ts' = ts ++ [value_string k; name_separator] ++ tv ->
  members ts' (obj_set k v (if obj_mem k o then o else obj_set k JNull o)).
Proof.
  intros H Hv ->. rewrite obj_set_twice. destruct H as [[-> ->]|(ts'' & Hm & ->)]; simpl.
  - by apply m_one.
  - rewrite <- app_assoc. simpl. by apply m_more.
Qed.

(** A value closes one position. *)
Lemma handle_value_reads bs fs r ts tv v d :
  reads_before bs fs ts -> value tv v -> handle_value v (Dom r fs) = Ok d ->
  reads_after bs d (ts ++ tv).
Proof.
  intros Hb Hv Hd. destruct Hb as [|bs fs ts ts' l Hb Hl|bs fs ts ts' o k Hb Ho]; simpl in Hd; injection Hd as <-.
  - by constructor.
  - rewrite <- app_assoc. simpl. constructor; [done|]. destruct Hl as [[-> ->]|(ts'' & He & ->)]; simpl.
    + by apply e_one.
    + rewrite <- app_assoc. simpl. by apply e_more.
  - rewrite <- app_assoc. simpl. constructor; [done|]. eapply members_set; [done..|]. by rewrite <- app_assoc.
Qed.

Lemma end_container_reads b bs r f fs d ts :
  reads_after (b :: bs) (Dom r (f :: fs)) ts -> end_container (Dom r (f :: fs)) = Ok d ->
  reads_after bs d (ts ++ [if b then end_array else end_object]).
Proof.
  intros H Hd. inversion H as [|? ? ? ts0 ts' l Hb He|? ? ? ts0 ts' o k Hb Hm]; subst; unfold end_container in Hd; simpl in Hd.
  - rewrite <- app_assoc. simpl. eapply handle_value_reads; [done|by apply v_array|done].
  - rewrite <- app_assoc. simpl. eapply handle_value_reads; [done|by apply v_object|done].
Qed.

Lemma lexes_snoc s ts s1 t s2 : lexes s ts s1 -> scan s1 = (t, s2) -> lexes s (ts ++ [t]) s2.
Proof. intros H1 H2. apply lexes_app. exists s1. split; [done|by apply lexes_one]. Qed.

Section Reading.
Variable s0 : string.

(** The tokens read off [s0] at the start of an iteration. *)
Definition reading (p : parser) : Prop := exists ts,
  if skip_to_state_evaluation p then reads_after (states p) (sax p) ts /\ lexes s0 ts (text p)
  else reads_before (states p) (ref_stack (sax p)) ts /\ lexes s0 (ts ++ [last_token p]) (text p).

Definition flow_reading (f : flow) : Prop :=
  match f with
  | Continue p => reading p
  | Return p => exists ts, value ts (root (sax p)) /\ lexes s0 ts (text p)
  end.

Lemma get_token_reading p ts :
  skip_to_state_evaluation p = false -> reads_before (states p) (ref_stack (sax p)) ts -> lexes s0 ts (text p) ->
  reading (get_token p).
Proof.
  intros Hs Hb Hl. exists ts. unfold get_token. destruct (scan (text p)) as [t rest] eqn:E. simpl. rewrite Hs.
  split; [done|]. by eapply lexes_snoc.
Qed.

(** A key after [{] or a comma. *)
Lemma parse_key_reading p p' bs r o k0 fs ts ts' :
  parse_key p = Ok p' -> sax p = Dom r (FObject o k0 :: fs) -> reads_before bs fs ts ->
  ts' = [] /\ o = [] \/ (exists ts'', members ts'' o /\ ts' = ts'' ++ [value_separator]) ->
  lexes s0 ((ts ++ begin_object :: ts') ++ [last_token p]) (text p) ->
  states p' = states p /\ skip_to_state_evaluation p' = skip_to_state_evaluation p /\
  exists ts2, reads_before (false :: bs) (ref_stack (sax p')) ts2 /\ lexes s0 ts2 (text p').
Proof.
  intros Hk Hs Hb Hm Hl. unfold parse_key in Hk.
  destruct (last_token p) as [| | |k| | | | | | | | | | |] eqn:Et; try discriminate. rewrite Hs in Hk. simpl in Hk.
  unfold get_token in Hk. simpl in Hk. destruct (scan (text p)) as [t rest] eqn:E.
  destruct t; try discriminate. injection Hk as <-. split; [done|]. split; [done|].
  eexists. split; [by apply rb_object|]. simpl. eapply lexes_snoc in E; [|exact Hl].
  by rewrite <- !app_assoc in E.
Qed.

Lemma evaluate_state_reading p ts f :
  skip_to_state_evaluation p = false -> reads_after (states p) (sax p) ts -> lexes s0 ts (text p) ->
  evaluate_state p = Ok f -> flow_reading f.
Proof.
  intros Hs Ha Hl. destruct (get_token_fields p) as (Eb & Ed & Es). unfold evaluate_state.
  assert (lexes s0 (ts ++ [last_token (get_token p)]) (text (get_token p))) as Hl1.
  { unfold get_token. destruct (scan (text p)) as [t rest] eqn:E. simpl. by eapply lexes_snoc. }
  destruct (states p) as [|b bs] eqn:Hb.
  { intros [= <-]. inversion Ha as [v ts0 Hv Eq1 Eq2 Eq3| |]; subst. simpl. exists ts. rewrite <- Eq2. by split. }
  assert (forall d, end_container (sax p) = Ok d -> last_token (get_token p) = (if b then end_array else end_object) ->
            flow_reading (Continue (pop_state (with_sax d (get_token p))))) as Hend.
  { intros d Hd Ht. exists (ts ++ [last_token (get_token p)]). simpl. rewrite Eb. simpl. rewrite Ht. split; [|by rewrite Ht in Hl1].
    destruct (sax p) as [r fs] eqn:Esax. destruct fs as [|fr fs]; [by inversion Ha|].
    by eapply end_container_reads. }
  inversion Ha as [|? fs r ts0 ts' l Hbf He Eq1 Eq2 Eq3|? fs r ts0 ts' o k Hbf Hm Eq1 Eq2 Eq3]; subst b ts; cbv zeta.
  - destruct (last_token (get_token p)) eqn:Et; try discriminate; rewrite ?Ed; intros Hx; run Hx; subst f; [by apply Hend|].
    eapply get_token_reading; [by rewrite Es| |exact Hl1]. rewrite Eb, Ed, <- Eq2. simpl ref_stack.
    rewrite <- app_assoc. simpl. constructor; [done|]. right. by exists ts'.
  - destruct (last_token (get_token p)) eqn:Et; try discriminate; rewrite ?Ed; intros Hx; run Hx; subst f; [by apply Hend|].
    destruct (get_token_fields (get_token p)) as (Eb2 & Ed2 & Es2).
    eapply (parse_key_reading _ _ bs r o k fs ts0 (ts' ++ [value_separator])) in Hr as (H1 & H2 & ts2 & H3 & H4);
      [| by rewrite Ed2, Ed, <- Eq2 | done | right; by exists ts' | ].
    + eapply get_token_reading; [by rewrite H2, Es2, Es|rewrite H1, Eb2, Eb; exact H3|done].
    + destruct (scan (text (get_token p))) as [t rest] eqn:E. erewrite get_token_eq by exact E. cbn [last_token text].
      eapply lexes_snoc in E; [|exact Hl1]. rewrite <- !app_assoc in E. simpl in E.
      rewrite <- !app_assoc. simpl. by rewrite <- app_assoc.
Qed.

Lemma scalar_reading p v ts f :
  skip_to_state_evaluation p = false -> reads_before (states p) (ref_stack (sax p)) ts ->
  lexes s0 (ts ++ [last_token p]) (text p) -> value [last_token p] v ->
  scalar v p = Ok f -> flow_reading f.
Proof.
  intros Hs Hb Hl Hv H. unfold scalar in H. run H.
  eapply (evaluate_state_reading (with_sax r p)); [done| |exact Hl|exact H]. simpl.
  destruct (sax p) as [r0 fs]. by eapply handle_value_reads.
Qed.

(** An empty container. *)
Lemma open_close_reading b p1 r fs ts f :
  skip_to_state_evaluation p1 = false ->
  sax p1 = Dom r ((if b : bool then FArray [] else FObject [] None) :: fs) ->
  reads_before (states p1) fs ts ->
  lexes s0 (ts ++ if b then [begin_array; end_array] else [begin_object; end_object]) (text p1) ->
  (let* d := end_container (sax p1) in evaluate_state (with_sax d p1)) = Ok f -> flow_reading f.
Proof.
  intros Hs Hsax Hb Hl H. run H. rewrite Hsax in Hr.
  eapply (evaluate_state_reading (with_sax r0 p1)); [done| |exact Hl|exact H]. simpl.
  destruct b; (eapply handle_value_reads; [done|constructor|exact Hr]).
Qed.

Lemma sax_step_reading p f : reading p -> sax_step p = Ok f -> flow_reading f.
Proof.
  intros [ts Hp] H. unfold sax_step in H. destruct (skip_to_state_evaluation p) eqn:Hs.
  { destruct Hp as [Ha Hl]. by eapply (evaluate_state_reading (no_skip p)). }
  destruct Hp as [Hb Hl]. pose proof (scalar_reading p) as Hscalar. rewrite Hs in Hscalar.
  destruct (last_token p) eqn:Et; try discriminate;
    try (eapply Hscalar; [done|exact Hb|exact Hl| |exact H]; by constructor).
  - destruct (is_finite f0) eqn:Ef; [|discriminate].
    eapply Hscalar; [done|exact Hb|exact Hl| |exact H]. by constructor.
  - destruct (scan (text p)) as [t rest] eqn:E. pose proof (lexes_snoc _ _ _ _ _ Hl E) as Hl1.
    rewrite <- app_assoc in Hl1. cbv zeta in H.
    erewrite get_token_eq in H by exact E. cbn [last_token] in H.
    assert (t = end_array \/ t <> end_array) as [->|Hne] by (destruct t; (by left) || by right).
    + eapply (open_close_reading true) in H; [done|done|reflexivity|exact Hb|exact Hl1].
    + assert (f = Continue (Parser rest t (true :: states p) false (start_array (sax p)))) as ->.
      { unfold push_state in H. simpl in H. rewrite Hs in H. by destruct t; simplify_eq. }
      exists (ts ++ [begin_array]). simpl. rewrite <- app_assoc. split; [|done]. constructor; [done|]. by left.
  - destruct (scan (text p)) as [t rest] eqn:E. pose proof (lexes_snoc _ _ _ _ _ Hl E) as Hl1.
    rewrite <- app_assoc in Hl1. cbv zeta in H.
    erewrite get_token_eq in H by exact E. cbn [last_token] in H.
    assert (t = end_object \/ t <> end_object) as [->|Hne] by (destruct t; (by left) || by right).
    + eapply (open_close_reading false) in H; [done|done|reflexivity|exact Hb|exact Hl1].
    + set (p1 := Parser _ _ _ _ _) in H.
      assert (exists p2, parse_key p1 = Ok p2 /\ f = Continue (get_token (push_state false p2))) as (p2 & Hk & ->).
      { destruct t; try done; run H; eauto. }
      eapply (parse_key_reading p1 p2 (states p) _ [] None _ ts []) in Hk as (H1 & H2 & ts2 & H3 & H4);
        [|reflexivity|exact Hb|by left|by rewrite <- app_assoc].
      eapply (get_token_reading (push_state false p2)); [simpl; by rewrite H2|simpl; rewrite H1; exact H3|done].
Qed.

Lemma sax_parse_reading n p p' : reading p -> sax_parse_internal n p = Ok p' ->
  exists ts, value ts (root (sax p')) /\ lexes s0 ts (text p').
Proof.
  revert p. induction n as [|n IH]; intros p Hp H; [discriminate|]. simpl in H. run H.
  apply sax_step_reading in Hr; [|done]. destruct r as [p1|p1]; [by eapply IH|]. by injection H as ->.
Qed.
End Reading.

Lemma json_parse_derives s v : json_parse s = Ok v ->
  exists s' ts rest, skip_bom s = Some s' /\ value ts v /\ lexes s' (ts ++ [end_of_input]) rest.
Proof.
  unfold json_parse.
  destruct (scan_first s) as [t rest] eqn:E. unfold scan_first in E.
  destruct (skip_bom s) as [s'|] eqn:Eb; [|injection E as <- <-; discriminate].
  intros H. run H. eapply (sax_parse_reading s') in Hr as (ts & Hv & Hl);
    [|exists []; split; [constructor|by apply lexes_one]].
  destruct (scan (text r)) as [t1 rest1] eqn:E1. erewrite get_token_eq in H by exact E1. cbn [last_token] in H.
  destruct t1; try discriminate. injection H as <-. exists s', ts, rest1. split; [done|]. split; [done|].
  by eapply lexes_snoc.
Qed.

Lemma json_parse_accepts s v :
  (exists s' ts rest, skip_bom s = Some s' /\ value ts v /\ lexes s' (ts ++ [end_of_input]) rest) ->
  json_parse s = Ok v.
Proof.
  unfold json_parse.
  intros (s' & ts & rest & Eb & Hv & Hl). destruct (value_head _ _ Hv) as (t & ts' & -> & _).
  inversion Hl as [|? ? s1 ? ? Hscan Hl1]; subst.
  assert (scan_first s = (t, s1)) as E by (unfold scan_first; by rewrite Eb). rewrite E.
  destruct (first_parser_ok _ _ _ E) as [Hok Hm]. cbv zeta in Hok, Hm.
  apply lexes_app in Hl1 as (s2 & Hl2 & Hend%lexes_one).
  destruct (proj1 grammar_runs _ _ Hv (Parser s1 t [] false (Dom JNull [])) s2 (Dom v [])) as (t1 & p0 & Hsteps & Hev);
    [done|by exists ts'|done|].
  destruct (steps_fuel _ _ 1 Hsteps) as (m & Hfuel). simpl in Hfuel. rewrite Hev in Hfuel. simpl in Hfuel.
  pose proof (sax_parse_post _ _ Hok Hm) as Hpost.
  set (N := S (S (String.length s))) in *.
  assert (sax_parse_internal N (Parser s1 t [] false (Dom JNull [])) = Ok (Parser s2 t1 [] false (Dom v []))) as ->.
  { eapply (sax_parse_more _ (N + (m + 1))) in Hfuel; [|done|lia].
    destruct (sax_parse_internal N _) as [p'|e|u|d] eqn:EN; try done;
      (eapply (sax_parse_more _ (N + (m + 1))) in EN; [|done|lia]; congruence). }
  simpl. by erewrite get_token_eq by exact Hend.
Qed.

(** C27. [json::parse] accepts exactly the texts whose tokens, up to the end of the
    input, the grammar derives, and returns the value of the derivation. *)
Theorem json_parse_grammar s v :
  json_parse s = Ok v <->
  exists s' ts rest, skip_bom s = Some s' /\ value ts v /\ lexes s' (ts ++ [end_of_input]) rest.
Proof. split; [apply json_parse_derives|apply json_parse_accepts]. Qed.
