(* ===== verification/JsonRoundTrip.v ===== *)
(** What [dump] prints, [json::parse] reads back. *)

From Stdlib Require Import ZArith Lia SpecFloat Ascii.
From stdpp Require Import pretty.
From S2P Require Import Prelude Words Json Regex Streams Decimal JsonText JsonTextFacts.

(** ** Text in front of other text *)

(** What follows a value inside a text that [dump] printed. *)
Definition delimiter (a : ascii) : bool :=
  Ascii.eqb a "," || Ascii.eqb a "]" || Ascii.eqb a "}" || Ascii.eqb a ":".

Definition delimited (rest : string) : bool :=
  match rest with EmptyString => true | String a _ => delimiter a end.

(** ** Strings *)

Lemma escaped_scans a t : byte_in 0 0x7F a = true ->
  scan_string (escaped a +:+ t) = add (String a EmptyString) (scan_string t).
Proof.
  destruct a as [[] [] [] [] [] [] [] []]; intros H; try discriminate H; reflexivity.
Qed.

Lemma high_byte a : 0x80 <= code a ->
  Ascii.eqb a "034" = false /\ Ascii.eqb a "\" = false /\ byte_in 0x00 0x1F a = false /\ byte_in 0x20 0x7F a = false /\
  escaped a = String a EmptyString.
Proof.
  intros H. assert (forall c, code c < 0x80 -> Ascii.eqb a c = false) as Hne.
  { intros c Hc. apply Ascii.eqb_neq. intros ->. lia. }
  repeat split; [apply Hne; done|apply Hne; done|rewrite byte_in_spec..|].
  - apply andb_false_iff. right. apply Z.leb_gt. lia.
  - apply andb_false_iff. right. apply Z.leb_gt. lia.
  - unfold escaped. fold (code a).
    repeat match goal with |- context [code a =? ?n] => destruct (Z.eqb_spec (code a) n); [lia|] end.
    destruct (Z.leb_spec (code a) 31); [lia|done].
Qed.

(** A sequence of two bytes or more. *)
Lemma utf8_sequence a s1 : utf8_ok (String a s1) = true -> 0x80 <= code a ->
  (exists r b s2, s1 = String b s2 /\ continuation a = Some [r] /\ byte_in r.1 r.2 b = true /\
     utf8_ok s2 = true /\ 0x80 <= code b) \/
  (exists r r' b c s3, s1 = String b (String c s3) /\ continuation a = Some [r; r'] /\
     byte_in r.1 r.2 b && byte_in r'.1 r'.2 c = true /\ utf8_ok s3 = true /\ 0x80 <= code b /\ 0x80 <= code c) \/
  (exists r r' r'' b c d s4, s1 = String b (String c (String d s4)) /\ continuation a = Some [r; r'; r''] /\
     byte_in r.1 r.2 b && byte_in r'.1 r'.2 c && byte_in r''.1 r''.2 d = true /\ utf8_ok s4 = true /\
     0x80 <= code b /\ 0x80 <= code c /\ 0x80 <= code d).
Proof.
  intros H Ha. pose proof (code_range a). cbn [utf8_ok] in H.
  destruct (byte_in 0 0x7F a) eqn:E1; [rewrite byte_in_spec in E1; split_bytes|].
  destruct s1 as [|b s2]; [done|]. destruct (byte_in 0xC2 0xDF a) eqn:E2.
  { apply andb_true_iff in H as [Hb Hs]. left. exists (0x80, 0xBF), b, s2. unfold continuation. rewrite E2.
    repeat split; try done. split_bytes; lia. }
  destruct s2 as [|c s3]; [done|]. destruct (byte_in 0xE0 0xEF a) eqn:E3.
  { rewrite !andb_true_iff in H. destruct H as [[Hb Hc] Hs]. right. left.
    exists (if byte_in 0xE0 0xE0 a then 0xA0 else 0x80, if byte_in 0xED 0xED a then 0x9F else 0xBF), (0x80, 0xBF), b, c, s3.
    split; [done|]. unfold continuation. rewrite E2. split_bytes; simpl in *; decide_bytes; repeat split; try done; lia. }
  destruct s3 as [|d s4]; [done|]. rewrite !andb_true_iff in H. destruct H as [[[[Hf Hb] Hc] Hd] Hs]. right. right.
  exists (if byte_in 0xF0 0xF0 a then 0x90 else 0x80, if byte_in 0xF4 0xF4 a then 0x8F else 0xBF), (0x80, 0xBF), (0x80, 0xBF), b, c, d, s4.
  split; [done|]. unfold continuation. rewrite E2. split_bytes; simpl in *; decide_bytes; repeat split; try done; lia.
Qed.

Lemma add_add p1 p2 r : add p1 (add p2 r) = add (p1 +:+ p2) r.
Proof. destruct r as [[b s]|]; [|done]. simpl. by rewrite str_app_assoc. Qed.

(** Scanning the text of a string gives the string back. *)
Lemma scan_escape_all n s rest : (String.length s <= n)%nat -> utf8_ok s = true ->
  scan_string (escape_all s +:+ (quote +:+ rest)) = Some (s, rest).
Proof.
  revert s. induction n as [|n IH]; intros s Hn Hok; (destruct s as [|a s1]; [done|]); simpl in Hn; [lia|].
  cbn [escape_all]. rewrite str_app_assoc. destruct (byte_in 0 0x7F a) eqn:Ea.
  { rewrite escaped_scans by done. cbn [utf8_ok] in Hok. rewrite Ea in Hok. rewrite IH by (done || lia). done. }
  assert (0x80 <= code a) as Ha. { pose proof (code_range a). split_bytes; lia. }
  destruct (utf8_sequence a s1 Hok Ha) as [(r & b & s2 & -> & Hc & Hr & Hs & Hb)|
    [(r & r' & b & c & s3 & -> & Hc & Hr & Hs & Hb & Hc')|(r & r' & r'' & b & c & d & s4 & -> & Hc & Hr & Hs & Hb & Hc' & Hd)]].
  all: destruct (high_byte a Ha) as (H1 & H2 & H3 & H4 & H5); rewrite H5;
    cbn [escape_all];
    repeat match goal with Hx : 0x80 <= code ?x |- context [escaped ?x] =>
      rewrite (proj2 (proj2 (proj2 (proj2 (high_byte x Hx))))) end;
    rewrite ?str_app_assoc, ?str_app_cons, ?str_nil_app; cbn [scan_string];
    rewrite H1, H2, H3, H4, Hc; destruct r; try destruct r'; try destruct r''; simpl in Hr; rewrite Hr;
    simpl in Hn; rewrite IH by (done || lia); done.
Qed.

Lemma scan_dump_string s t rest : dump_string s = Ok t -> scan (t +:+ rest) = (value_string s, rest).
Proof.
  unfold dump_string. destruct (utf8_ok s) eqn:E; [|done]. intros [= <-].
  rewrite !str_app_assoc. change (quote +:+ ?x) with (String "034" x). unfold scan. simpl skip_whitespace. cbn [Ascii.eqb].
  change (String "034" rest) with (quote +:+ rest). simpl. by rewrite (scan_escape_all _ s rest (le_n _) E).
Qed.

(** ** Numbers *)

Lemma delimiter_ends st a : number_done st = true -> delimiter a = true -> number_next st a = None.
Proof.
  intros Hst Ha. unfold delimiter in Ha.
  destruct (Ascii.eqb_spec a ","); [subst; by destruct st|].
  destruct (Ascii.eqb_spec a "]"); [subst; by destruct st|].
  destruct (Ascii.eqb_spec a "}"); [subst; by destruct st|].
  destruct (Ascii.eqb_spec a ":"); [subst; by destruct st|]. done.
Qed.

(** A number that ends its text also ends before a delimiter. *)
Lemma scan_digits_delimited st t s b t' rest : delimited rest = true ->
  scan_digits st t s = Some (b, t', EmptyString) -> scan_digits st t (s +:+ rest) = Some (b, t', rest).
Proof.
  intros Hd. revert st t b. induction s as [|a s IH]; intros st t b; cbn [scan_digits].
  - destruct (number_done st) eqn:E; [|done]. intros [= <- <-]. change (EmptyString +:+ rest) with rest.
    destruct rest as [|c rest]; simpl; rewrite ?E; [done|]. by rewrite (delimiter_ends st c E Hd).
  - rewrite str_app_cons. cbn [scan_digits]. destruct (number_next st a) as [st'|].
    + destruct (scan_digits st' _ s) as [[[b1 t1] r]|] eqn:E; [|done]. intros [= <- <- ->].
      by rewrite (IH _ _ _ E).
    + destruct (number_done st); [|done]. intros H. discriminate H.
Qed.

Lemma scan_number_first a s : Ascii.eqb a "-" || is_digit a = true -> scan (String a s) = scan_number a s.
Proof.
  intros H. destruct a as [[] [] [] [] [] [] [] []]; try discriminate H; reflexivity.
Qed.

Lemma scan_number_delimited a s t rest : delimited rest = true -> t <> parse_error ->
  scan_number a s = (t, EmptyString) -> scan_number a (s +:+ rest) = (t, rest).
Proof.
  intros Hd Ht. unfold scan_number. destruct (scan_digits _ _ s) as [[[b t'] r]|] eqn:E.
  - intros [= <- ->]. by rewrite (scan_digits_delimited _ _ _ _ _ _ Hd E).
  - intros [= <- _]. done.
Qed.

Lemma scan_all_digits t ds : all_chars is_digit ds = true -> scan_digits n_any1 t ds = Some (ds, t, EmptyString).
Proof.
  revert t. induction ds as [|a ds IH]; intros t; simpl; [done|]. intros [Ha Hds]%andb_true_iff.
  rewrite Ha, IH by done. done.
Qed.

Lemma stream_uint64_pretty z : 0 <= z < 2 ^ 64 -> stream_uint64 (pretty z) = Some z.
Proof.
  intros Hz. unfold stream_uint64. destruct (no_sign _ (pretty_digits z ltac:(lia))) as [_ ->].
  destruct (read_pretty z ltac:(lia)) as (n & Hn & ->). destruct n; [done|]. simpl.
  by rewrite (proj2 (Z.leb_le _ _)) by lia.
Qed.

Lemma stream_int64_pretty z : - 2 ^ 63 <= z < 0 -> stream_int64 (pretty z) = Some z.
Proof.
  intros Hz. rewrite pretty_neg by lia. unfold stream_int64, stream_int. cbn [read_sign].
  destruct (read_pretty (- z) ltac:(lia)) as (n & Hn & ->). destruct n; [done|]. cbn [Nat.eqb negb str_empty andb].
  rewrite Z.opp_involutive. by rewrite !(proj2 (Z.leb_le _ _)) by lia.
Qed.

Lemma scan_pretty z rest : - 2 ^ 63 <= z < 2 ^ 64 -> delimited rest = true ->
  scan (pretty z +:+ rest) = (if z <? 0 then value_integer z else value_unsigned z, rest).
Proof.
  intros Hz Hd. destruct (Z.ltb_spec z 0) as [Hneg|Hpos].
  - pose proof (stream_int64_pretty z ltac:(lia)) as E. rewrite pretty_neg in * by lia.
    destruct (pretty_leading (- z) ltac:(lia)) as (a & s & Es & H0 & Ha & Hs). rewrite Es in *.
    rewrite str_app_cons, scan_number_first by done. apply scan_number_delimited; [done..|].
    unfold scan_number. simpl. rewrite H0, Ha. rewrite scan_all_digits by done. simpl. unfold strtoll. by rewrite E.
  - pose proof (stream_uint64_pretty z ltac:(lia)) as E. destruct (decide (z = 0)) as [->|Hne].
    { change (pretty 0) with "0". rewrite str_app_cons, scan_number_first by done. by apply scan_number_delimited. }
    destruct (pretty_leading z ltac:(lia)) as (a & s & Es & H0 & Ha & Hs). rewrite Es in *.
    rewrite str_app_cons, scan_number_first by (by rewrite Ha, orb_true_r). apply scan_number_delimited; [done..|].
    unfold scan_number. rewrite H0. destruct (Ascii.eqb_spec a "-") as [->|]; [done|].
    rewrite scan_all_digits by done. simpl. unfold strtoull. by rewrite E.
Qed.

(** ** Values *)

Section RoundTrip.
Context `{FloatText}.

(** A float is printed as a number with a point or an exponent that [strtod]
    reads back, which is what the algorithm of the library (Grisu2) is for. *)
Definition float_reads (f : spec_float) : Prop := scan (float_text f) = (value_float f, EmptyString).

Fixpoint floats_read (v : json) : Prop :=
  match v with
  | JFloat f => float_reads f
  | JArray l => foldr (fun x P => floats_read x /\ P) True l
  | JObject o => foldr (fun kv P => floats_read kv.2 /\ P) True o
  | _ => True
  end.

(** The text carries no mark of the type of a number that is not negative. *)
Fixpoint canonical (v : json) : json :=
  match v with
  | JInt z => if z <? 0 then JInt z else JUint z
  | JArray l => JArray (map canonical l)
  | JObject o => JObject (map (fun kv => (kv.1, canonical kv.2)) o)
  | _ => v
  end.

(** [t] in front of any text that may follow it is read as [v]. *)
Definition reads_as (t : string) (v : json) : Prop :=
  exists ts, value ts v /\ forall rest, delimited rest = true -> lexes (t +:+ rest) ts rest.

Lemma reads_one t tk v : value [tk] v ->
  (forall rest, delimited rest = true -> scan (t +:+ rest) = (tk, rest)) -> reads_as t v.
Proof. intros Hv Ht. exists [tk]. split; [done|]. intros rest Hr. apply lexes_one. auto. Qed.

Lemma skip_whitespace_app s rest a s' : skip_whitespace s = String a s' -> skip_whitespace (s +:+ rest) = String a (s' +:+ rest).
Proof.
  induction s as [|c s IH]; simpl; [done|]. destruct (is_whitespace c); [done|].
  by intros [= -> ->].
Qed.

Lemma float_delimited f rest : float_reads f -> delimited rest = true ->
  scan (float_text f +:+ rest) = (value_float f, rest).
Proof.
  unfold float_reads, scan. intros E Hd. destruct (skip_whitespace (float_text f)) as [|a s'] eqn:Es; [done|].
  erewrite skip_whitespace_app by exact Es.
  assert (forall l t0 s t r, scan_literal l t0 s = (t, r) -> t = t0 \/ t = parse_error) as Hlit.
  { intros l t0. induction l as [|c l IH]; intros s t r; simpl; [by intros [= <- _]; left|].
    destruct s as [|d s]; [by intros [= <- _]; right|]. destruct (Ascii.eqb c d); [apply IH|by intros [= <- _]; right]. }
  repeat match goal with
  | _ : context [if Ascii.eqb a ?c then _ else _] |- _ =>
      destruct (Ascii.eqb a c);
      [first [discriminate E | by destruct (Hlit _ _ _ _ _ E) | destruct (scan_string s') as [[? ?]|]; discriminate E]|]
  end.
  destruct (Ascii.eqb a "-" || is_digit a).
  - by apply scan_number_delimited.
  - destruct (Ascii.eqb a "000"); discriminate E.
Qed.

Lemma concat_snoc (l : list string) x : l <> [] ->
  String.concat "," (l ++ [x]) = String.concat "," l +:+ ("," +:+ x).
Proof.
  induction l as [|y l IH]; [done|]. intros _. destruct l as [|z l]; [done|].
  change (y +:+ ("," +:+ String.concat "," ((z :: l) ++ [x])) = (y +:+ ("," +:+ String.concat "," (z :: l))) +:+ ("," +:+ x)).
  rewrite IH by done. by rewrite !str_app_assoc.
Qed.

Lemma comma_scans (rest : string) : scan ("," +:+ rest) = (value_separator, rest).
Proof. done. Qed.

Lemma Forall2_snoc {A B : Type} (P : A -> B -> Prop) l x k :
  Forall2 P (l ++ [x]) k -> exists k' y, Forall2 P l k' /\ P x y /\ k = k' ++ [y].
Proof.
  intros (k1 & k2 & H1 & H2 & ->)%Forall2_app_inv_l. inversion H2 as [|? y ? k3 Hy H3]; subst.
  inversion H3; subst. eauto.
Qed.

(** Elements with commas between them. *)
Lemma reads_elements ss vs : Forall2 reads_as ss vs -> ss <> [] ->
  exists ts, elements ts vs /\
    forall rest, delimited rest = true -> lexes (String.concat "," ss +:+ rest) ts rest.
Proof.
  revert vs. induction ss as [|s ss IH] using rev_ind; [done|]. intros vs0 (vs & v & Hss & Hv & ->)%Forall2_snoc _.
  destruct Hv as (tv & Hv & Hl). destruct ss as [|s1 ss].
  { inversion Hss; subst. exists tv. split; [by apply e_one|done]. }
  destruct (IH _ Hss) as (ts & He & Hls); [done|]. exists (ts ++ value_separator :: tv). split; [by apply e_more|].
  intros rest Hr. rewrite concat_snoc by done. rewrite !str_app_assoc. apply lexes_app. eexists. split; [by apply Hls|].
  econstructor; [apply comma_scans|]. by apply Hl.
Qed.

(** The text of a member. *)
Definition member_reads (s : string) (kv : string * json) : Prop :=
  exists kt vt, s = kt +:+ (":" +:+ vt) /\ dump_string kv.1 = Ok kt /\ reads_as vt kv.2.

Lemma reads_members ss (o : object) : Forall2 member_reads ss o -> ss <> [] -> keys_sorted (map fst o) = true ->
  exists ts, members ts o /\
    forall rest, delimited rest = true -> lexes (String.concat "," ss +:+ rest) ts rest.
Proof.
  revert o. induction ss as [|s ss IH] using rev_ind; [done|].
  intros o0 (o & [k v] & Hss & Hm & ->)%Forall2_snoc _ Hsort. apply keys_sorted_last in Hsort as [Hsort Hlt].
  destruct Hm as (kt & vt & -> & Hk & tv & Hv & Hl). simpl in Hk, Hv.
  assert (forall rest, delimited rest = true ->
            lexes ((kt +:+ (":" +:+ vt)) +:+ rest) (value_string k :: name_separator :: tv) rest) as Hone.
  { intros rest Hr. rewrite !str_app_assoc. econstructor; [by apply scan_dump_string|].
    econstructor; [reflexivity|]. by apply Hl. }
  destruct ss as [|s1 ss].
  { inversion Hss; subst. eexists. split; [by apply m_one|]. done. }
  destruct (IH _ Hss) as (ts & He & Hls); [done..|]. eexists. split.
  { rewrite <- (obj_set_last k v o) by done. by apply m_more. }
  intros rest Hr. rewrite concat_snoc by done. rewrite !str_app_assoc. apply lexes_app. eexists. split; [by apply Hls|].
  econstructor; [apply comma_scans|]. specialize (Hone rest Hr). by rewrite !str_app_assoc in Hone.
Qed.

(** An array or an object between its brackets. *)
Lemma reads_bracketed t ts v (op cl : token) (o c : string) :
  (forall rest, scan (o +:+ rest) = (op, rest)) -> (forall rest, scan (c +:+ rest) = (cl, rest)) ->
  (forall rest, delimited (c +:+ rest) = true) ->
  (forall rest, delimited rest = true -> lexes (t +:+ rest) ts rest) ->
  value (op :: ts ++ [cl]) v -> reads_as (o +:+ (t +:+ c)) v.
Proof.
  intros Ho Hc Hd Hl Hv. exists (op :: ts ++ [cl]). split; [done|]. intros rest Hr. rewrite !str_app_assoc.
  econstructor; [apply Ho|]. apply lexes_app. eexists. split; [by apply Hl|]. by apply lexes_one.
Qed.

(** [dump] of containers, with the loops by name. *)
Definition dump_member (kv : string * json) : res string :=
  let* key := dump_string kv.1 in let* s := dump kv.2 in Ok (key +:+ ":" +:+ s).

Lemma dump_array l :
  dump (JArray l) = let* elements := for_each dump l in Ok ("[" +:+ String.concat "," elements +:+ "]").
Proof.
  cbn [dump]. f_equal. induction l as [|v l IH]; [done|]. simpl. destruct (dump v); simpl; try done. by rewrite IH.
Qed.

Lemma dump_object o :
  dump (JObject o) = let* members := for_each dump_member o in Ok ("{" +:+ String.concat "," members +:+ "}").
Proof.
  cbn [dump]. f_equal. induction o as [|[k v] o IH]; [done|]. simpl. unfold dump_member at 1. simpl.
  destruct (dump_string k); simpl; try done. destruct (dump v); simpl; try done. by rewrite IH.
Qed.

Definition dump_reads (v : json) : Prop :=
  well_formed v = true -> floats_read v -> exists t, dump v = Ok t /\ reads_as t (canonical v).

Lemma for_each_reads {A B : Type} (g : A -> res B) (R : B -> A -> Prop) l :
  Forall (fun x => exists y, g x = Ok y /\ R y x) l -> exists ys, for_each g l = Ok ys /\ Forall2 R ys l.
Proof.
  induction 1 as [|x l (y & E & Hy) Hl (ys & Es & Hys)]; simpl; [by eexists|].
  rewrite E, Es. simpl. eauto.
Qed.

Lemma dump_reads_array l : Forall dump_reads l -> dump_reads (JArray l).
Proof.
  intros Hl Hw Hf. simpl in Hw, Hf. rewrite dump_array.
  destruct (for_each_reads dump (fun t v => reads_as t (canonical v)) l) as (ss & -> & Hss).
  { clear -Hl Hw Hf. induction Hl as [|v l Hv Hl IH]; constructor; simpl in *;
      apply andb_true_iff in Hw as [Hw1 Hw2]; destruct Hf as [Hf1 Hf2]; auto. }
  eexists. split; [done|]. apply Forall2_fmap_r in Hss. destruct ss as [|s ss].
  { inversion Hss as [E|]. simpl. destruct l; [|done]. exists [begin_array; end_array]. split; [constructor|].
    intros rest _. econstructor; [reflexivity|]. by apply lexes_one. }
  destruct (reads_elements _ _ Hss) as (ts & He & Hls); [done|]. change (canonical (JArray l)) with (JArray (canonical <$> l)).
  eapply reads_bracketed; [| | |exact Hls|by apply v_array]; done.
Qed.

Lemma dump_reads_object o : Forall (fun kv => dump_reads kv.2) o -> dump_reads (JObject o).
Proof.
  intros Ho Hw Hf. simpl in Hw, Hf. apply andb_true_iff in Hw as [Hs Hw]. rewrite dump_object.
  set (c := fun kv : string * json => (kv.1, canonical kv.2)).
  destruct (for_each_reads dump_member (fun t kv => member_reads t (c kv)) o) as (ss & -> & Hss).
  { clear -Ho Hw Hf. induction Ho as [|[k v] o Hv Ho IH]; constructor; simpl in *;
      apply andb_true_iff in Hw as [Hw1 Hw2]; destruct Hf as [Hf1 Hf2]; auto.
    apply andb_true_iff in Hw1 as [Hk Hw1]. destruct (Hv Hw1 Hf1) as (t & E & Ht).
    unfold dump_member, dump_string. simpl. rewrite Hk, E. simpl. eexists. split; [done|].
    eexists _, t. split; [done|]. split; [|done]. unfold dump_string. simpl. by rewrite Hk. }
  eexists. split; [done|]. apply Forall2_fmap_r in Hss. destruct ss as [|s ss].
  { inversion Hss as [E|]. simpl. destruct o; [|done]. exists [begin_object; end_object]. split; [constructor|].
    intros rest _. econstructor; [reflexivity|]. by apply lexes_one. }
  destruct (reads_members _ _ Hss) as (ts & He & Hls); [done| |].
  { rewrite <- Hs. f_equal. clear. induction o as [|[k v] o IH]; [done|]. cbn. by f_equal. }
  change (canonical (JObject o)) with (JObject (c <$> o)).
  eapply reads_bracketed; [| | |exact Hls|by apply v_object]; done.
Qed.

Lemma dump_reads_all v : dump_reads v.
Proof.
  induction v as [|b|z|z|f|s|l Hl|o Ho] using json_ind'; auto using dump_reads_array, dump_reads_object; intros Hw Hf;
    simpl in Hw, Hf.
  - eexists. split; [done|]. by eapply reads_one; [constructor|].
  - eexists. split; [done|]. destruct b; (by eapply reads_one; [constructor|]).
  - apply andb_true_iff in Hw as [H1%Z.leb_le H2%Z.ltb_lt]. eexists. split; [done|]. simpl.
    eapply (reads_one _ (if z <? 0 then value_integer z else value_unsigned z)); [destruct (z <? 0); constructor|].
    intros rest Hr. apply scan_pretty; [lia|done].
  - apply andb_true_iff in Hw as [H1%Z.leb_le H2%Z.ltb_lt]. eexists. split; [done|]. simpl.
    eapply (reads_one _ (value_unsigned z)); [constructor|]. intros rest Hr.
    rewrite scan_pretty by (lia || done). by rewrite (proj2 (Z.ltb_ge z 0)).
  - apply andb_true_iff in Hw as [Hw _]. exists (float_text f). split; [by destruct f|]. eapply reads_one; [by constructor|].
    intros rest Hr. by apply float_delimited.
  - simpl. unfold dump_string. rewrite Hw. eexists. split; [done|]. eapply reads_one; [constructor|].
    intros rest Hr. apply scan_dump_string. unfold dump_string. by rewrite Hw.
Qed.

(** ** The whole text *)

Lemma value_live ts v : value ts v -> exists t ts', ts = t :: ts' /\ live t = true.
Proof. destruct 1; eauto. Qed.

(** No value starts with the first byte of the byte order mark. *)
Lemma no_bom t v : reads_as t v -> skip_bom t = Some t.
Proof.
  intros (ts & Hv & Hl). specialize (Hl EmptyString eq_refl). rewrite str_app_nil in Hl.
  destruct (value_live _ _ Hv) as (t0 & ts' & -> & Ht). inversion Hl as [|? ? s1 ? ? Hs _]; subst.
  destruct t as [|a t]; [done|]. simpl. destruct (Z.eqb_spec (code a) 0xEF) as [E|]; [|done].
  exfalso. assert (a = char_of 0xEF) as ->.
  { unfold code in E. rewrite <- (ascii_N_embedding a). unfold char_of. f_equal.
    change (u8 0xEF) with 0xEF. by rewrite <- E, N2Z.id. }
  unfold scan in Hs. simpl in Hs. injection Hs as <- <-. done.
Qed.

Lemma reads_as_parse t v : reads_as t v -> json_parse t = Ok v.
Proof.
  intros Ht. apply json_parse_accepts. pose proof (no_bom t v Ht) as Hb. destruct Ht as (ts & Hv & Hl).
  exists t, ts, EmptyString. split; [done|]. split; [done|].
  specialize (Hl EmptyString eq_refl). rewrite str_app_nil in Hl. by eapply lexes_snoc.
Qed.

Lemma SFeqb_refl f : is_finite f = true -> SFeqb f f = true.
Proof.
  destruct f as [|?| |s m e]; try done. intros _. unfold SFeqb, SFcompare.
  destruct s; rewrite Z.compare_refl, ?Pos.compare_refl; done.
Qed.

(** [operator==] does not tell the two types of integers apart. *)
Lemma canonical_equal v : well_formed v = true -> json_eqb (canonical v) v = true.
Proof.
  induction v as [|b|z|z|f|s|l Hl|o Ho] using json_ind'; simpl; intros Hw.
  - done.
  - by destruct b.
  - apply andb_true_iff in Hw as [H1%Z.leb_le H2%Z.ltb_lt]. destruct (Z.ltb_spec z 0); simpl; [apply Z.eqb_refl|].
    unfold i64, sint. rewrite Z.mod_small by lia. simpl. by rewrite (proj2 (Z.ltb_lt _ _)), Z.eqb_refl by lia.
  - apply Z.eqb_refl.
  - apply andb_true_iff in Hw as [Hw _]. by apply SFeqb_refl.
  - apply String.eqb_refl.
  - induction Hl as [|v l Hv Hl IH]; simpl in *; [done|]. apply andb_true_iff in Hw as [Hw1 Hw2].
    by rewrite (Hv Hw1), (IH Hw2).
  - apply andb_true_iff in Hw as [_ Hw]. induction Ho as [|[k v] o Hv Ho IH]; simpl in *; [done|].
    rewrite !andb_true_iff in Hw. destruct Hw as [[_ Hw1] Hw2]. by rewrite String.eqb_refl, (Hv Hw1), (IH Hw2).
Qed.

(** Every well-formed value has a text, and parsing the text gives the value up to
    the type of the integers that are not negative, provided the text of each of its
    floats is read back as the float. *)
Lemma dump_parses v : well_formed v = true -> floats_read v ->
  exists t, dump v = Ok t /\ json_parse t = Ok (canonical v) /\ json_eqb (canonical v) v = true.
Proof.
  intros Hw Hf. destruct (dump_reads_all v Hw Hf) as (t & E & Ht). exists t. split; [done|].
  split; [by apply reads_as_parse|by apply canonical_equal].
Qed.
End RoundTrip.

(** A value of every kind, with 0.5 for its float. *)
Definition sample : json :=
  JObj [("z", JArray [JInt (-7); JInt 7; JUint (2 ^ 64 - 1); JNull; JBool true; JFloat (S754_finite false 4503599627370496 (-53))]);
        ("a", JObj [("", JString (string_of_bytes [0xE2; 0x82; 0xAC; 34; 92; 10; 1]))]); ("b", JArray []); ("c", JObj [])].

Definition half_text : FloatText := fun _ => "0.5".
