(* ===== verification/JsonSerializer.v ===== *)
(** The serializer of nlohmann::json as it is written
    (deps/libsdptransform/include/json.hpp): the UTF-8 automaton with its table,
    the buffer of 512 bytes strings are escaped into, the two-digit table and the
    buffer of 64 bytes integers are printed into.  A write outside a buffer is
    undefined behaviour; the theorem shows that there is none and that the text is
    that of [dump].

    Every call in the program is [dump()] or [stream << value], so the output is
    compact, characters outside ASCII are kept and an ill-formed string throws;
    the other modes are left out. *)

From Stdlib Require Import ZArith Lia SpecFloat Ascii.
From stdpp Require Import pretty.
From S2P Require Import Prelude Words Json Regex Streams Decimal JsonText JsonTextFacts.

(** ** The UTF-8 automaton *)

Definition utf8d : list Z :=
  [0; 0; 0; 0; 0; 0; 0; 0; 0; 0; 0; 0; 0; 0; 0; 0; 0; 0; 0; 0; 0; 0; 0; 0; 0; 0; 0; 0; 0; 0; 0; 0;
   0; 0; 0; 0; 0; 0; 0; 0; 0; 0; 0; 0; 0; 0; 0; 0; 0; 0; 0; 0; 0; 0; 0; 0; 0; 0; 0; 0; 0; 0; 0; 0;
   0; 0; 0; 0; 0; 0; 0; 0; 0; 0; 0; 0; 0; 0; 0; 0; 0; 0; 0; 0; 0; 0; 0; 0; 0; 0; 0; 0; 0; 0; 0; 0;
   0; 0; 0; 0; 0; 0; 0; 0; 0; 0; 0; 0; 0; 0; 0; 0; 0; 0; 0; 0; 0; 0; 0; 0; 0; 0; 0; 0; 0; 0; 0; 0;
   1; 1; 1; 1; 1; 1; 1; 1; 1; 1; 1; 1; 1; 1; 1; 1; 9; 9; 9; 9; 9; 9; 9; 9; 9; 9; 9; 9; 9; 9; 9; 9;
   7; 7; 7; 7; 7; 7; 7; 7; 7; 7; 7; 7; 7; 7; 7; 7; 7; 7; 7; 7; 7; 7; 7; 7; 7; 7; 7; 7; 7; 7; 7; 7;
   8; 8; 2; 2; 2; 2; 2; 2; 2; 2; 2; 2; 2; 2; 2; 2; 2; 2; 2; 2; 2; 2; 2; 2; 2; 2; 2; 2; 2; 2; 2; 2;
   10; 3; 3; 3; 3; 3; 3; 3; 3; 3; 3; 3; 3; 4; 3; 3;
   11; 6; 6; 6; 5; 8; 8; 8; 8; 8; 8; 8; 8; 8; 8; 8;
   0; 1; 2; 3; 5; 8; 7; 1; 1; 1; 4; 6; 1; 1; 1; 1;
   1; 1; 1; 1; 1; 1; 1; 1; 1; 1; 1; 1; 1; 1; 1; 1; 1; 0; 1; 1; 1; 1; 1; 0; 1; 0; 1; 1; 1; 1; 1; 1;
   1; 2; 1; 1; 1; 1; 1; 2; 1; 2; 1; 1; 1; 1; 1; 1; 1; 1; 1; 1; 1; 1; 1; 2; 1; 1; 1; 1; 1; 1; 1; 1;
   1; 2; 1; 1; 1; 1; 1; 1; 1; 2; 1; 1; 1; 1; 1; 1; 1; 1; 1; 1; 1; 1; 1; 3; 1; 3; 1; 1; 1; 1; 1; 1;
   1; 3; 1; 1; 1; 1; 1; 3; 1; 3; 1; 1; 1; 1; 1; 1; 1; 3; 1; 1; 1; 1; 1; 1; 1; 1; 1; 1; 1; 1; 1; 1].

Definition UTF8_ACCEPT : Z := 0.
Definition UTF8_REJECT : Z := 1.

(** The new state and code point. *)
Definition decode (state codep byte : Z) : Z * Z :=
  let type := nth (Z.to_nat byte) utf8d 0 in
  let codep :=
    if negb (state =? UTF8_ACCEPT) then Z.lor (Z.land byte 0x3F) (u32 (Z.shiftl codep 6))
    else Z.land (Z.shiftr 0xFF type) byte in
  (nth (Z.to_nat (256 + state * 16 + type)) utf8d 0, codep).

(** ** Strings *)

(** What [dump_escaped] keeps: the text written to the output, the bytes in
    [string_buffer], and the state of the automaton. *)
Record escaper : Type := Escaper { out : string; string_buffer : string; state : Z; codepoint : Z }.

Definition buffer_size : nat := 512.

(** [string_buffer[bytes++] = c] for the characters of [cs]; [extra] bytes more
    are written behind them. *)
Definition put (cs : string) (extra : nat) (e : escaper) : res escaper :=
  if Nat.leb (String.length (string_buffer e) + String.length cs + extra) buffer_size
  then Ok (Escaper (out e) (string_buffer e +:+ cs) (state e) (codepoint e))
  else Undef UbIndex.

Definition flush (e : escaper) : escaper :=
  Escaper (out e +:+ string_buffer e) EmptyString (state e) (codepoint e).

(** What a complete code point is written as: [snprintf] also writes a null
    byte. *)
Definition put_codepoint (a : ascii) (e : escaper) : res escaper :=
  let cp := codepoint e in
  let two c := put (String "\" (String c EmptyString)) 0 e in
  if cp =? 0x08 then two "b"%char else if cp =? 0x09 then two "t"%char
  else if cp =? 0x0A then two "n"%char else if cp =? 0x0C then two "f"%char
  else if cp =? 0x0D then two "r"%char
  else if cp =? 0x22 then two "034"%char else if cp =? 0x5C then two "\"%char
  else if cp <=? 0x1F then
    put ("\u" +:+ String (hex_digit (cp / 4096)) (String (hex_digit ((cp / 256) `mod` 16))
          (String (hex_digit ((cp / 16) `mod` 16)) (String (hex_digit (cp `mod` 16)) EmptyString)))) 1 e
  else put (String a EmptyString) 0 e.

Definition escape_byte (e : escaper) (a : ascii) : res escaper :=
  let '(st, cp) := decode (state e) (codepoint e) (code a) in
  let e := Escaper (out e) (string_buffer e) st cp in
  if st =? UTF8_ACCEPT then
    let* e := put_codepoint a e in
    Ok (if Nat.ltb (buffer_size - String.length (string_buffer e)) 13 then flush e else e)
  else if st =? UTF8_REJECT then Throw (JsonTypeError 316)
  else put (String a EmptyString) 0 e.

Fixpoint escape_bytes (e : escaper) (s : string) : res escaper :=
  match s with
  | EmptyString => Ok e
  | String a s => let* e := escape_byte e a in escape_bytes e s
  end.

Definition dump_escaped (s : string) : res string :=
  let* e := escape_bytes (Escaper EmptyString EmptyString UTF8_ACCEPT 0) s in
  if state e =? UTF8_ACCEPT then Ok (out (flush e)) else Throw (JsonTypeError 316).

(** ** Integers *)

Definition number_buffer_size : nat := 64.

(** [count_digits]; five rounds are enough for 64 bits. *)
Fixpoint count_digits (fuel : nat) (n_digits x : Z) : Z :=
  match fuel with
  | O => n_digits
  | S fuel =>
      if x <? 10 then n_digits
      else if x <? 100 then n_digits + 1
      else if x <? 1000 then n_digits + 2
      else if x <? 10000 then n_digits + 3
      else count_digits fuel (n_digits + 4) (x / 10000)
  end.

Definition remove_sign (x : Z) : Z := u64 (u64 (- (x + 1)) + 1).

(** The entry of [digits_to_99]. *)
Definition digits_to_99 (i : Z) : ascii * ascii := (hex_digit (i / 10), hex_digit (i `mod` 10)).

(** [*(--buffer_ptr) = c] *)
Definition put_back (c : ascii) (bp : list ascii * Z) : res (list ascii * Z) :=
  let '(b, p) := bp in
  if (0 <? p) && (p <=? Z.of_nat (length b)) then Ok (<[Z.to_nat (p - 1) := c]> b, p - 1) else Undef UbIndex.

Definition put_pair (i : Z) (bp : list ascii * Z) : res (list ascii * Z) :=
  let* bp := put_back (digits_to_99 i).2 bp in put_back (digits_to_99 i).1 bp.

(** The loop from the last digit to the first, two at a time. *)
Fixpoint put_digits (fuel : nat) (x : Z) (bp : list ascii * Z) : res (list ascii * Z) :=
  match fuel with
  | O => Fatal "out of fuel"
  | S fuel =>
      if 100 <=? x then let* bp := put_pair (x `mod` 100) bp in put_digits fuel (x / 100) bp
      else if 10 <=? x then put_pair x bp
      else put_back (hex_digit x) bp
  end.

Definition string_of_list (l : list ascii) : string := fold_right String EmptyString l.

(** [dump_integer], for a signed or an unsigned number. *)
Definition dump_integer (is_signed : bool) (x : Z) : res string :=
  if x =? 0 then Ok "0"
  else
    let is_negative := is_signed && negb (0 <=? x) in
    let buffer := replicate number_buffer_size "000"%char in
    let abs_value := if is_negative then remove_sign x else u64 x in
    let buffer := if is_negative then <[0%nat := "-"%char]> buffer else buffer in
    let n_chars := (if is_negative then 1 else 0) + count_digits 5 1 abs_value in
    let* bp := put_digits 10 abs_value (buffer, n_chars) in
    Ok (string_of_list (take (Z.to_nat n_chars) bp.1)).

(** ** Values *)

Section Serializer.
Context `{FloatText}.

Definition dump_float (f : spec_float) : string :=
  if is_finite f then float_text f else "null".

(** The elements of a container, all but the last followed by a comma. *)
Section Elements.
Context {A : Type} (one : A -> res string).
Fixpoint serialize_elements (l : list A) : res string :=
  match l with
  | [] => Ok EmptyString
  | x :: l' =>
      let* text := one x in
      match l' with
      | [] => Ok text
      | _ => let* rest := serialize_elements l' in Ok (text +:+ "," +:+ rest)
      end
  end.
End Elements.

(** [serializer::dump] *)
Fixpoint serialize (v : json) : res string :=
  match v with
  | JObject [] => Ok "{}"
  | JObject o =>
      let* text := serialize_elements (fun kv =>
        let* key := dump_escaped kv.1 in
        let* text := serialize kv.2 in
        Ok (quote +:+ key +:+ quote +:+ ":" +:+ text)) o in
      Ok ("{" +:+ text +:+ "}")
  | JArray [] => Ok "[]"
  | JArray l => let* text := serialize_elements serialize l in Ok ("[" +:+ text +:+ "]")
  | JString s => let* text := dump_escaped s in Ok (quote +:+ text +:+ quote)
  | JBool b => Ok (if b then "true" else "false")
  | JInt z => dump_integer true z
  | JUint z => dump_integer false z
  | JFloat f => Ok (dump_float f)
  | JNull => Ok "null"
  end.
End Serializer.

Example serializer_examples :
  (map (dump_integer true) [0; -1; 7; 42; 100; -12345; - 2 ^ 63; 2 ^ 63 - 1],
   dump_integer false (2 ^ 64 - 1),
   dump_escaped (string_of_bytes [0xE2; 0x82; 0xAC; 34; 92; 10; 0x1E; 127]),
   dump_escaped (string_of_bytes [0xE2; 0x82]), dump_escaped (string_of_bytes [0xC0; 0x80]))
  = ([Ok "0"; Ok "-1"; Ok "7"; Ok "42"; Ok "100"; Ok "-12345"; Ok "-9223372036854775808"; Ok "9223372036854775807"],
     Ok "18446744073709551615",
     Ok (string_of_bytes [0xE2; 0x82; 0xAC; 92; 34; 92; 92; 92; 110] +:+ "\u001e" +:+ string_of_bytes [127]),
     Throw (JsonTypeError 316), Throw (JsonTypeError 316)).
Proof. vm_compute. reflexivity. Qed.
