(* ===== verification/JsonSerializerFacts.v ===== *)
(** The serializer prints the text of [dump] and stays inside its buffers. *)

From Stdlib Require Import ZArith Lia SpecFloat Ascii.
From stdpp Require Import pretty.
From S2P Require Import Prelude Words Json Regex Streams Decimal JsonText JsonTextFacts JsonRoundTrip JsonSerializer.

(** ** The automaton and the ranges of continuation bytes *)

(** The ranges of the bytes a state waits for. *)
Definition awaited (st : Z) : list (Z * Z) :=
  let last := (0x80, 0xBF) in
  if st =? 2 then [last]
  else if st =? 3 then [last; last]
  else if st =? 4 then [(0xA0, 0xBF); last]
  else if st =? 5 then [(0x80, 0x9F); last]
  else if st =? 6 then [(0x90, 0xBF); last; last]
  else if st =? 7 then [last; last; last]
  else if st =? 8 then [(0x80, 0x8F); last; last]
  else [].

(** The code point collected so far in a state. *)
Definition partial_ok (st cp : Z) : bool :=
  if st =? 0 then 0x80 <=? cp
  else if st =? 2 then (2 <=? cp) && (cp <? 32768)
  else if st =? 3 then (1 <=? cp) && (cp <? 512)
  else if st =? 4 then (0 <=? cp) && (cp <? 32)
  else if st =? 5 then (1 <=? cp) && (cp <? 32)
  else if st =? 6 then (0 <=? cp) && (cp <? 8)
  else if (st =? 7) || (st =? 8) then (1 <=? cp) && (cp <? 8)
  else false.

Lemma decode_first cp a :
  let '(st, cp') := decode UTF8_ACCEPT cp (code a) in
  if byte_in 0 0x7F a then st = UTF8_ACCEPT /\ cp' = code a
  else match continuation a with
       | Some rs => awaited st = rs /\ partial_ok st cp' = true /\ 2 <= st <= 8
       | None => st = UTF8_REJECT
       end.
Proof.
  destruct a as [[] [] [] [] [] [] [] []]; vm_compute; repeat split; discriminate.
Qed.

Definition next_state (st : Z) (b : ascii) : Z := (decode st 0 (code b)).1.

Lemma decode_more st cp b : st <> UTF8_ACCEPT -> 0 <= cp < 32768 ->
  decode st cp (code b) = (next_state st b, 64 * cp + code b `mod` 64).
Proof.
  intros Hst Hcp. unfold next_state, decode. simpl fst. f_equal.
  destruct (Z.eqb_spec st UTF8_ACCEPT); [done|]. simpl. rewrite land_63, Z.shiftl_mul_pow2 by lia.
  change (2 ^ 6) with 64. rewrite u32_small by lia. rewrite Z.lor_comm. rewrite (lor_byte _ 6); [lia|lia| |].
  - change (2 ^ 6) with 64. by rewrite Z.mod_mul.
  - apply Z.mod_pos_bound. lia.
Qed.

(** The state after a byte in the range. *)
Definition following (st : Z) : Z := if st =? 2 then 0 else if st <=? 5 then 2 else 3.

Ltac each_state H := 
  let Hc := fresh in
  match type of H with
  | 2 <= ?st <= 8 =>
      assert (st = 2 \/ st = 3 \/ st = 4 \/ st = 5 \/ st = 6 \/ st = 7 \/ st = 8) as Hc by lia;
      destruct_or! Hc; subst st
  end.

Lemma next_state_spec st b : 2 <= st <= 8 ->
  match awaited st with
  | (lo, hi) :: rs => next_state st b = (if byte_in lo hi b then following st else UTF8_REJECT) /\ awaited (following st) = rs
  | [] => False
  end.
Proof.
  intros Hst. each_state Hst; (split; [|reflexivity]);
    destruct b as [[] [] [] [] [] [] [] []]; vm_compute; reflexivity.
Qed.

Lemma partial_next st cp b lo hi rs : 2 <= st <= 8 -> partial_ok st cp = true -> awaited st = (lo, hi) :: rs ->
  byte_in lo hi b = true -> partial_ok (following st) (64 * cp + code b `mod` 64) = true.
Proof.
  intros Hst Hp Ha Hb. rewrite byte_in_spec in Hb.
  assert (0x80 <= code b < 0xC0 -> code b `mod` 64 = code b - 128) as Hmod.
  { intros Hr. symmetry. apply (Z.mod_unique _ _ 2); lia. }
  each_state Hst; injection Ha as <- <- <-;
    apply andb_true_iff in Hb as [H1%Z.leb_le H2%Z.leb_le]; rewrite Hmod by lia;
    apply andb_true_iff in Hp as [H3%Z.leb_le H4%Z.ltb_lt]; unfold partial_ok; simpl;
    rewrite ?andb_true_iff, ?Z.leb_le, ?Z.ltb_lt; lia.
Qed.

Lemma partial_range st cp : 2 <= st <= 8 -> partial_ok st cp = true -> 0 <= cp < 32768.
Proof.
  intros Hst Hp. each_state Hst; apply andb_true_iff in Hp as [H3%Z.leb_le H4%Z.ltb_lt]; lia.
Qed.

(** ** Strings *)

(** The rest of a sequence: the text behind it, if its bytes are in the ranges. *)
Fixpoint after_sequence (rs : list (Z * Z)) (s : string) : option (string * string) :=
  match rs, s with
  | [], _ => Some (EmptyString, s)
  | (lo, hi) :: rs, String b s =>
      if byte_in lo hi b then
        match after_sequence rs s with Some (bs, rest) => Some (String b bs, rest) | None => None end
      else None
  | _ :: _, EmptyString => None
  end.

(** Well-formed UTF-8, with the table of continuation bytes. *)
Lemma utf8_ok_step a s : utf8_ok (String a s) =
  if byte_in 0 0x7F a then utf8_ok s
  else match continuation a with
       | Some rs => match after_sequence rs s with Some (_, rest) => utf8_ok rest | None => false end
       | None => false
       end.
Proof.
  pose proof (code_range a). cbn [utf8_ok]. unfold continuation. rewrite !(byte_in_spec _ _ a).
  repeat match goal with
  | |- context [?n <=? code a] => destruct (Z.leb_spec n (code a)); try lia; simpl
  | |- context [code a <=? ?n] => destruct (Z.leb_spec (code a) n); try lia; simpl
  end; try reflexivity; destruct s as [|b [|c [|d s]]]; try reflexivity; cbn [after_sequence];
  repeat match goal with |- context [byte_in ?l ?h ?x] => destruct (byte_in l h x); simpl; try reflexivity end.
Qed.

Lemma str_length_app (s t : string) : String.length (s +:+ t) = (String.length s + String.length t)%nat.
Proof. induction s as [|a s IH]; [done|]. rewrite str_app_cons. simpl. by rewrite IH. Qed.

(** All that was written, in the output or still in the buffer. *)
Definition written (e : escaper) : string := out e +:+ string_buffer e.

(** A complete code point written as [piece] of at most six bytes. *)
Lemma accept_writes a e e1 piece extra : put_codepoint a e1 = put piece extra e1 ->
  out e1 = out e -> string_buffer e1 = string_buffer e -> state e1 = UTF8_ACCEPT ->
  (String.length (string_buffer e) + String.length piece + extra <= 512)%nat ->
  (String.length (string_buffer e) + String.length piece < 512)%nat ->
  exists e', (let* e := put_codepoint a e1 in
              Ok (if Nat.ltb (buffer_size - String.length (string_buffer e)) 13 then flush e else e)) = Ok e' /\
    state e' = UTF8_ACCEPT /\ (String.length (string_buffer e') <= 499)%nat /\ written e' = written e +:+ piece.
Proof.
  intros Hp Ho Hb Hs Hlen Hlen'. rewrite Hp. unfold put. rewrite Hb. unfold buffer_size.
  rewrite (proj2 (Nat.leb_le _ _) Hlen). simpl bind. eexists. split; [done|].
  cbn [string_buffer]. rewrite str_length_app.
  destruct (Nat.ltb_spec (512 - (String.length (string_buffer e) + String.length piece)) 13) as [Hf|Hf];
    unfold written, flush; simpl; rewrite ?str_length_app.
  - split_and!; [exact Hs|simpl; lia|]. by rewrite str_app_nil, Ho, str_app_assoc.
  - split_and!; [exact Hs|lia|]. by rewrite Ho, str_app_assoc.
Qed.

Lemma put_codepoint_ascii a e : codepoint e = code a -> byte_in 0 0x7F a = true ->
  exists extra, (extra <= 1)%nat /\ (String.length (escaped a) <= 6)%nat /\ put_codepoint a e = put (escaped a) extra e.
Proof.
  intros Hc Ha. unfold put_codepoint. rewrite Hc.
  assert (exists extra, (extra <= 1)%nat /\ (String.length (escaped a) <= 6)%nat /\
            forall e, (let cp := code a in
              let two c := put (String "\" (String c EmptyString)) 0 e in
              if cp =? 0x08 then two "b"%char else if cp =? 0x09 then two "t"%char
              else if cp =? 0x0A then two "n"%char else if cp =? 0x0C then two "f"%char
              else if cp =? 0x0D then two "r"%char
              else if cp =? 0x22 then two "034"%char else if cp =? 0x5C then two "\"%char
              else if cp <=? 0x1F then
                put ("\u" +:+ String (hex_digit (cp / 4096)) (String (hex_digit ((cp / 256) `mod` 16))
                      (String (hex_digit ((cp / 16) `mod` 16)) (String (hex_digit (cp `mod` 16)) EmptyString)))) 1 e
              else put (String a EmptyString) 0 e) = put (escaped a) extra e) as (extra & H1 & H2 & H3);
    [|exists extra; split_and!; [done|done|exact (H3 e)]].
  destruct a as [[] [] [] [] [] [] [] []]; try discriminate Ha;
    first [exists 0%nat; split; [lia|split; [apply Nat.leb_le; reflexivity|intros; reflexivity]]
          |exists 1%nat; split; [lia|split; [apply Nat.leb_le; reflexivity|intros; reflexivity]]].
Qed.

Lemma put_codepoint_high a e : 0x80 <= codepoint e -> put_codepoint a e = put (String a EmptyString) 0 e.
Proof.
  intros Hc. unfold put_codepoint.
  repeat match goal with |- context [codepoint e =? ?n] => destruct (Z.eqb_spec (codepoint e) n); [lia|] end.
  by destruct (Z.leb_spec (codepoint e) 0x1F); [lia|].
Qed.

Definition rejected (r : res escaper) : Prop :=
  r = Throw (JsonTypeError 316) \/ exists e, r = Ok e /\ state e <> UTF8_ACCEPT.

(** The rest of a sequence of bytes. *)
Lemma escape_sequence s e : 2 <= state e <= 8 -> partial_ok (state e) (codepoint e) = true ->
  (String.length (string_buffer e) + length (awaited (state e)) <= 503)%nat ->
  match after_sequence (awaited (state e)) s with
  | Some (bs, rest) => exists e', escape_bytes e s = escape_bytes e' rest /\ state e' = UTF8_ACCEPT /\
      (String.length (string_buffer e') <= 499)%nat /\ written e' = written e +:+ bs
  | None => rejected (escape_bytes e s)
  end.
Proof.
  revert e. induction s as [|b s IH]; intros e Hst Hp Hlen.
  { pose proof (next_state_spec (state e) "000" Hst). destruct (awaited (state e)) as [|[lo hi] rs]; [done|].
    right. exists e. split; [done|]. intros E. rewrite E in Hst. unfold UTF8_ACCEPT in Hst. lia. }
  pose proof (next_state_spec (state e) b Hst) as Hn.
  destruct (awaited (state e)) as [|[lo hi] rs] eqn:Ea; [done|]. destruct Hn as [Hn Hrs].
  cbn [escape_bytes after_sequence]. unfold escape_byte.
  rewrite decode_more; [|unfold UTF8_ACCEPT; lia|by eapply partial_range]. rewrite Hn.
  destruct (byte_in lo hi b) eqn:Eb; [|by left].
  pose proof (partial_next _ _ _ _ _ _ Hst Hp Ea Eb) as Hp'.
  set (e1 := Escaper _ _ (following (state e)) _). simpl length in Hlen.
  destruct (decide (following (state e) = 0)) as [E0|E0].
  - rewrite E0 in Hrs. change (awaited 0) with (@nil (Z * Z)) in Hrs. subst rs. cbn [after_sequence].
    destruct (accept_writes b e e1 (String b EmptyString) 0) as (e' & -> & Hs' & Hb' & Hw); try done.
    { apply put_codepoint_high. unfold e1. simpl. rewrite E0 in Hp'. by apply Z.leb_le in Hp'. }
    { simpl. lia. }
    { simpl. lia. }
    rewrite E0. simpl. by exists e'.
  - assert (2 <= following (state e) <= 8) as Hst'.
    { clear -Hst E0. unfold following in *. repeat case_match; lia. }
    destruct (Z.eqb_spec (following (state e)) UTF8_ACCEPT) as [E|]; [done|].
    destruct (Z.eqb_spec (following (state e)) UTF8_REJECT) as [E|]; [unfold UTF8_REJECT in E; lia|].
    unfold put. simpl String.length. unfold buffer_size. rewrite (proj2 (Nat.leb_le _ _)) by (simpl; lia).
    simpl bind. set (e2 := Escaper _ _ _ _).
    specialize (IH e2 Hst' Hp'). unfold e2 in IH at 1 2. cbn [state string_buffer] in IH. rewrite Hrs in IH.
    assert (written e2 = written e +:+ String b EmptyString) as Hw2 by (unfold written; simpl; by rewrite str_app_assoc).
    unfold e2 at 1 in IH. cbn [state] in IH. rewrite Hrs in IH.
    destruct (after_sequence rs s) as [[bs rest]|].
    + destruct IH as (e' & He & Hs' & Hb' & Hw); [rewrite str_length_app; simpl; lia|].
      exists e'. split; [done|]. split; [done|]. split; [done|]. by rewrite Hw, Hw2, str_app_assoc.
    + apply IH. rewrite str_length_app. simpl. lia.
Qed.

Lemma after_sequence_text rs s bs rest : after_sequence rs s = Some (bs, rest) ->
  Forall (fun r => 0x80 <= r.1) rs ->
  escape_all s = bs +:+ escape_all rest /\ (String.length rest <= String.length s)%nat.
Proof.
  revert rs bs. induction s as [|b s IH]; intros [|[lo hi] rs] bs; simpl; try (by intros [= <- <-]).
  destruct (byte_in lo hi b) eqn:Eb; [|done]. destruct (after_sequence rs s) as [[bs' r]|] eqn:E; [|done].
  intros [= <- <-] Hr. inversion Hr as [|? ? Hlo Hrs]; subst. simpl in Hlo.
  destruct (IH _ _ E Hrs) as [-> Hl]. rewrite byte_in_spec in Eb. apply andb_true_iff in Eb as [Eb%Z.leb_le _].
  rewrite (proj2 (proj2 (proj2 (proj2 (high_byte b ltac:(lia)))))). split; [done|lia].
Qed.

Lemma continuation_high a rs : continuation a = Some rs -> Forall (fun r => 0x80 <= r.1) rs /\ 0x80 <= code a.
Proof.
  unfold continuation. pose proof (code_range a). rewrite !byte_in_spec. intros H'.
  split_bytes; (split; [|lia]); repeat constructor; simpl; lia.
Qed.

(** Bytes from an accepting state. *)
Lemma escape_bytes_spec n s e : (String.length s <= n)%nat -> state e = UTF8_ACCEPT ->
  (String.length (string_buffer e) <= 499)%nat ->
  if utf8_ok s
  then exists e', escape_bytes e s = Ok e' /\ state e' = UTF8_ACCEPT /\ written e' = written e +:+ escape_all s
  else rejected (escape_bytes e s).
Proof.
  revert s e. induction n as [|n IH]; intros s e Hn Hs Hb;
    (destruct s as [|a s]; [exists e; split_and!; [done..|by rewrite str_app_nil]|]); simpl in Hn; [lia|].
  rewrite utf8_ok_step. cbn [escape_bytes]. unfold escape_byte. rewrite Hs.
  pose proof (decode_first (codepoint e) a) as Hd. destruct (decode UTF8_ACCEPT (codepoint e) (code a)) as [st cp] eqn:Ed.
  destruct (byte_in 0 0x7F a) eqn:Ea.
  - destruct Hd as [-> ->]. simpl Z.eqb. cbv iota. set (e1 := Escaper _ _ _ _).
    destruct (put_codepoint_ascii a e1) as (extra & H1 & H2 & H3); [done|done|].
    destruct (accept_writes a e e1 (escaped a) extra) as (e' & -> & Hs' & Hb' & Hw); try done; [lia|lia|].
    simpl bind. specialize (IH s e' ltac:(lia) Hs' Hb'). destruct (utf8_ok s); [|done].
    destruct IH as (e2 & -> & H4 & H5). exists e2. split_and!; [done..|]. rewrite H5, Hw. cbn [escape_all]. by rewrite str_app_assoc.
  - destruct (continuation a) as [rs|] eqn:Ec; [|subst st; by left].
    destruct Hd as (Haw & Hp & Hst). destruct (continuation_high _ _ Ec) as [Hrs Ha].
    destruct (Z.eqb_spec st UTF8_ACCEPT) as [E|]; [unfold UTF8_ACCEPT in E; lia|].
    destruct (Z.eqb_spec st UTF8_REJECT) as [E|]; [unfold UTF8_REJECT in E; lia|].
    unfold put. simpl String.length. unfold buffer_size. rewrite (proj2 (Nat.leb_le _ _)) by lia.
    simpl bind. set (e1 := Escaper _ _ _ _).
    assert (length (awaited st) <= 3)%nat as Hl3 by (each_state Hst; simpl; lia).
    pose proof (escape_sequence s e1 Hst Hp) as Hseq. cbn [state string_buffer e1] in Hseq. rewrite Haw in Hseq, Hl3.
    destruct (after_sequence rs s) as [[bs rest]|] eqn:Er.
    + destruct Hseq as (e' & -> & Hs' & Hb' & Hw); [rewrite str_length_app; simpl; lia|].
      destruct (after_sequence_text _ _ _ _ Er Hrs) as [Et Hlen].
      specialize (IH rest e' ltac:(lia) Hs' Hb'). destruct (utf8_ok rest); [|done].
      destruct IH as (e2 & -> & H4 & H5). exists e2. split_and!; [done..|]. rewrite H5, Hw. cbn [escape_all].
      rewrite Et, (proj2 (proj2 (proj2 (proj2 (high_byte a Ha))))). unfold written. simpl. by rewrite !str_app_assoc.
    + apply Hseq. rewrite str_length_app. simpl. lia.
Qed.

Lemma dump_escaped_spec s :
  dump_escaped s = if utf8_ok s then Ok (escape_all s) else Throw (JsonTypeError 316).
Proof.
  unfold dump_escaped. pose proof (escape_bytes_spec _ s (Escaper EmptyString EmptyString UTF8_ACCEPT 0) (le_n _) eq_refl) as H.
  specialize (H ltac:(simpl; lia)). destruct (utf8_ok s).
  - destruct H as (e & -> & Hs & Hw). simpl. rewrite Hs. simpl. f_equal. exact Hw.
  - destruct H as [->|(e & -> & Hs)]; [done|]. simpl. by rewrite (proj2 (Z.eqb_neq _ _) Hs).
Qed.

(** ** Integers *)

Lemma pretty_go_app x s : pretty_N_go x s = pretty_N_go x "" +:+ s.
Proof.
  revert s. induction (N.lt_wf_0 x) as [x _ IH]; intros s.
  destruct (decide (x = 0)%N) as [->|Hx]; [by rewrite !pretty_N_go_0|].
  rewrite (pretty_N_go_step x s), (pretty_N_go_step x "") by lia. assert (x `div` 10 < x)%N as Hlt by (apply N.div_lt; lia).
  rewrite (IH _ Hlt), (IH _ Hlt (String _ "")), str_app_assoc. done.
Qed.

Lemma pretty_char n : 0 <= n < 10 -> pretty_N_char (Z.to_N n) = hex_digit n.
Proof. apply (digit_forall (fun n => pretty_N_char (Z.to_N n) = hex_digit n)). by repeat constructor. Qed.

Lemma pretty_digit n : 0 <= n < 10 -> pretty n = String (hex_digit n) EmptyString.
Proof. apply (digit_forall (fun n => pretty n = String (hex_digit n) EmptyString)). by repeat constructor. Qed.

(** The last digit. *)
Lemma pretty_last x : 10 <= x -> pretty x = pretty (x / 10) +:+ String (hex_digit (x `mod` 10)) EmptyString.
Proof.
  intros Hx. assert (0 < x / 10) by (apply Z.div_str_pos; lia).
  rewrite !pretty_pos by lia. rewrite pretty_N_go_step by lia. rewrite pretty_go_app.
  rewrite Z2N.inj_div by lia. do 2 f_equal. rewrite <- (pretty_char (x `mod` 10)) by (apply Z.mod_pos_bound; lia).
  by rewrite Z2N.inj_mod by lia.
Qed.

Definition chars (s : string) : list ascii := String.list_ascii_of_string s.

Lemma chars_app s t : chars (s +:+ t) = chars s ++ chars t.
Proof. induction s as [|a s IH]; [done|]. rewrite str_app_cons. simpl. f_equal. exact IH. Qed.

Lemma chars_length s : length (chars s) = String.length s.
Proof. induction s as [|a s IH]; [done|]. simpl. by f_equal. Qed.

Lemma string_of_chars s : string_of_list (chars s) = s.
Proof. induction s as [|a s IH]; [done|]. simpl. by f_equal. Qed.

Lemma put_back_spec c pre o suf :
  put_back c (pre ++ o :: suf, Z.of_nat (length pre) + 1) = Ok (pre ++ c :: suf, Z.of_nat (length pre)).
Proof.
  unfold put_back. rewrite length_app. simpl length.
  rewrite (proj2 (Z.ltb_lt _ _)), (proj2 (Z.leb_le _ _)) by lia. simpl. do 2 f_equal; [|lia].
  replace (Z.to_nat _) with (length pre + 0)%nat by lia. by rewrite insert_app_r.
Qed.

Lemma put_pair_spec i pre o1 o2 suf :
  put_pair i (pre ++ o1 :: o2 :: suf, Z.of_nat (length pre) + 2) =
  Ok (pre ++ hex_digit (i / 10) :: hex_digit (i `mod` 10) :: suf, Z.of_nat (length pre)).
Proof.
  unfold put_pair, digits_to_99. simpl.
  pose proof (put_back_spec (hex_digit (i `mod` 10)) (pre ++ [o1]) o2 suf) as H.
  rewrite length_app in H. simpl in H. rewrite <- app_assoc in H. simpl in H.
  replace (Z.of_nat (length pre + 1) + 1) with (Z.of_nat (length pre) + 2) in H by lia.
  rewrite H. simpl. rewrite <- app_assoc. simpl. replace (Z.of_nat (length pre + 1)) with (Z.of_nat (length pre) + 1) by lia.
  apply put_back_spec.
Qed.

(** Two digits in front of the number without them. *)
Lemma pretty_pair x : 100 <= x ->
  chars (pretty x) = chars (pretty (x / 100)) ++ [hex_digit ((x `mod` 100) / 10); hex_digit ((x `mod` 100) `mod` 10)].
Proof.
  intros Hx. assert (10 <= x / 10) by (apply Z.div_le_lower_bound; lia).
  rewrite (pretty_last x), (pretty_last (x / 10)) by lia. rewrite !chars_app. simpl. rewrite <- app_assoc. simpl.
  rewrite Z.div_div by lia. change (10 * 10) with 100.
  assert ((x / 10) `mod` 10 = (x `mod` 100) / 10) as -> by (Z.div_mod_to_equations; lia).
  assert (x `mod` 10 = (x `mod` 100) `mod` 10) as -> by (Z.div_mod_to_equations; lia). done.
Qed.

Lemma put_digits_spec fuel x pre mid suf : fuel <> O -> 0 <= x < 100 ^ Z.of_nat fuel ->
  length mid = length (chars (pretty x)) ->
  put_digits fuel x (pre ++ mid ++ suf, Z.of_nat (length pre + length mid)) =
  Ok (pre ++ chars (pretty x) ++ suf, Z.of_nat (length pre)).
Proof.
  revert x mid suf. induction fuel as [|fuel IH]; intros x mid suf Hfuel Hx Hm; [done|].
  rewrite Nat2Z.inj_succ, Z.pow_succ_r in Hx by lia. cbn [put_digits]. destruct (Z.leb_spec 100 x) as [H100|H100].
  - rewrite pretty_pair in Hm |- * by done. rewrite length_app in Hm. simpl in Hm.
    destruct (exists_last (l := mid)) as (mid1 & o2 & ->); [by intros ->; simpl in Hm; lia|].
    rewrite length_app in Hm. simpl in Hm.
    destruct (exists_last (l := mid1)) as (mid2 & o1 & ->); [by intros ->; simpl in Hm; lia|].
    rewrite length_app in Hm. simpl in Hm. rewrite !length_app. simpl.
    pose proof (put_pair_spec (x `mod` 100) (pre ++ mid2) o1 o2 suf) as Hp. rewrite length_app in Hp.
    rewrite <- !app_assoc in Hp |- *. simpl in Hp |- *.
    replace (Z.of_nat (length pre + (length mid2 + 1 + 1))) with (Z.of_nat (length pre + length mid2) + 2) by lia.
    rewrite Hp. simpl. rewrite IH; [by simplify_list_eq|intros ->; simpl in Hx; lia| |lia].
    split; [apply Z.div_pos; lia|]. apply Z.div_lt_upper_bound; lia.
  - destruct (Z.leb_spec 10 x) as [H10|H10].
    + assert (0 < x / 10 < 10) by (split; [apply Z.div_str_pos; lia|apply Z.div_lt_upper_bound; lia]).
      rewrite pretty_last, chars_app, pretty_digit in Hm |- * by lia. simpl in Hm |- *.
      destruct mid as [|o1 [|o2 [|? ?]]]; simpl in Hm; try lia. simpl.
      replace (Z.of_nat (length pre + 2)) with (Z.of_nat (length pre) + 2) by lia. apply put_pair_spec.
    + rewrite pretty_digit in Hm |- * by lia. simpl in Hm |- *. destruct mid as [|o1 [|? ?]]; simpl in Hm; try lia. simpl.
      replace (Z.of_nat (length pre + 1)) with (Z.of_nat (length pre) + 1) by lia. apply put_back_spec.
Qed.

(** ** How many digits *)

Definition digits (x : Z) : Z := Z.of_nat (length (chars (pretty x))).

Lemma digits_small x : 0 <= x < 10 -> digits x = 1.
Proof. intros Hx. unfold digits. by rewrite pretty_digit. Qed.

Lemma digits_step x : 10 <= x -> digits x = digits (x / 10) + 1.
Proof. intros Hx. unfold digits. rewrite pretty_last, chars_app, length_app by done. simpl. lia. Qed.

Lemma count_digits_spec fuel n x : fuel <> O -> 0 <= x < 10000 ^ Z.of_nat fuel ->
  count_digits fuel n x = n - 1 + digits x.
Proof.
  revert n x. induction fuel as [|fuel IH]; intros n x Hfuel Hx; [done|].
  rewrite Nat2Z.inj_succ, Z.pow_succ_r in Hx by lia. cbn [count_digits].
  destruct (Z.ltb_spec x 10); [rewrite digits_small by lia; lia|]. rewrite (digits_step x) by lia.
  destruct (Z.ltb_spec x 100).
  { rewrite digits_small; [lia|]. Z.div_mod_to_equations; lia. }
  rewrite (digits_step (x / 10)) by (Z.div_mod_to_equations; lia). rewrite Z.div_div by lia.
  destruct (Z.ltb_spec x 1000).
  { rewrite digits_small; [lia|]. Z.div_mod_to_equations; lia. }
  rewrite (digits_step (x / (10 * 10))) by (Z.div_mod_to_equations; lia). rewrite Z.div_div by lia.
  destruct (Z.ltb_spec x 10000).
  { rewrite digits_small; [lia|]. Z.div_mod_to_equations; lia. }
  rewrite (digits_step (x / (10 * 10 * 10))) by (Z.div_mod_to_equations; lia). rewrite Z.div_div by lia.
  change (10 * 10 * 10 * 10) with 10000. rewrite IH; [lia|intros ->; simpl in Hx; lia|].
  split; [apply Z.div_pos; lia|apply Z.div_lt_upper_bound; lia].
Qed.

Lemma digits_bound x : 0 <= x < 2 ^ 64 -> 1 <= digits x <= 20.
Proof.
  intros Hx. assert (forall n x, 0 <= x < 10 ^ (Z.of_nat n + 1) -> 1 <= digits x <= Z.of_nat n + 1) as H.
  { clear. induction n as [|n IH]; intros x Hx; destruct (Z.ltb_spec x 10);
      try (rewrite digits_small by lia; lia).
    rewrite digits_step by lia. specialize (IH (x / 10)).
    replace (Z.of_nat (S n) + 1) with (Z.succ (Z.of_nat n + 1)) in Hx by lia. rewrite Z.pow_succ_r in Hx by lia.
    assert (0 <= x / 10 < 10 ^ (Z.of_nat n + 1)) as Hd by (split; [apply Z.div_pos; lia|apply Z.div_lt_upper_bound; lia]).
    specialize (IH Hd). lia. }
  specialize (H 19%nat x). simpl Z.of_nat in H. lia.
Qed.

(** The number printed behind [pre] into a buffer long enough. *)
Lemma print_digits x (pre rest : list ascii) : 0 < x < 2 ^ 64 -> (length pre + 20 <= length (pre ++ rest))%nat ->
  exists b p, put_digits 10 x (pre ++ rest, Z.of_nat (length pre) + count_digits 5 1 x) = Ok (b, p) /\
    take (Z.to_nat (Z.of_nat (length pre) + count_digits 5 1 x)) b = pre ++ chars (pretty x).
Proof.
  intros Hx Hlen. rewrite length_app in Hlen. pose proof (digits_bound x ltac:(lia)) as Hd.
  rewrite count_digits_spec by (done || simpl; lia). set (d := length (chars (pretty x))).
  assert (digits x = Z.of_nat d) as Ed by done. rewrite Ed in *.
  rewrite <- (take_drop d rest).
  assert (length (take d rest) = d) as Ht by (rewrite length_take; lia).
  replace (Z.of_nat (length pre) + (1 - 1 + Z.of_nat d)) with (Z.of_nat (length pre + length (take d rest))) by lia.
  rewrite put_digits_spec; [|done|simpl; lia|lia]. do 2 eexists. split; [done|].
  replace (Z.to_nat _) with (length (pre ++ chars (pretty x)))%nat by (rewrite length_app; fold d; lia).
  rewrite app_assoc. apply take_app_length.
Qed.

Lemma dump_integer_spec signed z :
  (if signed : bool then - 2 ^ 63 <= z < 2 ^ 63 else 0 <= z < 2 ^ 64) -> dump_integer signed z = Ok (pretty z).
Proof.
  intros Hz. unfold dump_integer. destruct (Z.eqb_spec z 0) as [->|Hne]; [done|].
  destruct (signed && negb (0 <=? z)) eqn:En.
  - apply andb_true_iff in En as [-> En%negb_true_iff%Z.leb_gt].
    assert (remove_sign z = - z) as ->.
    { unfold remove_sign. rewrite (u64_small (- (z + 1))) by lia. rewrite u64_small by lia. lia. }
    change (<[0%nat:="-"%char]> (replicate number_buffer_size "000"%char)) with (["-"%char] ++ replicate 63 "000"%char).
    destruct (print_digits (- z) ["-"%char] (replicate 63 "000"%char)) as (b & p & E & Et); [lia|simpl; lia|].
    change (Z.of_nat (length ["-"%char])) with 1 in *. cbv beta iota zeta.
    rewrite E. cbn [bind fst]. rewrite Et. cbn [app string_of_list fold_right]. fold (string_of_list (chars (pretty (- z)))).
    rewrite string_of_chars. by rewrite <- pretty_neg by lia.
  - assert (0 < z < 2 ^ 64) as Hp.
    { destruct signed; simpl in En; [|lia]. apply negb_false_iff, Z.leb_le in En. lia. }
    rewrite u64_small by lia.
    destruct (print_digits z [] (replicate number_buffer_size "000"%char)) as (b & p & E & Et); [lia|simpl; lia|].
    change (Z.of_nat (length [])) with 0 in *. cbn [app] in *. cbv beta iota zeta.
    rewrite E. cbn [bind fst]. rewrite Et.
    by rewrite string_of_chars.
Qed.

(** ** Values *)

(** The integers of a value fit the 64-bit types that hold them. *)
Fixpoint numbers_fit (v : json) : bool :=
  match v with
  | JInt z => (- 2 ^ 63 <=? z) && (z <? 2 ^ 63)
  | JUint z => (0 <=? z) && (z <? 2 ^ 64)
  | JArray l => forallb numbers_fit l
  | JObject o => forallb (fun kv => numbers_fit kv.2) o
  | _ => true
  end.

Section Values.
Context `{FloatText}.

Lemma serialize_elements_spec {A : Type} (one ref : A -> res string) l :
  Forall (fun x => one x = ref x) l -> l <> [] ->
  serialize_elements one l = let* texts := for_each ref l in Ok (String.concat "," texts).
Proof.
  induction 1 as [|x l Hx Hl IH]; [done|]. intros _. cbn [serialize_elements for_each]. rewrite Hx.
  destruct (ref x) as [t|e|u|d]; cbn [bind]; try done. destruct l as [|y l]; [done|].
  rewrite IH by done. destruct (for_each ref (y :: l)) as [ts|e|u|d] eqn:E; cbn [bind]; try done.
  destruct ts as [|t2 ts]; [apply for_each_length in E; discriminate E|]. done.
Qed.

Lemma serialize_array l : Forall (fun v => serialize v = dump v) l -> serialize (JArray l) = dump (JArray l).
Proof.
  intros Hl. rewrite dump_array. destruct l as [|v l]; [done|]. cbn [serialize].
  rewrite (serialize_elements_spec _ dump) by done. by destruct (for_each dump (v :: l)).
Qed.

Lemma serialize_object o : Forall (fun kv => serialize kv.2 = dump kv.2) o -> serialize (JObject o) = dump (JObject o).
Proof.
  intros Ho. rewrite dump_object. destruct o as [|kv o]; [done|]. cbn [serialize].
  rewrite (serialize_elements_spec _ dump_member); [by destruct (for_each dump_member (kv :: o))| |done].
  eapply Forall_impl; [exact Ho|]. intros [k v] Hv. unfold dump_member, dump_string. simpl in *.
  rewrite dump_escaped_spec, Hv. destruct (utf8_ok k); [|done]. simpl. destruct (dump v); simpl; try done.
  by rewrite !str_app_assoc.
Qed.

(** C29. The serializer as it is written (automaton for UTF-8, escape buffer of
    512 bytes with its flush rule, two digits at a time into a buffer of 64 bytes)
    prints for every value the text of the reference [dump], throws exactly where
    that throws, and never writes outside a buffer. *)
Theorem serializer_is_reference v : numbers_fit v = true -> serialize v = dump v.
Proof.
  induction v as [|b|z|z|f|s|l Hl|o Ho] using json_ind'; intros Hn; try done.
  - apply andb_true_iff in Hn as [H1%Z.leb_le H2%Z.ltb_lt]. by apply dump_integer_spec.
  - apply andb_true_iff in Hn as [H1%Z.leb_le H2%Z.ltb_lt]. by apply dump_integer_spec.
  - simpl. unfold dump_float. by destruct f.
  - simpl. rewrite dump_escaped_spec. unfold dump_string. by destruct (utf8_ok s).
  - apply serialize_array. simpl in Hn. induction Hl as [|v l Hv Hl IH]; constructor; simpl in Hn;
      apply andb_true_iff in Hn as [? ?]; auto.
  - apply serialize_object. simpl in Hn. induction Ho as [|[k v] o Hv Ho IH]; constructor; simpl in *;
      apply andb_true_iff in Hn as [? ?]; auto.
Qed.
End Values.

Lemma serializer_is_reference_witness :
  numbers_fit sample = true /\ @serialize half_text sample = @dump half_text sample.
Proof. split; [vm_compute; reflexivity|]. apply (@serializer_is_reference half_text). vm_compute. reflexivity. Defined.
