(* ===== verification/Dtoa.v ===== *)
(** How nlohmann::json prints a double: the Grisu2 algorithm and the layout of its
    digits (deps/libsdptransform/include/json.hpp, namespace [dtoa_impl] and
    [to_chars]).

    Significands are 64-bit words and wrap around as they do in the source.  A
    buffer is the part of [number_buffer] that starts at the pointer a function is
    given; a write outside it is undefined behaviour.  The assertions of the source
    are kept: one that fails aborts. *)

From Stdlib Require Import ZArith Lia SpecFloat Ascii.
From S2P Require Import Prelude Json Regex Streams JsonText JsonSerializer.

Definition assert_ (c : bool) : res unit := if c then Ok tt else Fatal "assert".

(** ** Floating point with 64-bit significands: [f * 2 ^ e] *)

Record diyfp : Type := Diyfp { df : Z; de : Z }.

Definition sub (x y : diyfp) : res diyfp :=
  do* assert_ (de x =? de y) in
  do* assert_ (df y <=? df x) in
  Ok (Diyfp (u64 (df x - df y)) (de x)).

(** The upper half of the product of the significands, rounded. *)
Definition mul (x y : diyfp) : diyfp :=
  let u_lo := Z.land (df x) 0xFFFFFFFF in
  let u_hi := Z.shiftr (df x) 32 in
  let v_lo := Z.land (df y) 0xFFFFFFFF in
  let v_hi := Z.shiftr (df y) 32 in
  let p0 := u64 (u_lo * v_lo) in
  let p1 := u64 (u_lo * v_hi) in
  let p2 := u64 (u_hi * v_lo) in
  let p3 := u64 (u_hi * v_hi) in
  let p0_hi := Z.shiftr p0 32 in
  let p1_lo := Z.land p1 0xFFFFFFFF in
  let p1_hi := Z.shiftr p1 32 in
  let p2_lo := Z.land p2 0xFFFFFFFF in
  let p2_hi := Z.shiftr p2 32 in
  let Q := u64 (u64 (p0_hi + p1_lo) + p2_lo) in
  let Q := u64 (Q + Z.shiftl 1 (64 - 32 - 1)) in
  let h := u64 (u64 (u64 (p3 + p2_hi) + p1_hi) + Z.shiftr Q 32) in
  Diyfp h (de x + de y + 64).

(** The loop of [normalize]; 64 rounds are enough. *)
Fixpoint normalize_loop (fuel : nat) (x : diyfp) : res diyfp :=
  match fuel with
  | O => Fatal "out of fuel"
  | S fuel =>
      if Z.shiftr (df x) 63 =? 0
      then normalize_loop fuel (Diyfp (u64 (Z.shiftl (df x) 1)) (de x - 1))
      else Ok x
  end.

Definition normalize (x : diyfp) : res diyfp :=
  do* assert_ (negb (df x =? 0)) in normalize_loop 64 x.

Definition normalize_to (x : diyfp) (target_exponent : Z) : res diyfp :=
  let delta := de x - target_exponent in
  do* assert_ (0 <=? delta) in
  do* assert_ (Z.shiftr (u64 (Z.shiftl (df x) delta)) delta =? df x) in
  Ok (Diyfp (u64 (Z.shiftl (df x) delta)) target_exponent).

(** ** The boundaries of a double *)

Record boundaries : Type := Boundaries { bw : diyfp; minus : diyfp; plus : diyfp }.

Definition kPrecision : Z := 53.
Definition kBias : Z := 1024 - 1 + (kPrecision - 1).
Definition kMinExp : Z := 1 - kBias.
Definition kHiddenBit : Z := Z.shiftl 1 (kPrecision - 1).

(** The bits of a positive double [m * 2 ^ e]: its biased exponent in front of the
    significand without the hidden bit. *)
Definition reinterpret_bits (m e : Z) : Z :=
  if m <? kHiddenBit then m else Z.shiftl (e + kBias) (kPrecision - 1) + (m - kHiddenBit).

Definition compute_boundaries (bits : Z) : res boundaries :=
  let E := Z.shiftr bits (kPrecision - 1) in
  let F := Z.land bits (kHiddenBit - 1) in
  let is_denormal := E =? 0 in
  let v := if is_denormal then Diyfp F kMinExp else Diyfp (u64 (F + kHiddenBit)) (E - kBias) in
  let lower_boundary_is_closer := (F =? 0) && (1 <? E) in
  let m_plus := Diyfp (u64 (2 * df v + 1)) (de v - 1) in
  let m_minus :=
    if lower_boundary_is_closer then Diyfp (u64 (4 * df v - 1)) (de v - 2)
    else Diyfp (u64 (2 * df v - 1)) (de v - 1) in
  let* w_plus := normalize m_plus in
  let* w_minus := normalize_to m_minus (de w_plus) in
  let* w := normalize v in
  Ok (Boundaries w w_minus w_plus).

(** ** Cached powers of ten *)

Definition kAlpha : Z := -60.
Definition kGamma : Z := -32.

Record cached_power : Type := CachedPower { cf : Z; ce : Z; ck : Z }.

Definition kCachedPowersMinDecExp : Z := -300.
Definition kCachedPowersDecStep : Z := 8.

Definition kCachedPowers : list cached_power :=
  [CachedPower 0xAB70FE17C79AC6CA (-1060) (-300); CachedPower 0xFF77B1FCBEBCDC4F (-1034) (-292);
   CachedPower 0xBE5691EF416BD60C (-1007) (-284); CachedPower 0x8DD01FAD907FFC3C (-980) (-276);
   CachedPower 0xD3515C2831559A83 (-954) (-268); CachedPower 0x9D71AC8FADA6C9B5 (-927) (-260);
   CachedPower 0xEA9C227723EE8BCB (-901) (-252); CachedPower 0xAECC49914078536D (-874) (-244);
   CachedPower 0x823C12795DB6CE57 (-847) (-236); CachedPower 0xC21094364DFB5637 (-821) (-228);
   CachedPower 0x9096EA6F3848984F (-794) (-220); CachedPower 0xD77485CB25823AC7 (-768) (-212);
   CachedPower 0xA086CFCD97BF97F4 (-741) (-204); CachedPower 0xEF340A98172AACE5 (-715) (-196);
   CachedPower 0xB23867FB2A35B28E (-688) (-188); CachedPower 0x84C8D4DFD2C63F3B (-661) (-180);
   CachedPower 0xC5DD44271AD3CDBA (-635) (-172); CachedPower 0x936B9FCEBB25C996 (-608) (-164);
   CachedPower 0xDBAC6C247D62A584 (-582) (-156); CachedPower 0xA3AB66580D5FDAF6 (-555) (-148);
   CachedPower 0xF3E2F893DEC3F126 (-529) (-140); CachedPower 0xB5B5ADA8AAFF80B8 (-502) (-132);
   CachedPower 0x87625F056C7C4A8B (-475) (-124); CachedPower 0xC9BCFF6034C13053 (-449) (-116);
   CachedPower 0x964E858C91BA2655 (-422) (-108); CachedPower 0xDFF9772470297EBD (-396) (-100);
   CachedPower 0xA6DFBD9FB8E5B88F (-369) (-92); CachedPower 0xF8A95FCF88747D94 (-343) (-84);
   CachedPower 0xB94470938FA89BCF (-316) (-76); CachedPower 0x8A08F0F8BF0F156B (-289) (-68);
   CachedPower 0xCDB02555653131B6 (-263) (-60); CachedPower 0x993FE2C6D07B7FAC (-236) (-52);
   CachedPower 0xE45C10C42A2B3B06 (-210) (-44); CachedPower 0xAA242499697392D3 (-183) (-36);
   CachedPower 0xFD87B5F28300CA0E (-157) (-28); CachedPower 0xBCE5086492111AEB (-130) (-20);
   CachedPower 0x8CBCCC096F5088CC (-103) (-12); CachedPower 0xD1B71758E219652C (-77) (-4);
   CachedPower 0x9C40000000000000 (-50) 4; CachedPower 0xE8D4A51000000000 (-24) 12;
   CachedPower 0xAD78EBC5AC620000 3 20; CachedPower 0x813F3978F8940984 30 28;
   CachedPower 0xC097CE7BC90715B3 56 36; CachedPower 0x8F7E32CE7BEA5C70 83 44;
   CachedPower 0xD5D238A4ABE98068 109 52; CachedPower 0x9F4F2726179A2245 136 60;
   CachedPower 0xED63A231D4C4FB27 162 68; CachedPower 0xB0DE65388CC8ADA8 189 76;
   CachedPower 0x83C7088E1AAB65DB 216 84; CachedPower 0xC45D1DF942711D9A 242 92;
   CachedPower 0x924D692CA61BE758 269 100; CachedPower 0xDA01EE641A708DEA 295 108;
   CachedPower 0xA26DA3999AEF774A 322 116; CachedPower 0xF209787BB47D6B85 348 124;
   CachedPower 0xB454E4A179DD1877 375 132; CachedPower 0x865B86925B9BC5C2 402 140;
   CachedPower 0xC83553C5C8965D3D 428 148; CachedPower 0x952AB45CFA97A0B3 455 156;
   CachedPower 0xDE469FBD99A05FE3 481 164; CachedPower 0xA59BC234DB398C25 508 172;
   CachedPower 0xF6C69A72A3989F5C 534 180; CachedPower 0xB7DCBF5354E9BECE 561 188;
   CachedPower 0x88FCF317F22241E2 588 196; CachedPower 0xCC20CE9BD35C78A5 614 204;
   CachedPower 0x98165AF37B2153DF 641 212; CachedPower 0xE2A0B5DC971F303A 667 220;
   CachedPower 0xA8D9D1535CE3B396 694 228; CachedPower 0xFB9B7CD9A4A7443C 720 236;
   CachedPower 0xBB764C4CA7A44410 747 244; CachedPower 0x8BAB8EEFB6409C1A 774 252;
   CachedPower 0xD01FEF10A657842C 800 260; CachedPower 0x9B10A4E5E9913129 827 268;
   CachedPower 0xE7109BFBA19C0C9D 853 276; CachedPower 0xAC2820D9623BF429 880 284;
   CachedPower 0x80444B5E7AA7CF85 907 292; CachedPower 0xBF21E44003ACDD2D 933 300;
   CachedPower 0x8E679C2F5E44FF8F 960 308; CachedPower 0xD433179D9C8CB841 986 316;
   CachedPower 0x9E19DB92B4E31BA9 1013 324].

Definition get_cached_power_for_binary_exponent (e : Z) : res cached_power :=
  do* assert_ (-1500 <=? e) in
  do* assert_ (e <=? 1500) in
  let f := kAlpha - e - 1 in
  let k := Z.quot (f * 78913) (Z.shiftl 1 18) + (if 0 <? f then 1 else 0) in
  let index := Z.quot (- kCachedPowersMinDecExp + k + (kCachedPowersDecStep - 1)) kCachedPowersDecStep in
  do* assert_ (0 <=? index) in
  do* assert_ (index <? Z.of_nat (length kCachedPowers)) in
  match kCachedPowers !! Z.to_nat index with
  | Some cached =>
      do* assert_ (kAlpha <=? ce cached + e + 64) in
      do* assert_ (ce cached + e + 64 <=? kGamma) in
      Ok cached
  | None => Undef UbIndex
  end.

(** The number of digits of [n], and the power of ten of the first. *)
Definition find_largest_pow10 (n : Z) : Z * Z :=
  if 1000000000 <=? n then (10, 1000000000)
  else if 100000000 <=? n then (9, 100000000)
  else if 10000000 <=? n then (8, 10000000)
  else if 1000000 <=? n then (7, 1000000)
  else if 100000 <=? n then (6, 100000)
  else if 10000 <=? n then (5, 10000)
  else if 1000 <=? n then (4, 1000)
  else if 100 <=? n then (3, 100)
  else if 10 <=? n then (2, 10)
  else (1, 1).

(** ** Buffers *)

(** [buf[i] = c] *)
Definition store (buf : list ascii) (i : Z) (c : ascii) : res (list ascii) :=
  if (0 <=? i) && (i <? Z.of_nat (length buf)) then Ok (<[Z.to_nat i := c]> buf) else Undef UbIndex.

Definition load (buf : list ascii) (i : Z) : res ascii :=
  if i <? 0 then Undef UbIndex
  else match buf !! Z.to_nat i with Some c => Ok c | None => Undef UbIndex end.

(** [memmove(buf + dst, buf + src, count)] *)
Definition memmove (buf : list ascii) (dst src count : Z) : res (list ascii) :=
  if (0 <=? dst) && (0 <=? src) && (0 <=? count) &&
     (dst + count <=? Z.of_nat (length buf)) && (src + count <=? Z.of_nat (length buf))
  then Ok (take (Z.to_nat dst) buf ++ take (Z.to_nat count) (drop (Z.to_nat src) buf) ++
           drop (Z.to_nat (dst + count)) buf)
  else Undef UbIndex.

(** [memset(buf + pos, c, count)] *)
Definition memset (buf : list ascii) (pos : Z) (c : ascii) (count : Z) : res (list ascii) :=
  if (0 <=? pos) && (0 <=? count) && (pos + count <=? Z.of_nat (length buf))
  then Ok (take (Z.to_nat pos) buf ++ replicate (Z.to_nat count) c ++ drop (Z.to_nat (pos + count)) buf)
  else Undef UbIndex.

(** [static_cast<char>('0' + d)] *)
Definition digit (d : Z) : ascii := char_of (48 + d).

(** ** Digit generation *)

(** The last digit is decremented while this brings the number closer to [w]; it
    is at most nine, so ten rounds are enough. *)
Fixpoint grisu2_round_loop (fuel : nat) (buf : list ascii) (len dist delta rest ten_k : Z) : res (list ascii) :=
  match fuel with
  | O => Fatal "out of fuel"
  | S fuel =>
      if (rest <? dist) && (ten_k <=? u64 (delta - rest)) &&
         ((u64 (rest + ten_k) <? dist) || (u64 (u64 (rest + ten_k) - dist) <? u64 (dist - rest)))
      then
        let* c := load buf (len - 1) in
        do* assert_ (negb (Ascii.eqb c "0")) in
        let* buf := store buf (len - 1) (char_of (code c - 1)) in
        grisu2_round_loop fuel buf len dist delta (u64 (rest + ten_k)) ten_k
      else Ok buf
  end.

Definition grisu2_round (buf : list ascii) (len dist delta rest ten_k : Z) : res (list ascii) :=
  do* assert_ (1 <=? len) in
  do* assert_ (dist <=? delta) in
  do* assert_ (rest <=? delta) in
  do* assert_ (0 <? ten_k) in
  grisu2_round_loop 10 buf len dist delta rest ten_k.

(** The digits so far and the exponent of ten. *)
Record digits : Type := Digits { buffer : list ascii; len : Z; decimal_exponent : Z }.

(** [buffer[length++] = '0' + d] *)
Definition push_digit (d : Z) (s : digits) : res digits :=
  let* b := store (buffer s) (len s) (digit d) in
  Ok (Digits b (len s + 1) (decimal_exponent s)).

Section DigitGen.
Context (one_e : Z).

(** The digits of the integral part: [inl] when they are enough, [inr] when the
    fractional part is needed too. *)
Fixpoint integral_digits (n : nat) (p1 p2 pow10 dist delta : Z) (s : digits) : res (digits + digits) :=
  match n with
  | O => Ok (inr s)
  | S n =>
      let d := p1 / pow10 in
      let r := p1 `mod` pow10 in
      do* assert_ (d <=? 9) in
      let* s := push_digit d s in
      let rest := u64 (u64 (Z.shiftl r (- one_e)) + p2) in
      if rest <=? delta then
        let ten_n := u64 (Z.shiftl pow10 (- one_e)) in
        let* b := grisu2_round (buffer s) (len s) dist delta rest ten_n in
        Ok (inl (Digits b (len s) (decimal_exponent s + Z.of_nat n)))
      else integral_digits n r p2 (pow10 / 10) dist delta s
  end.

(** The digits of the fractional part. *)
Fixpoint fractional_digits (fuel : nat) (m p2 dist delta : Z) (s : digits) : res digits :=
  match fuel with
  | O => Fatal "out of fuel"
  | S fuel =>
      do* assert_ (p2 <=? (2 ^ 64 - 1) / 10) in
      let p2 := u64 (p2 * 10) in
      let d := Z.shiftr p2 (- one_e) in
      let r := Z.land p2 (Z.shiftl 1 (- one_e) - 1) in
      do* assert_ (d <=? 9) in
      let* s := push_digit d s in
      let p2 := r in
      let m := m + 1 in
      let delta := u64 (delta * 10) in
      let dist := u64 (dist * 10) in
      if p2 <=? delta then
        let ten_m := Z.shiftl 1 (- one_e) in
        let* b := grisu2_round (buffer s) (len s) dist delta p2 ten_m in
        Ok (Digits b (len s) (decimal_exponent s - m))
      else fractional_digits fuel m p2 dist delta s
  end.
End DigitGen.

Definition grisu2_digit_gen (s : digits) (M_minus w M_plus : diyfp) : res digits :=
  do* assert_ (kAlpha <=? de M_plus) in
  do* assert_ (de M_plus <=? kGamma) in
  let* delta := sub M_plus M_minus in
  let* dist := sub M_plus w in
  let one_e := de M_plus in
  let p1 := u32 (Z.shiftr (df M_plus) (- one_e)) in
  let p2 := Z.land (df M_plus) (Z.shiftl 1 (- one_e) - 1) in
  do* assert_ (0 <? p1) in
  let '(k, pow10) := find_largest_pow10 p1 in
  let* r := integral_digits one_e (Z.to_nat k) p1 p2 pow10 (df dist) (df delta) s in
  match r with
  | inl s => Ok s
  | inr s =>
      do* assert_ (df delta <? p2) in
      fractional_digits one_e 20 0 p2 (df dist) (df delta) s
  end.

Definition grisu2 (buf : list ascii) (m_minus v m_plus : diyfp) : res digits :=
  do* assert_ (de m_plus =? de m_minus) in
  do* assert_ (de m_plus =? de v) in
  let* cached := get_cached_power_for_binary_exponent (de m_plus) in
  let c_minus_k := Diyfp (cf cached) (ce cached) in
  let w := mul v c_minus_k in
  let w_minus := mul m_minus c_minus_k in
  let w_plus := mul m_plus c_minus_k in
  let M_minus := Diyfp (u64 (df w_minus + 1)) (de w_minus) in
  let M_plus := Diyfp (u64 (df w_plus - 1)) (de w_plus) in
  grisu2_digit_gen (Digits buf 0 (- ck cached)) M_minus w M_plus.

(** [grisu2] of a positive double. *)
Definition grisu2_value (buf : list ascii) (m e : Z) : res digits :=
  let* b := compute_boundaries (reinterpret_bits m e) in
  grisu2 buf (minus b) (bw b) (plus b).

(** ** Layout *)

(** The exponent at [pos]; the new buffer and the end. *)
Definition append_exponent (buf : list ascii) (pos e : Z) : res (list ascii * Z) :=
  do* assert_ (-1000 <? e) in
  do* assert_ (e <? 1000) in
  let* buf := store buf pos (if e <? 0 then "-"%char else "+"%char) in
  let pos := pos + 1 in
  let k := Z.abs e in
  if k <? 10 then
    let* buf := store buf pos "0" in
    let* buf := store buf (pos + 1) (digit k) in
    Ok (buf, pos + 2)
  else if k <? 100 then
    let* buf := store buf pos (digit (k / 10)) in
    let* buf := store buf (pos + 1) (digit (k `mod` 10)) in
    Ok (buf, pos + 2)
  else
    let* buf := store buf pos (digit (k / 100)) in
    let k := k `mod` 100 in
    let* buf := store buf (pos + 1) (digit (k / 10)) in
    let* buf := store buf (pos + 2) (digit (k `mod` 10)) in
    Ok (buf, pos + 3).

Definition format_buffer (buf : list ascii) (len decimal_exponent min_exp max_exp : Z) : res (list ascii * Z) :=
  do* assert_ (min_exp <? 0) in
  do* assert_ (0 <? max_exp) in
  let k := len in
  let n := len + decimal_exponent in
  if (k <=? n) && (n <=? max_exp) then
    let* buf := memset buf k "0" (n - k) in
    let* buf := store buf n "." in
    let* buf := store buf (n + 1) "0" in
    Ok (buf, n + 2)
  else if (0 <? n) && (n <=? max_exp) then
    do* assert_ (n <? k) in
    let* buf := memmove buf (n + 1) n (k - n) in
    let* buf := store buf n "." in
    Ok (buf, k + 1)
  else if (min_exp <? n) && (n <=? 0) then
    let* buf := memmove buf (2 + - n) 0 k in
    let* buf := store buf 0 "0" in
    let* buf := store buf 1 "." in
    let* buf := memset buf 2 "0" (- n) in
    Ok (buf, 2 + - n + k)
  else
    let* bp :=
      if k =? 1 then Ok (buf, 1)
      else
        let* buf := memmove buf 2 1 (k - 1) in
        let* buf := store buf 1 "." in
        Ok (buf, 1 + k) in
    let '(buf, pos) := bp in
    let* buf := store buf pos "e" in
    append_exponent buf (pos + 1) (n - 1).

Definition max_digits10 : Z := 17.
Definition digits10 : Z := 15.

(** A number without its sign. *)
Definition to_chars_abs (buf : list ascii) (v : spec_float) : res (list ascii * Z) :=
  match v with
  | S754_finite _ m e =>
      do* assert_ (max_digits10 <=? Z.of_nat (length buf)) in
      let* s := grisu2_value buf (Zpos m) e in
      do* assert_ (len s <=? max_digits10) in
      format_buffer (buffer s) (len s) (decimal_exponent s) (-4) digits10
  | _ =>
      let* buf := store buf 0 "0" in
      let* buf := store buf 1 "." in
      let* buf := store buf 2 "0" in
      Ok (buf, 3)
  end.

Definition signbit (v : spec_float) : bool :=
  match v with S754_zero s | S754_infinity s | S754_finite s _ _ => s | S754_nan => false end.

Definition to_chars (first : list ascii) (v : spec_float) : res (list ascii * Z) :=
  do* assert_ (is_finite v) in
  if signbit v then
    let* first := store first 0 "-" in
    let* be := to_chars_abs (drop 1 first) v in
    Ok (take 1 first ++ be.1, 1 + be.2)
  else to_chars_abs first v.

(** [dump_float] for a finite number. *)
Definition dump_double (v : spec_float) : res string :=
  let* be := to_chars (replicate number_buffer_size "000"%char) v in
  Ok (string_of_list (take (Z.to_nat be.2) be.1)).

Example dump_double_examples :
  map dump_double
    [double_of_Z 1; double_of_Z (-120); double_of_Z (10 ^ 22); S754_finite false 4503599627370496 (-53);
     strtod "0.1"; strtod "-1.7976931348623157e308"; strtod "5e-324"; strtod "0.000123"; strtod "0.00001";
     strtod "2.2250738585072014e-308"; strtod "9007199254740993"; strtod "123456.789"; S754_zero true] =
  map Ok ["1.0"; "-120.0"; "1e+22"; "0.5"; "0.1"; "-1.7976931348623157e+308"; "5e-324"; "0.000123"; "1e-05";
          "2.2250738585072014e-308"; "9.007199254740992e+15"; "123456.789"; "-0.0"].
Proof. vm_compute. reflexivity. Qed.
