(* ===== verification/DtoaFacts.v ===== *)
(** Grisu2 is correct: for every positive double no assertion of the source fails,
    nothing is written outside the buffer, at most 17 digits are generated, and the
    decimal number they stand for lies strictly between the midpoints to the
    neighbours of the double. *)

From Stdlib Require Import ZArith Lia SpecFloat Ascii QArith Qpower Lqa.
From S2P Require Import Prelude Words Json Regex Streams JsonText JsonTextFacts Rounding Dtoa.
#[local] Open Scope Z_scope.

(** ** Arithmetic of significands *)

Lemma assert_true (c : bool) : c = true -> assert_ c = Ok tt.
Proof. by intros ->. Qed.

(** The rounded upper half of a product. *)
Lemma mul_spec x y : 0 <= df x < 2 ^ 64 -> 0 <= df y < 2 ^ 64 ->
  de (mul x y) = de x + de y + 64 /\
  df (mul x y) * 2 ^ 64 <= df x * df y + 2 ^ 63 < (df (mul x y) + 1) * 2 ^ 64.
Proof.
  destruct x as [x ex], y as [y ey]. simpl df. intros Hx Hy. split; [done|]. unfold mul. cbn [df].
  change 0xFFFFFFFF with (Z.ones 32). rewrite !Z.land_ones, !Z.shiftr_div_pow2 by lia.
  pose proof (Z.div_mod x (2 ^ 32) ltac:(lia)) as Ex. pose proof (Z.mod_pos_bound x (2 ^ 32) ltac:(lia)).
  pose proof (Z.div_mod y (2 ^ 32) ltac:(lia)) as Ey. pose proof (Z.mod_pos_bound y (2 ^ 32) ltac:(lia)).
  set (xl := x `mod` 2 ^ 32) in *. set (xh := x / 2 ^ 32) in *.
  set (yl := y `mod` 2 ^ 32) in *. set (yh := y / 2 ^ 32) in *.
  assert (0 <= xh < 2 ^ 32 /\ 0 <= yh < 2 ^ 32) as [Hxh Hyh] by lia.
  assert (forall a b, 0 <= a < 2 ^ 32 -> 0 <= b < 2 ^ 32 -> 0 <= a * b <= (2 ^ 32 - 1) * (2 ^ 32 - 1)) as Hp by nia.
  pose proof (Hp xl yl ltac:(lia) ltac:(lia)). pose proof (Hp xl yh ltac:(lia) ltac:(lia)).
  pose proof (Hp xh yl ltac:(lia) ltac:(lia)). pose proof (Hp xh yh ltac:(lia) ltac:(lia)).
  assert (x * y <= (2 ^ 64 - 1) * (2 ^ 64 - 1)) as Hxy by nia.
  assert (x * y = xl * yl + 2 ^ 32 * (xl * yh + xh * yl) + 2 ^ 64 * (xh * yh)) as Exy by (rewrite Ex, Ey; ring).
  rewrite Exy in *. clear Exy.
  set (p0 := xl * yl) in *. set (p1 := xl * yh) in *. set (p2 := xh * yl) in *. set (p3 := xh * yh) in *.
  clearbody p0 p1 p2 p3. clear Hp Ex Ey.
  rewrite (u64_small p0), (u64_small p1), (u64_small p2), (u64_small p3) by lia.
  change (Z.shiftl 1 (64 - 32 - 1)) with (2 ^ 31).
  pose proof (Z.div_mod p0 (2 ^ 32) ltac:(lia)). pose proof (Z.mod_pos_bound p0 (2 ^ 32) ltac:(lia)).
  pose proof (Z.div_mod p1 (2 ^ 32) ltac:(lia)). pose proof (Z.mod_pos_bound p1 (2 ^ 32) ltac:(lia)).
  pose proof (Z.div_mod p2 (2 ^ 32) ltac:(lia)). pose proof (Z.mod_pos_bound p2 (2 ^ 32) ltac:(lia)).
  set (a0 := p0 / 2 ^ 32) in *. set (b0 := p0 `mod` 2 ^ 32) in *. clearbody a0 b0.
  set (a1 := p1 / 2 ^ 32) in *. set (b1 := p1 `mod` 2 ^ 32) in *. clearbody a1 b1.
  set (a2 := p2 / 2 ^ 32) in *. set (b2 := p2 `mod` 2 ^ 32) in *. clearbody a2 b2. subst p0 p1 p2.
  rewrite (u64_small (a0 + b1)), (u64_small (a0 + b1 + b2)), (u64_small (a0 + b1 + b2 + _)) by lia.
  pose proof (Z.div_mod (a0 + b1 + b2 + 2 ^ 31) (2 ^ 32) ltac:(lia)) as EQ.
  pose proof (Z.mod_pos_bound (a0 + b1 + b2 + 2 ^ 31) (2 ^ 32) ltac:(lia)).
  set (q := (a0 + b1 + b2 + 2 ^ 31) / 2 ^ 32) in *. set (r := (a0 + b1 + b2 + 2 ^ 31) `mod` 2 ^ 32) in *.
  clearbody q r. rewrite (u64_small (p3 + a2)), (u64_small (p3 + a2 + a1)), (u64_small (p3 + a2 + a1 + q)) by lia. lia.
Qed.

Lemma normalize_loop_spec n f e fuel : 0 < f < 2 ^ 64 -> 63 - Z.log2 f = Z.of_nat n -> (n < fuel)%nat ->
  normalize_loop fuel (Diyfp f e) = Ok (Diyfp (f * 2 ^ Z.of_nat n) (e - Z.of_nat n)).
Proof.
  revert f e fuel. induction n as [|n IH]; intros f e [|fuel] Hf Hn Hfuel; try lia; cbn [normalize_loop df de].
  - pose proof (Z.log2_spec f ltac:(lia)) as [Hl _]. replace (Z.log2 f) with 63 in Hl by lia.
    rewrite Z.shiftr_div_pow2 by lia. destruct (Z.eqb_spec (f / 2 ^ 63) 0) as [E|_]; [apply Z.div_small_iff in E; lia|].
    do 2 f_equal; simpl; lia.
  - pose proof (Z.log2_spec f ltac:(lia)) as [_ Hl].
    assert (f < 2 ^ 63) as Hs by (eapply Z.lt_le_trans; [exact Hl|]; apply Z.pow_le_mono_r; lia).
    rewrite Z.shiftr_div_pow2, Z.div_small, Z.eqb_refl by lia. rewrite Z.shiftl_mul_pow2 by lia.
    rewrite u64_small by lia. change (2 ^ 1) with 2. rewrite IH; [|lia| |lia].
    + rewrite Nat2Z.inj_succ, Z.pow_succ_r by lia. do 2 f_equal; lia.
    + rewrite Z.mul_comm, Z.log2_double by lia. lia.
Qed.

Lemma normalize_spec f e : 0 < f < 2 ^ 64 ->
  normalize (Diyfp f e) = Ok (Diyfp (f * 2 ^ (63 - Z.log2 f)) (e - (63 - Z.log2 f))).
Proof.
  intros Hf. unfold normalize. rewrite assert_true by (simpl; by destruct (Z.eqb_spec f 0); [lia|]). cbn [bind].
  pose proof (Z.log2_nonneg f). assert (Z.log2 f < 64) by (apply Z.log2_lt_pow2; lia).
  rewrite (normalize_loop_spec (Z.to_nat (63 - Z.log2 f))); [by rewrite Z2Nat.id by lia|lia..].
Qed.

Lemma normalize_to_spec f e t : 0 <= t -> 0 < f * 2 ^ t < 2 ^ 64 ->
  normalize_to (Diyfp f e) (e - t) = Ok (Diyfp (f * 2 ^ t) (e - t)).
Proof.
  intros Ht Hf. unfold normalize_to. cbn [df de]. replace (e - (e - t)) with t by lia.
  rewrite assert_true by (apply Z.leb_le; lia). cbn [bind].
  assert (0 < 2 ^ t) by (apply Z.pow_pos_nonneg; lia).
  rewrite Z.shiftl_mul_pow2, u64_small, Z.shiftr_div_pow2, Z.div_mul by lia.
  by rewrite assert_true by apply Z.eqb_refl.
Qed.

(** ** Boundaries *)

Lemma bits_spec m e : double m e ->
  let bits := reinterpret_bits m e in
  let E := Z.shiftr bits (kPrecision - 1) in
  let F := Z.land bits (kHiddenBit - 1) in
  (E = 0 /\ F = m /\ e = -1074 /\ m < 2 ^ 52) \/ (E = e + 1075 /\ F = m - 2 ^ 52 /\ 2 ^ 52 <= m).
Proof.
  intros ([Hm1 Hm2] & He & Hn). unfold reinterpret_bits. change kBias with 1075. unfold kHiddenBit, kPrecision.
  change (Z.shiftl 1 (53 - 1)) with (2 ^ 52). change (53 - 1) with 52. change (2 ^ 52 - 1) with (Z.ones 52).
  cbv zeta. rewrite Z.shiftr_div_pow2, Z.land_ones by lia. destruct (Z.ltb_spec m (2 ^ 52)).
  - left. rewrite Z.div_small, Z.mod_small by lia. lia.
  - right. rewrite Z.shiftl_mul_pow2 by lia.
    rewrite (Z.add_comm (_ * _)), Z.div_add, Z.mod_add, Z.div_small, Z.mod_small by lia. lia.
Qed.

Lemma log2_up m t : 0 < m -> t = 61 - Z.log2 m -> 0 <= t -> 2 ^ 63 <= upper m * 2 ^ t < 2 ^ 64 /\ Z.log2 (2 * m + 1) = 62 - t.
Proof.
  intros Hm Ht Ht0. pose proof (Z.log2_spec m Hm) as [H1 H2]. pose proof (Z.log2_nonneg m).
  assert (2 ^ Z.log2 m * 2 ^ t = 2 ^ 61) as E by (rewrite <- Z.pow_add_r by lia; f_equal; lia).
  rewrite Z.pow_succ_r in H2 by lia. assert (0 < 2 ^ t) by (apply Z.pow_pos_nonneg; lia). unfold upper.
  split; [nia|]. rewrite Z.log2_succ_double by lia. lia.
Qed.

Lemma compute_boundaries_spec m e : double m e ->
  let t := 61 - Z.log2 m in
  compute_boundaries (reinterpret_bits m e) =
    Ok (Boundaries (Diyfp (4 * m * 2 ^ t) (e - 2 - t)) (Diyfp (lower m e * 2 ^ t) (e - 2 - t))
                   (Diyfp (upper m * 2 ^ t) (e - 2 - t))) /\
  9 <= t /\ -1137 <= e - 2 - t <= 960 /\ 2 ^ 63 <= upper m * 2 ^ t < 2 ^ 64.
Proof.
  intros Hd t. pose proof Hd as ([Hm1 Hm2] & He & Hn). pose proof (Z.log2_nonneg m).
  assert (Z.log2 m < 53) by (apply Z.log2_lt_pow2; lia).
  assert (9 <= t <= 61) as Ht by lia. destruct (log2_up m t Hm1 eq_refl ltac:(lia)) as [Hup Hlog].
  assert (52 <= Z.log2 m \/ e = -1074) as Hlm
    by (destruct Hn; [left; apply Z.log2_le_pow2; lia|by right]).
  split; [|repeat split; lia].
  assert (0 < 2 ^ t) as HP by (apply Z.pow_pos_nonneg; lia).
  assert (2 ^ (t + 1) = 2 * 2 ^ t) as EP by (rewrite Z.pow_add_r by lia; lia).
  assert (2 ^ (t + 2) = 4 * 2 ^ t) as EP2 by (rewrite Z.pow_add_r by lia; lia).
  unfold compute_boundaries. pose proof (bits_spec m e Hd) as Hb. cbv zeta in Hb |- *.
  set (E := Z.shiftr _ _) in *. set (F := Z.land _ _) in *.
  assert ((if E =? 0 then Diyfp F kMinExp else Diyfp (u64 (F + kHiddenBit)) (E - kBias)) = Diyfp m e) as ->.
  { change kHiddenBit with (2 ^ 52). change kBias with 1075. change kMinExp with (-1074).
    destruct Hb as [(-> & -> & -> & _)|(-> & -> & _)]; [done|].
    destruct (Z.eqb_spec (e + 1075) 0); [lia|]. rewrite u64_small by lia. f_equal; lia. }
  cbn [df de]. rewrite (u64_small (2 * m + 1)) by lia.
  rewrite normalize_spec, Hlog by lia. replace (63 - (62 - t)) with (t + 1) by lia. cbn [bind de].
  replace (e - 1 - (t + 1)) with (e - 2 - t) by lia.
  replace ((F =? 0) && (1 <? E)) with ((m =? 2 ^ 52) && (-1074 <? e)).
  2:{ apply Bool.eq_true_iff_eq. rewrite !andb_true_iff, !Z.eqb_eq, !Z.ltb_lt. lia. }
  assert (normalize (Diyfp m e) = Ok (Diyfp (4 * m * 2 ^ t) (e - 2 - t))) as ->.
  { rewrite normalize_spec by lia. replace (63 - Z.log2 m) with (t + 2) by lia. rewrite EP2. do 2 f_equal; lia. }
  unfold lower, upper in *. destruct (_ && _) eqn:Ec.
  - rewrite u64_small by lia. replace (e - 2 - t) with ((e - 2) - t) by lia.
    rewrite normalize_to_spec by nia. cbn [bind]. rewrite EP. do 3 f_equal; lia.
  - rewrite u64_small by lia. replace (e - 2 - t) with ((e - 1) - (t + 1)) by lia.
    rewrite normalize_to_spec by (rewrite ?EP; nia). cbn [bind]. rewrite EP. do 3 f_equal; lia.
Qed.

(** ** Cached powers *)

(** A table entry is the power of ten to within half a unit of its significand. *)
Definition close_power (c : cached_power) : Prop :=
  2 ^ 63 <= cf c < 2 ^ 64 /\
  (bin (2 * cf c - 1) (ce c - 1) <= 10 ^ ck c)%Q /\ (10 ^ ck c <= bin (2 * cf c + 1) (ce c - 1))%Q.

Definition close_powerb (c : cached_power) : bool :=
  (2 ^ 63 <=? cf c) && (cf c <? 2 ^ 64) &&
  Qle_bool (bin (2 * cf c - 1) (ce c - 1)) (10 ^ ck c) && Qle_bool (10 ^ ck c) (bin (2 * cf c + 1) (ce c - 1)).

Lemma powers_close : forallb close_powerb kCachedPowers = true.
Proof. vm_compute. reflexivity. Qed.

Definition suits (e : Z) : bool :=
  match get_cached_power_for_binary_exponent e with
  | Ok c => (-60 <=? ce c + e + 64) && (ce c + e + 64 <=? -32) && (-300 <=? ck c) && (ck c <=? 324)
  | _ => false
  end.

Lemma powers_suit : forallb suits (seqZ (-1137) 2098) = true.
Proof. vm_compute. reflexivity. Qed.

Lemma cached_power_In e c : get_cached_power_for_binary_exponent e = Ok c -> In c kCachedPowers.
Proof.
  unfold get_cached_power_for_binary_exponent. intros E.
  apply bind_Ok_inv in E as (_ & _ & E). apply bind_Ok_inv in E as (_ & _ & E). cbv zeta in E.
  apply bind_Ok_inv in E as (_ & _ & E). apply bind_Ok_inv in E as (_ & _ & E).
  destruct (kCachedPowers !! _) as [c'|] eqn:El; [|discriminate].
  apply bind_Ok_inv in E as (_ & _ & E). apply bind_Ok_inv in E as (_ & _ & [= ->]).
  apply list_elem_of_In. by eapply list_elem_of_lookup_2.
Qed.

Lemma cached_power_spec e : -1137 <= e <= 960 ->
  exists c, get_cached_power_for_binary_exponent e = Ok c /\ close_power c /\
    -60 <= ce c + e + 64 <= -32 /\ -300 <= ck c <= 324.
Proof.
  intros He. assert (suits e = true) as Hs.
  { apply (proj1 (forallb_forall _ _) powers_suit). apply list_elem_of_In, elem_of_seqZ. lia. }
  unfold suits in Hs. destruct (get_cached_power_for_binary_exponent e) as [c|?|?|?] eqn:E; try done.
  rewrite !andb_true_iff, !Z.leb_le in Hs. exists c. split; [done|]. split; [|lia].
  pose proof (proj1 (forallb_forall _ _) powers_close c (cached_power_In _ _ E)) as Hc. unfold close_powerb in Hc.
  rewrite !andb_true_iff, !Qle_bool_iff, Z.leb_le, Z.ltb_lt in Hc. unfold close_power. tauto.
Qed.

(** ** Scaling by a cached power *)

Lemma dec_shift D n k : (dec D (n - k) * 10 ^ k == dec D n)%Q.
Proof.
  rewrite <- Qmult_assoc, <- Qpower_plus by done. by replace (n - k + k) with n by lia.
Qed.

Lemma bin_bin a x b y : (bin a x * bin b y == bin (a * b) (x + y))%Q.
Proof. rewrite inject_Z_mult, Qpower_plus by done. ring. Qed.

Lemma bin_align a x n : 0 <= n -> (bin a (x + n) == bin (a * 2 ^ n) x)%Q.
Proof. intros Hn. rewrite inject_Z_mult, two_pow, Qpower_plus by done. ring. Qed.

Lemma bin_lt a b x : a < b -> (bin a x < bin b x)%Q.
Proof. intros Hab. apply Qmult_lt_r; [apply two_pow_pos|]. by rewrite <- Zlt_Qlt. Qed.

Lemma bin_le a b x : a <= b -> (bin a x <= bin b x)%Q.
Proof. intros Hab. apply Qmult_le_r; [apply two_pow_pos|]. by rewrite <- Zle_Qle. Qed.

Lemma bin_nonneg a x : 0 <= a -> (0 <= bin a x)%Q.
Proof.
  intros Ha. apply Qmult_le_0_compat; [by rewrite (Zle_Qle 0) in Ha|]. apply Qlt_le_weak, two_pow_pos.
Qed.

(** The error of the table entry and of the product together is less than the one
    unit the code moves the boundaries inwards. *)
Lemma scaled_below c f E W D n : close_power c -> 0 < f < 2 ^ 64 -> W * 2 ^ 64 <= f * cf c + 2 ^ 63 ->
  (dec D n <= bin (W - 1) (ce c + E + 64))%Q -> (dec D (n - ck c) < bin f E)%Q.
Proof.
  intros (Hc & Hlo & _) Hf HW HD. apply (Qlt_scale _ _ _ (ten_pow_pos (ck c))). rewrite dec_shift.
  eapply Qle_lt_trans; [exact HD|]. eapply Qlt_le_trans; [|apply Qmult_le_l; [|exact Hlo]].
  - rewrite bin_bin. replace (ce c + E + 64) with (E + (ce c - 1) + 65) by lia. rewrite (bin_align _ _ 65) by lia.
    apply bin_lt. nia.
  - apply Qmult_lt_0_compat; [change 0%Q with (inject_Z 0); rewrite <- Zlt_Qlt; lia|apply two_pow_pos].
Qed.

Lemma scaled_above c f E W D n : close_power c -> 0 <= f < 2 ^ 64 -> f * cf c + 2 ^ 63 < (W + 1) * 2 ^ 64 ->
  (bin (W + 1) (ce c + E + 64) <= dec D n)%Q -> (bin f E < dec D (n - ck c))%Q.
Proof.
  intros (Hc & _ & Hhi) Hf HW HD. apply (Qlt_scale _ _ _ (ten_pow_pos (ck c))). rewrite dec_shift.
  eapply Qlt_le_trans; [|exact HD]. eapply Qle_lt_trans.
  - apply Qmult_le_compat_nonneg; [split; [apply bin_nonneg; lia|apply Qle_refl]|split; [apply Qlt_le_weak, ten_pow_pos|exact Hhi]].
  - rewrite bin_bin. replace (ce c + E + 64) with (E + (ce c - 1) + 65) by lia. rewrite (bin_align _ _ 65) by lia.
    apply bin_lt. nia.
Qed.

(** ** Digits in a buffer *)

Definition decimal (ds : list Z) : Z := fold_left (fun v d => 10 * v + d) ds 0.
Abbreviation digits_of ds := (map digit ds).

Definition is_dec (d : Z) : Prop := 0 <= d <= 9.

Lemma decimal_snoc ds d : decimal (ds ++ [d]) = 10 * decimal ds + d.
Proof. unfold decimal. by rewrite fold_left_app. Qed.

Lemma decimal_lead ds : Forall is_dec ds -> match ds with [] => False | d :: _ => 0 < d end ->
  10 ^ (Z.of_nat (length ds) - 1) <= decimal ds.
Proof.
  induction ds as [|d ds IH] using rev_ind; [done|]. intros [Hds Hd]%Forall_app Hl.
  apply Forall_inv in Hd. unfold is_dec in Hd. rewrite length_app, decimal_snoc. cbn [length].
  destruct ds as [|d0 ds]; [change (1 <= 10 * 0 + d); simpl in Hl; lia|]. specialize (IH Hds Hl).
  replace (Z.of_nat (length (d0 :: ds) + 1) - 1) with (Z.succ (Z.of_nat (length (d0 :: ds)) - 1)) by (simpl; lia).
  rewrite Z.pow_succ_r by (simpl; lia). lia.
Qed.

Lemma store_at a c t c' : store (a ++ c :: t) (Z.of_nat (length a)) c' = Ok (a ++ c' :: t).
Proof.
  unfold store. rewrite (proj2 (Z.leb_le _ _)), (proj2 (Z.ltb_lt _ _)) by (rewrite ?length_app; simpl; lia).
  cbn [andb]. rewrite Nat2Z.id, insert_app_r_alt, Nat.sub_diag by lia. done.
Qed.

Lemma load_at a c t : load (a ++ c :: t) (Z.of_nat (length a)) = Ok c.
Proof.
  unfold load. rewrite (proj2 (Z.ltb_ge _ _)) by lia.
  by rewrite Nat2Z.id, lookup_app_r, Nat.sub_diag by lia.
Qed.

Lemma code_digit d : is_dec d -> code (digit d) = 48 + d.
Proof. intros Hd. unfold digit. apply code_char_of. unfold is_dec in Hd. lia. Qed.

Lemma digit_not_zero d : is_dec d -> 0 < d -> Ascii.eqb (digit d) "0" = false.
Proof.
  intros Hd H0. apply Ascii.eqb_neq. intros E. pose proof (code_digit d Hd) as H. rewrite E in H.
  change (code "0") with 48 in H. lia.
Qed.

Lemma digit_pred d : is_dec d -> char_of (code (digit d) - 1) = digit (d - 1).
Proof. intros Hd. rewrite code_digit by done. unfold digit. f_equal. lia. Qed.

(** The state after some digits: they are in front of the buffer. *)
Definition holds (size : nat) (x : Z) (ds : list Z) (s : digits) : Prop :=
  exists t, s = Digits (digits_of ds ++ t) (Z.of_nat (length ds)) x /\ (length ds + length t = size)%nat.

Lemma push_digit_spec size x ds s d : holds size x ds s -> (length ds < size)%nat ->
  exists s', push_digit d s = Ok s' /\ holds size x (ds ++ [d]) s'.
Proof.
  intros (t & -> & Ht) Hl. destruct t as [|c t]; [simpl in Ht; lia|]. unfold push_digit. cbn [buffer len decimal_exponent].
  rewrite <- (length_map digit ds), store_at. cbn [bind]. eexists. split; [reflexivity|]. exists t.
  rewrite map_app, length_app, length_map, <- app_assoc. simpl in *. split; [f_equal; lia|lia].
Qed.

(** ** Rounding the last digit *)

Lemma grisu2_round_spec ds d t dist delta ten_k : is_dec d -> 0 < d -> 0 < ten_k -> dist <= delta < 2 ^ 64 ->
  forall fuel rest, (Z.to_nat d < fuel)%nat -> 0 <= rest <= delta -> delta < d * ten_k + rest ->
  exists j, 0 <= j < d /\ rest + j * ten_k <= delta /\
    grisu2_round_loop fuel (digits_of (ds ++ [d]) ++ t) (Z.of_nat (length (ds ++ [d]))) dist delta rest ten_k =
      Ok (digits_of (ds ++ [d - j]) ++ t).
Proof.
  intros Hd Hpos Hten Hdist fuel. revert d Hd Hpos.
  induction fuel as [|fuel IH]; intros d Hd Hpos rest Hf Hrest Hlt; [lia|]. cbn [grisu2_round_loop].
  destruct (_ && _) eqn:Ec.
  - rewrite !andb_true_iff in Ec. destruct Ec as [[H1%Z.ltb_lt H2%Z.leb_le] _].
    rewrite u64_small in H2 by lia. rewrite u64_small by lia.
    assert (2 <= d) as Hd2 by nia.
    replace (Z.of_nat (length (ds ++ [d])) - 1) with (Z.of_nat (length (digits_of ds)))
      by (rewrite length_app, length_map; simpl; lia).
    rewrite map_app, <- app_assoc. cbn [map app]. rewrite load_at. cbn [bind].
    rewrite digit_not_zero, assert_true by (done || lia). cbn [bind]. rewrite digit_pred, store_at by done. cbn [bind].
    assert (is_dec (d - 1)) as Hd' by (unfold is_dec in *; lia).
    destruct (IH (d - 1) Hd' ltac:(lia) (rest + ten_k) ltac:(lia) ltac:(lia) ltac:(nia)) as (j & Hj & Hjr & E).
    exists (1 + j). split; [lia|]. split; [lia|]. rewrite !map_app, <- !app_assoc in E. cbn [map app] in E.
    rewrite !length_app in E |- *. cbn [length] in E |- *. rewrite E, map_app, <- app_assoc. cbn [map app].
    by replace (d - 1 - j) with (d - (1 + j)) by lia.
  - exists 0. split; [lia|]. split; [lia|]. by rewrite Z.sub_0_r.
Qed.

Definition lead (ds : list Z) : Prop := match ds with [] => False | d :: _ => 0 < d end.

Lemma lead_snoc ds d : lead ds -> lead (ds ++ [d]).
Proof. by destruct ds. Qed.

Lemma lead_last ds d d' : lead (ds ++ [d]) -> 0 < d' -> lead (ds ++ [d']).
Proof. by destruct ds. Qed.

Lemma round_last size x ds d s dist delta rest ten_k :
  holds size x (ds ++ [d]) s -> is_dec d -> 0 < ten_k -> dist <= delta < 2 ^ 64 -> 0 <= rest <= delta ->
  delta < d * ten_k + rest ->
  exists j b, 0 <= j < d /\ rest + j * ten_k <= delta /\
    grisu2_round (buffer s) (len s) dist delta rest ten_k = Ok b /\
    forall x', holds size x' (ds ++ [d - j]) (Digits b (len s) x').
Proof.
  intros (t & -> & Ht) Hd Hten Hdist Hrest Hlt. cbn [buffer len]. assert (0 < d) as Hpos by nia.
  destruct (grisu2_round_spec ds d t dist delta ten_k Hd Hpos Hten Hdist 10 rest) as (j & Hj & Hr & E);
    [unfold is_dec in Hd; lia|done..|].
  exists j, (digits_of (ds ++ [d - j]) ++ t). split; [done|]. split; [done|]. rewrite length_app in *. cbn [length] in *. split.
  - unfold grisu2_round. rewrite !assert_true by (first [apply Z.leb_le|apply Z.ltb_lt]; lia). exact E.
  - intros x'. exists t. rewrite !length_app. simpl. split; [done|lia].
Qed.

(** ** The two loops *)

Lemma one_pos one_e : 32 <= - one_e <= 60 -> 2 ^ 32 <= 2 ^ (- one_e) <= 2 ^ 60.
Proof. intros Hone. split; apply Z.pow_le_mono_r; lia. Qed.

Section Generation.
Context (one_e : Z) (Hone : 32 <= - one_e <= 60).
Context (M delta dist : Z) (HM : 0 < M < 2 ^ 64) (Hdelta : 0 < delta < M) (Hdist : dist <= delta) (Hdist0 : 0 <= dist).
Context (Hprec : M <= delta * 10 ^ 16).
Context (size : nat) (x0 : Z) (Hsize : (17 < size)%nat).
#[local] Abbreviation O1 := (2 ^ (- one_e)).

(** What is generated: a decimal number between [M - delta] and [M], in units of
    [2 ^ one_e]. *)
Definition generated (s : digits) : Prop :=
  exists ds n, holds size (x0 + n) ds s /\ Forall is_dec ds /\ lead ds /\ (length ds <= 17)%nat /\ -17 <= n <= 9 /\
    (0 <= n -> M - delta <= decimal ds * 10 ^ n * O1 <= M) /\
    (n < 0 -> (M - delta) * 10 ^ (- n) <= decimal ds * O1 <= M * 10 ^ (- n)).

Lemma integral_spec p2 n : 0 <= p2 < O1 -> forall p1 pow10 ds s,
  holds size x0 ds s -> Forall is_dec ds -> (ds = [] /\ (0 < n)%nat /\ pow10 <= p1) \/ lead ds ->
  ((0 < n)%nat -> pow10 = 10 ^ (Z.of_nat n - 1)) -> 0 <= p1 < 10 ^ Z.of_nat n ->
  decimal ds * 10 ^ Z.of_nat n * O1 + p1 * O1 + p2 = M -> delta < p1 * O1 + p2 -> (length ds + n <= 10)%nat ->
  0 <= decimal ds ->
  exists r, integral_digits one_e n p1 p2 pow10 dist delta s = Ok r /\
    match r with
    | inl s' => generated s'
    | inr s' => exists ds', holds size x0 ds' s' /\ Forall is_dec ds' /\ lead ds' /\ 0 <= decimal ds' /\
        decimal ds' * O1 + p2 = M /\ delta < p2 /\ length ds' = (length ds + n)%nat
    end.
Proof.
  intros Hp2. pose proof (one_pos one_e Hone) as HO. induction n as [|n IH]; intros p1 pow10 ds s Hs Hds Hlead Hpow Hp1 HMs Hns Hlen Hdec.
  { exists (inr s). split; [done|]. exists ds. destruct Hlead as [(_ & H0 & _)|Hlead]; [lia|].
    simpl in *. assert (p1 = 0) as -> by lia. repeat split; try done; lia. }
  cbn [integral_digits]. specialize (Hpow ltac:(lia)). replace (Z.of_nat (S n) - 1) with (Z.of_nat n) in Hpow by lia.
  assert (0 < pow10) as Hp0 by (rewrite Hpow; apply Z.pow_pos_nonneg; lia).
  rewrite Nat2Z.inj_succ, Z.pow_succ_r, <- Hpow in Hp1, HMs by lia.
  pose proof (Z.div_mod p1 pow10 ltac:(lia)) as Ed. pose proof (Z.mod_pos_bound p1 pow10 Hp0) as Hr.
  set (d := p1 / pow10) in *. set (r := p1 `mod` pow10) in *. clearbody d r. subst p1.
  assert (0 <= d <= 9) as Hd by nia.
  rewrite assert_true by (apply Z.leb_le; lia). cbn [bind].
  destruct (push_digit_spec size x0 ds s d Hs ltac:(lia)) as (s' & -> & Hs'). cbn [bind].
  assert (0 <= r * O1 /\ 0 <= pow10 * O1 /\ 0 <= d * (pow10 * O1) /\ 0 <= decimal ds * (pow10 * O1)) as (? & ? & ? & ?)
    by (repeat split; repeat apply Z.mul_nonneg_nonneg; lia).
  assert (M = (10 * decimal ds + d) * pow10 * O1 + (r * O1 + p2)) as HM' by (rewrite <- HMs; ring).
  assert (d * (pow10 * O1) + (r * O1 + p2) = (pow10 * d + r) * O1 + p2) as Hd' by ring.
  assert (ds = [] -> 0 < d) as Hd1 by (intros ->; destruct Hlead as [(_ & _ & Hp)|[]]; nia).
  rewrite !Z.shiftl_mul_pow2, (u64_small (r * O1)), (u64_small (r * O1 + p2)) by lia.
  assert (Forall is_dec (ds ++ [d])) as Hds' by (apply Forall_app; split; [done|by constructor]).
  assert (lead (ds ++ [d])) as Hl' by (destruct ds as [|d0 ds]; [by apply Hd1|by destruct Hlead as [[? _]|?]]).
  destruct (Z.leb_spec (r * O1 + p2) delta) as [Hstop|Hgo].
  - assert (0 < d) as Hd0 by (destruct (Z.eq_dec d 0) as [->|]; lia).
    assert (pow10 * O1 <= M) as Hten.
    { pose proof (Z.mul_le_mono_nonneg_r 1 d (pow10 * O1) ltac:(lia) ltac:(lia)).
      replace ((10 * decimal ds + d) * pow10 * O1) with (10 * (decimal ds * (pow10 * O1)) + d * (pow10 * O1)) in HM' by ring. lia. }
    assert (0 < pow10 * O1) by (apply Z.mul_pos_pos; lia). rewrite (u64_small (pow10 * O1)) by lia.
    destruct (round_last size x0 ds d s' dist delta (r * O1 + p2) (pow10 * O1)) as (j & b & Hj & Hjr & -> & Hb);
      [done|done|lia|lia|lia|lia|].
    cbn [bind]. eexists. split; [reflexivity|]. destruct Hs' as (t & -> & Ht). exists (ds ++ [d - j]), (Z.of_nat n).
    split; [apply Hb|]. split; [apply Forall_app; split; [done|]; constructor; [unfold is_dec; lia|done]|].
    split; [eapply lead_last; [exact Hl'|lia]|]. rewrite length_app. simpl. split; [lia|]. split; [lia|]. split; [|lia].
    intros _. rewrite decimal_snoc, <- Hpow.
    assert ((10 * decimal ds + (d - j)) * pow10 * O1 = M - (r * O1 + p2 + j * (pow10 * O1))) as -> by (rewrite HM'; ring).
    assert (0 <= j * (pow10 * O1)) by (apply Z.mul_nonneg_nonneg; lia). lia.
  - destruct (IH r (pow10 / 10) (ds ++ [d]) s') as (r' & E & Hr'); try done.
    + by right.
    + intros Hn. rewrite Hpow. replace (Z.of_nat n) with (1 + (Z.of_nat n - 1)) at 1 by lia.
      rewrite Z.pow_add_r, Z.mul_comm, Z.div_mul by lia. done.
    + by rewrite <- Hpow.
    + rewrite decimal_snoc, <- Hpow. lia.
    + rewrite length_app. simpl. lia.
    + rewrite decimal_snoc. lia.
    + exists r'. split; [done|]. destruct r' as [s1|s1]; [done|]. destruct Hr' as (ds' & ? & ? & ? & ? & ? & ? & Hlen').
      exists ds'. rewrite length_app in Hlen'. simpl in Hlen'. repeat split; try done; lia.
Qed.

(** While the digits are not enough, there are at most 16. *)
Lemma grisu_digits_bound T p2 ds : 0 < T -> Forall is_dec ds -> lead ds -> 0 <= p2 < O1 -> decimal ds * O1 + p2 = M * T ->
  delta * T < p2 -> (length ds <= 16)%nat.
Proof.
  intros HT Hds Hl Hp2 HMs Hns. pose proof (one_pos one_e Hone). pose proof (decimal_lead ds Hds Hl) as Hd.
  pose proof (Z.mul_le_mono_nonneg_r _ _ O1 ltac:(lia) Hd). pose proof (Z.mul_le_mono_nonneg_r _ _ T ltac:(lia) Hprec).
  assert (10 ^ (Z.of_nat (length ds) - 1) * O1 < 10 ^ 16 * O1) as Hlt by lia.
  apply Z.mul_lt_mono_pos_r, Z.pow_lt_mono_r_iff in Hlt; lia.
Qed.

Lemma fractional_spec fuel : forall m p2 ds s,
  holds size x0 ds s -> Forall is_dec ds -> lead ds -> 0 <= p2 < O1 ->
  decimal ds * O1 + p2 = M * 10 ^ Z.of_nat m -> delta * 10 ^ Z.of_nat m < p2 ->
  (m <= length ds)%nat -> (m + fuel = 20)%nat ->
  exists s', fractional_digits one_e fuel (Z.of_nat m) p2 (dist * 10 ^ Z.of_nat m) (delta * 10 ^ Z.of_nat m) s = Ok s' /\
    generated s'.
Proof.
  pose proof (one_pos one_e Hone) as HO.
  induction fuel as [|fuel IH]; intros m p2 ds s Hs Hds Hl Hp2 HMs Hns Hm Hfuel.
  all: assert (0 < 10 ^ Z.of_nat m) as HT by (apply Z.pow_pos_nonneg; lia).
  all: pose proof (grisu_digits_bound _ _ _ HT Hds Hl Hp2 HMs Hns) as Hlen.
  { lia. }
  cbn [fractional_digits]. set (T := 10 ^ Z.of_nat m) in *.
  assert (10 ^ Z.of_nat (S m) = 10 * T) as ET by (rewrite Nat2Z.inj_succ, Z.pow_succ_r by lia; done).
  assert (0 <= delta * T /\ 0 <= dist * T <= delta * T) as [Hdt Hdi] by nia.
  change ((2 ^ 64 - 1) / 10) with 1844674407370955161. rewrite assert_true by (apply Z.leb_le; lia). cbn [bind]. rewrite (u64_small (p2 * 10)) by lia.
  rewrite Z.shiftr_div_pow2, Z.shiftl_mul_pow2, Z.mul_1_l by lia.
  change (O1 - 1) with (Z.pred O1). rewrite <- Z.ones_equiv, Z.land_ones by lia.
  pose proof (Z.div_mod (p2 * 10) O1 ltac:(lia)) as Ed. pose proof (Z.mod_pos_bound (p2 * 10) O1 ltac:(lia)) as Hr.
  set (d := p2 * 10 / O1) in *. set (r := (p2 * 10) `mod` O1) in *. clearbody d r.
  assert (0 <= d <= 9) as Hd by nia.
  rewrite assert_true by (apply Z.leb_le; lia). cbn [bind].
  destruct (push_digit_spec size x0 ds s d Hs ltac:(lia)) as (s' & -> & Hs'). cbn [bind].
  rewrite (u64_small (delta * T * 10)), (u64_small (dist * T * 10)) by lia.
  replace (delta * T * 10) with (delta * (10 * T)) by ring. replace (dist * T * 10) with (dist * (10 * T)) by ring.
  assert (Forall is_dec (ds ++ [d])) as Hds' by (apply Forall_app; split; [done|by constructor]).
  replace (Z.of_nat m + 1) with (Z.of_nat (S m)) by lia. rewrite <- ET.
  assert (decimal (ds ++ [d]) * O1 + r = M * 10 ^ Z.of_nat (S m)) as HMs' by (rewrite decimal_snoc, ET; lia).
  destruct (Z.leb_spec r (delta * 10 ^ Z.of_nat (S m))) as [Hstop|Hgo].
  - destruct (round_last size x0 ds d s' (dist * 10 ^ Z.of_nat (S m)) (delta * 10 ^ Z.of_nat (S m)) r O1)
      as (j & b & Hj & Hjr & -> & Hb); [done|done|lia|rewrite ET; lia|lia|rewrite ET; lia|].
    cbn [bind]. eexists. split; [reflexivity|]. destruct Hs' as (t & -> & Ht). cbn [len decimal_exponent].
    exists (ds ++ [d - j]), (- Z.of_nat (S m)).
    split; [apply (Hb (x0 - _))|]. split; [apply Forall_app; split; [done|]; constructor; [unfold is_dec; lia|done]|].
    split; [by apply lead_snoc|]. rewrite length_app. cbn [length]. split; [lia|]. split; [lia|]. split; [lia|].
    intros _. rewrite Z.opp_involutive. rewrite decimal_snoc in *. nia.
  - destruct (IH (S m) r (ds ++ [d]) s') as (s1 & E & Hg); try done.
    + by apply lead_snoc.
    + rewrite length_app. simpl. lia.
    + lia.
    + by exists s1.
Qed.
End Generation.

Lemma find_largest_pow10_spec n : 0 < n < 2 ^ 32 ->
  exists k, find_largest_pow10 n = (Z.of_nat k, 10 ^ (Z.of_nat k - 1)) /\ (0 < k <= 10)%nat /\
    10 ^ (Z.of_nat k - 1) <= n < 10 ^ Z.of_nat k.
Proof.
  intros Hn. unfold find_largest_pow10.
  repeat match goal with
  | |- context [?a <=? n] =>
      destruct (Z.leb_spec a n);
      [first [exists 10%nat; split; [reflexivity|lia] | exists 9%nat; split; [reflexivity|lia]
             |exists 8%nat; split; [reflexivity|lia] | exists 7%nat; split; [reflexivity|lia]
             |exists 6%nat; split; [reflexivity|lia] | exists 5%nat; split; [reflexivity|lia]
             |exists 4%nat; split; [reflexivity|lia] | exists 3%nat; split; [reflexivity|lia]
             |exists 2%nat; split; [reflexivity|lia]]|]
  end.
  exists 1%nat. split; [reflexivity|lia].
Qed.

Lemma digit_gen_spec buf x0 e Mm w Mp : (17 < length buf)%nat -> -60 <= e <= -32 ->
  0 < Mm <= w -> w <= Mp < 2 ^ 64 -> 2 ^ 60 <= Mp -> Mm < Mp -> Mp <= (Mp - Mm) * 10 ^ 16 ->
  exists s, grisu2_digit_gen (Digits buf 0 x0) (Diyfp Mm e) (Diyfp w e) (Diyfp Mp e) = Ok s /\
    generated e Mp (Mp - Mm) (length buf) x0 s.
Proof.
  intros Hbuf He HMm Hw HMp Hlt Hprec. unfold grisu2_digit_gen, sub. cbn [df de].
  rewrite (assert_true (kAlpha <=? e)), (assert_true (e <=? kGamma)), (assert_true (e =? e)), (assert_true (Mm <=? Mp)),
    (assert_true (w <=? Mp)) by (first [apply Z.eqb_refl|apply Z.leb_le; unfold kAlpha, kGamma; lia]). cbn [bind df de].
  rewrite (u64_small (Mp - Mm)), (u64_small (Mp - w)) by lia.
  pose proof (one_pos e ltac:(lia)) as HO.
  rewrite Z.shiftr_div_pow2, Z.shiftl_mul_pow2, Z.mul_1_l by lia.
  change (2 ^ (- e) - 1) with (Z.pred (2 ^ (- e))). rewrite <- Z.ones_equiv, Z.land_ones by lia.
  pose proof (Z.div_mod Mp (2 ^ (- e)) ltac:(lia)) as Ed. pose proof (Z.mod_pos_bound Mp (2 ^ (- e)) ltac:(lia)) as Hp2.
  set (p1 := Mp / 2 ^ (- e)) in *. set (p2 := Mp `mod` 2 ^ (- e)) in *.
  assert (0 < p1 < 2 ^ 32) as Hp1.
  { split; [apply Z.div_str_pos; lia|]. apply Z.div_lt_upper_bound; [lia|]. clearbody p1 p2.
    pose proof (Z.mul_le_mono_nonneg_r _ _ (2 ^ 32) ltac:(lia) (proj1 HO)). lia. }
  rewrite u32_small by lia. rewrite assert_true by (apply Z.ltb_lt; lia). cbn [bind].
  destruct (find_largest_pow10_spec p1 Hp1) as (k & -> & Hk & Hpk). rewrite Nat2Z.id.
  assert (holds (length buf) x0 [] (Digits buf 0 x0)) as H0 by (by exists buf).
  clearbody p1 p2.
  destruct (integral_spec e ltac:(lia) Mp (Mp - Mm) (Mp - w) ltac:(lia) ltac:(lia) ltac:(lia) ltac:(lia) (length buf) x0
    Hbuf p2 k Hp2 p1 (10 ^ (Z.of_nat k - 1)) [] _ H0 ltac:(constructor)) as (r & -> & Hr); try done; try lia.
  { left. split; [done|]. lia. }
  { change (decimal []) with 0. lia. }
  { simpl. lia. }
  cbn [bind]. destruct r as [s|s]; [by exists s|]. destruct Hr as (ds & Hs & Hds & Hl & Hd0 & HM & Hd & Hlen).
  rewrite assert_true by (apply Z.ltb_lt; lia). cbn [bind].
  destruct (fractional_spec e ltac:(lia) Mp (Mp - Mm) (Mp - w) ltac:(lia) ltac:(lia) ltac:(lia) ltac:(lia) ltac:(lia) (length buf) x0
    Hbuf 20 0 p2 ds s Hs Hds Hl Hp2) as (s' & E & Hg); try lia.
  change (10 ^ Z.of_nat 0) with 1 in E. rewrite !Z.mul_1_r in E. by exists s'.
Qed.

(** ** The whole algorithm *)

Lemma generated_between e M delta size x0 s : e <= 0 -> generated e M delta size x0 s ->
  exists ds n, holds size (x0 + n) ds s /\ Forall is_dec ds /\ lead ds /\ (length ds <= 17)%nat /\ -17 <= n <= 9 /\
    (bin (M - delta) e <= dec (decimal ds) n)%Q /\ (dec (decimal ds) n <= bin M e)%Q.
Proof.
  intros He (ds & n & Hs & Hds & Hl & Hlen & Hn & Hpos & Hneg). exists ds, n. do 5 (split; [done|]).
  assert (forall a, bin (a * 2 ^ (- e)) e == inject_Z a)%Q as Hunit.
  { intros a. rewrite <- bin_align by lia. replace (e + - e) with 0 by lia. rewrite Qpower_0_r. ring. }
  destruct (Z.le_gt_cases 0 n) as [H0|H0].
  - specialize (Hpos H0). assert (dec (decimal ds) n == bin (decimal ds * 10 ^ n * 2 ^ (- e)) e)%Q as ->.
    { rewrite Hunit, inject_Z_mult, ten_pow by done. done. }
    split; apply bin_le; lia.
  - specialize (Hneg H0).
    assert (dec (decimal ds) n * 10 ^ (- n) == bin (decimal ds * 2 ^ (- e)) e)%Q as Hd.
    { rewrite Hunit, <- Qmult_assoc, <- Qpower_plus by done. rewrite Z.add_opp_diag_r, Qpower_0_r. ring. }
    assert (forall a, bin a e * 10 ^ (- n) == bin (a * 10 ^ (- n)) e)%Q as Hb.
    { intros a. rewrite inject_Z_mult, ten_pow by lia. ring. }
    split; apply (Qmult_le_r _ _ (10 ^ (- n)) (ten_pow_pos _)); rewrite Hd, Hb; apply bin_le; lia.
Qed.

(** The scaled boundaries are far enough apart. *)
Lemma scaled_gap P c fm fw fp Wm W Wp : 2 ^ 9 <= P -> 2 ^ 63 <= c < 2 ^ 64 -> 0 < fm -> 2 ^ 63 <= fp < 2 ^ 64 ->
  P <= fw - fm -> 2 * P <= fp - fw -> 3000000000000000 * P <= (fp - fm) * 10 ^ 16 - fp ->
  Wm * 2 ^ 64 <= fm * c + 2 ^ 63 < (Wm + 1) * 2 ^ 64 -> W * 2 ^ 64 <= fw * c + 2 ^ 63 < (W + 1) * 2 ^ 64 ->
  Wp * 2 ^ 64 <= fp * c + 2 ^ 63 < (Wp + 1) * 2 ^ 64 ->
  0 <= Wm /\ Wm + 1 <= W /\ W <= Wp - 1 /\ Wm + 1 < Wp - 1 /\ 2 ^ 60 <= Wp - 1 < 2 ^ 64 /\ Wp < 2 ^ 64 /\
  Wp - 1 <= (Wp - 1 - (Wm + 1)) * 10 ^ 16.
Proof.
  intros HP Hc Hfm Hfp Hg1 Hg2 Hprec HWm HW HWp.
  pose proof (Z.mul_le_mono_nonneg (2 ^ 9) (fw - fm) (2 ^ 63) c ltac:(lia) ltac:(lia) ltac:(lia) ltac:(lia)) as H1.
  pose proof (Z.mul_le_mono_nonneg (2 ^ 10) (fp - fw) (2 ^ 63) c ltac:(lia) ltac:(lia) ltac:(lia) ltac:(lia)) as H2.
  pose proof (Z.mul_le_mono_nonneg (2 ^ 63) fp (2 ^ 63) c ltac:(lia) ltac:(lia) ltac:(lia) ltac:(lia)) as H3.
  pose proof (Z.mul_le_mono_nonneg fp (2 ^ 64 - 1) c (2 ^ 64 - 1) ltac:(lia) ltac:(lia) ltac:(lia) ltac:(lia)) as H3'.
  pose proof (Z.mul_nonneg_nonneg fm c ltac:(lia) ltac:(lia)) as H4.
  pose proof (Z.mul_le_mono_nonneg (3000000000000000 * 2 ^ 9) ((fp - fm) * 10 ^ 16 - fp) (2 ^ 63) c
    ltac:(lia) ltac:(lia) ltac:(lia) ltac:(lia)) as H5.
  rewrite !Z.mul_sub_distr_r in H1, H2, H5.
  set (a := fm * c) in *. set (b := fw * c) in *. set (d := fp * c) in *.
  replace ((fp - fm) * 10 ^ 16 * c) with ((d - a) * 10 ^ 16) in H5 by (unfold d, a; ring).
  clearbody a b d. repeat split; lia.
Qed.

Lemma precision_gap m e : 0 < m < 2 ^ 53 ->
  3000000000000000 <= (upper m - lower m e) * 10 ^ 16 - upper m.
Proof.
  intros Hm. unfold upper, lower. destruct (_ && _) eqn:Eb; [|lia]. apply andb_true_iff in Eb as [->%Z.eqb_eq _]. lia.
Qed.

Lemma grisu2_value_spec buf m e : double m e -> (17 < length buf)%nat ->
  exists s ds x, grisu2_value buf m e = Ok s /\ holds (length buf) x ds s /\ Forall is_dec ds /\ lead ds /\
    (length ds <= 17)%nat /\ -341 <= x <= 309 /\ near m e (decimal ds) x.
Proof.
  intros Hd Hbuf. unfold grisu2_value. destruct (compute_boundaries_spec m e Hd) as (-> & Ht & HE & Hfp).
  cbn [bind minus bw plus]. set (t := 61 - Z.log2 m) in *. set (E := e - 2 - t) in *.
  unfold grisu2. cbn [de]. rewrite !Z.eqb_refl, !(assert_true true) by done. cbn [bind].
  destruct (cached_power_spec E HE) as (c & -> & Hc & He & Hk). cbn [bind].
  pose proof Hd as (Hm & _ & _). assert (2 ^ 9 <= 2 ^ t) as HP by (apply Z.pow_le_mono_r; lia).
  pose proof (lower_pos m e ltac:(lia)) as Hlo.
  assert (lower m e < 4 * m < upper m) as Hlu by (unfold lower, upper; destruct (_ && _); lia).
  pose proof Hc as (Hcf & _).
  set (P := 2 ^ t) in *.
  pose proof (Z.mul_pos_pos (lower m e) P ltac:(lia) ltac:(lia)) as Hfm.
  pose proof (Z.mul_le_mono_nonneg_r 1 (4 * m - lower m e) P ltac:(lia) ltac:(lia)) as Hg1.
  pose proof (Z.mul_le_mono_nonneg_r 2 (upper m - 4 * m) P ltac:(lia) ltac:(unfold upper; lia)) as Hg2.
  pose proof (Z.mul_le_mono_nonneg_r 3000000000000000 ((upper m - lower m e) * 10 ^ 16 - upper m) P ltac:(lia)
    (precision_gap m e ltac:(lia))) as Hg3.
  rewrite Z.mul_sub_distr_r in Hg1, Hg2, Hg3.
  replace ((upper m - lower m e) * 10 ^ 16 * P) with ((upper m * P - lower m e * P) * 10 ^ 16) in Hg3 by ring.
  set (fm := lower m e * P) in *. set (fw := 4 * m * P) in *. set (fp := upper m * P) in *.
  destruct (mul_spec (Diyfp fm E) (Diyfp (cf c) (ce c))) as [Em HWm]; [simpl; lia..|].
  destruct (mul_spec (Diyfp fw E) (Diyfp (cf c) (ce c))) as [Ew HW]; [simpl; lia..|].
  destruct (mul_spec (Diyfp fp E) (Diyfp (cf c) (ce c))) as [Ep HWp]; [simpl; lia..|].
  cbn [df de] in *. destruct (mul (Diyfp fm E) _) as [Wm em]. destruct (mul (Diyfp fw E) _) as [W ew].
  destruct (mul (Diyfp fp E) _) as [Wp ep]. cbn [df de] in *. replace (E + ce c + 64) with (ce c + E + 64) in * by lia.
  subst em ew ep.
  destruct (scaled_gap P (cf c) fm fw fp Wm W Wp) as (H1 & H2 & H3 & H4 & H5 & H6 & H7); try done; try lia.
  rewrite !u64_small by lia.
  destruct (digit_gen_spec buf (- ck c) (ce c + E + 64) (Wm + 1) W (Wp - 1) Hbuf He) as (s & -> & Hg); try lia.
  apply generated_between in Hg as (ds & n & Hs & Hds & Hl & Hlen & Hn & Q1 & Q2); [|lia].
  exists s, ds, (n - ck c). split; [done|]. split; [by replace (n - ck c) with (- ck c + n) by lia|].
  split; [done|]. split; [done|]. split; [done|]. split; [lia|].
  replace (Wp - 1 - (Wp - 1 - (Wm + 1))) with (Wm + 1) in Q1 by lia. split.
  - assert (bin (lower m e) (e - 2) == bin fm E)%Q as ->.
    { unfold fm, P, E. rewrite <- bin_align by lia. by replace (e - 2 - t + t) with (e - 2) by lia. }
    eapply scaled_above; [exact Hc|lia|apply HWm|exact Q1].
  - assert (bin (upper m) (e - 2) == bin fp E)%Q as ->.
    { unfold fp, P, E. rewrite <- bin_align by lia. by replace (e - 2 - t + t) with (e - 2) by lia. }
    eapply scaled_below; [exact Hc|lia|apply HWp|exact Q2].
Qed.
