(* ===== verification/DtoaText.v ===== *)
(** The text of a double is read back as the double: the layouts of
    [format_buffer] are literals of the JSON grammar that stand for the digits of
    Grisu2, so that [strtod] rounds them to the double they came from. *)

From Stdlib Require Import ZArith Lia SpecFloat Ascii QArith Qpower Lqa.
From stdpp Require Import pretty.
From S2P Require Import Prelude Words Json Regex Streams Decimal JsonText JsonTextFacts JsonRoundTrip.
From S2P Require Import JsonSerializer Rounding Dtoa DtoaFacts.
#[local] Open Scope Z_scope.

(** ** Buffers *)

Lemma memset_at a t c n : 0 <= n <= Z.of_nat (length t) ->
  memset (a ++ t) (Z.of_nat (length a)) c n = Ok (a ++ replicate (Z.to_nat n) c ++ drop (Z.to_nat n) t).
Proof.
  intros Hn. unfold memset. rewrite !(proj2 (Z.leb_le _ _)) by (rewrite ?length_app; lia). cbn [andb].
  rewrite Nat2Z.id, take_app_length. do 3 f_equal. replace (Z.to_nat _) with (length a + Z.to_nat n)%nat by lia.
  by rewrite drop_app_add.
Qed.

Lemma store_0 c t c' : store (c :: t) 0 c' = Ok (c' :: t).
Proof. exact (store_at [] c t c'). Qed.

Lemma store_1 a c t c' : store (a :: c :: t) 1 c' = Ok (a :: c' :: t).
Proof. exact (store_at [a] c t c'). Qed.

Lemma memmove_up a b t j : (j <= length t)%nat ->
  memmove (a ++ b ++ t) (Z.of_nat (length a + j)) (Z.of_nat (length a)) (Z.of_nat (length b)) =
    Ok (take (length a + j) (a ++ b ++ t) ++ b ++ drop j t).
Proof.
  intros Hj. unfold memmove. rewrite !(proj2 (Z.leb_le _ _)) by (rewrite ?length_app; lia). cbn [andb].
  rewrite !Nat2Z.id, drop_app_length, take_app_length. do 3 f_equal.
  replace (Z.to_nat _) with (length a + (length b + j))%nat by lia. by rewrite !drop_app_add.
Qed.

(** ** Literals *)

(** Digits before and after the point, and a signed exponent. *)
Definition literal (whole frac : list Z) (x : option (bool * list Z)) : list ascii :=
  digits_of whole ++
  match frac with [] => [] | _ => "."%char :: digits_of frac end ++
  match x with
  | None => []
  | Some (neg, xs) => "e"%char :: (if (neg : bool) then "-"%char else "+"%char) :: digits_of xs
  end.

Definition literal_ok (whole frac : list Z) (x : option (bool * list Z)) : Prop :=
  Forall is_dec whole /\ Forall is_dec frac /\ (whole = [0] \/ lead whole) /\
  match x with None => frac <> [] | Some (_, xs) => Forall is_dec xs /\ xs <> [] end.

(** Its decimal exponent. *)
Definition literal_exponent (frac : list Z) (x : option (bool * list Z)) : Z :=
  match x with None => 0 | Some (neg, xs) => if (neg : bool) then - decimal xs else decimal xs end - Z.of_nat (length frac).

Lemma decimal_app a b : decimal (a ++ b) = decimal a * 10 ^ Z.of_nat (length b) + decimal b.
Proof.
  induction b as [|d b IH] using rev_ind; [rewrite app_nil_r; change (decimal []) with 0; simpl; lia|].
  rewrite app_assoc, !decimal_snoc, IH, length_app. cbn [length].
  replace (Z.of_nat (length b + 1)) with (Z.succ (Z.of_nat (length b))) by lia. rewrite Z.pow_succ_r by lia. ring.
Qed.

Lemma decimal_zeros n : decimal (replicate n 0) = 0.
Proof. induction n as [|n IH]; [done|]. rewrite replicate_S_end, decimal_snoc, IH. done. Qed.

Lemma zeros_dec n : Forall is_dec (replicate n 0).
Proof. apply Forall_replicate. unfold is_dec. lia. Qed.

Lemma digits_zeros n : digits_of (replicate n 0) = replicate n "0"%char.
Proof. induction n as [|n IH]; [done|]. simpl. by rewrite IH. Qed.

(** The exponents [append_exponent] writes. *)
Lemma append_exponent_spec a t e : -1000 < e < 1000 -> (4 <= length t)%nat ->
  exists xs t', append_exponent (a ++ t) (Z.of_nat (length a)) e =
      Ok (a ++ (if e <? 0 then "-"%char else "+"%char) :: digits_of xs ++ t',
          Z.of_nat (length a + 1 + length xs)) /\
    Forall is_dec xs /\ xs <> [] /\ decimal xs = Z.abs e /\ (length t = 1 + length xs + length t')%nat.
Proof.
  intros He Ht. destruct t as [|c0 [|c1 [|c2 [|c3 t]]]]; simpl in Ht; try lia. unfold append_exponent.
  rewrite !assert_true by (apply Z.ltb_lt; lia). cbn [bind]. rewrite store_at. cbn [bind].
  set (sg := if e <? 0 then "-"%char else "+"%char). set (k := Z.abs e) in *.
  assert (0 <= k < 1000) as Hk by lia. clearbody sg.
  assert (forall p c r c' i, i = Z.of_nat (length a) + Z.of_nat (length p) ->
    store (a ++ p ++ c :: r) i c' = Ok (a ++ p ++ c' :: r)) as Hst.
  { intros p c r c' i ->. rewrite <- Nat2Z.inj_add, <- length_app, !(app_assoc a). apply store_at. }
  destruct (Z.ltb_spec k 10) as [H1|H1]; [|destruct (Z.ltb_spec k 100) as [H2|H2]].
  - rewrite (Hst [sg] c1 (c2 :: c3 :: t)) by (simpl; lia). cbn [bind].
    rewrite (Hst [sg; "0"%char] c2 (c3 :: t)) by (simpl; lia). cbn [bind]. exists [0; k], (c3 :: t).
    split; [do 2 f_equal; simpl; lia|]. split; [repeat constructor; unfold is_dec; lia|]. split; [done|].
    split; [unfold decimal; simpl; lia|simpl; lia].
  - pose proof (Z.div_mod k 10 ltac:(lia)). pose proof (Z.mod_pos_bound k 10 ltac:(lia)).
    rewrite (Hst [sg] c1 (c2 :: c3 :: t)) by (simpl; lia). cbn [bind].
    rewrite (Hst [sg; digit (k / 10)] c2 (c3 :: t)) by (simpl; lia). cbn [bind]. exists [k / 10; k `mod` 10], (c3 :: t).
    split; [do 2 f_equal; simpl; lia|]. split; [repeat constructor; unfold is_dec; lia|]. split; [done|].
    split; [unfold decimal; cbn [fold_left]; lia|simpl; lia].
  - pose proof (Z.div_mod k 100 ltac:(lia)). pose proof (Z.mod_pos_bound k 100 ltac:(lia)).
    pose proof (Z.div_mod (k `mod` 100) 10 ltac:(lia)). pose proof (Z.mod_pos_bound (k `mod` 100) 10 ltac:(lia)).
    rewrite (Hst [sg] c1 (c2 :: c3 :: t)) by (simpl; lia). cbn [bind].
    rewrite (Hst [sg; digit (k / 100)] c2 (c3 :: t)) by (simpl; lia). cbn [bind].
    rewrite (Hst [sg; digit (k / 100); digit (k `mod` 100 / 10)] c3 t) by (simpl; lia). cbn [bind].
    exists [k / 100; k `mod` 100 / 10; (k `mod` 100) `mod` 10], t.
    split; [do 2 f_equal; simpl; lia|]. split; [repeat constructor; unfold is_dec; lia|]. split; [done|].
    split; [unfold decimal; cbn [fold_left]; lia|simpl; lia].
Qed.

(** ** Layouts *)

(** What [format_buffer] leaves in the buffer: a literal for the number. *)
Definition lays_out (ds : list Z) (x : Z) (r : res (list ascii * Z)) : Prop :=
  exists w f ex t, r = Ok (literal w f ex ++ t, Z.of_nat (length (literal w f ex))) /\ literal_ok w f ex /\
    (dec (decimal (w ++ f)) (literal_exponent f ex) == dec (decimal ds) x)%Q /\ -800 <= literal_exponent f ex <= 400.

Lemma dec_zeros D x j : 0 <= j -> (dec (D * 10 ^ j) (x - j) == dec D x)%Q.
Proof.
  intros Hj. rewrite inject_Z_mult, ten_pow, <- Qmult_assoc, <- Qpower_plus by done.
  by replace (j + (x - j)) with x by lia.
Qed.

(** digits[000].0 *)
Lemma layout_whole ds x t : Forall is_dec ds -> lead ds -> 0 <= x <= 15 -> (Z.to_nat x + 2 <= length t)%nat ->
  lays_out ds x (
    let k := Z.of_nat (length ds) in
    let n := k + x in
    let* buf := memset (digits_of ds ++ t) k "0" (n - k) in
    let* buf := store buf n "." in
    let* buf := store buf (n + 1) "0" in
    Ok (buf, n + 2)).
Proof.
  intros Hds Hl Hx Ht. cbv zeta. rewrite <- (length_map digit ds) at 1. rewrite memset_at by (rewrite ?length_map; lia).
  cbn [bind]. replace (Z.of_nat (length ds) + x - Z.of_nat (length ds)) with x by lia.
  destruct (drop (Z.to_nat x) t) as [|c1 [|c2 t2]] eqn:Et;
    [pose proof (f_equal length Et) as Hlen; rewrite length_drop in Hlen; simpl in Hlen; lia..|].
  rewrite <- digits_zeros, app_assoc, <- map_app. set (w := ds ++ replicate (Z.to_nat x) 0).
  assert (Z.of_nat (length ds) + x = Z.of_nat (length (digits_of w))) as ->
    by (unfold w; rewrite length_map, length_app, length_replicate; lia).
  rewrite store_at. cbn [bind]. replace (Z.of_nat (length (digits_of w)) + 1) with (Z.of_nat (length (digits_of w ++ ["."%char])))
    by (rewrite length_app; simpl; lia).
  replace (digits_of w ++ "."%char :: c2 :: t2) with ((digits_of w ++ ["."%char]) ++ c2 :: t2) by (by rewrite <- app_assoc).
  rewrite store_at. cbn [bind]. exists w, [0], None, t2. split.
  { unfold literal. cbn [map]. change (digit 0) with "0"%char. rewrite <- !app_assoc. cbn [app]. do 2 f_equal.
    rewrite !length_app. simpl. lia. }
  split; [|split].
  - split; [by apply Forall_app; split; [|apply zeros_dec]|]. split; [repeat constructor; unfold is_dec; lia|]. split; [|done].
    right. unfold w. destruct ds; done.
  - unfold w, literal_exponent. rewrite decimal_snoc, decimal_app, decimal_zeros, length_replicate, Z2Nat.id by lia.
    cbn [length]. rewrite <- (dec_zeros (decimal ds) x (x + 1)) by lia. rewrite Z.pow_add_r by lia.
    replace (x - (x + 1)) with (0 - Z.of_nat 1) by lia.
    by replace (10 * (decimal ds * 10 ^ x + 0) + 0) with (decimal ds * (10 ^ x * 10 ^ 1)) by ring.
  - unfold literal_exponent. cbn [length]. lia.
Qed.

(** dig.its *)
Lemma layout_point ds n t : Forall is_dec ds -> lead ds -> (0 < n < length ds)%nat -> (length ds <= 17)%nat -> t <> [] ->
  lays_out ds (Z.of_nat n - Z.of_nat (length ds)) (
    let k := Z.of_nat (length ds) in
    let* buf := memmove (digits_of ds ++ t) (Z.of_nat n + 1) (Z.of_nat n) (k - Z.of_nat n) in
    let* buf := store buf (Z.of_nat n) "." in
    Ok (buf, k + 1)).
Proof.
  intros Hds Hl Hn Hlen Ht. cbv zeta. destruct t as [|c t]; [done|]. rewrite <- (firstn_skipn n ds) in Hds, Hl |- *.
  set (w := take n ds) in *. set (f := drop n ds) in *.
  assert (length w = n) as Hw by (unfold w; rewrite length_take; lia).
  assert (length f = length ds - n)%nat as Hf by (unfold f; apply length_drop).
  apply Forall_app in Hds as [Hwd Hfd].
  assert (lead w) as Hlw by (destruct w; [simpl in Hw; lia|done]).
  destruct f as [|f0 f]; [simpl in Hf; lia|]. clearbody w. rewrite length_app, Hw.
  rewrite map_app, <- app_assoc. pose proof (memmove_up (digits_of w) (digits_of (f0 :: f)) (c :: t) 1 ltac:(simpl; lia)) as E.
  rewrite !length_map, Hw in E. replace (Z.of_nat n + 1) with (Z.of_nat (n + 1)) by lia.
  replace (Z.of_nat (n + length (f0 :: f)) - Z.of_nat n) with (Z.of_nat (length (f0 :: f))) by lia. rewrite E. cbn [bind].
  assert (take (n + 1) (digits_of w ++ digits_of (f0 :: f) ++ c :: t) = digits_of w ++ [digit f0]) as ->
    by (rewrite <- Hw, <- (length_map digit w), take_app_add; done).
  rewrite <- app_assoc. cbn [app drop]. replace (Z.of_nat n) with (Z.of_nat (length (digits_of w))) by (by rewrite length_map, Hw).
  rewrite store_at. cbn [bind].
  exists w, (f0 :: f), None, t. split.
  { unfold literal. cbn [map]. rewrite app_nil_r, <- app_assoc. cbn [app]. do 2 f_equal.
    rewrite !length_app. cbn [length]. rewrite !length_map. lia. }
  rewrite length_map, Hw. split; [|split].
  - split; [done|]. split; [done|]. split; [by right|done].
  - unfold literal_exponent. by replace (Z.of_nat n - Z.of_nat (n + length (f0 :: f))) with (0 - Z.of_nat (length (f0 :: f))) by lia.
  - unfold literal_exponent. lia.
Qed.

(** 0.[000]digits *)
Lemma layout_small ds n t : Forall is_dec ds -> lead ds -> (n <= 3)%nat -> (length ds <= 17)%nat -> (2 + n <= length t)%nat ->
  lays_out ds (- Z.of_nat n - Z.of_nat (length ds)) (
    let k := Z.of_nat (length ds) in
    let* buf := memmove (digits_of ds ++ t) (2 + Z.of_nat n) 0 k in
    let* buf := store buf 0 "0" in
    let* buf := store buf 1 "." in
    let* buf := memset buf 2 "0" (Z.of_nat n) in
    Ok (buf, 2 + Z.of_nat n + k)).
Proof.
  intros Hds Hl Hn Hlen Ht. cbv zeta.
  pose proof (memmove_up [] (digits_of ds) t (2 + n) ltac:(lia)) as E. cbn [length Nat.add app] in E.
  rewrite length_map in E. replace (2 + Z.of_nat n) with (Z.of_nat (S (S n))) by lia. change (Z.of_nat 0) with 0 in E. rewrite E.
  cbn [bind]. assert (length (take (S (S n)) (digits_of ds ++ t)) = S (S n)) as Hp
    by (rewrite length_take, length_app; lia).
  destruct (take (S (S n)) (digits_of ds ++ t)) as [|c0 [|c1 p]]; [done..|]. injection Hp as Hp. cbn [app].
  set (r := drop (S (S n)) t).
  rewrite store_0. cbn [bind]. rewrite store_1. cbn [bind].
  pose proof (memset_at ["0"; "."]%char (p ++ digits_of ds ++ r) "0" (Z.of_nat n)) as E2. cbn [app length] in E2.
  change (Z.of_nat 2) with 2 in E2. rewrite E2 by (rewrite length_app; lia). cbn [bind].
  rewrite Nat2Z.id, <- Hp, drop_app_length, Hp. exists [0], (replicate n 0 ++ ds), None, r.
  assert (replicate n 0 ++ ds <> []) as Hne by (destruct n, ds; done).
  split.
  { unfold literal. destruct (replicate n 0 ++ ds) as [|z zs] eqn:Ez; [done|]. rewrite <- Ez.
    rewrite map_app, digits_zeros, app_nil_r. cbn [map app]. change (digit 0) with "0"%char. rewrite <- app_assoc.
    do 2 f_equal. cbn [length]. rewrite length_app, length_replicate, length_map. lia. }
  split; [|split].
  - split; [repeat constructor; unfold is_dec; lia|]. split; [apply Forall_app; split; [apply zeros_dec|done]|]. split; [by left|done].
  - unfold literal_exponent. rewrite !decimal_app, decimal_zeros, length_app, length_replicate. change (decimal [0]) with 0.
    replace (0 - Z.of_nat (n + length ds)) with (- Z.of_nat n - Z.of_nat (length ds)) by lia. done.
  - unfold literal_exponent. rewrite length_app, length_replicate. lia.
Qed.

(** d.igitsE+123 *)
Lemma layout_exponent ds n t : Forall is_dec ds -> lead ds -> (length ds <= 17)%nat -> -400 <= n <= 400 ->
  (6 <= length t)%nat ->
  lays_out ds (n - Z.of_nat (length ds)) (
    let k := Z.of_nat (length ds) in
    let* bp :=
      if k =? 1 then Ok (digits_of ds ++ t, 1)
      else
        let* buf := memmove (digits_of ds ++ t) 2 1 (k - 1) in
        let* buf := store buf 1 "." in
        Ok (buf, 1 + k) in
    let '(buf, pos) := bp in
    let* buf := store buf pos "e" in
    append_exponent buf (pos + 1) (n - 1)).
Proof.
  intros Hds Hl Hlen Hn Ht. cbv zeta. destruct ds as [|d ds]; [done|].
  assert (exists a t1, (let k := Z.of_nat (length (d :: ds)) in
      if k =? 1 then Ok (digits_of (d :: ds) ++ t, 1)
      else let* buf := memmove (digits_of (d :: ds) ++ t) 2 1 (k - 1) in
        let* buf := store buf 1 "." in Ok (buf, 1 + k)) = Ok (a ++ t1, Z.of_nat (length a)) /\
      a = digits_of [d] ++ match ds with [] => [] | _ => "."%char :: digits_of ds end /\ (5 <= length t1)%nat)
    as (a & t1 & E & Ha & Ht1).
  { destruct ds as [|d1 ds]; cbv zeta.
    - exists [digit d], t. split; [done|]. split; [done|lia].
    - rewrite (proj2 (Z.eqb_neq _ 1)) by (simpl; lia). destruct t as [|c t]; [simpl in Ht; lia|].
      pose proof (memmove_up [digit d] (digits_of (d1 :: ds)) (c :: t) 1 ltac:(simpl; lia)) as E. rewrite length_map in E.
      replace (Z.of_nat (length (d :: d1 :: ds)) - 1) with (Z.of_nat (length (d1 :: ds))) by (simpl; lia).
      change (Z.of_nat (length [digit d] + 1)) with 2 in E. change (Z.of_nat (length [digit d])) with 1 in E.
      change (digits_of (d :: d1 :: ds)) with ([digit d] ++ digits_of (d1 :: ds)). rewrite <- app_assoc, E. cbn [bind].
      cbn [length Nat.add map app take drop]. rewrite store_1. cbn [bind].
      exists (digit d :: "."%char :: digits_of (d1 :: ds)), t. split; [|split; [done|simpl in *; lia]].
      do 2 f_equal. cbn [length map]. rewrite length_map. lia. }
  cbv zeta in E. rewrite E. cbn [bind]. destruct t1 as [|c t1]; [simpl in Ht1; lia|]. rewrite store_at. cbn [bind].
  replace (a ++ "e"%char :: t1) with ((a ++ ["e"%char]) ++ t1) by (by rewrite <- app_assoc).
  replace (Z.of_nat (length a) + 1) with (Z.of_nat (length (a ++ ["e"%char]))) by (rewrite length_app; simpl; lia).
  destruct (append_exponent_spec (a ++ ["e"%char]) t1 (n - 1)) as (xs & t' & -> & Hxs & Hne & Hx & _); [lia|simpl in Ht1; lia|].
  exists [d], ds, (Some (n - 1 <? 0, xs)), t'. split.
  { unfold literal. rewrite Ha. do 2 f_equal.
    - rewrite <- !app_assoc. done.
    - rewrite !length_app. cbn [length]. rewrite !length_map. lia. }
  apply Forall_cons in Hds as [Hd Hds]. split; [|split].
  - split; [constructor; [done|constructor]|]. split; [done|]. split; [by right|done].
  - unfold literal_exponent. cbn [app length]. replace (if n - 1 <? 0 then - decimal xs else decimal xs) with (n - 1).
    2:{ rewrite Hx. destruct (Z.ltb_spec (n - 1) 0); lia. }
    by replace (n - 1 - Z.of_nat (length ds)) with (n - Z.of_nat (S (length ds))) by lia.
  - unfold literal_exponent. rewrite Hx. simpl in Hlen. destruct (Z.ltb_spec (n - 1) 0); lia.
Qed.

Lemma format_buffer_spec ds x t : Forall is_dec ds -> lead ds -> (length ds <= 17)%nat -> -341 <= x <= 309 ->
  (17 <= length t)%nat -> lays_out ds x (format_buffer (digits_of ds ++ t) (Z.of_nat (length ds)) x (-4) digits10).
Proof.
  intros Hds Hl Hlen Hx Ht. assert (0 < length ds)%nat as H0 by (destruct ds; [done|simpl; lia]).
  unfold format_buffer, digits10. rewrite (assert_true (-4 <? 0)), (assert_true (0 <? 15)) by done. cbn [bind].
  set (n := Z.of_nat (length ds) + x).
  destruct ((Z.of_nat (length ds) <=? n) && (n <=? 15)) eqn:E1.
  { apply andb_true_iff in E1 as [H1%Z.leb_le H2%Z.leb_le]. apply layout_whole; [done..|lia|lia]. }
  destruct ((0 <? n) && (n <=? 15)) eqn:E2.
  { apply andb_true_iff in E2 as [H1%Z.ltb_lt H2%Z.leb_le]. apply andb_false_iff in E1. rewrite !Z.leb_gt in E1.
    rewrite assert_true by (apply Z.ltb_lt; lia). cbn [bind].
    assert (exists j, n = Z.of_nat j) as [j Ej] by (exists (Z.to_nat n); lia).
    replace x with (Z.of_nat j - Z.of_nat (length ds)) by lia. rewrite Ej.
    apply layout_point; [done..|lia|done|]. intros ->. simpl in Ht. lia. }
  destruct ((-4 <? n) && (n <=? 0)) eqn:E3.
  { apply andb_true_iff in E3 as [H1%Z.ltb_lt H2%Z.leb_le].
    assert (exists j, - n = Z.of_nat j) as [j Ej] by (exists (Z.to_nat (- n)); lia).
    replace x with (- Z.of_nat j - Z.of_nat (length ds)) by lia. rewrite Ej. apply layout_small; [done..|lia|done|lia]. }
  replace x with (n - Z.of_nat (length ds)) by lia. apply layout_exponent; [done..|lia|lia].
Qed.

(** ** Reading a literal *)

Abbreviation text := string_of_list.

Definition no_digit (l : list ascii) : Prop := match l with [] => True | a :: _ => is_digit a = false end.

Lemma digit_is d : is_dec d -> is_digit (digit d) = true /\ digit_value (digit d) = d /\
  Ascii.eqb (digit d) "-" = false /\ Ascii.eqb (digit d) "0" = (d =? 0) /\
  forall s, read_sign (String (digit d) s) = (false, String (digit d) s).
Proof.
  intros Hd. unfold is_dec in Hd. revert d Hd.
  assert (Forall (fun d => is_digit (digit d) = true /\ digit_value (digit d) = d /\ Ascii.eqb (digit d) "-" = false /\
    Ascii.eqb (digit d) "0" = (d =? 0) /\ forall s, read_sign (String (digit d) s) = (false, String (digit d) s)) (seqZ 0 10)) as H
    by (repeat constructor).
  intros d Hd. exact (digit_forall _ d H ltac:(lia)).
Qed.

Lemma read_digits_of ds l acc n : Forall is_dec ds -> no_digit l ->
  read_digits acc n (text (digits_of ds ++ l)) =
    (acc * 10 ^ Z.of_nat (length ds) + decimal ds, (n + length ds)%nat, text l).
Proof.
  intros Hds Hl. revert acc n. induction Hds as [|d ds Hd Hds IH]; intros acc n.
  - cbn [map app length]. change (decimal []) with 0. rewrite Nat.add_0_r.
    replace (acc * 10 ^ Z.of_nat 0 + 0) with acc by (simpl; lia). destruct l as [|a l]; [done|]. simpl. by rewrite Hl.
  - cbn [map app length]. change (text (digit d :: ?r)) with (String (digit d) (text r)). cbn [read_digits].
    destruct (digit_is d Hd) as (-> & -> & _). rewrite IH. change (decimal (d :: ds)) with (decimal ([d] ++ ds)). rewrite decimal_app. change (decimal [d]) with d.
    do 2 f_equal; [|lia]. rewrite Nat2Z.inj_succ, Z.pow_succ_r by lia. ring.
Qed.

(** The number a literal stands for. *)
Lemma read_literal (neg : bool) w f ex : literal_ok w f ex ->
  read_decimal (text ((if neg then ["-"%char] else []) ++ literal w f ex)) =
    Some (neg, decimal (w ++ f), literal_exponent f ex).
Proof.
  intros (Hw & Hf & Hlead & Hex). unfold read_decimal.
  assert (w <> []) as Hne by (destruct Hlead as [->|Hl]; [done|by destruct w]).
  assert (read_sign (text ((if neg then ["-"%char] else []) ++ literal w f ex)) = (neg, text (literal w f ex))) as ->.
  { destruct neg; [done|]. destruct w as [|d w]; [done|]. apply Forall_cons in Hw as [Hd _].
    destruct (digit_is d Hd) as (_ & _ & _ & _ & Hs). apply Hs. }
  unfold literal. set (tail := match ex with None => [] | Some _ => _ end).
  assert (no_digit tail) as Ht by (unfold tail; destruct ex as [[]|]; done).
  rewrite read_digits_of; [|done|by destruct f]. cbn [Nat.add]. rewrite Z.mul_0_l, Z.add_0_l.
  assert (exists n', (n' <> 0)%nat /\ forall A (k : Z -> nat -> nat -> string -> A),
    (let '(digits, k0, n0, s) :=
      match text (match f with [] => [] | _ => "."%char :: digits_of f end ++ tail) with
      | String "." s => let '(d, k, s) := read_digits (decimal w) 0 s in (d, k, (length w + k)%nat, s)
      | _ => (decimal w, 0%nat, length w, text (match f with [] => [] | _ => "."%char :: digits_of f end ++ tail))
      end in k digits k0 n0 s) = k (decimal (w ++ f)) (length f) n' (text tail)) as (n' & Hn' & E).
  { destruct f as [|f0 f].
    - exists (length w). split; [destruct w; [done|simpl; lia]|]. intros A k. rewrite app_nil_r. cbn [app length].
      unfold tail. by destruct ex as [[]|].
    - exists (length w + length (f0 :: f))%nat. split; [simpl; lia|]. intros A k. cbn [app].
      change (text ("."%char :: ?r)) with (String "." (text r)). cbv iota. rewrite read_digits_of by done. by rewrite decimal_app. }
  rewrite E. apply Nat.eqb_neq in Hn'. unfold tail, literal_exponent. destruct ex as [[xneg xs]|]; [|by rewrite Hn'].
  destruct Hex as [Hxs Hxne]. change (text ("e"%char :: ?a :: ?r)) with (String "e" (String a (text r))). cbn [Ascii.eqb Bool.eqb orb].
  assert (forall s, read_sign (String (if xneg then "-"%char else "+"%char) s) = (xneg, s)) as -> by (by destruct xneg).
  rewrite <- (app_nil_r (digits_of xs)), read_digits_of by done. cbn [Nat.add]. rewrite Z.mul_0_l, Z.add_0_l.
  destruct xs as [|x0 xs]; [done|]. cbn [length Nat.eqb negb andb str_empty]. change (text []) with EmptyString.
  cbn [str_empty]. by rewrite Hn'.
Qed.

(** ** Scanning a literal *)

Lemma text_app a b : text (a ++ b) = text a +:+ text b.
Proof. induction a as [|c a IH]; [done|]. cbn [app]. change (text (c :: ?r)) with (String c (text r)). by rewrite IH, str_app_cons. Qed.

Definition digit_loop (st : number_state) : Prop := st = n_any1 \/ st = n_decimal2 \/ st = n_any2.

Lemma scan_digits_loop st t ds l : digit_loop st -> Forall is_dec ds ->
  scan_digits st t (text l) = Some (text l, t_float, EmptyString) ->
  scan_digits st t (text (digits_of ds ++ l)) = Some (text (digits_of ds ++ l), t_float, EmptyString).
Proof.
  intros Hst Hds Hl. induction Hds as [|d ds Hd Hds IH]; [done|]. cbn [map app].
  change (text (digit d :: ?r)) with (String (digit d) (text r)). cbn [scan_digits].
  destruct (digit_is d Hd) as (Hdig & _).
  assert (number_next st (digit d) = Some st) as -> by (destruct Hst as [->|[->| ->]]; simpl; by rewrite Hdig).
  assert (number_type_at st t = t) as -> by (by destruct Hst as [->|[->| ->]]). by rewrite IH.
Qed.

Lemma scan_exponent st t neg xs : st = n_zero \/ digit_loop st -> st <> n_any2 -> Forall is_dec xs -> xs <> [] ->
  let l := "e"%char :: (if (neg : bool) then "-"%char else "+"%char) :: digits_of xs in
  scan_digits st t (text l) = Some (text l, t_float, EmptyString).
Proof.
  intros Hst Hne Hxs Hx0. cbv zeta. destruct xs as [|x xs]; [done|]. apply Forall_cons in Hxs as [Hx Hxs].
  assert (scan_digits n_any2 t_float (text (digits_of xs)) = Some (text (digits_of xs), t_float, EmptyString)) as E.
  { rewrite <- (app_nil_r (digits_of xs)). apply scan_digits_loop; [by right; right|done|done]. }
  cbn [map]. change (text (?a :: ?b :: ?c :: ?r)) with (String a (String b (String c (text r)))).
  destruct (digit_is x Hx) as (Hdig & _). cbn [scan_digits].
  assert (number_next st "e" = Some n_exponent) as -> by (destruct Hst as [->|[->|[->| ->]]]; done).
  assert (number_next n_exponent (if neg then "-"%char else "+"%char) = Some n_sign) as -> by (by destruct neg).
  cbn [number_type_at number_next]. rewrite Hdig, E. done.
Qed.

Lemma scan_tail st t f ex : st = n_zero \/ st = n_any1 -> Forall is_dec f ->
  match ex with None => f <> [] | Some (_, xs) => Forall is_dec xs /\ xs <> [] end ->
  let l := match f with [] => [] | _ => "."%char :: digits_of f end ++
    match ex with
    | None => []
    | Some (neg, xs) => "e"%char :: (if (neg : bool) then "-"%char else "+"%char) :: digits_of xs
    end in
  scan_digits st t (text l) = Some (text l, t_float, EmptyString).
Proof.
  intros Hst Hf Hex. cbv zeta. destruct f as [|f0 f].
  - destruct ex as [[neg xs]|]; [|done]. destruct Hex as [Hxs Hne]. cbn [app].
    apply scan_exponent; [|by destruct Hst as [->| ->]|done..]. destruct Hst as [->| ->]; [by left|right; by left].
  - apply Forall_cons in Hf as [Hf0 Hf]. cbn [map app].
    change (text (?a :: ?b :: ?r)) with (String a (String b (text r))). destruct (digit_is f0 Hf0) as (Hdig & _).
    cbn [scan_digits]. assert (number_next st "." = Some n_decimal1) as -> by (by destruct Hst as [->| ->]).
    cbn [number_type_at number_next]. rewrite Hdig. rewrite scan_digits_loop; [done|by right; left|done|].
    destruct ex as [[neg xs]|]; [|done]. destruct Hex as [Hxs Hne].
    apply scan_exponent; [right; by right; left|done..].
Qed.

Lemma literal_scans (neg : bool) w f ex : literal_ok w f ex ->
  let l := (if neg then ["-"%char] else []) ++ literal w f ex in
  scan (text l) = (value_float (strtod (text l)), EmptyString).
Proof.
  intros (Hw & Hf & Hlead & Hex). cbv zeta. unfold literal.
  set (tail := match f with [] => [] | _ => _ end ++ _).
  assert (forall st t, st = n_zero \/ st = n_any1 -> scan_digits st t (text tail) = Some (text tail, t_float, EmptyString)) as Ht.
  { intros st t Hst. by apply scan_tail. }
  clearbody tail. destruct w as [|d w]; [by destruct Hlead|]. apply Forall_cons in Hw as [Hd Hw].
  destruct (digit_is d Hd) as (Hdig & _ & Hm & Hz & _). cbn [map app].
  assert (forall t, scan_digits (if d =? 0 then n_zero else n_any1) t (text (digits_of w ++ tail)) =
    Some (text (digits_of w ++ tail), t_float, EmptyString)) as Hs.
  { intros t. destruct Hlead as [[= -> ->]|Hl]; [apply Ht; by left|].
    rewrite (proj2 (Z.eqb_neq d 0)) by (simpl in Hl; lia). apply scan_digits_loop; [by left|done|]. apply Ht. by right. }
  destruct neg; cbn [app].
  - change (text ("-"%char :: ?a :: ?r)) with (String "-" (String a (text r))). rewrite scan_number_first by done.
    unfold scan_number. cbn [Ascii.eqb Bool.eqb scan_digits]. cbn [number_type_at number_next]. rewrite Hz, Hdig.
    destruct (d =? 0) eqn:Ed; rewrite Hs; done.
  - change (text (digit d :: ?r)) with (String (digit d) (text r)).
    rewrite scan_number_first by (by rewrite Hdig, orb_true_r). unfold scan_number. rewrite Hm, Hz, Hs. done.
Qed.

(** ** The whole conversion *)

Lemma near_equal m e d x d' x' : (dec d' x' == dec d x)%Q -> near m e d x -> near m e d' x'.
Proof. intros E [H1 H2]. split; by rewrite E. Qed.

(** Digits and layout of a positive double, without the sign. *)
Lemma to_chars_abs_spec buf s m e : bounded 53 1024 m e = true -> (34 <= length buf)%nat ->
  exists w f ex t, to_chars_abs buf (S754_finite s m e) = Ok (literal w f ex ++ t, Z.of_nat (length (literal w f ex))) /\
    literal_ok w f ex /\ near (Zpos m) e (decimal (w ++ f)) (literal_exponent f ex) /\ -800 <= literal_exponent f ex <= 400.
Proof.
  intros Hb Hl. unfold to_chars_abs. rewrite assert_true by (apply Z.leb_le; unfold max_digits10; lia). cbn [bind].
  destruct (grisu2_value_spec buf (Zpos m) e (bounded_double m e Hb) ltac:(lia))
    as (s0 & ds & x & -> & (t & -> & Ht) & Hds & Hlead & Hlen & Hx & Hn).
  cbn [bind len buffer decimal_exponent]. rewrite assert_true by (apply Z.leb_le; unfold max_digits10; lia). cbn [bind].
  destruct (format_buffer_spec ds x t Hds Hlead Hlen Hx ltac:(lia)) as (w & f & ex & t' & E & Hok & Hv & Hr).
  exists w, f, ex, t'. rewrite E. split; [done|]. split; [done|]. split; [|done]. by eapply near_equal.
Qed.

Lemma strtod_literal (neg : bool) w f ex m e : literal_ok w f ex -> bounded 53 1024 m e = true ->
  near (Zpos m) e (decimal (w ++ f)) (literal_exponent f ex) -> -800 <= literal_exponent f ex <= 400 ->
  strtod (text ((if neg then ["-"%char] else []) ++ literal w f ex)) = S754_finite neg m e.
Proof.
  intros Hok Hb Hn Hr. unfold strtod. rewrite read_literal by done.
  by rewrite (decimal_value_near neg _ _ (Zpos m) e (bounded_double m e Hb) Hn Hr).
Qed.

Lemma dump_double_literal s m e : bounded 53 1024 m e = true ->
  exists w f ex, dump_double (S754_finite s m e) = Ok (text ((if s then ["-"%char] else []) ++ literal w f ex)) /\
    literal_ok w f ex /\ near (Zpos m) e (decimal (w ++ f)) (literal_exponent f ex) /\ -800 <= literal_exponent f ex <= 400.
Proof.
  intros Hb. unfold dump_double, to_chars. rewrite assert_true by done. cbn [bind signbit].
  set (buf := replicate number_buffer_size "000"%char). destruct s.
  - change buf with ("000"%char :: replicate 63 "000"%char). set (rest := replicate 63 "000"%char).
    assert (length rest = 63)%nat as Hrest by done. clearbody rest. rewrite store_0. cbn [bind drop take].
    destruct (to_chars_abs_spec rest true m e Hb) as (w & f & ex & t & E & H); [lia|].
    exists w, f, ex. split; [|done]. rewrite drop_0, E. change (take 0 rest) with (@nil ascii). cbn [bind fst snd app]. do 2 f_equal.
    replace (Z.to_nat (1 + _)) with (S (length (literal w f ex))) by lia. cbn [take]. by rewrite take_app_length.
  - destruct (to_chars_abs_spec buf false m e Hb) as (w & f & ex & t & E & H); [simpl; lia|].
    exists w, f, ex. split; [|done]. rewrite E. cbn [bind fst snd app]. by rewrite Nat2Z.id, take_app_length.
Qed.

(** C26. Every finite double is printed and read back: on every double the printer
    returns (no assertion of the source fails, no byte is written outside the 64
    bytes of the buffer, at most 17 digits are generated), and the scanner reads
    its text to the end as that very double, sign of zero included. *)
Theorem double_text_roundtrip f : is_finite f = true -> valid_binary 53 1024 f = true ->
  exists s, dump_double f = Ok s /\ scan s = (value_float f, EmptyString).
Proof.
  intros Hf Hv. destruct f as [s|s| |s m e]; try done.
  - destruct s; eexists; (split; [vm_compute; reflexivity|vm_compute; reflexivity]).
  - destruct (dump_double_literal s m e Hv) as (w & f & ex & E & Hok & Hn & Hr). eexists. split; [exact E|].
    rewrite literal_scans by done. by rewrite (strtod_literal s w f ex m e).
Qed.

Lemma double_text_roundtrip_witness :
  exists s, dump_double (S754_finite true 4503599627370497 (-1074)) = Ok s /\
    scan s = (value_float (S754_finite true 4503599627370497 (-1074)), EmptyString).
Proof. apply double_text_roundtrip; vm_compute; reflexivity. Defined.

(** ** JSON values with their floats *)

(** The text of a float in the program. *)
#[global] Instance double_text : FloatText := fun f => match dump_double f with Ok s => s | _ => EmptyString end.

Lemma double_reads f : is_finite f = true -> valid_binary 53 1024 f = true -> float_reads f.
Proof.
  intros Hf Hv. unfold float_reads, float_text, double_text. destruct f as [s|s| |s m e]; try done.
  - destruct s; vm_compute; reflexivity.
  - destruct (dump_double_literal s m e Hv) as (w & f & ex & -> & Hok & Hn & Hr).
    rewrite literal_scans by done. by rewrite (strtod_literal s w f ex m e).
Qed.

Lemma floats_read_all v : well_formed v = true -> floats_read v.
Proof.
  induction v as [|b|z|z|f|s|l Hl|o Ho] using json_ind'; simpl; intros Hw; try done.
  - apply andb_true_iff in Hw as [Hf Hv]. by apply double_reads.
  - induction Hl as [|v l Hv Hl IH]; simpl in *; [done|]. apply andb_true_iff in Hw as [Hw1 Hw2]. auto.
  - apply andb_true_iff in Hw as [_ Hw]. induction Ho as [|[k v] o Hv Ho IH]; simpl in *; [done|].
    rewrite !andb_true_iff in Hw. destruct Hw as [[_ Hw1] Hw2]. auto.
Qed.

(** C25. What [dump] prints, [json::parse] reads back: every well-formed value (all
    those [parse] returns are) has a text, with its floats printed by Grisu2, and
    parsing the text gives the value up to the type of the integers that are not
    negative, which [operator==] does not distinguish. *)
Theorem json_text_roundtrip v : well_formed v = true ->
  exists t, dump v = Ok t /\ json_parse t = Ok (canonical v) /\ json_eqb (canonical v) v = true.
Proof. intros Hw. apply dump_parses; [done|]. by apply floats_read_all. Qed.

Lemma json_text_roundtrip_witness :
  exists t, dump sample = Ok t /\ json_parse t = Ok (canonical sample) /\ json_eqb (canonical sample) sample = true.
Proof. apply json_text_roundtrip. vm_compute. reflexivity. Defined.

(** ** No byte of a text is zero, so [c_str] sees all of it *)

Abbreviation nul_free := (all_chars (other_than "000")).

Lemma escaped_nul_free a : nul_free (escaped a) = true.
Proof. destruct a as [[] [] [] [] [] [] [] []]; vm_compute; reflexivity. Qed.

Lemma escape_all_nul_free s : nul_free (escape_all s) = true.
Proof. induction s as [|a s IH]; [done|]. cbn [escape_all]. by rewrite all_chars_app, escaped_nul_free, IH. Qed.

Lemma dump_string_nul_free s t : dump_string s = Ok t -> nul_free t = true.
Proof.
  unfold dump_string. destruct (utf8_ok s); [|done]. intros [= <-].
  by rewrite !all_chars_app, escape_all_nul_free.
Qed.

Lemma pretty_nul_free (z : Z) : nul_free (pretty z) = true.
Proof.
  assert (forall x, 0 <= x -> nul_free (pretty x) = true) as Hpos.
  { intros x Hx. eapply all_chars_impl; [|by apply pretty_digits].
    intros a. destruct a as [[] [] [] [] [] [] [] []]; vm_compute; congruence. }
  destruct (Z.lt_ge_cases z 0) as [Hz|Hz]; [|by apply Hpos]. rewrite pretty_neg by done. simpl. apply Hpos. lia.
Qed.

Lemma digits_nul_free ds l : Forall is_dec ds -> nul_free (text l) = true -> nul_free (text (digits_of ds ++ l)) = true.
Proof.
  intros Hds Hl. induction Hds as [|d ds Hd Hds IH]; [done|]. cbn [map app].
  change (text (digit d :: ?r)) with (String (digit d) (text r)). cbn [all_chars]. rewrite IH, andb_true_r.
  apply (digit_forall (fun d => other_than "000" (digit d) = true)); [|unfold is_dec in Hd; lia].
  repeat constructor.
Qed.

Lemma literal_nul_free w f ex : literal_ok w f ex -> nul_free (text (literal w f ex)) = true.
Proof.
  intros (Hw & Hf & _ & Hx). unfold literal. apply digits_nul_free; [done|].
  assert (nul_free (text (match ex with None => [] | Some (neg, xs) =>
    "e"%char :: (if (neg : bool) then "-"%char else "+"%char) :: digits_of xs end)) = true) as He.
  { destruct ex as [[neg xs]|]; [|done]. destruct Hx as [Hx _]. rewrite <- (app_nil_r (digits_of xs)).
    destruct neg; simpl; by apply (digits_nul_free xs []). }
  destruct f as [|d f]; [exact He|]. exact (digits_nul_free (d :: f) _ Hf He).
Qed.

Lemma float_nul_free f : is_finite f = true -> valid_binary 53 1024 f = true -> nul_free (float_text f) = true.
Proof.
  intros Hf Hv. unfold float_text, double_text. destruct f as [s|s| |s m e]; try done.
  - destruct s; vm_compute; reflexivity.
  - destruct (dump_double_literal s m e Hv) as (w & f & ex & -> & Hok & _).
    pose proof (literal_nul_free w f ex Hok). by destruct s.
Qed.

Lemma concat_nul_free sep l : nul_free sep = true -> Forall (fun s => nul_free s = true) l -> nul_free (String.concat sep l) = true.
Proof.
  intros Hsep Hl. induction Hl as [|s l Hs Hl IH]; [done|]. destruct l as [|s' l]; [done|].
  change (String.concat sep (s :: s' :: l)) with (s +:+ sep +:+ String.concat sep (s' :: l)).
  by rewrite !all_chars_app, Hs, Hsep, IH.
Qed.

Lemma dump_nul_free v t : well_formed v = true -> dump v = Ok t -> nul_free t = true.
Proof.
  revert t. induction v as [|b|z|z|f|s|l Hl|o Ho] using json_ind'; intros t Hw E.
  - by injection E as <-.
  - injection E as <-. by destruct b.
  - injection E as <-. apply pretty_nul_free.
  - injection E as <-. apply pretty_nul_free.
  - simpl in Hw. apply andb_true_iff in Hw as [Hf Hv]. injection E as <-.
    destruct f; try done; by apply float_nul_free.
  - by eapply dump_string_nul_free.
  - rewrite dump_array in E. apply bind_Ok_inv in E as (ss & E & [= <-]). rewrite !all_chars_app.
    rewrite concat_nul_free; [done|done|]. apply for_each_Forall2 in E. simpl in Hw.
    induction E as [|v s l ss Hv E IH]; [done|]. apply Forall_cons in Hl as [Hv' Hl].
    simpl in Hw. apply andb_true_iff in Hw as [Hw1 Hw2]. constructor; auto.
  - rewrite dump_object in E. apply bind_Ok_inv in E as (ss & E & [= <-]). rewrite !all_chars_app.
    rewrite concat_nul_free; [done|done|]. apply for_each_Forall2 in E. simpl in Hw. apply andb_true_iff in Hw as [_ Hw].
    induction E as [|kv s o ss Hkv E IH]; [done|]. apply Forall_cons in Ho as [Hv' Ho].
    simpl in Hw. rewrite !andb_true_iff in Hw. destruct Hw as [[_ Hw1] Hw2]. constructor; [|auto].
    unfold dump_member in Hkv. apply bind_Ok_inv in Hkv as (key & Hkey & Hkv).
    apply bind_Ok_inv in Hkv as (vt & Hvt & [= <-]). rewrite !all_chars_app.
    by rewrite (dump_string_nul_free _ _ Hkey), (Hv' _ Hw1 Hvt).
Qed.
