(* ===== verification/SdpGrammar.v ===== *)
(** The grammar of SDP lines: deps/libsdptransform/src/grammar.cpp.

    The table is copied rule by rule.  The patterns are the text the C++ string
    literals stand for, and are read by [Regex.regex]. *)

From Stdlib Require Import ZArith Lia Ascii.
From S2P Require Import Prelude Json Regex Streams.

Module grammar.

(** The conversion of a captured text. *)
Inductive type : Set := Ts | Td | Tu | Tf.

(** [format] is empty in the source when [formatFunc] is given. *)
Record Rule : Type := MkRule {
  name : string;
  push : string;
  reg : re;
  names : list string;
  types : list type;
  format : string;
  formatFunc : json -> string
}.

Definition hasValue (o : json) (key : string) : bool :=
  match jfind o key with
  | None => false
  | Some v =>
      match v with
      | JString s => negb (str_empty s)
      | _ => is_number v
      end
  end.

(** A rule with a fixed format, and one with a function. *)
Definition fixed (name push pattern : string) (names : list string) (types : list type)
    (format : string) : Rule :=
  MkRule name push (regex pattern) names types format (fun _ => EmptyString).

Definition computed (name push pattern : string) (names : list string) (types : list type)
    (formatFunc : json -> string) : Rule :=
  MkRule name push (regex pattern) names types EmptyString formatFunc.

Definition v_rules : list Rule := [fixed "version" "" "^(\d*)$" [] [Td] "%d"].

Definition o_rules : list Rule :=
  [fixed "origin" "" "^(\S*) (\d*) (\d*) (\S*) IP(\d) (\S*)"
     ["username"; "sessionId"; "sessionVersion"; "netType"; "ipVer"; "address"]
     [Ts; Tu; Tu; Ts; Td; Ts] "%s %d %d %s IP%d %s"].

Definition whole_line (name : string) : list Rule := [fixed name "" "(.*)" [] [Ts] "%s"].

Definition t_rules : list Rule :=
  [fixed "timing" "" "^(\d*) (\d*)" ["start"; "stop"] [Td; Td] "%d %d"].

Definition c_rules : list Rule :=
  [computed "connection" "" "^IN IP(\d) ([^\\S/]*)(?:/(\d*))?" ["version"; "ip"; "ttl"] [Td; Ts; Td]
     (fun o => if hasValue o "ttl" then "IN IP%d %s/%d" else "IN IP%d %s")].

Definition b_rules : list Rule :=
  [fixed "" "bandwidth" "^(TIAS|AS|CT|RR|RS):(\d*)" ["type"; "limit"] [Ts; Td] "%s:%d"].

Definition m_rules : list Rule :=
  [computed "" "" "^(\w*) (\d*)(?:/(\d*))? ([\w\/]*)(?: (.*))?"
     ["type"; "port"; "numPorts"; "protocol"; "payloads"] [Ts; Td; Td; Ts; Ts]
     (fun o => if hasValue o "numPorts" then "%s %d/%d %s %s" else "%s %d%v %s %s")].

Definition rtpmap_format (o : json) : string :=
  if hasValue o "encoding" then "rtpmap:%d %s/%s/%s"
  else if hasValue o "rate" then "rtpmap:%d %s/%s" else "rtpmap:%d %s".

Definition extmap_format (o : json) : string :=
  "extmap:%d" +:+ (if hasValue o "direction" then "/%s" else "%v")
    +:+ (if hasValue o "encrypt-uri" then " %s" else "%v")
    +:+ " %s" +:+ (if hasValue o "config" then " %s" else "").

Definition candidate_format (o : json) : string :=
  "candidate:%s %d %s %d %s %d typ %s"
    +:+ (if hasValue o "raddr" then " raddr %s rport %d" else "%v%v")
    +:+ (if hasValue o "tcptype" then " tcptype %s" else "%v")
    +:+ (if hasValue o "generation" then " generation %d" else "")
    +:+ (if hasValue o "network-id" then " network-id %d" else "%v")
    +:+ (if hasValue o "network-cost" then " network-cost %d" else "%v").

Definition ssrc_format (o : json) : string :=
  "ssrc:%d" +:+
  (if hasValue o "attribute" then " %s" +:+ (if hasValue o "value" then ":%s" else "") else "").

Definition candidate_pattern : string :=
  "^candidate:(\S*) (\d*) (\S*) (\d*) (\S*) (\d*) typ (\S*)(?: raddr (\S*) rport (\d*))?" +:+
  "(?: tcptype (\S*))?(?: generation (\d*))?(?: network-id (\d*))?(?: network-cost (\d*))?".

Definition imageattr_pattern : string :=
  "^imageattr:(\d+|\*)" +:+
  "[\s\t]+(send|recv)[\s\t]+(\*|\[\S+\](?:[\s\t]+\[\S+\])*)" +:+
  "(?:[\s\t]+(recv|send)[\s\t]+(\*|\[\S+\](?:[\s\t]+\[\S+\])*))?".

Definition simulcast_pattern : string :=
  "^simulcast:" +:+
  "(send|recv) ([a-zA-Z0-9\-_~;,]+)" +:+
  "(?:\s?(send|recv) ([a-zA-Z0-9\-_~;,]+))?" +:+
  "$".

(** Codecs, RTCP and header extensions. *)
Definition codec_rules : list Rule :=
  [computed "" "rtp" "^rtpmap:(\d*) ([\w\-\.]*)(?:\s*\/(\d*)(?:\s*\/(\S*))?)?"
     ["payload"; "codec"; "rate"; "encoding"] [Td; Ts; Td; Ts] rtpmap_format;
   fixed "" "fmtp" "^fmtp:(\d*) (.*)" ["payload"; "config"] [Td; Ts] "fmtp:%d %s";
   fixed "control" "" "^control:(.*)" [] [Ts] "control:%s";
   computed "rtcp" "" "^rtcp:(\d*)(?: (\S*) IP(\d) (\S*))?"
     ["port"; "netType"; "ipVer"; "address"] [Td; Ts; Td; Ts]
     (fun o => if hasValue o "address" then "rtcp:%d %s IP%d %s" else "rtcp:%d");
   fixed "" "rtcpFbTrrInt" "^rtcp-fb:(\*|\d*) trr-int (\d*)" ["payload"; "value"] [Ts; Td]
     "rtcp-fb:%s trr-int %d";
   computed "" "rtcpFb" "^rtcp-fb:(\*|\d*) ([\w\-_]*)(?: ([\w\-_]*))?"
     ["payload"; "type"; "subtype"] [Ts; Ts; Ts]
     (fun o => if hasValue o "subtype" then "rtcp-fb:%s %s %s" else "rtcp-fb:%s %s");
   computed "" "ext"
     "^extmap:(\d+)(?:\/(\w+))?(?: (urn:ietf:params:rtp-hdrext:encrypt))? (\S*)(?: (\S*))?"
     ["value"; "direction"; "encrypt-uri"; "uri"; "config"] [Td; Ts; Ts; Ts; Ts] extmap_format].

(** Attributes of a media section. *)
Definition media_rules : list Rule :=
  [fixed "extmapAllowMixed" "" "^(extmap-allow-mixed)" [] [Ts] "%s";
   computed "" "crypto" "^crypto:(\d*) ([\w_]*) (\S*)(?: (\S*))?"
     ["id"; "suite"; "config"; "sessionConfig"] [Td; Ts; Ts; Ts]
     (fun o => if hasValue o "sessionConfig" then "crypto:%d %s %s %s" else "crypto:%d %s %s");
   fixed "setup" "" "^setup:(\w*)" [] [Ts] "setup:%s";
   fixed "mid" "" "^mid:([^\s]*)" [] [Ts] "mid:%s";
   fixed "msid" "" "^msid:(.*)" [] [Ts] "msid:%s";
   fixed "ptime" "" "^ptime:(\d*)" [] [Td] "ptime:%d";
   fixed "maxptime" "" "^maxptime:(\d*)" [] [Td] "maxptime:%d";
   fixed "direction" "" "^(sendrecv|recvonly|sendonly|inactive)" [] [Ts] "%s"].

(** ICE and DTLS. *)
Definition ice_rules : list Rule :=
  [fixed "icelite" "" "^(ice-lite)" [] [Ts] "%s";
   fixed "iceUfrag" "" "^ice-ufrag:(\S*)" [] [Ts] "ice-ufrag:%s";
   fixed "icePwd" "" "^ice-pwd:(\S*)" [] [Ts] "ice-pwd:%s";
   fixed "fingerprint" "" "^fingerprint:(\S*) (\S*)" ["type"; "hash"] [Ts; Ts] "fingerprint:%s %s";
   computed "" "candidates" candidate_pattern
     ["foundation"; "component"; "transport"; "priority"; "ip"; "port"; "type"; "raddr"; "rport";
      "tcptype"; "generation"; "network-id"; "network-cost"]
     [Ts; Td; Ts; Td; Ts; Td; Ts; Ts; Td; Ts; Td; Td; Td; Td] candidate_format;
   fixed "endOfCandidates" "" "^(end-of-candidates)" [] [Ts] "%s";
   fixed "remoteCandidates" "" "^remote-candidates:(.*)" [] [Ts] "remote-candidates:%s";
   fixed "iceOptions" "" "^ice-options:(\S*)" [] [Ts] "ice-options:%s"].

(** Streams, groups and SCTP. *)
Definition ssrc_rules : list Rule :=
  [computed "" "ssrcs" "^ssrc:(\d*) ([\w_-]*)(?::(.*))?" ["id"; "attribute"; "value"] [Td; Ts; Ts]
     ssrc_format;
   fixed "" "ssrcGroups" "^ssrc-group:([!#$%&'*+-.\w]*) (.*)" ["semantics"; "ssrcs"] [Ts; Ts]
     "ssrc-group:%s %s";
   fixed "msidSemantic" "" "^msid-semantic:\s?(\w*) (\S*)" ["semantic"; "token"] [Ts; Ts]
     "msid-semantic: %s %s";
   fixed "" "groups" "^group:(\w*) (.*)" ["type"; "mids"] [Ts; Ts] "group:%s %s";
   fixed "rtcpMux" "" "^(rtcp-mux)" [] [Ts] "%s";
   fixed "rtcpRsize" "" "^(rtcp-rsize)" [] [Ts] "%s";
   computed "sctpmap" "" "^sctpmap:(\d+) (\S*)(?: (\d*))?"
     ["sctpmapNumber"; "app"; "maxMessageSize"] [Td; Ts; Td]
     (fun o => if hasValue o "maxMessageSize" then "sctpmap:%s %s %s" else "sctpmap:%s %s");
   fixed "xGoogleFlag" "" "x-google-flag:([^\s]*)" [] [Ts] "x-google-flag:%s"].

(** Simulcast. *)
Definition simulcast_rules : list Rule :=
  [computed "" "rids" "^rid:([\d\w]+) (\w+)(?: (.*))?" ["id"; "direction"; "params"] [Ts; Ts; Ts]
     (fun o => if hasValue o "params" then "rid:%s %s %s" else "rid:%s %s");
   computed "" "imageattrs" imageattr_pattern ["pt"; "dir1"; "attrs1"; "dir2"; "attrs2"]
     [Ts; Ts; Ts; Ts; Ts]
     (fun o => "imageattr:%s %s %s" +:+ (if hasValue o "dir2" then " %s %s" else ""));
   computed "simulcast" "" simulcast_pattern ["dir1"; "list1"; "dir2"; "list2"] [Ts; Ts; Ts; Ts]
     (fun o => "simulcast:%s %s" +:+ (if hasValue o "dir2" then " %s %s" else ""));
   fixed "simulcast_03" "" "^simulcast: (.+)$" ["value"] [Ts] "simulcast: %s";
   fixed "framerate" "" "^framerate:(\d+(?:$|\.\d+))" [] [Tf] "framerate:%s"].

(** The rest; the last rule takes any line. *)
Definition other_rules : list Rule :=
  [fixed "sourceFilter" "" "^source-filter:[\s\t]+(excl|incl) (\S*) (IP4|IP6|\*) (\S*) (.*)"
     ["filterMode"; "netType"; "addressTypes"; "destAddress"; "srcList"] [Ts; Ts; Ts; Ts; Ts]
     "source-filter: %s %s %s %s %s";
   fixed "tsRefclk" "" "^ts-refclk:(.*)" [] [Ts] "ts-refclk:%s";
   fixed "mediaclk" "" "^mediaclk:(.*)" [] [Ts] "mediaclk:%s";
   fixed "" "invalid" "(.*)" ["value"] [Ts] "%s"].

(** The rules are tried in this order. *)
Definition a_rules : list Rule :=
  codec_rules ++ media_rules ++ ice_rules ++ ssrc_rules ++ simulcast_rules ++ other_rules.

(** [rulesMap.find(type)] *)
Definition rulesMap (type : ascii) : option (list Rule) :=
  match type with
  | "v" => Some v_rules
  | "o" => Some o_rules
  | "s" => Some (whole_line "name")
  | "i" => Some (whole_line "description")
  | "u" => Some (whole_line "uri")
  | "e" => Some (whole_line "email")
  | "p" => Some (whole_line "phone")
  | "z" => Some (whole_line "timezones")
  | "r" => Some (whole_line "repeats")
  | "t" => Some t_rules
  | "c" => Some c_rules
  | "b" => Some b_rules
  | "m" => Some m_rules
  | "a" => Some a_rules
  | _ => None
  end%char.

(** The patterns are well formed; no literal was mistyped into one that is
    read differently. *)
Example patterns_well_formed :
  forallb well_formed
    ["^(\d*)$"; "^(\S*) (\d*) (\d*) (\S*) IP(\d) (\S*)"; "(.*)"; "^(\d*) (\d*)";
     "^IN IP(\d) ([^\\S/]*)(?:/(\d*))?"; "^(TIAS|AS|CT|RR|RS):(\d*)";
     "^(\w*) (\d*)(?:/(\d*))? ([\w\/]*)(?: (.*))?"; candidate_pattern; imageattr_pattern;
     simulcast_pattern; "^framerate:(\d+(?:$|\.\d+))"; "^ssrc-group:([!#$%&'*+-.\w]*) (.*)"] = true.
Proof. vm_compute. reflexivity. Qed.

End grammar.
