(* ===== verification/SdpParser.v ===== *)
(** Reading SDP text: deps/libsdptransform/src/parser.cpp.

    [long] has 64 bits.  The functions that fill a JSON object by reference
    return it. *)

From Stdlib Require Import ZArith Lia SpecFloat Ascii.
From S2P Require Import Prelude Json Regex Streams SdpGrammar.
Import grammar.

(** ** Values *)

Definition trim (s : string) : string := drop_trailing_space (skip_space s).

Definition isInt (s : string) : bool :=
  match stream_int64 s with Some _ => true | None => false end.

Definition isFloat (s : string) : bool :=
  match stream_single s with Some _ => true | None => false end.

Definition toType (s : string) (t : type) : json :=
  match t with
  | Ts => JString s
  | Tu => match stream_uint64 s with Some z => JUint z | None => JUint 0 end
  | Td => match stream_int64 s with Some z => JInt z | None => JInt 0 end
  | Tf => match stream_double s with Some f => JFloat f | None => JFloat (S754_zero false) end
  end.

(** ** Parameters: [a=fmtp] values and the like *)

Definition KeyValueRegex : re := regex "^\s*([^= ]+)(?:\s*=\s*([^ ]+))?$".

Definition WellKnownParameters (param : string) : option type :=
  if String.eqb param "profile-level-id" then Some Ts
  else if String.eqb param "packetization-mode" then Some Td
  else if String.eqb param "profile-id" then Some Ts
  else None.

Definition param_type (param value : string) : type :=
  match WellKnownParameters param with
  | Some t => t
  | None => if isInt value then Td else if isFloat value then Tf else Ts
  end.

Definition insertParam (o : json) (str : string) : res json :=
  match regex_match KeyValueRegex str with
  | None => Ok o
  | Some match_ =>
      let param := group match_ 1 in
      let value := group match_ 2 in
      jset o param (toType value (param_type param value))
  end.

(** The body of the two loops over parameters. *)
Definition trimmed_param (o : json) (param : string) : res json :=
  let param := trim param in
  if str_empty param then Ok o else insertParam o param.

Definition parseParams (str : string) : res json :=
  for_fold trimmed_param (JObject []) (getlines ";" str).

Definition parsePayloads (str : string) : res (list Z) := for_each stoi (getlines " " str).

(** One item of an image attribute; [None] for the special value [*], which
    ends the loop. *)
Fixpoint image_items (arr : list json) (items : list string) : res json :=
  match items with
  | [] => Ok (JArray arr)
  | item :: items =>
      let item := trim item in
      if String.eqb item "*" then Ok (JString item)
      else if Nat.ltb (String.length item) 5 then image_items arr items
      else
        let* obj := for_fold trimmed_param (JObject [])
                      (getlines "," (String.substring 1 (String.length item - 2) item)) in
        image_items (arr ++ [obj]) items
  end.

Definition parseImageAttributes (str : string) : res json := image_items [] (getlines " " str).

Definition simulcast_format (format : string) : json :=
  match format with
  | String "~" scid => JObj [("scid", JString scid); ("paused", JBool true)]
  | _ => JObj [("scid", JString format); ("paused", JBool false)]
  end.

Definition non_empty (l : list string) : list string := List.filter (fun s => negb (str_empty s)) l.

Definition parseSimulcastStreamList (str : string) : json :=
  JArray (map (fun item => JArray (map simulcast_format (non_empty (getlines "," item))))
              (non_empty (getlines ";" str))).

(** ** Lines *)

(** [attachProperties]: [size] is [match.size()]. *)
Fixpoint attach_names (match_ : captures) (size i : nat) (names : list string) (types : list type)
    (location : json) : res json :=
  match names with
  | [] => Ok location
  | name :: names =>
      let str := group match_ (i + 1) in
      let* location :=
        if Nat.ltb (i + 1) size && negb (str_empty str) then
          match types !! i with
          | Some t => jset location name (toType str t)
          | None => Undef UbIndex
          end
        else Ok location in
      attach_names match_ size (i + 1) names types location
  end.

Definition is_nil {A : Type} (l : list A) : bool := match l with [] => true | _ => false end.

Definition attachProperties (match_ : captures) (size : nat) (location : json) (names : list string)
    (rawName : string) (types : list type) : res json :=
  if negb (str_empty rawName) && is_nil names then
    match types with
    | t :: _ => jset location rawName (toType (group match_ 1) t)
    | [] => Undef UbIndex
    end
  else attach_names match_ size 0 names types location.

Definition parseReg (rule : Rule) (match_ : captures) (location : json) : res json :=
  let needsBlank := negb (str_empty (name rule)) && negb (is_nil (names rule)) in
  let size := S (groups (reg rule)) in
  let attach loc := attachProperties match_ size loc (names rule) (name rule) (types rule) in
  let* location :=
    if negb (str_empty (push rule)) && negb (jcontains location (push rule)) then
      jset location (push rule) (JArray [])
    else if needsBlank && negb (jcontains location (name rule)) then
      jset location (name rule) (JObject [])
    else Ok location in
  if negb (str_empty (push rule)) then
    let* object := attach (JObject []) in
    let* (location, a) := jref location (push rule) in
    let* a := jpush a object in
    jset location (push rule) a
  else if needsBlank then
    let* (location, inner) := jref location (name rule) in
    let* inner := attach inner in
    jset location (name rule) inner
  else attach location.

(** The first rule of a line type that fits. *)
Fixpoint apply_rules (rules : list Rule) (content : string) (location : json) : res json :=
  match rules with
  | [] => Ok location
  | rule :: rules =>
      match regex_search (reg rule) content with
      | Some match_ => parseReg rule match_ location
      | None => apply_rules rules content location
      end
  end.

(** ** Sessions *)

Definition ValidLineRegex : re := regex "^([a-z])=(.*)".

Definition drop_cr (line : string) : string :=
  let n := String.length line in
  if String.eqb (String.substring (n - 1) 1 line) (String "013" EmptyString)
  then String.substring 0 (n - 1) line else line.

(** [session], the media sections before the last one, and the last one, which
    [location] points at once there is one. *)
Record parser : Type := Parser {
  session : json;
  earlier : list json;
  current : option json
}.

Definition new_media : json := JObj [("rtp", JArray []); ("fmtp", JArray [])].

Definition media_of (p : parser) : list json := earlier p ++ option_list (current p).

Definition at_location (f : json -> res json) (p : parser) : res parser :=
  match current p with
  | None => let* session := f (session p) in Ok (Parser session (earlier p) None)
  | Some m => let* m := f m in Ok (Parser (session p) (earlier p) (Some m))
  end.

Definition parse_line (p : parser) (line : string) : res parser :=
  let line := drop_cr line in
  match regex_search ValidLineRegex line, line with
  | Some _, String type rest =>
      let content := String.substring 1 (String.length rest) rest in
      let p := if Ascii.eqb type "m"
               then Parser (session p) (media_of p) (Some new_media) else p in
      match rulesMap type with
      | None => Ok p
      | Some rules => at_location (apply_rules rules content) p
      end
  | _, _ => Ok p
  end.

Definition parse (sdp : string) : res json :=
  let* p := for_fold parse_line (Parser (JObject []) [] None) (getlines "010" sdp) in
  jset (session p) "media" (JArray (media_of p)).
