(* ===== verification/SdpParserFacts.v ===== *)
(** Theorems on the SDP parser: whatever text it is given, it returns, and what
    it returns has the types the grammar announces. *)

From Stdlib Require Import ZArith Lia Ascii.
From S2P Require Import Prelude Json Regex Streams SdpGrammar SdpParser.
Import grammar.

(** ** The schema of the grammar *)

(** What a key of a location holds: a value, an object, or an array of
    objects, the latter two with typed members. *)
Inductive shape : Type :=
| Single (t : type)
| Struct (fields : list (string * type))
| Rows (fields : list (string * type)).

Definition rule_shapes (r : Rule) : list (string * shape) :=
  let fields := zip (names r) (types r) in
  if negb (str_empty (push r)) then [(push r, Rows fields)]
  else if is_nil (names r) then map (fun t => (name r, Single t)) (take 1 (types r))
  else if negb (str_empty (name r)) then [(name r, Struct fields)]
  else map (fun f => (f.1, Single f.2)) fields.

Definition line_types : list ascii :=
  ["v"; "o"; "s"; "i"; "u"; "e"; "p"; "z"; "r"; "t"; "c"; "b"; "m"; "a"]%char.
Definition all_rules : list Rule := concat (map (fun c => default [] (rulesMap c)) line_types).
Definition schema : list (string * shape) := concat (map rule_shapes all_rules).

Fixpoint assoc {A : Type} (k : string) (l : list (string * A)) : option A :=
  match l with
  | [] => None
  | (k', v) :: l => if String.eqb k k' then Some v else assoc k l
  end.

Definition typed (t : type) (v : json) : bool :=
  match t with
  | Ts => is_string v
  | Td => match v with JInt z => (- 2 ^ 63 <=? z) && (z <=? 2 ^ 63 - 1) | _ => false end
  | Tu => match v with JUint z => (0 <=? z) && (z <=? 2 ^ 64 - 1) | _ => false end
  | Tf => is_number_float v
  end.

Definition member_ok (fields : list (string * type)) (kv : string * json) : bool :=
  match assoc kv.1 fields with Some t => typed t kv.2 | None => false end.

Definition struct_ok (fields : list (string * type)) (v : json) : bool :=
  match v with JObject o => forallb (member_ok fields) o | _ => false end.

Definition shape_ok (sh : shape) (v : json) : bool :=
  match sh with
  | Single t => typed t v
  | Struct fields => struct_ok fields v
  | Rows fields => match v with JArray l => forallb (struct_ok fields) l | _ => false end
  end.

Definition entry_ok (kv : string * json) : bool :=
  match assoc kv.1 schema with Some sh => shape_ok sh kv.2 | None => false end.

(** A session before its [media] is linked up, and a media section. *)
Definition location_ok (v : json) : bool :=
  match v with JObject o => forallb entry_ok o | _ => false end.

Definition media_ok (v : json) : bool := location_ok v && jcontains v "rtp" && jcontains v "fmtp".

Definition session_ok (v : json) : bool :=
  match v, jfind v "media" with
  | JObject o, Some (JArray ms) => forallb entry_ok (obj_del "media" o) && forallb media_ok ms
  | _, _ => false
  end.

(** ** Objects under a predicate on their members *)

Section Members.
Context (P : string * json -> bool).

Lemma forallb_get k v o : forallb P o = true -> obj_get k o = Some v -> P (k, v) = true.
Proof.
  induction o as [|[k' v'] o IH]; simpl; [done|]. intros [H1 H2]%andb_true_iff.
  destruct (String.eqb_spec k k') as [->|]; [|auto]. by intros [= ->].
Qed.

Lemma forallb_set k v o : forallb P o = true -> P (k, v) = true -> forallb P (obj_set k v o) = true.
Proof.
  intros Ho Hv. unfold obj_set. destruct (obj_mem k o).
  - induction o as [|[k' v'] o IH]; simpl in *; [done|]. apply andb_true_iff in Ho as [H1 H2].
    destruct (String.eqb_spec k k') as [->|]; simpl; rewrite ?H1, ?Hv, ?H2; [done|]. by apply IH.
  - induction o as [|[k' v'] o IH]; simpl in *; [by rewrite Hv|]. apply andb_true_iff in Ho as [H1 H2].
    destruct (String.ltb k k'); simpl; rewrite ?Hv, ?H1, ?H2; [done|]. by apply IH.
Qed.
End Members.

Lemma obj_mem_set k k' v o : obj_mem k o = true -> obj_mem k (obj_set k' v o) = true.
Proof.
  unfold obj_mem. destruct (String.eqb_spec k k') as [->|Hne].
  - by rewrite obj_get_set_eq.
  - by rewrite obj_get_set_ne.
Qed.

(** ** Values *)

Lemma toType_typed s t : typed t (toType s t) = true.
Proof.
  destruct t; simpl; [done| | |by destruct (stream_double s)].
  - unfold stream_int64, stream_int. destruct (read_sign s) as [neg s1].
    destruct (read_digits 0 0 s1) as [[m n] rest].
    destruct (negb (Nat.eqb n 0) && str_empty rest); simpl; [|done].
    destruct (_ <=? _) eqn:E1; simpl; [|done]. destruct ((if neg then - m else m) <=? _) eqn:E2; simpl; [|done].
    by rewrite E1, E2.
  - unfold stream_uint64. destruct (read_sign s) as [neg s1].
    pose proof (read_digits_nonneg 0 0 s1 ltac:(lia)) as Hm. destruct (read_digits 0 0 s1) as [[m n] rest]. simpl in Hm.
    destruct (negb (Nat.eqb n 0) && str_empty rest); simpl; [|done].
    destruct (Z.leb_spec m (2 ^ 64 - 1)); simpl; [|done].
    pose proof (u64_range (- m)). destruct neg; apply andb_true_iff; split; apply Z.leb_le; lia.
Qed.

(** ** Rules *)

#[export] Instance type_eq_dec : EqDecision type.
Proof. solve_decision. Defined.
#[export] Instance shape_eq_dec : EqDecision shape.
Proof. solve_decision. Defined.

(** A rule that fits the schema: one group per name, types for all of them, a
    place for its result, and the shapes of the schema. *)
Definition rule_ok (r : Rule) : bool :=
  let fields := zip (names r) (types r) in
  Nat.leb (length (names r)) (length (types r)) &&
  Nat.eqb (groups (reg r)) (Nat.max 1 (length (names r))) &&
  negb (is_nil (types r)) &&
  (negb (str_empty (name r)) || negb (is_nil (names r))) &&
  (str_empty (push r) || str_empty (name r)) &&
  forallb (fun ks => bool_decide (assoc ks.1 schema = Some ks.2)) (rule_shapes r) &&
  forallb (fun ft => bool_decide (assoc ft.1 fields = Some ft.2)) fields.

Lemma rules_ok : forallb rule_ok all_rules = true.
Proof. vm_compute. reflexivity. Qed.

(** The loop over the names keeps any predicate the typed members satisfy. *)
Lemma attach_names_ok (P : string * json -> bool) m size names types i o :
  forallb P o = true ->
  (forall j n, names !! j = Some n ->
     exists t, types !! (i + j)%nat = Some t /\ forall v, typed t v = true -> P (n, v) = true) ->
  exists o', attach_names m size i names types (JObject o) = Ok (JObject o') /\ forallb P o' = true /\
    forall k, obj_mem k o = true -> obj_mem k o' = true.
Proof.
  revert i o. induction names as [|n names IH]; intros i o Ho Hn; cbn [attach_names]; cbv zeta; [by exists o|].
  assert (exists o1, (if Nat.ltb (i + 1) size && negb (str_empty (group m (i + 1))) then
      match types !! i with
      | Some t => jset (JObject o) n (toType (group m (i + 1)) t)
      | None => Undef UbIndex
      end else Ok (JObject o)) = Ok (JObject o1) /\ forallb P o1 = true /\
      forall k, obj_mem k o = true -> obj_mem k o1 = true) as (o1 & -> & Ho1 & Hk1).
  { destruct (Nat.ltb _ _ && _); [|by exists o].
    destruct (Hn O n eq_refl) as (t & Ht & HP). rewrite Nat.add_0_r in Ht. rewrite Ht. simpl.
    eexists. split; [done|]. split; [apply forallb_set; [done|]; apply HP, toType_typed|].
    intros k Hk. by apply obj_mem_set. }
  cbn [bind]. destruct (IH (i + 1)%nat o1 Ho1) as (o2 & -> & Ho2 & Hk2).
  { intros j n' Hj. destruct (Hn (S j) n' Hj) as (t & Ht & HP). exists t.
    by rewrite <- Nat.add_assoc. }
  exists o2. eauto.
Qed.

(** What [rule_ok] says of the [j]-th name. *)
Lemma rule_ok_types r j n :
  rule_ok r = true -> names r !! j = Some n ->
  exists t, types r !! j = Some t /\ assoc n (zip (names r) (types r)) = Some t.
Proof.
  unfold rule_ok. rewrite !andb_true_iff. intros [[[[[[Hl%Nat.leb_le _] _] _] _] _] Hf] Hj.
  assert (is_Some (types r !! j)) as [t Ht].
  { apply lookup_lt_is_Some. apply lookup_lt_Some in Hj. lia. }
  exists t. split; [done|]. rewrite forallb_forall in Hf.
  assert (zip (names r) (types r) !! j = Some (n, t)) as Hz.
  { apply lookup_zip_with_Some. by exists n, t. }
  apply list_elem_of_lookup_2, list_elem_of_In in Hz. specialize (Hf _ Hz). by apply bool_decide_eq_true in Hf.
Qed.

Lemma rule_ok_schema r k sh :
  rule_ok r = true -> In (k, sh) (rule_shapes r) -> assoc k schema = Some sh.
Proof.
  unfold rule_ok. rewrite !andb_true_iff. intros [[_ Hf] _] Hin.
  rewrite forallb_forall in Hf. specialize (Hf _ Hin). by apply bool_decide_eq_true in Hf.
Qed.

Lemma attach_struct_ok r m o :
  rule_ok r = true -> is_nil (names r) = false ->
  forallb (member_ok (zip (names r) (types r))) o = true ->
  exists o', attachProperties m (S (groups (reg r))) (JObject o) (names r) (name r) (types r)
             = Ok (JObject o') /\ forallb (member_ok (zip (names r) (types r))) o' = true.
Proof.
  intros Hr Hn Ho. unfold attachProperties. rewrite Hn, andb_false_r.
  destruct (attach_names_ok (member_ok (zip (names r) (types r))) m (S (groups (reg r)))
              (names r) (types r) 0 o Ho) as (o' & E & Ho' & _); [|by exists o'].
  intros j n Hj. destruct (rule_ok_types r j n Hr Hj) as (t & Ht & Ha). exists t. split; [done|].
  intros v Hv. unfold member_ok. simpl. by rewrite Ha.
Qed.

(** ** Lines

    What one line does to the location, for the four kinds of rules. *)

Definition keeps (o o' : object) : Prop := forall k, obj_mem k o = true -> obj_mem k o' = true.

Lemma keeps_set k v o : keeps o (obj_set k v o).
Proof. intros k' H. by apply obj_mem_set. Qed.

Lemma keeps_trans o1 o2 o3 : keeps o1 o2 -> keeps o2 o3 -> keeps o1 o3.
Proof. intros H1 H2 k H. by apply H2, H1. Qed.

#[local] Hint Resolve keeps_set keeps_trans : core.

Definition line_ok (o : object) (r : res json) : Prop :=
  exists o', r = Ok (JObject o') /\ forallb entry_ok o' = true /\ keeps o o'.

(** The key a rule fills in, created if it is not there. *)
Lemma ensured k sh d o :
  assoc k schema = Some sh -> shape_ok sh d = true -> forallb entry_ok o = true ->
  exists o1 v, (if negb (jcontains (JObject o) k) then jset (JObject o) k d else Ok (JObject o))
               = Ok (JObject o1) /\ forallb entry_ok o1 = true /\ obj_get k o1 = Some v /\
    shape_ok sh v = true /\ keeps o o1.
Proof.
  intros Hk Hd Ho. unfold jcontains, jfind. destruct (obj_get k o) as [v|] eqn:E; cbn [negb].
  - pose proof (forallb_get _ _ _ _ Ho E) as H. unfold entry_ok in H. cbn [fst snd] in H. rewrite Hk in H.
    exists o, v. unfold keeps. naive_solver.
  - eexists _, d. cbn [jset]. split; [done|]. split; [|split; [apply obj_get_set_eq|auto]].
    apply forallb_set; [done|]. unfold entry_ok. cbn [fst snd]. by rewrite Hk.
Qed.

Lemma set_entry_ok k sh v o :
  assoc k schema = Some sh -> shape_ok sh v = true -> forallb entry_ok o = true ->
  line_ok o (jset (JObject o) k v).
Proof.
  intros Hk Hv Ho. eexists. split; [done|]. split; [|auto]. apply forallb_set; [done|].
  unfold entry_ok. cbn [fst snd]. by rewrite Hk.
Qed.

Section Lines.
Context (r : Rule) (m : captures) (o : object) (Hr : rule_ok r = true) (Ho : forallb entry_ok o = true).

Lemma media_line_ok :
  str_empty (push r) = true -> str_empty (name r) = true -> is_nil (names r) = false ->
  line_ok o (parseReg r m (JObject o)).
Proof.
  intros Ep En Enn. unfold parseReg, attachProperties. cbv zeta. rewrite Ep, En, Enn. cbn [negb andb bind].
  apply attach_names_ok; [done|]. intros j n Hj. destruct (rule_ok_types r j n Hr Hj) as (t & Hj' & _).
  exists t. split; [done|]. intros v Hv. unfold entry_ok. cbn [fst snd].
  rewrite (rule_ok_schema r n (Single t) Hr); [done|].
  unfold rule_shapes. rewrite Ep, En, Enn. cbn [negb]. apply in_map_iff. exists (n, t). split; [done|].
  apply list_elem_of_In, list_elem_of_lookup. exists j. apply lookup_zip_with_Some. by exists n, t.
Qed.

Lemma single_line_ok :
  str_empty (push r) = true -> str_empty (name r) = false -> is_nil (names r) = true ->
  line_ok o (parseReg r m (JObject o)).
Proof.
  intros Ep En Enn. unfold parseReg, attachProperties. cbv zeta. rewrite Ep, En, Enn. cbn [negb andb bind].
  destruct (types r) as [|t ts] eqn:Et.
  { pose proof Hr as H. unfold rule_ok in H. by rewrite Et, !andb_false_r in H. }
  apply (set_entry_ok _ (Single t)); [|by apply toType_typed|done].
  apply (rule_ok_schema r); [done|]. unfold rule_shapes. rewrite Ep, Enn, Et. by left.
Qed.

Lemma struct_line_ok :
  str_empty (push r) = true -> str_empty (name r) = false -> is_nil (names r) = false ->
  line_ok o (parseReg r m (JObject o)).
Proof.
  intros Ep En Enn. unfold parseReg. cbv zeta. rewrite Ep, En, Enn. cbn [negb andb].
  assert (assoc (name r) schema = Some (Struct (zip (names r) (types r)))) as Hk.
  { apply (rule_ok_schema r); [done|]. unfold rule_shapes. rewrite Ep, Enn, En. by left. }
  destruct (ensured _ _ (JObject []) o Hk eq_refl Ho) as (o1 & inner & -> & Ho1 & Hg & Hs & Hk1).
  cbn [bind]. unfold jref. rewrite Hg. cbn [bind]. destruct inner as [| | | | | | |io]; try done.
  destruct (attach_struct_ok r m io Hr Enn Hs) as (io' & -> & Hio'). cbn [bind].
  destruct (set_entry_ok _ _ (JObject io') o1 Hk Hio' Ho1) as (o2 & -> & Ho2 & Hk2).
  exists o2. eauto.
Qed.

Lemma row_line_ok :
  str_empty (push r) = false -> str_empty (name r) = true -> is_nil (names r) = false ->
  line_ok o (parseReg r m (JObject o)).
Proof.
  intros Ep En Enn. unfold parseReg. cbv zeta. rewrite Ep, En, Enn. cbn [negb andb].
  assert (assoc (push r) schema = Some (Rows (zip (names r) (types r)))) as Hk.
  { apply (rule_ok_schema r); [done|]. unfold rule_shapes. rewrite Ep. by left. }
  destruct (ensured _ _ (JArray []) o Hk eq_refl Ho) as (o1 & rows & -> & Ho1 & Hg & Hs & Hk1).
  cbn [bind]. destruct (attach_struct_ok r m [] Hr Enn eq_refl) as (row & -> & Hrow). cbn [bind].
  unfold jref. rewrite Hg. cbn [bind]. destruct rows as [| | | | | |l|]; try done. cbn [jpush bind].
  destruct (set_entry_ok _ _ (JArray (l ++ [JObject row])) o1 Hk) as (o2 & -> & Ho2 & Hk2); [|done|exists o2; eauto].
  simpl in Hs |- *. rewrite forallb_app, Hs. simpl. by rewrite Hrow.
Qed.

Lemma parseReg_ok : line_ok o (parseReg r m (JObject o)).
Proof.
  pose proof Hr as H. unfold rule_ok in H. rewrite !andb_true_iff in H. destruct H as [[[[_ Hn] Hp] _] _].
  destruct (str_empty (push r)) eqn:Ep, (str_empty (name r)) eqn:En, (is_nil (names r)) eqn:Enn; try done.
  - by apply media_line_ok.
  - by apply single_line_ok.
  - by apply struct_line_ok.
  - by apply row_line_ok.
Qed.
End Lines.

Lemma apply_rules_ok rules content o :
  forallb rule_ok rules = true -> forallb entry_ok o = true ->
  line_ok o (apply_rules rules content (JObject o)).
Proof.
  intros Hr Ho. induction rules as [|r rules IH]; cbn [apply_rules].
  - exists o. unfold keeps. naive_solver.
  - cbn [forallb] in Hr. apply andb_true_iff in Hr as [H1 H2].
    destruct (regex_search (reg r) content) as [m|]; [by apply parseReg_ok|by apply IH].
Qed.

Lemma rulesMap_ok c rules : rulesMap c = Some rules -> forallb rule_ok rules = true.
Proof.
  intros H. apply forallb_forall. intros r Hin.
  refine (proj1 (forallb_forall _ _) rules_ok r _). unfold all_rules. apply in_concat. exists rules.
  split; [|done]. apply in_map_iff. exists c. rewrite H. split; [done|].
  revert H. unfold rulesMap, line_types. destruct c as [[] [] [] [] [] [] [] []]; intros [= <-]; simpl; tauto.
Qed.

(** ** Sessions *)

Definition parser_ok (p : parser) : Prop :=
  location_ok (session p) = true /\ forallb media_ok (media_of p) = true.

Lemma media_of_some p m : current p = Some m -> media_of p = earlier p ++ [m].
Proof. unfold media_of. by intros ->. Qed.

Lemma parse_line_ok p line : parser_ok p -> exists p', parse_line p line = Ok p' /\ parser_ok p'.
Proof.
  intros Hp. unfold parse_line. destruct (regex_search ValidLineRegex (drop_cr line)); [|by exists p].
  destruct (drop_cr line) as [|type rest]; [by exists p|]. cbv zeta.
  set (p1 := if Ascii.eqb type "m" then _ else p).
  assert (parser_ok p1) as Hp1.
  { unfold p1. destruct (Ascii.eqb type "m"); [|done]. destruct Hp as [Hs Hm]. split; [done|].
    rewrite (media_of_some (Parser (session p) (media_of p) (Some new_media)) new_media eq_refl).
    cbn [earlier]. rewrite forallb_app, Hm. reflexivity. }
  clearbody p1. destruct (rulesMap type) as [rules|] eqn:Er; [|by exists p1].
  apply rulesMap_ok in Er. destruct Hp1 as [Hs Hm]. unfold at_location.
  destruct (current p1) as [m|] eqn:Ec.
  - rewrite (media_of_some _ _ Ec), forallb_app in Hm. apply andb_true_iff in Hm as [He Hm].
    cbn [forallb] in Hm. unfold media_ok in Hm. rewrite !andb_true_iff in Hm. destruct Hm as [[[Hl Hr] Hf] _].
    destruct m as [| | | | | | |o]; try done.
    destruct (apply_rules_ok rules (String.substring 1 (String.length rest) rest) o Er Hl)
      as (o' & -> & Ho' & Hk). cbn [bind]. eexists. split; [done|]. split; [done|].
    unfold media_of. cbn [earlier current]. rewrite forallb_app, He.
    change (media_ok (JObject o') && true = true). unfold media_ok. rewrite !andb_true_iff.
    repeat split; [exact Ho'|..]; by apply Hk.
  - destruct (session p1) as [| | | | | | |o] eqn:Es; try done.
    destruct (apply_rules_ok rules (String.substring 1 (String.length rest) rest) o Er Hs)
      as (o' & -> & Ho' & _). cbn [bind]. eexists. split; [done|]. split; [done|].
    unfold media_of in *. cbn [earlier current]. by rewrite Ec in Hm.
Qed.

Lemma obj_del_insert k v o : obj_get k o = None -> obj_del k (obj_insert k v o) = o.
Proof.
  induction o as [|[k' v'] o IH]; cbn [obj_insert obj_get].
  { intros _. unfold obj_del. simpl. by rewrite String.eqb_refl. }
  destruct (String.eqb k k') eqn:E; [done|]. intros H.
  assert (obj_del k ((k', v') :: o) = (k', v') :: obj_del k o) as Hd.
  { unfold obj_del. simpl. by rewrite E. }
  destruct (String.ltb k k').
  - transitivity (obj_del k ((k', v') :: o)).
    + unfold obj_del. cbn [List.filter fst]. by rewrite String.eqb_refl.
    + rewrite Hd. f_equal. by apply obj_del_id.
  - transitivity ((k', v') :: obj_del k (obj_insert k v o)).
    + unfold obj_del. cbn [List.filter fst]. by rewrite E.
    + by rewrite IH.
Qed.

(** C33. [sdptransform::parse] returns on every text, and the session it
    returns is well typed by the grammar: every key is one of a rule, holds a
    value, an object or an array of objects as the rule says, and every member
    of these is a string, a 64-bit integer or a double as the rule's types say;
    each media section has its [rtp] and [fmtp] arrays.  No text makes it
    throw or read out of bounds. *)
Theorem parse_total_and_typed sdp : exists session, parse sdp = Ok session /\ session_ok session = true.
Proof.
  unfold parse.
  destruct (post_total (for_fold parse_line (Parser (JObject []) [] None) (getlines "010" sdp)) parser_ok)
    as (p & -> & Hs & Hm).
  { apply (for_fold_post _ _ (fun _ => True)); [by apply Forall_true| |done].
    intros p line Hp _. by destruct (parse_line_ok p line Hp) as (p' & -> & Hp'). }
  cbn [bind]. destruct (session p) as [| | | | | | |o]; try done. eexists. split; [done|].
  assert (obj_get "media" o = None) as Hn.
  { destruct (obj_get "media" o) as [v|] eqn:E; [|done].
    pose proof (forallb_get _ _ _ _ Hs E) as H. vm_compute in H. done. }
  unfold session_ok, jfind. rewrite obj_get_set_eq, Hm, andb_true_r.
  unfold obj_set, obj_mem. rewrite Hn, obj_del_insert; done.
Qed.
