(* ===== verification/MediaSection.v ===== *)
(** The media sections of the remote SDP: src/sdp/MediaSection.cpp of
    libmediasoupclient.

    A section is its class (answer or offer) and its [mediaObject].  The
    constructors are translated whole; the arguments they take by non-const
    reference are returned with the insertions [operator[]] makes. *)

From Stdlib Require Import ZArith Lia SpecFloat Ascii.
From stdpp Require Import pretty.
From S2P Require Import Prelude Json OrtcValidate Ortc.

(** ** Output streams

    [config << value] for a [float]: six significant digits in the shorter of
    the two notations, as [%g] prints them. *)

(** [static_cast<float>]: rounding to nearest, to infinity beyond the range. *)
Definition to_float (f : spec_float) : spec_float :=
  match f with
  | S754_finite s m e => binary_normalize 24 128 (if s then Zneg m else Zpos m) e s
  | _ => f
  end.

(** The decimal exponent of [num / den > 0], searched from [x] upwards or
    downwards; a float has at most 39 digits on either side. *)
Fixpoint exponent_up (fuel : nat) (num den x : Z) : Z :=
  match fuel with
  | O => x
  | S fuel => if num <? den * 10 then x else exponent_up fuel num (den * 10) (x + 1)
  end.

Fixpoint exponent_down (fuel : nat) (num den x : Z) : Z :=
  match fuel with
  | O => x
  | S fuel => if den <=? num then x else exponent_down fuel (num * 10) den (x - 1)
  end.

Definition decimal_exponent (num den : Z) : Z :=
  if den <=? num then exponent_up 60 num den 0 else exponent_down 60 num den 0.

Definition round_half_even (num den : Z) : Z :=
  let q := num / den in
  let r := 2 * (num `mod` den) in
  if (r <? den) || ((r =? den) && Z.even q) then q else q + 1.

(** [d * 10^(-p)] without trailing zeros in the fraction. *)
Fixpoint strip_zeros (p : nat) (d : Z) : nat * Z :=
  match p with
  | O => (O, d)
  | S p' => if d `mod` 10 =? 0 then strip_zeros p' (d / 10) else (p, d)
  end.

Fixpoint zeros (n : nat) : string :=
  match n with O => "" | S n => String "0"%char (zeros n) end.

Definition padded (width : nat) (z : Z) : string :=
  let s := pretty z in zeros (width - String.length s) +:+ s.

Definition show_fixed (p : nat) (d : Z) : string :=
  let '(p, d) := strip_zeros p d in
  let whole := pretty (d / 10 ^ Z.of_nat p) in
  match p with
  | O => whole
  | _ => whole +:+ "." +:+ padded p (d `mod` 10 ^ Z.of_nat p)
  end.

Definition show_exponent (x : Z) : string :=
  "e" +:+ (if x <? 0 then "-" else "+") +:+ padded 2 (Z.abs x).

Definition show_float (f : spec_float) : string :=
  match to_float f with
  | S754_zero s => if s then "-0" else "0"
  | S754_infinity s => if s then "-inf" else "inf"
  | S754_nan => "nan"
  | S754_finite s m e =>
      let num := if 0 <=? e then Zpos m * 2 ^ e else Zpos m in
      let den := if 0 <=? e then 1 else 2 ^ (- e) in
      let x := decimal_exponent num den in
      let d := if x <=? 5 then round_half_even (num * 10 ^ (5 - x)) den
               else round_half_even num (den * 10 ^ (x - 5)) in
      let '(d, x) := if d =? 10 ^ 6 then (10 ^ 5, x + 1) else (d, x) in
      (if s then "-" else "") +:+
      (if (-4 <=? x) && (x <=? 5) then show_fixed (Z.to_nat (5 - x)) d
       else show_fixed 5 d +:+ show_exponent x)
  end.

Example show_float_examples :
  (* 0.5, 100000, 1e+06, 0.1, 1.5e-05, 123457, -2.25 *)
  map show_float
    [S754_finite false 4503599627370496 (-53); double_of_Z 100000; double_of_Z 1000000;
     S754_finite false 7205759403792794 (-56); S754_finite false 8854437155380585 (-69);
     S754_finite false 8483885939586761 (-36); S754_finite true 5066549580791808 (-51)]
  = ["0.5"; "100000"; "1e+06"; "0.1"; "1.5e-05"; "123457"; "-2.25"].
Proof. vm_compute. reflexivity. Qed.

(** ** JSON helpers *)

(** [j[k].push_back(v)] *)
Definition jpush_at (j : json) (k : string) (v : json) : res json :=
  let* (j, a) := jref j k in
  let* a := jpush a v in
  jset j k a.

(** [j.items()] *)
Definition jitems (j : json) : list (string * json) :=
  match j with
  | JNull => []
  | JArray l => imap (fun i v => (to_string (Z.of_nat i), v)) l
  | JObject o => o
  | _ => [("", j)]
  end.

(** The container after a range-based [for] whose body changed the elements
    to [l]. *)
Definition jreplace (j : json) (l : list json) : json :=
  match j with
  | JArray _ => JArray l
  | JObject o => JObject (zip (fst <$> o) l)
  | JNull => JNull
  | _ => match l with v :: _ => v | [] => j end
  end.

(** [if (it != end) { auto x = it->get<T>(); body }] *)
Definition if_found {A S : Type} (j : json) (k : string) (get : json -> res A)
    (body : S -> A -> res S) (s : S) : res S :=
  match jfind j k with
  | None => Ok s
  | Some v => let* x := get v in body s x
  end.

(** ** The base class *)

Inductive section_class : Set := Answer | Offer.

Record MediaSection : Type := Section_ {
  class_of : section_class;
  mediaObject : json
}.

Definition SetIceParameters (mediaObject iceParameters : json) : res json :=
  let* ufrag := jat iceParameters "usernameFragment" in
  let* mediaObject := jset mediaObject "iceUfrag" ufrag in
  let* pwd := jat iceParameters "password" in
  jset mediaObject "icePwd" pwd.

Definition candidate_object (candidate : json) : res json :=
  let c := JObject [] in
  let* c := jset c "component" (JInt 1) in
  let* v := jat candidate "foundation" in let* c := jset c "foundation" v in
  let* v := jat candidate "ip" in let* c := jset c "ip" v in
  let* v := jat candidate "port" in let* c := jset c "port" v in
  let* v := jat candidate "priority" in let* c := jset c "priority" v in
  let* v := jat candidate "protocol" in let* c := jset c "transport" v in
  let* v := jat candidate "type" in let* c := jset c "type" v in
  match jfind candidate "tcpType" with
  | Some v => jset c "tcptype" v
  | None => Ok c
  end.

Definition MediaSection_init (iceParameters iceCandidates : json) : res json :=
  let* mo := SetIceParameters (JObject []) iceParameters in
  let* mo := jset mo "candidates" (JArray []) in
  let* mo := for_fold (fun mo candidate =>
      let* c := candidate_object candidate in
      jpush_at mo "candidates" c) mo (jiter iceCandidates) in
  let* mo := jset mo "endOfCandidates" (JString "end-of-candidates") in
  jset mo "iceOptions" (JString "renomination").

Definition GetMid (s : MediaSection) : res string :=
  let* mid := jat (mediaObject s) "mid" in get_string mid.

Definition IsClosed (s : MediaSection) : res bool :=
  let* port := jat (mediaObject s) "port" in Ok (json_eqb port (JInt 0)).

Definition GetObject (s : MediaSection) : json := mediaObject s.

Definition erase_all (mo : json) (keys : list string) : res json := for_fold jerase mo keys.

Definition Disable (s : MediaSection) : res MediaSection :=
  let* mo := jset (mediaObject s) "direction" (JString "inactive") in
  let* mo := erase_all mo ["ext"; "ssrcs"; "ssrcGroups"; "simulcast"; "rids"] in
  Ok (Section_ (class_of s) mo).

Definition Close (s : MediaSection) : res MediaSection :=
  let* mo := jset (mediaObject s) "direction" (JString "inactive") in
  let* mo := jset mo "port" (JInt 0) in
  let* mo := erase_all mo ["ext"; "ssrcs"; "ssrcGroups"; "simulcast"; "rids"; "extmapAllowMixed"] in
  Ok (Section_ (class_of s) mo).

(** The [setup] attribute of a DTLS role. *)
Definition set_setup (mo : json) (role : string) : res json :=
  if String.eqb role "client" then jset mo "setup" (JString "active")
  else if String.eqb role "server" then jset mo "setup" (JString "passive")
  else if String.eqb role "auto" then jset mo "setup" (JString "actpass")
  else Ok mo.

(** The virtual [SetDtlsRole]; an offer always says [actpass]. *)
Definition SetDtlsRole (s : MediaSection) (role : string) : res MediaSection :=
  let* mo := match class_of s with
             | Answer => set_setup (mediaObject s) role
             | Offer => jset (mediaObject s) "setup" (JString "actpass")
             end in
  Ok (Section_ (class_of s) mo).

(** ** Codecs *)

(** [regex_replace(mimeType, "^(audio|video)/", "")], ignoring case. *)
Definition getCodecName (codec : json) : res string :=
  let* m := jat codec "mimeType" in
  let* mimeType := get_string m in
  Ok (if word_match ["audio/"; "video/"] (String.substring 0 6 mimeType)
      then String.substring 6 (String.length mimeType - 6) mimeType
      else mimeType).

(** The [config] string of a codec's [fmtp]. *)
Definition add_config (config : string) (item : string * json) : res string :=
  let '(key, value) := item in
  let config := if str_empty config then config else config +:+ ";" in
  let config := config +:+ key +:+ "=" in
  if is_string value then let* s := get_string value in Ok (config +:+ s)
  else match value with
       | JFloat f => Ok (config +:+ show_float f)
       | _ => if is_number value then let* z := get_int64 value in Ok (config +:+ to_string z)
              else Ok config
       end.

Definition codec_config (codecParameters : json) : res string :=
  for_fold add_config "" (jitems codecParameters).

Definition add_fmtp (mo payload codecParameters : json) : res json :=
  let* config := codec_config codecParameters in
  if str_empty config then Ok mo
  else jpush_at mo "fmtp" (JObj [("payload", payload); ("config", JString config)]).

(** The [encoding] field for more than one channel. *)
Definition add_channels (codec rtp : json) : res json :=
  match jfind codec "channels" with
  | None => Ok rtp
  | Some c =>
      let* channels := get_uint8 c in
      if channels >? 1 then jset rtp "encoding" (JUint channels) else Ok rtp
  end.

(** The payload types of the codecs, separated by spaces. *)
Definition add_payload (payloads : string) (payloadType : json) : res string :=
  let* pt := get_uint8 payloadType in
  let payloads := if str_empty payloads then payloads else payloads +:+ " " in
  Ok (payloads +:+ to_string pt).

Definition connection_object : json := JObj [("ip", JString "127.0.0.1"); ("version", JInt 4)].

(** ** AnswerMediaSection *)

(** [offerCodec["parameters"][k] = v] *)
Definition set_parameter (codec : json) (k : string) (v : json) : res json :=
  let* (codec, parameters) := jref codec "parameters" in
  let* parameters := jset parameters k v in
  jset codec "parameters" parameters.

(** A boolean Opus option: it goes into the codec of the offer and into the
    parameters of the answer. *)
Definition opus_flag (codecOptions : json) (option offerKey answerKey : string)
    (st : json * json) : res (json * json) :=
  if_found codecOptions option get_bool (fun st b =>
      let '(offerCodec, codecParameters) := st in
      let v := JInt (Z.b2z b) in
      let* offerCodec := set_parameter offerCodec offerKey v in
      let* codecParameters := jset codecParameters answerKey v in
      Ok (offerCodec, codecParameters)) st.

(** A numeric option: it goes into the parameters of the answer only. *)
Definition numeric_option (codecOptions : json) (option key : string) (st : json * json)
    : res (json * json) :=
  if_found codecOptions option get_uint32 (fun st z =>
      let '(offerCodec, codecParameters) := st in
      let* codecParameters := jset codecParameters key (JUint z) in
      Ok (offerCodec, codecParameters)) st.

Definition is_google_video (mimeType : string) : bool :=
  String.eqb mimeType "video/vp8" || String.eqb mimeType "video/vp9" ||
  String.eqb mimeType "video/h264" || String.eqb mimeType "video/h265".

(** The codec options applied to one codec of the answer: the offer's codec and
    the answer's parameters afterwards. *)
Definition apply_codec_options (codecOptions : json) (mimeType : string) (st : json * json)
    : res (json * json) :=
  if String.eqb mimeType "audio/opus" then
    let* st := opus_flag codecOptions "opusStereo" "sprop-stereo" "stereo" st in
    let* st := opus_flag codecOptions "opusFec" "useinbandfec" "useinbandfec" st in
    let* st := opus_flag codecOptions "opusDtx" "usedtx" "usedtx" st in
    let* st := opus_flag codecOptions "opusCbr" "cbr" "cbr" st in
    let* st := numeric_option codecOptions "opusMaxPlaybackRate" "maxplaybackrate" st in
    let* st := numeric_option codecOptions "opusMaxAverageBitrate" "maxaveragebitrate" st in
    numeric_option codecOptions "opusPtime" "ptime" st
  else if is_google_video mimeType then
    let* st := numeric_option codecOptions "videoGoogleStartBitrate" "x-google-start-bitrate" st in
    let* st := numeric_option codecOptions "videoGoogleMaxBitrate" "x-google-max-bitrate" st in
    numeric_option codecOptions "videoGoogleMinBitrate" "x-google-min-bitrate" st
  else Ok st.

(** The search for the codec of the offer, [operator[]] inserting the payload
    type into the codecs that lack it; the end iterator is dereferenced. *)
Fixpoint find_offer_codec (payloadType : json) (codecs : list json)
    : res (list json * json * list json) :=
  match codecs with
  | [] => Undef UbDeref
  | offerCodec :: codecs =>
      let* (offerCodec, pt) := jref offerCodec "payloadType" in
      if json_eqb pt payloadType then Ok ([], offerCodec, codecs)
      else
        let* (before, found, after) := find_offer_codec payloadType codecs in
        Ok (offerCodec :: before, found, after)
  end.

(** [codecOptions]: the offer's parameters and the answer's codec parameters. *)
Definition with_codec_options (codecOptions : option json) (offerRtpParameters codec : json)
    (payloadType codecParameters : json) : res (json * json) :=
  match codecOptions with
  | None => Ok (offerRtpParameters, codecParameters)
  | Some options =>
      if jempty options then Ok (offerRtpParameters, codecParameters)
      else
        let* (offerRtpParameters, offerCodecs) := jref offerRtpParameters "codecs" in
        let* (before, offerCodec, after) := find_offer_codec payloadType (jiter offerCodecs) in
        let* m := jget codec "mimeType" in
        let* mimeType := get_string m in
        let* (offerCodec, codecParameters) :=
          apply_codec_options options (str_lower mimeType) (offerCodec, codecParameters) in
        let* offerRtpParameters :=
          jset offerRtpParameters "codecs" (jreplace offerCodecs (before ++ offerCodec :: after)) in
        Ok (offerRtpParameters, codecParameters)
  end.

Definition feedback_object (payload type subtype : json) : json :=
  JObj [("payload", payload); ("type", type); ("subtype", subtype)].

Definition answer_feedback (payload : json) (st : json * list json) (fb : json)
    : res (json * list json) :=
  let '(mo, fbs) := st in
  let* (fb, type) := jref fb "type" in
  let* (fb, parameter) := jref fb "parameter" in
  let* mo := jpush_at mo "rtcpFb" (feedback_object payload type parameter) in
  Ok (mo, fbs ++ [fb]).

(** One codec of the answer: the media object, the offer's parameters and the
    codecs of the answer seen so far. *)
Definition answer_codec (codecOptions : option json) (st : json * json * list json) (codec : json)
    : res (json * json * list json) :=
  let '(mo, offer, codecs) := st in
  let* (codec, payload) := jref codec "payloadType" in
  let* name := getCodecName codec in
  let* (codec, rate) := jref codec "clockRate" in
  let* rtp := add_channels codec
    (JObj [("payload", payload); ("codec", JString name); ("rate", rate)]) in
  let* mo := jpush_at mo "rtp" rtp in
  let* (codec, codecParameters) := jref codec "parameters" in
  let* (offer, codecParameters) :=
    with_codec_options codecOptions offer codec payload codecParameters in
  let* mo := add_fmtp mo payload codecParameters in
  let* (codec, rtcpFeedback) := jref codec "rtcpFeedback" in
  let* (mo, fbs) := for_fold (answer_feedback payload) (mo, []) (jiter rtcpFeedback) in
  let* codec := jset codec "rtcpFeedback" (jreplace rtcpFeedback fbs) in
  Ok (mo, offer, codecs ++ [codec]).

(** A header extension of the answer, if the offer has it. *)
Definition answer_extension (offerMediaObject : json) (st : json * list json) (ext : json)
    : res (json * list json) :=
  let '(mo, exts) := st in
  let* localExts := jat offerMediaObject "ext" in
  let* (ext, localExt) := match jiter localExts with
    | [] => Ok (ext, None)
    | _ =>
        let* (ext, uri) := jref ext "uri" in
        let* it := find_if (fun localExt =>
            let* u := jat localExt "uri" in Ok (json_eqb u uri)) (jiter localExts) in
        Ok (ext, it)
    end in
  match localExt with
  | None => Ok (mo, exts ++ [ext])
  | Some _ =>
      let* (ext, uri) := jref ext "uri" in
      let* (ext, id) := jref ext "id" in
      let* mo := jpush_at mo "ext" (JObj [("uri", uri); ("value", id)]) in
      Ok (mo, exts ++ [ext])
  end.

(** Simulcast; [ridsIt] is dereferenced without a check. *)
Definition answer_simulcast (offerMediaObject mo : json) : res json :=
  match jfind offerMediaObject "simulcast" with
  | Some (JObject _ as simulcast) =>
      match jfind offerMediaObject "rids" with
      | None => Undef UbDeref
      | Some (JArray rids) =>
          let* list1 := jat simulcast "list1" in
          let* mo := jset mo "simulcast" (JObj [("dir1", JString "recv"); ("list1", list1)]) in
          let* mo := jset mo "rids" (JArray []) in
          for_fold (fun mo rid =>
              let* direction := jat rid "direction" in
              if negb (json_eqb direction (JString "send")) then Ok mo
              else
                let* id := jat rid "id" in
                jpush_at mo "rids" (JObj [("id", id); ("direction", JString "recv")])) mo rids
      | Some _ => Ok mo
      end
  | _ => Ok mo
  end.

Definition set_rtcp (mo : json) : res json :=
  let* mo := jset mo "rtcpMux" (JString "rtcp-mux") in
  jset mo "rtcpRsize" (JString "rtcp-rsize").

Definition set_sctp (mo sctpParameters : json) : res json :=
  let* mo := jset mo "payloads" (JString "webrtc-datachannel") in
  let* port := jat sctpParameters "port" in
  let* mo := jset mo "sctpPort" port in
  let* maxMessageSize := jat sctpParameters "maxMessageSize" in
  jset mo "maxMessageSize" maxMessageSize.

(** The audio or video part of the answer's constructor. *)
Definition answer_media (offerMediaObject offerRtpParameters answerRtpParameters : json)
    (codecOptions : option json) (mo : json) : res (json * json * json) :=
  let* mo := jset mo "direction" (JString "recvonly") in
  let* mo := jset mo "rtp" (JArray []) in
  let* mo := jset mo "rtcpFb" (JArray []) in
  let* mo := jset mo "fmtp" (JArray []) in
  let* (answer, codecs) := jref answerRtpParameters "codecs" in
  let* (mo, offer, codecs') :=
    for_fold (answer_codec codecOptions) (mo, offerRtpParameters, []) (jiter codecs) in
  let* answer := jset answer "codecs" (jreplace codecs codecs') in
  let* payloads := for_fold (fun payloads codec =>
      let* pt := jget codec "payloadType" in add_payload payloads pt) "" codecs' in
  let* mo := jset mo "payloads" (JString payloads) in
  let* mo := jset mo "ext" (JArray []) in
  let* (answer, exts) := jref answer "headerExtensions" in
  let* (mo, exts') := for_fold (answer_extension offerMediaObject) (mo, []) (jiter exts) in
  let* answer := jset answer "headerExtensions" (jreplace exts exts') in
  let* mo := if opt_is is_string (jfind offerMediaObject "extmapAllowMixed")
             then jset mo "extmapAllowMixed" (JString "extmap-allow-mixed") else Ok mo in
  let* mo := answer_simulcast offerMediaObject mo in
  let* mo := set_rtcp mo in
  Ok (mo, offer, answer).

(** The section, and the offer's and the answer's parameters afterwards. *)
Definition AnswerMediaSection (iceParameters iceCandidates dtlsParameters sctpParameters : json)
    (offerMediaObject offerRtpParameters answerRtpParameters : json) (codecOptions : option json)
    : res (MediaSection * json * json) :=
  let* mo := MediaSection_init iceParameters iceCandidates in
  let* t := jat offerMediaObject "type" in
  let* type := get_string t in
  let* mid := jat offerMediaObject "mid" in
  let* mo := jset mo "mid" mid in
  let* mo := jset mo "type" (JString type) in
  let* protocol := jat offerMediaObject "protocol" in
  let* mo := jset mo "protocol" protocol in
  let* mo := jset mo "connection" connection_object in
  let* mo := jset mo "port" (JInt 7) in
  let* r := jat dtlsParameters "role" in
  let* dtlsRole := get_string r in
  let* mo := set_setup mo dtlsRole in
  let* (mo, offer, answer) :=
    if String.eqb type "audio" || String.eqb type "video" then
      answer_media offerMediaObject offerRtpParameters answerRtpParameters codecOptions mo
    else if String.eqb type "application" then
      let* mo := set_sctp mo sctpParameters in
      Ok (mo, offerRtpParameters, answerRtpParameters)
    else Ok (mo, offerRtpParameters, answerRtpParameters) in
  Ok (Section_ Answer mo, offer, answer).

(** ** OfferMediaSection *)

Definition offer_feedback (payload mo fb : json) : res json :=
  let* type := jat fb "type" in
  let* parameter := jat fb "parameter" in
  jpush_at mo "rtcpFb" (feedback_object payload type parameter).

Definition offer_codec (mo codec : json) : res json :=
  let* payload := jat codec "payloadType" in
  let* name := getCodecName codec in
  let* rate := jat codec "clockRate" in
  let* rtp := add_channels codec
    (JObj [("payload", payload); ("codec", JString name); ("rate", rate)]) in
  let* mo := jpush_at mo "rtp" rtp in
  let* codecParameters := jat codec "parameters" in
  let* mo := add_fmtp mo payload codecParameters in
  let* rtcpFeedback := jat codec "rtcpFeedback" in
  for_fold (offer_feedback payload) mo (jiter rtcpFeedback).

Definition ssrc_object (id : Z) (attribute value : string) : json :=
  JObj [("id", JUint id); ("attribute", JString attribute); ("value", JString value)].

(** The [ssrcs] and [ssrcGroups] of the first encoding. *)
Definition offer_ssrcs (mo offerRtpParameters : json) (streamId trackId : string) : res json :=
  let* encodings := jat offerRtpParameters "encodings" in
  let* encoding := jidx encodings 0 in
  let* s := jat encoding "ssrc" in
  let* ssrc := get_uint32 s in
  let* rtxSsrc :=
    match jfind encoding "rtx" with
    | Some rtx => match jfind rtx "ssrc" with
                  | Some s => get_uint32 s
                  | None => Ok 0
                  end
    | None => Ok 0
    end in
  let* mo := jset mo "ssrcs" (JArray []) in
  let* mo := jset mo "ssrcGroups" (JArray []) in
  let* rtcp := jat offerRtpParameters "rtcp" in
  match jfind rtcp "cname" with
  | Some (JString cname) =>
      let msid := streamId +:+ " " +:+ trackId in
      let* mo := jpush_at mo "ssrcs" (ssrc_object ssrc "cname" cname) in
      let* mo := jpush_at mo "ssrcs" (ssrc_object ssrc "msid" msid) in
      if negb (rtxSsrc =? 0) then
        let ssrcs := to_string ssrc +:+ " " +:+ to_string rtxSsrc in
        let* mo := jpush_at mo "ssrcs" (ssrc_object rtxSsrc "cname" cname) in
        let* mo := jpush_at mo "ssrcs" (ssrc_object rtxSsrc "msid" msid) in
        jpush_at mo "ssrcGroups" (JObj [("semantics", JString "FID"); ("ssrcs", JString ssrcs)])
      else Ok mo
  | _ => Ok mo
  end.

Definition offer_extension (mo ext : json) : res json :=
  let* uri := jat ext "uri" in
  let* id := jat ext "id" in
  jpush_at mo "ext" (JObj [("uri", uri); ("value", id)]).

(** The audio or video part of the offer's constructor. *)
Definition offer_media (offerRtpParameters : json) (streamId trackId : string) (mo : json) : res json :=
  let* mo := jset mo "direction" (JString "sendonly") in
  let* mo := jset mo "rtp" (JArray []) in
  let* mo := jset mo "rtcpFb" (JArray []) in
  let* mo := jset mo "fmtp" (JArray []) in
  let* codecs := jat offerRtpParameters "codecs" in
  let* mo := for_fold offer_codec mo (jiter codecs) in
  let* payloads := for_fold (fun payloads codec =>
      let* pt := jat codec "payloadType" in add_payload payloads pt) "" (jiter codecs) in
  let* mo := jset mo "payloads" (JString payloads) in
  let* mo := jset mo "ext" (JArray []) in
  let* exts := jat offerRtpParameters "headerExtensions" in
  let* mo := for_fold offer_extension mo (jiter exts) in
  let* mo := set_rtcp mo in
  offer_ssrcs mo offerRtpParameters streamId trackId.

Definition OfferMediaSection (iceParameters iceCandidates dtlsParameters sctpParameters : json)
    (mid kind : string) (offerRtpParameters : json) (streamId trackId : string) : res MediaSection :=
  let* mo := MediaSection_init iceParameters iceCandidates in
  let* mo := jset mo "mid" (JString mid) in
  let* mo := jset mo "type" (JString kind) in
  let* mo := jset mo "protocol"
    (JString (if is_null sctpParameters then "UDP/TLS/RTP/SAVPF" else "UDP/DTLS/SCTP")) in
  let* mo := jset mo "connection" connection_object in
  let* mo := jset mo "port" (JInt 7) in
  let* mo := jset mo "setup" (JString "actpass") in
  let* mo :=
    if String.eqb kind "audio" || String.eqb kind "video"
    then offer_media offerRtpParameters streamId trackId mo
    else if String.eqb kind "application" then set_sctp mo sctpParameters
    else Ok mo in
  Ok (Section_ Offer mo).

(** ** What identifies a section

    The mid and the port are set once; everything the constructors do
    afterwards, and every method but [Close], leaves them alone. *)

Definition meta_key (k : string) : bool := String.eqb k "mid" || String.eqb k "port".

(** [frame mo mo']: [mo'] is an object with the mid and the port of [mo]. *)
Definition frame (mo mo' : json) : Prop :=
  is_object mo = true ->
  is_object mo' = true /\ forall k, meta_key k = true -> jfind mo' k = jfind mo k.

Lemma frame_refl mo : frame mo mo.
Proof. intros H. split; [done|]. by intros. Qed.

Create HintDb frame_db.
#[export] Hint Resolve frame_refl : frame_db.

Section Frame.
Context (mo0 : json).
Implicit Types (mo : json).

Lemma meta_key_ne k k' : meta_key k = false -> meta_key k' = true -> k <> k'.
Proof. congruence. Qed.

Lemma jset_frame mo k v :
  meta_key k = false -> frame mo0 mo -> ensures (jset mo k v) (frame mo0).
Proof.
  intros Hk Hf mo' H H0. destruct (Hf H0) as [Ho Hkeys]. destruct mo; try done.
  injection H as <-. split; [done|]. intros k' Hk'. simpl. rewrite obj_get_set_ne.
  - by apply Hkeys.
  - by apply meta_key_ne.
Qed.

Lemma jerase_frame mo k :
  meta_key k = false -> frame mo0 mo -> ensures (jerase mo k) (frame mo0).
Proof.
  intros Hk Hf mo' H H0. destruct (Hf H0) as [Ho Hkeys]. destruct mo; try done.
  injection H as <-. split; [done|]. intros k' Hk'. simpl. rewrite obj_get_del_ne.
  - by apply Hkeys.
  - by apply meta_key_ne.
Qed.

Lemma jref_frame mo k :
  meta_key k = false -> frame mo0 mo -> ensures (jref mo k) (fun p => frame mo0 p.1).
Proof.
  intros Hk Hf [mo' v] H H0. destruct (Hf H0) as [Ho Hkeys]. destruct mo as [| | | | | | |o]; try done.
  simpl in *. destruct (obj_get k o); injection H as <- <-; split; try done.
  intros k' Hk'. simpl. rewrite obj_get_set_ne; [by apply Hkeys|by apply meta_key_ne].
Qed.

Lemma jpush_at_frame mo k v :
  meta_key k = false -> frame mo0 mo -> ensures (jpush_at mo k v) (frame mo0).
Proof.
  intros Hk Hf. eapply ensures_bind; [by apply jref_frame|]. intros [mo' a] Hf'.
  apply ensures_bind_any. intros a'. by apply jset_frame.
Qed.
End Frame.

#[export] Hint Resolve jset_frame jerase_frame jpush_at_frame : frame_db.
#[export] Hint Extern 1 (meta_key _ = false) => reflexivity : frame_db.

(** [frame_step]: one statement of a constructor; what it does to the media
    object is found in the database, other values are arbitrary. *)
Ltac frame_step :=
  match goal with
  | |- ensures (bind (Ok _) _) _ => cbn [bind]
  | |- ensures (bind (if ?b then _ else _) _) _ => destruct b
  | |- ensures (bind _ _) _ =>
      first
        [ eapply ensures_bind; [solve [eauto 3 with frame_db]|intros ? ?]
        | apply ensures_bind_any; intros ? ]
  | |- ensures (let '_ := ?x in _) _ => destruct x
  | |- ensures (if ?b then _ else _) _ => destruct b
  | |- ensures (match ?x with _ => _ end) _ => destruct x
  | |- ensures (Ok _) _ => apply ensures_Ok; simpl in *; solve [eauto 3 with frame_db]
  | |- ensures (Throw _) _ => by apply ensures_fail
  | |- ensures (Undef _) _ => by apply ensures_fail
  | |- ensures (for_fold _ _ _) _ => apply ensures_for_fold; [intros|]
  | |- ensures _ _ => solve [eauto 3 with frame_db]
  | |- frame _ _ => simpl in *; solve [eauto 3 with frame_db]
  end.
Ltac frames := repeat (cbv beta; simpl fst in *; frame_step).

Section FrameConstructors.
Context (mo0 : json).

Lemma SetIceParameters_frame mo ice :
  frame mo0 mo -> ensures (SetIceParameters mo ice) (frame mo0).
Proof. intros. unfold SetIceParameters. frames. Qed.

Lemma erase_all_frame mo keys :
  forallb (fun k => negb (meta_key k)) keys = true ->
  frame mo0 mo -> ensures (erase_all mo keys) (frame mo0).
Proof.
  unfold erase_all. intros Hk. revert mo.
  induction keys as [|k keys IH]; intros mo Hf; simpl; [by apply ensures_Ok|].
  simpl in Hk. apply andb_true_iff in Hk as [Hk1 Hk2]. apply negb_true_iff in Hk1.
  eapply ensures_bind; [by apply jerase_frame|]. by intros mo' ?; apply IH.
Qed.

Lemma set_setup_frame mo role : frame mo0 mo -> ensures (set_setup mo role) (frame mo0).
Proof. intros. unfold set_setup. frames. Qed.

Lemma add_fmtp_frame mo payload params :
  frame mo0 mo -> ensures (add_fmtp mo payload params) (frame mo0).
Proof. intros. unfold add_fmtp. frames. Qed.

Lemma set_rtcp_frame mo : frame mo0 mo -> ensures (set_rtcp mo) (frame mo0).
Proof. intros. unfold set_rtcp. frames. Qed.

Lemma set_sctp_frame mo sctp : frame mo0 mo -> ensures (set_sctp mo sctp) (frame mo0).
Proof. intros. unfold set_sctp. frames. Qed.

Lemma answer_feedback_frame payload st fb :
  frame mo0 st.1 -> ensures (answer_feedback payload st fb) (fun p => frame mo0 p.1).
Proof. intros. unfold answer_feedback. frames. Qed.

Lemma answer_extension_frame offerMedia st ext :
  frame mo0 st.1 -> ensures (answer_extension offerMedia st ext) (fun p => frame mo0 p.1).
Proof. intros. unfold answer_extension. frames. Qed.

Lemma answer_simulcast_frame offerMedia mo :
  frame mo0 mo -> ensures (answer_simulcast offerMedia mo) (frame mo0).
Proof. intros. unfold answer_simulcast. frames. Qed.
End FrameConstructors.

#[export] Hint Resolve SetIceParameters_frame set_setup_frame add_fmtp_frame
  set_rtcp_frame set_sctp_frame answer_simulcast_frame : frame_db.
#[export] Hint Extern 2 (ensures (erase_all _ _) _) =>
  apply erase_all_frame; [reflexivity|] : frame_db.

(** A loop that carries the media object first in its state. *)
Lemma for_fold_frame {A S : Type} (mo0 : json) (proj : S -> json) (g : S -> A -> res S) s l :
  (forall s x, frame mo0 (proj s) -> ensures (g s x) (fun p => frame mo0 (proj p))) ->
  frame mo0 (proj s) -> ensures (for_fold g s l) (fun p => frame mo0 (proj p)).
Proof. intros Hg Hs. by apply ensures_for_fold. Qed.

#[export] Hint Extern 2 (ensures (for_fold (answer_feedback _) _ _) _) =>
  eapply (for_fold_frame _ fst); [intros; apply answer_feedback_frame; assumption|simpl] : frame_db.
#[export] Hint Extern 2 (ensures (for_fold (answer_extension _) _ _) _) =>
  eapply (for_fold_frame _ fst); [intros; apply answer_extension_frame; assumption|simpl] : frame_db.

Section FrameMedia.
Context (mo0 : json).

Lemma answer_codec_frame options st codec :
  frame mo0 st.1.1 -> ensures (answer_codec options st codec) (fun p => frame mo0 p.1.1).
Proof. intros. unfold answer_codec. frames. Qed.

Lemma offer_codec_frame mo codec : frame mo0 mo -> ensures (offer_codec mo codec) (frame mo0).
Proof. intros. unfold offer_codec, offer_feedback. frames. Qed.

Lemma offer_extension_frame mo ext : frame mo0 mo -> ensures (offer_extension mo ext) (frame mo0).
Proof. intros. unfold offer_extension. frames. Qed.

Lemma offer_ssrcs_frame mo params streamId trackId :
  frame mo0 mo -> ensures (offer_ssrcs mo params streamId trackId) (frame mo0).
Proof. intros. unfold offer_ssrcs. frames. Qed.
End FrameMedia.

#[export] Hint Extern 2 (ensures (for_fold (answer_codec _) _ _) _) =>
  eapply (for_fold_frame _ (fun st => st.1.1)); [intros; apply answer_codec_frame; assumption|simpl] : frame_db.
#[export] Hint Extern 2 (ensures (for_fold offer_codec _ _) _) =>
  eapply (for_fold_frame _ id); [intros; apply offer_codec_frame; assumption|simpl] : frame_db.
#[export] Hint Extern 2 (ensures (for_fold offer_extension _ _) _) =>
  eapply (for_fold_frame _ id); [intros; apply offer_extension_frame; assumption|simpl] : frame_db.
#[export] Hint Resolve offer_ssrcs_frame : frame_db.

Lemma answer_media_frame mo0 offerMedia offer answer options mo :
  frame mo0 mo ->
  ensures (answer_media offerMedia offer answer options mo) (fun p => frame mo0 p.1.1).
Proof. intros. unfold answer_media. frames. Qed.

Lemma offer_media_frame mo0 params streamId trackId mo :
  frame mo0 mo -> ensures (offer_media params streamId trackId mo) (frame mo0).
Proof. intros. unfold offer_media. frames. Qed.

(** ** Sections by mid and state *)

(** A section with the given mid, closed or not. *)
Definition section_is (mid : string) (closed : bool) (s : MediaSection) : Prop :=
  is_object (mediaObject s) = true /\
  jfind (mediaObject s) "mid" = Some (JString mid) /\
  exists port, jfind (mediaObject s) "port" = Some port /\ json_eqb port (JInt 0) = closed.

Lemma section_is_frame mid closed c c' mo mo' :
  section_is mid closed (Section_ c mo) -> frame mo mo' -> section_is mid closed (Section_ c' mo').
Proof.
  intros (Ho & Hm & port & Hp & Hc) Hf. destruct (Hf Ho) as [Ho' Hk].
  split; [done|]. simpl. rewrite (Hk "mid"), (Hk "port") by done. eauto.
Qed.

Lemma jat_jfind j k v : jfind j k = Some v -> jat j k = Ok v.
Proof. destruct j; try done. simpl. by intros ->. Qed.

Section SectionIs.
Context (mid : string) (closed : bool) (s : MediaSection).
Hypothesis Hs : section_is mid closed s.

Lemma GetMid_is : GetMid s = Ok mid.
Proof. destruct Hs as (_ & Hm & _). unfold GetMid. by rewrite (jat_jfind _ _ _ Hm). Qed.

Lemma IsClosed_is : IsClosed s = Ok closed.
Proof.
  destruct Hs as (_ & _ & port & Hp & <-). unfold IsClosed. by rewrite (jat_jfind _ _ _ Hp).
Qed.
End SectionIs.

(** [with_meta]: an object with the given mid and, once it is set, port 7. *)
Definition with_meta (mid : json) (port : option json) (mo : json) : Prop :=
  is_object mo = true /\ jfind mo "mid" = Some mid /\
  match port with Some p => jfind mo "port" = Some p | None => True end.

Lemma jset_mid_meta mo mid :
  is_object mo = true -> ensures (jset mo "mid" mid) (with_meta mid None).
Proof.
  destruct mo; try done. intros _ mo' [= <-]. split; [done|]. split; [|done].
  simpl. by rewrite obj_get_set_eq.
Qed.

Lemma jset_port_meta mo mid port p :
  with_meta mid port mo -> ensures (jset mo "port" p) (with_meta mid (Some p)).
Proof.
  intros (Ho & Hm & _) mo' H. destruct mo; try done. injection H as <-. simpl in *.
  split; [done|]. simpl. by rewrite obj_get_set_ne, obj_get_set_eq.
Qed.

Lemma frame_meta mid port mo (m : res json) :
  with_meta mid port mo -> (forall mo0, frame mo0 mo -> ensures m (frame mo0)) ->
  ensures m (with_meta mid port).
Proof.
  intros (Ho & Hm & Hp) Hf mo' Hmo'. destruct (Hf mo (frame_refl mo) mo' Hmo' Ho) as [Ho' Hk].
  split; [done|]. rewrite (Hk "mid") by done. split; [done|].
  destruct port; [|done]. by rewrite (Hk "port").
Qed.

Lemma MediaSection_init_object ice cands :
  ensures (MediaSection_init ice cands) (fun mo => is_object mo = true).
Proof.
  intros mo H. assert (frame (JObject []) mo) as Hf; [|by apply Hf].
  revert mo H. change (ensures (MediaSection_init ice cands) (frame (JObject []))).
  unfold MediaSection_init. frame_step. frame_step.
  eapply ensures_bind; [apply (ensures_for_fold _ (frame (JObject []))); [|done]; intros; frames|].
  intros. frames.
Qed.

(** One statement of a constructor, keeping track of the mid and the port. *)
Ltac meta_step :=
  match goal with
  | |- ensures (bind (if _ then _ else _) _) _ => fail 1
  | H : is_object ?mo = true |- ensures (bind (jset ?mo "mid" _) _) _ =>
      eapply ensures_bind; [by apply jset_mid_meta|intros ? ?]
  | H : with_meta _ _ ?mo |- ensures (bind (jset ?mo "port" _) _) _ =>
      eapply ensures_bind; [by eapply jset_port_meta|intros ? ?]
  | H : with_meta _ _ ?mo |- ensures (bind ?m _) _ =>
      eapply ensures_bind; [eapply (frame_meta _ _ mo m); [exact H|intros; solve [frames]]|intros ? ?]
  | |- ensures (bind (MediaSection_init _ _) _) _ =>
      eapply ensures_bind; [apply MediaSection_init_object|cbv beta; intros ? ?]
  | |- ensures (bind _ _) _ => apply ensures_bind_any; intros ?
  end.

Lemma with_meta_open c mid mo :
  with_meta (JString mid) (Some (JInt 7)) mo -> section_is mid false (Section_ c mo).
Proof. intros (Ho & Hm & Hp). split; [done|]. split; [done|]. by exists (JInt 7). Qed.

(** A new answer has the mid of the offer's section and is open. *)
Lemma AnswerMediaSection_is ice cands dtls sctp offerMedia offer answer options mid :
  jfind offerMedia "mid" = Some (JString mid) ->
  ensures (AnswerMediaSection ice cands dtls sctp offerMedia offer answer options)
    (fun p => section_is mid false p.1.1).
Proof.
  intros Hmid. unfold AnswerMediaSection. rewrite (jat_jfind _ _ _ Hmid).
  do 3 meta_step. cbn [bind]. repeat meta_step.
  match goal with H : with_meta _ (Some _) ?mo |- _ =>
    pose proof (with_meta_open Answer _ _ H) as Hs; apply (ensures_bind _ _ (fun p => frame mo p.1.1))
  end.
  - destruct (_ || _); [by apply answer_media_frame; apply frame_refl|].
    destruct (String.eqb _ "application"); frames.
  - intros [[mo' offer'] answer'] Hf. apply ensures_Ok. simpl in *.
    by eapply section_is_frame.
Qed.

(** A new offer has the given mid and is open. *)
Lemma OfferMediaSection_is ice cands dtls sctp mid kind params streamId trackId :
  ensures (OfferMediaSection ice cands dtls sctp mid kind params streamId trackId)
    (section_is mid false).
Proof.
  unfold OfferMediaSection. repeat meta_step.
  match goal with H : with_meta _ (Some _) ?mo |- _ =>
    pose proof (with_meta_open Offer _ _ H) as Hs; apply (ensures_bind _ _ (frame mo))
  end.
  - destruct (_ || _); [by apply offer_media_frame; apply frame_refl|].
    destruct (String.eqb _ "application"); frames.
  - intros mo' Hf. apply ensures_Ok. by eapply section_is_frame.
Qed.

(** ** The methods on a section that is there *)

Lemma jset_object j k v : is_object j = true -> exists j', jset j k v = Ok j' /\ is_object j' = true.
Proof. destruct j; try done. by eexists. Qed.

Lemma erase_all_object j keys :
  is_object j = true -> exists j', erase_all j keys = Ok j' /\ is_object j' = true.
Proof.
  revert j. unfold erase_all. induction keys as [|k keys IH]; intros j Hj; simpl; [by eexists|].
  destruct j; try done. simpl. by apply IH.
Qed.

Lemma section_is_object mid closed s : section_is mid closed s -> is_object (mediaObject s) = true.
Proof. by intros [? _]. Qed.

Lemma Disable_is mid closed s :
  section_is mid closed s -> exists s', Disable s = Ok s' /\ section_is mid closed s'.
Proof.
  intros Hs. unfold Disable.
  destruct (jset_object _ "direction" (JString "inactive") (section_is_object _ _ _ Hs))
    as (mo1 & E1 & Ho1).
  destruct (erase_all_object mo1 ["ext"; "ssrcs"; "ssrcGroups"; "simulcast"; "rids"] Ho1)
    as (mo2 & E2 & _).
  rewrite E1. cbn [bind]. rewrite E2. cbn [bind]. eexists. split; [reflexivity|].
  destruct s as [c mo]. eapply section_is_frame; [exact Hs|].
  eapply erase_all_frame; [| |exact E2]; [done|].
  eapply jset_frame; [| |exact E1]; [done|apply frame_refl].
Qed.

Lemma Close_is mid closed s :
  section_is mid closed s -> exists s', Close s = Ok s' /\ section_is mid true s'.
Proof.
  intros Hs. unfold Close.
  destruct (jset_object _ "direction" (JString "inactive") (section_is_object _ _ _ Hs))
    as (mo1 & E1 & Ho1).
  destruct (jset_object _ "port" (JInt 0) Ho1) as (mo2 & E2 & Ho2).
  destruct (erase_all_object mo2
    ["ext"; "ssrcs"; "ssrcGroups"; "simulcast"; "rids"; "extmapAllowMixed"] Ho2) as (mo3 & E3 & _).
  rewrite E1. cbn [bind]. rewrite E2. cbn [bind]. rewrite E3. cbn [bind].
  eexists. split; [reflexivity|].
  assert (with_meta (JString mid) None mo1) as Hm1.
  { destruct Hs as (Ho & Hm & _). eapply frame_meta; [by split; [exact Ho|split; [exact Hm|]]| |exact E1].
    intros. by apply jset_frame. }
  destruct (jset_port_meta _ _ _ _ Hm1 _ E2) as (_ & Hm2 & Hp2).
  apply (section_is_frame _ _ (class_of s) _ mo2).
  - split; [done|]. split; [done|]. by exists (JInt 0).
  - eapply erase_all_frame; [| |exact E3]; [done|apply frame_refl].
Qed.

Lemma SetDtlsRole_is mid closed s role :
  section_is mid closed s -> exists s', SetDtlsRole s role = Ok s' /\ section_is mid closed s'.
Proof.
  intros Hs. unfold SetDtlsRole. pose proof (section_is_object _ _ _ Hs) as Ho.
  assert (exists mo', match class_of s with
             | Answer => set_setup (mediaObject s) role
             | Offer => jset (mediaObject s) "setup" (JString "actpass")
             end = Ok mo' /\ frame (mediaObject s) mo') as (mo' & E & Hf).
  { destruct (mediaObject s) as [| | | | | | |o] eqn:Em; try done.
    destruct (class_of s); unfold set_setup; repeat case_match;
      (eexists; split; [reflexivity|]); try apply frame_refl;
      eapply (jset_frame (JObject o) (JObject o) "setup" _ eq_refl (frame_refl _)); reflexivity. }
  rewrite E. cbn [bind]. eexists. split; [reflexivity|].
  destruct s as [c mo]. by eapply section_is_frame.
Qed.

Lemma SetIceParameters_is mid closed s ice :
  section_is mid closed s -> jcontains ice "usernameFragment" = true -> jcontains ice "password" = true ->
  exists mo', SetIceParameters (mediaObject s) ice = Ok mo' /\ section_is mid closed (Section_ (class_of s) mo').
Proof.
  intros Hs Hu Hp. pose proof (section_is_object _ _ _ Hs) as Ho. unfold jcontains in *.
  destruct (jfind ice "usernameFragment") eqn:Eu; [|done].
  destruct (jfind ice "password") eqn:Ep; [|done].
  assert (exists mo', SetIceParameters (mediaObject s) ice = Ok mo') as (mo' & E).
  { unfold SetIceParameters. rewrite (jat_jfind _ _ _ Eu), (jat_jfind _ _ _ Ep). cbn [bind].
    destruct (mediaObject s); try done. by eexists. }
  exists mo'. split; [done|]. destruct s as [c mo]. eapply section_is_frame; [exact Hs|].
  eapply SetIceParameters_frame; [|exact E]. apply frame_refl.
Qed.
