(* ===== verification/SdpWriter.v ===== *)
(** Writing SDP text: deps/libsdptransform/src/writer.cpp. *)

From Stdlib Require Import ZArith Lia Ascii.
From S2P Require Import Prelude Json Regex Streams SdpGrammar SdpParser OrtcValidate MediaSection.
Import grammar.

(** The matches of [%[sdv%]] in a format, each with the text before it. *)
Definition is_conversion (c : ascii) : bool :=
  Ascii.eqb c "s" || Ascii.eqb c "d" || Ascii.eqb c "v" || Ascii.eqb c "%".

Fixpoint format_tokens (prefix : string) (s : string) : list (string * ascii) :=
  match s with
  | String "%" (String c s' as rest) =>
      if is_conversion c then (prefix, c) :: format_tokens EmptyString s'
      else format_tokens (prefix +:+ "%") rest
  | String a s' => format_tokens (prefix +:+ String a EmptyString) s'
  | EmptyString => []
  end.

(** The argument of a name: from the object under the rule's name, from the
    location itself, or empty. *)
Definition name_arg (rule : Rule) (location : json) (n : string) : json :=
  let inner := if str_empty (name rule) then None else jfind location (name rule) in
  match inner ≫= (fun v => jfind v n) with
  | Some v => v
  | None => default (JString EmptyString) (jfind location n)
  end.

Definition line_args (rule : Rule) (location : json) : list json :=
  if is_nil (names rule) then option_list (jfind location (name rule))
  else map (name_arg rule location) (names rule).

Definition line_format (rule : Rule) (location : json) : res string :=
  if str_empty (format rule) then
    let* o := if negb (str_empty (push rule)) then Ok location
              else if negb (str_empty (name rule)) then jat_checked location (name rule)
              else Ok location in
    Ok (formatFunc rule o)
  else Ok (format rule).

Section Writer.
Context `{FloatText}.

(** [linestream << arg] for a conversion. *)
Definition put_arg (c : ascii) (arg : json) : res string :=
  if Ascii.eqb c "%" then Ok "%"
  else if Ascii.eqb c "v" then Ok EmptyString
  else match arg with
       | JString s => Ok s
       | _ => dump arg
       end.

(** The loop over the conversions: without an argument left, the conversion
    itself is written. *)
Fixpoint put_tokens (tokens : list (string * ascii)) (args : list json) : res string :=
  match tokens with
  | [] => Ok EmptyString
  | (prefix, c) :: tokens =>
      match args with
      | [] =>
          let* rest := put_tokens tokens [] in
          Ok (String "%" (String c rest))
      | arg :: args =>
          let* s := put_arg c arg in
          let* rest := put_tokens tokens args in
          Ok (prefix +:+ s +:+ rest)
      end
  end.

Definition crlf : string := String "013" (String "010" EmptyString).

Definition makeLine (type : ascii) (rule : Rule) (location : json) : res string :=
  let* format := line_format rule location in
  let* text := put_tokens (format_tokens EmptyString format) (line_args rule location) in
  Ok (String type (String "=" EmptyString) +:+ text +:+ crlf).

Definition make_lines (type : ascii) (rule : Rule) (locations : list json) : res string :=
  for_fold (fun out el => let* line := makeLine type rule el in Ok (out +:+ line)) EmptyString locations.

(** What one rule contributes for a session or a media section. *)
Definition rule_lines (type : ascii) (rule : Rule) (location : json) : res string :=
  let found k p := if str_empty k then false else opt_is p (jfind location k) in
  if found (name rule) (fun v => negb (is_null v)) then makeLine type rule location
  else if found (push rule) is_array then
    let* els := jat_checked location (push rule) in
    make_lines type rule (jiter els)
  else Ok EmptyString.

(** The rules of the line types in [order]. *)
Definition ordered_lines (order : list ascii) (location : json) : res string :=
  for_fold (fun out type =>
      match rulesMap type with
      | None => Throw StdOutOfRange
      | Some rules =>
          for_fold (fun out rule => let* l := rule_lines type rule location in Ok (out +:+ l)) out rules
      end) EmptyString order.

Definition OuterOrder : list ascii :=
  ["v"; "o"; "s"; "i"; "u"; "e"; "p"; "c"; "b"; "t"; "r"; "z"; "a"]%char.
Definition InnerOrder : list ascii := ["i"; "c"; "b"; "a"]%char.

Definition ensure_field (session : json) (k : string) (v : json) : res json :=
  if jcontains session k then Ok session else jset session k v.

Definition media_lines (mLine : json) : res string :=
  match m_rules with
  | rule :: _ =>
      let* head := makeLine "m" rule mLine in
      let* rest := ordered_lines InnerOrder mLine in
      Ok (head +:+ rest)
  | [] => Undef UbIndex
  end.

(** The session afterwards and the text. *)
Definition write (session : json) : res (json * string) :=
  do* throw_if (negb (is_object session)) StdInvalidArgument in
  let* session := ensure_field session "version" (JInt 0) in
  let* session := ensure_field session "name" (JString "-") in
  let* session := ensure_field session "media" (JArray []) in
  let* media := jat_checked session "media" in
  let* mLines := for_each (fun mLine => ensure_field mLine "payloads" (JString EmptyString)) (jiter media) in
  let* session := jset session "media" (jreplace media mLines) in
  let* out := ordered_lines OuterOrder session in
  let* out := for_fold (fun out mLine => let* l := media_lines mLine in Ok (out +:+ l)) out mLines in
  Ok (session, out).
End Writer.
