(* ===== verification/SdpUtils.v ===== *)
(** What the handlers read out of SDP objects and write into them:
    src/sdp/Utils.cpp, [split] and [join] of include/Utils.hpp, and
    src/scalabilityMode.cpp of libmediasoupclient. *)

From Stdlib Require Import ZArith Lia Ascii.
From stdpp Require Import gmap.
From S2P Require Import Prelude Json Regex Streams SdpGrammar SdpParser OrtcValidate Ortc MediaSection.

(** ** Utils.hpp *)

Definition split (s : string) (delimiter : ascii) : list string := getlines delimiter s.
Definition join (v : list Z) (delimiter : ascii) : string :=
  String.concat (String delimiter EmptyString) (map to_string v).

(** [v[i]] of a vector. *)
Definition vec_at {A : Type} (v : list A) (i : nat) : res A :=
  match v !! i with Some x => Ok x | None => Undef UbIndex end.

(** ** Scalability mode *)

Definition ScalabilityModeRegex : re := regex "^[LS]([1-9]\d{0,1})T([1-9]\d{0,1}).*".

(** The two assignments stand in a [try] that swallows what [stoul] throws. *)
Definition parseScalabilityMode (scalabilityMode : string) : res json :=
  let layers := JObj [("spatialLayers", JInt 1); ("temporalLayers", JInt 1)] in
  match regex_match ScalabilityModeRegex scalabilityMode with
  | None => Ok layers
  | Some match_ =>
      match stoull (group match_ 1) with
      | Ok spatial =>
          let* layers := jset layers "spatialLayers" (JUint spatial) in
          match stoull (group match_ 2) with
          | Ok temporal => jset layers "temporalLayers" (JUint temporal)
          | Throw _ => Ok layers
          | Undef u => Undef u
          | Fatal d => Fatal d
          end
      | Throw _ => Ok layers
      | Undef u => Undef u
      | Fatal d => Fatal d
      end
  end.

(** ** extractRtpCapabilities *)

(** [std::map<uint8_t, json>], its values in the order of the keys. *)
Abbreviation codecs_map := (gmap Z json).
Definition map_values (m : codecs_map) : list json := omap (fun k => m !! k) (seqZ 0 256).

(** [auto x = object[k].get<T>()] on a const object. *)
Definition get_at {A : Type} (get : json -> res A) (j : json) (k : string) : res A :=
  let* v := jat j k in get v.

Definition add_codec (kind : string) (codecsMap : codecs_map) (rtp : json) : res codecs_map :=
  let* name := get_at get_string rtp "codec" in
  let* payload := jat rtp "payload" in
  let* rate := jat rtp "rate" in
  let codec := JObj [("kind", JString kind); ("mimeType", JString (kind +:+ "/" +:+ name));
                     ("preferredPayloadType", payload); ("clockRate", rate);
                     ("parameters", JObject []); ("rtcpFeedback", JArray [])] in
  let* codec :=
    if String.eqb kind "audio" then
      match jfind rtp "encoding" with
      | Some (JString encoding) =>
          let* channels := stoi encoding in jset codec "channels" (JInt channels)
      | _ => jset codec "channels" (JInt 1)
      end
    else Ok codec in
  let* pt := get_uint8 payload in
  Ok (<[pt := codec]> codecsMap).

Definition add_parameters (codecsMap : codecs_map) (fmtp : json) : res codecs_map :=
  let* config := get_at get_string fmtp "config" in
  let* parameters := parseParams config in
  let* payload := get_at get_uint8 fmtp "payload" in
  match codecsMap !! payload with
  | None => Ok codecsMap
  | Some codec =>
      let* parameters :=
        match jfind parameters "profile-id" with
        | Some (JString profileId) =>
            let* z := stoi profileId in jset parameters "profile-id" (JInt z)
        | _ => Ok parameters
        end in
      let* codec := jset codec "parameters" parameters in
      Ok (<[payload := codec]> codecsMap)
  end.

Definition add_feedback (codecsMap : codecs_map) (fb : json) : res codecs_map :=
  let* p := get_at get_string fb "payload" in
  let* payload := stoi p in
  match codecsMap !! u8 payload with
  | None => Ok codecsMap
  | Some codec =>
      let* type := jat fb "type" in
      let feedback := JObj [("type", type)] in
      let* feedback := match jfind fb "subtype" with
                       | Some subtype => jset feedback "parameter" subtype
                       | None => Ok feedback
                       end in
      let* codec := jpush_at codec "rtcpFeedback" feedback in
      Ok (<[u8 payload := codec]> codecsMap)
  end.

Definition extension_object (kind : string) (ext : json) : res json :=
  let* uri := jat ext "uri" in
  let* value := jat ext "value" in
  Ok (JObj [("kind", JString kind); ("uri", uri); ("preferredId", value)]).

Record extraction : Type := Extraction {
  codecsMap : codecs_map;
  headerExtensions : list json;
  gotAudio : bool;
  gotVideo : bool
}.

Definition extract_codecs (kind : string) (m : json) (st : extraction) : res extraction :=
  let* rtps := jat m "rtp" in
  let* cm := for_fold (add_codec kind) (codecsMap st) (jiter rtps) in
  let* fmtps := jat m "fmtp" in
  let* cm := for_fold add_parameters cm (jiter fmtps) in
  let* fbs := jat m "rtcpFb" in
  let* cm := for_fold add_feedback cm (jiter fbs) in
  let* exts := jat m "ext" in
  let* es := for_each (extension_object kind) (jiter exts) in
  Ok (Extraction cm (headerExtensions st ++ es) (gotAudio st) (gotVideo st)).

(** Only the first audio and the first video section count. *)
Definition extract_media (st : extraction) (m : json) : res extraction :=
  let* kind := get_at get_string m "type" in
  let '(Extraction cm es a v) := st in
  if String.eqb kind "audio" then
    if a then Ok st else extract_codecs kind m (Extraction cm es true v)
  else if String.eqb kind "video" then
    if v then Ok st else extract_codecs kind m (Extraction cm es a true)
  else Ok st.

Definition extractRtpCapabilities (sdpObject : json) : res json :=
  let* media := jat sdpObject "media" in
  let* st := for_fold extract_media (Extraction empty [] false false) (jiter media) in
  Ok (JObj [("headerExtensions", JArray (headerExtensions st)); ("codecs", JArray (map_values (codecsMap st)));
            ("fecMechanisms", JArray [])]).

(** ** extractDtlsParameters *)

Definition has_transport (media : json) : res bool :=
  if jcontains media "iceUfrag" then
    let* port := jat media "port" in Ok (negb (json_eqb port (JInt 0)))
  else Ok false.

Definition role_of_setup (setup : string) : string :=
  if String.eqb setup "active" then "client"
  else if String.eqb setup "passive" then "server"
  else if String.eqb setup "actpass" then "auto"
  else "".

Definition extractDtlsParameters (sdpObject : json) : res json :=
  let* media := jat sdpObject "media" in
  let* found := find_if has_transport (jiter media) in
  let m := default JNull found in
  let fingerprint :=
    match jfind m "fingerprint" with
    | Some f => f
    | None => default JNull (jfind sdpObject "fingerprint")
    end in
  let* role := match jfind m "setup" with
               | Some v => let* setup := get_string v in Ok (role_of_setup setup)
               | None => Ok ""
               end in
  let* (fingerprint, algorithm) := jref fingerprint "type" in
  let* (_, value) := jref fingerprint "hash" in
  Ok (JObj [("role", JString role);
            ("fingerprints", JArray [JObj [("algorithm", algorithm); ("value", value)]])]).

(** ** addLegacySimulcast *)

(** [it != end && it->is_string() && it->get<std::string>() == s] *)
Definition string_field (line : json) (k s : string) : bool :=
  match jfind line k with Some (JString v) => String.eqb v s | _ => false end.

Definition is_msid_line (line : json) : bool := string_field line "attribute" "msid".

Definition is_cname_line (line : json) : bool :=
  opt_is is_string (jfind line "attribute") && opt_is is_number (jfind line "id") &&
  string_field line "attribute" "cname".

(** The search of the RTX SSRC, which is remembered when it is found. *)
Fixpoint find_rtx (firstSsrc : Z) (groups : list json) : res Z :=
  match groups with
  | [] => Ok 0
  | line :: groups =>
      match jfind line "semantics", jfind line "ssrcs" with
      | Some (JString _), Some (JString ssrcs) =>
          let v := split ssrcs " " in
          let* s0 := vec_at v 0 in
          let* ssrc := stoull s0 in
          if ssrc =? firstSsrc then
            let* s1 := vec_at v 1 in
            let* rtx := stoull s1 in Ok (u32 rtx)
          else find_rtx firstSsrc groups
      | _, _ => find_rtx firstSsrc groups
      end
  end.

Definition ssrc_lines (cname msid : string) (ssrc : Z) : list json :=
  [ssrc_object ssrc "cname" cname; ssrc_object ssrc "msid" msid].

Definition ssrc_group (semantics ssrcs : string) : json :=
  JObj [("semantics", JString semantics); ("ssrcs", JString ssrcs)].

Definition fid_group (ssrc rtxSsrc : Z) : json :=
  ssrc_group "FID" (to_string ssrc +:+ " " +:+ to_string rtxSsrc).

(** [n] consecutive SSRCs, modulo [2 ^ 32]. *)
Definition consecutive (first : Z) (n : Z) : list Z := map (fun i => u32 (first + i)) (seqZ 0 n).

Definition addLegacySimulcast (offerMediaObject : json) (numStreams : Z) : res json :=
  if numStreams <=? 1 then Ok offerMediaObject
  else
    let* (mo, mSsrcs) := jref offerMediaObject "ssrcs" in
    match List.find is_msid_line (jiter mSsrcs) with
    | None => Throw (MscError "a=ssrc line with msid information not found")
    | Some ssrcMsidLine =>
        let* (ssrcMsidLine, value) := jref ssrcMsidLine "value" in
        let* value := get_string value in
        let v := split value " " in
        let* streamId := vec_at v 0 in
        let* trackId := vec_at v 1 in
        let* (_, id) := jref ssrcMsidLine "id" in
        let* firstSsrc := get_uint32 id in
        let* firstRtxSsrc := match jfind mo "ssrcGroups" with
                             | Some ssrcGroups => find_rtx firstSsrc (jiter ssrcGroups)
                             | None => Ok 0
                             end in
        match List.find is_cname_line (jiter mSsrcs) with
        | None => Throw (MscError "CNAME line not found")
        | Some cnameLine =>
            let* (_, c) := jref cnameLine "value" in
            let* cname := get_string c in
            let ssrcs := consecutive firstSsrc numStreams in
            let rtxSsrcs := if firstRtxSsrc =? 0 then [] else consecutive firstRtxSsrc numStreams in
            let msid := streamId +:+ " " +:+ trackId in
            let* mo := jset mo "ssrcGroups"
              (JArray (ssrc_group "SIM" (join ssrcs " ") :: zip_with fid_group ssrcs rtxSsrcs)) in
            jset mo "ssrcs" (JArray (concat (map (ssrc_lines cname msid) (ssrcs ++ rtxSsrcs))))
        end
    end.

(** ** RTP parameters of an offer *)

Definition getCname (offerMediaObject : json) : res string :=
  match jfind offerMediaObject "ssrcs" with
  | None => Ok ""
  | Some mSsrcs =>
      match List.find (fun line => opt_is is_string (jfind line "attribute")) (jiter mSsrcs) with
      | None => Ok ""
      | Some line => get_at get_string line "value"
      end
  end.

(** [std::list::unique] *)
Fixpoint unique (l : list Z) : list Z :=
  match l with
  | x :: ((y :: _) as l') => if x =? y then unique l' else x :: unique l'
  | _ => l
  end.

(** The FID groups: the SSRCs that are not for retransmission, and the map. *)
Definition add_fid (st : list Z * gmap Z Z) (line : json) : res (list Z * gmap Z Z) :=
  let '(ssrcs, ssrcToRtxSsrc) := st in
  let* semantics := get_at get_string line "semantics" in
  if negb (String.eqb semantics "FID") then Ok st
  else
    let* fidLine := get_at get_string line "ssrcs" in
    let v := split fidLine " " in
    let* s0 := vec_at v 0 in
    let* ssrc := stoull s0 in
    let* s1 := vec_at v 1 in
    let* rtxSsrc := stoull s1 in
    Ok (List.filter (fun s => negb (s =? u32 rtxSsrc)) ssrcs, <[u32 ssrc := u32 rtxSsrc]> ssrcToRtxSsrc).

Definition encoding_of (ssrcToRtxSsrc : gmap Z Z) (ssrc : Z) : json :=
  match ssrcToRtxSsrc !! ssrc with
  | Some rtx => JObj [("ssrc", JUint ssrc); ("rtx", JObj [("ssrc", JUint rtx)])]
  | None => JObj [("ssrc", JUint ssrc)]
  end.

Definition getRtpEncodings (offerMediaObject : json) : res json :=
  let* lines := jat offerMediaObject "ssrcs" in
  let* ssrcs := for_each (fun line => get_at get_uint32 line "id") (jiter lines) in
  do* throw_if (is_nil ssrcs) (MscError "no a=ssrc lines found") in
  let ssrcs := unique ssrcs in
  let* (ssrcs, rtx) := match jfind offerMediaObject "ssrcGroups" with
                       | Some ssrcGroups => for_fold add_fid (ssrcs, empty) (jiter ssrcGroups)
                       | None => Ok (ssrcs, empty)
                       end in
  Ok (JArray (map (encoding_of rtx) ssrcs)).

(** ** applyCodecParameters *)

(** [config << ...] as in the media sections, with [int] for integers. *)
Definition add_int_config (config : string) (item : string * json) : res string :=
  let '(key, value) := item in
  let config := if str_empty config then config else config +:+ ";" in
  let config := config +:+ key +:+ "=" in
  match value with
  | JString s => Ok (config +:+ s)
  | JFloat f => Ok (config +:+ show_float f)
  | _ => if is_number value then let* z := get_int32 value in Ok (config +:+ to_string z) else Ok config
  end.

Definition has_payload (codec : json) (line : json) : res bool :=
  let* p := jat line "payload" in
  let* pt := jat codec "payloadType" in
  Ok (json_eqb p pt).

Definition stereo_parameter (codec parameters : json) : res json :=
  let* ps := jat codec "parameters" in
  match jfind ps "sprop-stereo" with
  | Some (JBool b) => jset parameters "stereo" (JInt (Z.b2z b))
  | _ => Ok parameters
  end.

(** The [fmtp] entry of the codec rewritten. *)
Definition rewrite_fmtp (codec fmtp : json) : res json :=
  let* (fmtp, c) := jref fmtp "config" in
  let* config := get_string c in
  let* parameters := parseParams config in
  let* parameters := stereo_parameter codec parameters in
  let* config := for_fold add_int_config "" (jitems parameters) in
  jset fmtp "config" (JString config).

(** The first element that satisfies [p] rewritten by [f]; [None] if there is
    none. *)
Fixpoint rewrite_first (p : json -> res bool) (f : json -> res json) (l : list json)
    : res (option (list json)) :=
  match l with
  | [] => Ok None
  | x :: l =>
      let* b := p x in
      if b then let* y := f x in Ok (Some (y :: l))
      else let* r := rewrite_first p f l in Ok ((cons x) <$> r)
  end.

Definition apply_codec (answerMediaObject codec : json) : res json :=
  let* mimeType := get_at get_string codec "mimeType" in
  if negb (String.eqb (str_lower mimeType) "audio/opus") then Ok answerMediaObject
  else
    let* (mo, rtps) := jref answerMediaObject "rtp" in
    let* rtp := find_if (has_payload codec) (jiter rtps) in
    match rtp with
    | None => Ok mo
    | Some _ =>
        let* mo := if jcontains mo "fmtp" then Ok mo else jset mo "fmtp" (JArray []) in
        let* (mo, fmtps) := jref mo "fmtp" in
        let* found := rewrite_first (has_payload codec) (rewrite_fmtp codec) (jiter fmtps) in
        match found with
        | Some l => jset mo "fmtp" (jreplace fmtps l)
        | None =>
            let* pt := jat codec "payloadType" in
            let* fmtp := rewrite_fmtp codec (JObj [("payload", pt); ("config", JString "")]) in
            let* fmtps := jpush fmtps fmtp in
            jset mo "fmtp" fmtps
        end
    end.

Definition applyCodecParameters (offerRtpParameters answerMediaObject : json) : res json :=
  let* codecs := jat offerRtpParameters "codecs" in
  for_fold apply_codec answerMediaObject (jiter codecs).
