(* ===== verification/SdpUtilsFacts.v ===== *)
(** Theorems on the SDP utilities: the layers of a scalability mode are in
    range, and the streams [addLegacySimulcast] writes into an offer are those
    [getRtpEncodings] reads out of it again. *)

From Stdlib Require Import ZArith Lia Ascii.
From stdpp Require Import gmap pretty.
From S2P Require Import Prelude Json Regex Streams Decimal SdpGrammar SdpParser OrtcValidate Ortc MediaSection SdpUtils.

(** ** Decimal numbers *)

Lemma to_string_digits z : 0 <= z -> all_chars is_digit (to_string z) = true.
Proof. apply pretty_digits. Qed.

Lemma read_to_string z : 0 <= z -> exists n, n <> O /\ read_digits 0 0 (to_string z) = (z, n, "").
Proof. apply read_pretty. Qed.

Lemma to_string_nonempty z : 0 <= z -> to_string z <> "".
Proof. intros Hz E. destruct (read_to_string z Hz) as (n & Hn & Er). rewrite E in Er. simpl in Er. congruence. Qed.

Lemma stoull_to_string z : 0 <= z < 2 ^ 64 -> stoull (to_string z) = Ok z.
Proof.
  intros Hz. unfold stoull. destruct (no_sign _ (to_string_digits z ltac:(lia))) as [-> ->].
  destruct (read_to_string z ltac:(lia)) as (n & Hn & ->).
  destruct n; [done|]. cbn [Nat.eqb]. by rewrite (proj2 (Z.leb_le _ _)) by lia.
Qed.

(** ** Splitting *)

Lemma getlines_app d a b :
  all_chars (other_than d) a = true -> getlines d (a +:+ String d b) = a :: getlines d b.
Proof.
  induction a as [|c a IH]; intros Ha; change (?x +:+ ?y) with (String.append x y); simpl.
  { by rewrite Ascii.eqb_refl. }
  simpl in Ha. apply andb_true_iff in Ha as [Hc Ha]. unfold other_than in Hc. apply negb_true_iff in Hc.
  rewrite Hc. change (String.append a (String d b)) with (a +:+ String d b). by rewrite (IH Ha).
Qed.

Lemma getlines_single d a : all_chars (other_than d) a = true -> a <> "" -> getlines d a = [a].
Proof.
  induction a as [|c a IH]; [done|]. simpl. intros [Hc Ha]%andb_true_iff _.
  unfold other_than in Hc. apply negb_true_iff in Hc. rewrite Hc.
  destruct a as [|c' a]; [done|]. by rewrite (IH Ha).
Qed.

Lemma split_fid ssrc rtx : 0 <= ssrc -> 0 <= rtx ->
  split (to_string ssrc +:+ " " +:+ to_string rtx) " " = [to_string ssrc; to_string rtx].
Proof.
  intros Hs Hr. unfold split.
  assert (forall z, 0 <= z -> all_chars (other_than " ") (to_string z) = true) as Hd.
  { intros z Hz. eapply all_chars_impl; [|by apply to_string_digits].
    intros a Ha. by destruct a as [[] [] [] [] [] [] [] []]. }
  change (" " +:+ to_string rtx) with (String " " (to_string rtx)).
  rewrite getlines_app by auto. rewrite getlines_single; [done|auto|by apply to_string_nonempty].
Qed.

(** ** Streams of an offer *)

Definition is_u32 (z : Z) : Prop := 0 <= z < 2 ^ 32.

Lemma u32_id z : is_u32 z -> u32 z = z.
Proof. apply Z.mod_small. Qed.

Lemma consecutive_range first n : Forall is_u32 (consecutive first n).
Proof. apply Forall_map, Forall_true. intros i. apply u32_range. Qed.

Lemma consecutive_length first n : length (consecutive first n) = Z.to_nat n.
Proof. unfold consecutive. by rewrite length_map, length_seqZ. Qed.

Lemma consecutive_NoDup first n : n <= 2 ^ 32 -> NoDup (consecutive first n).
Proof.
  intros Hn. apply NoDup_fmap_2_strong; [|apply NoDup_seqZ].
  intros i j Hi Hj E. apply elem_of_seqZ in Hi, Hj. unfold u32 in E. Z.div_mod_to_equations. lia.
Qed.

Definition twice (l : list Z) : list Z := concat (map (fun s => [s; s]) l).

Lemma line_id s attribute value : is_u32 s ->
  get_at get_uint32 (ssrc_object s attribute value) "id" = Ok s.
Proof. intros Hs. change (Ok (u32 s) = Ok s). by rewrite u32_id. Qed.

Lemma line_ids cname msid l : Forall is_u32 l ->
  for_each (fun line => get_at get_uint32 line "id") (concat (map (ssrc_lines cname msid) l)) = Ok (twice l).
Proof.
  induction 1 as [|s l Hs Hl IH]; [done|]. unfold twice. cbn [map concat ssrc_lines app for_each].
  rewrite !line_id by done. cbn [bind]. by rewrite IH.
Qed.

Lemma unique_twice l : NoDup l -> unique (twice l) = l.
Proof.
  induction 1 as [|s l Hs Hnd IH]; [done|]. unfold twice in *. cbn. rewrite Z.eqb_refl.
  destruct l as [|s' l]; [done|]. cbn in IH |- *. destruct (Z.eqb_spec s s') as [->|Hne].
  { by destruct Hs; left. }
  by rewrite IH.
Qed.

Lemma add_fid_group l m s r : is_u32 s -> is_u32 r ->
  add_fid (l, m) (fid_group s r) = Ok (List.filter (fun x => negb (x =? r)) l, <[s := r]> m).
Proof.
  intros Hs Hr. unfold add_fid, fid_group.
  set (text := to_string s +:+ " " +:+ to_string r).
  change (get_at get_string (ssrc_group "FID" text) "semantics") with (Ok "FID").
  change (get_at get_string (ssrc_group "FID" text) "ssrcs") with (Ok text).
  cbn [bind String.eqb Ascii.eqb Bool.eqb negb]. unfold text, is_u32 in *. rewrite split_fid by lia.
  change (vec_at [to_string s; to_string r] 0) with (Ok (to_string s)).
  change (vec_at [to_string s; to_string r] 1) with (Ok (to_string r)). cbn [bind].
  rewrite !stoull_to_string by lia. cbn [bind]. by rewrite !u32_id.
Qed.

(** The FID groups of pairs of SSRCs. *)
Lemma fid_fold ss rs l m :
  Forall is_u32 ss -> Forall is_u32 rs -> length ss = length rs ->
  for_fold add_fid (l, m) (zip_with fid_group ss rs)
  = Ok (List.filter (fun s => negb (bool_decide (s ∈ rs))) l,
        foldl (fun m '(s, r) => <[s := r]> m) m (zip ss rs)).
Proof.
  revert rs l m. induction ss as [|s ss IH]; intros [|r rs] l m Hss Hrs E; try discriminate.
  { simpl. do 2 f_equal. induction l as [|x l IHl]; [done|]. simpl. by rewrite <- IHl. }
  apply Forall_cons in Hss as [Hs Hss], Hrs as [Hr Hrs]. cbn [zip_with for_fold].
  rewrite add_fid_group by done. cbn [bind]. rewrite IH by (try done; by injection E). do 2 f_equal.
  induction l as [|x l IHl]; [done|]. simpl. destruct (Z.eqb_spec x r) as [->|Hne]; simpl.
  - rewrite bool_decide_true by by left. done.
  - rewrite IHl. assert (bool_decide (x ∈ r :: rs) = bool_decide (x ∈ rs)) as ->; [|done].
    apply bool_decide_ext. rewrite elem_of_cons. split; [by intros [?|?]|by right].
Qed.

Lemma foldl_insert_ne ss rs (m : gmap Z Z) s :
  s ∉ ss -> foldl (fun m '(s, r) => <[s := r]> m) m (zip ss rs) !! s = m !! s.
Proof.
  revert rs m. induction ss as [|s' ss IH]; intros [|r rs] m Hs; simpl; try done.
  apply not_elem_of_cons in Hs as [Hne Hs]. rewrite IH by done. by rewrite lookup_insert_ne.
Qed.

(** The encodings of streams with and without retransmission. *)
Definition stream_encodings (ss rs : list Z) : list json :=
  match rs with
  | [] => map (fun s => JObj [("ssrc", JUint s)]) ss
  | _ => zip_with (fun s r => JObj [("ssrc", JUint s); ("rtx", JObj [("ssrc", JUint r)])]) ss rs
  end.

Lemma encodings_of_pairs ss rs (m : gmap Z Z) :
  NoDup ss -> length ss = length rs ->
  map (encoding_of (foldl (fun m '(s, r) => <[s := r]> m) m (zip ss rs))) ss
  = zip_with (fun s r => JObj [("ssrc", JUint s); ("rtx", JObj [("ssrc", JUint r)])]) ss rs.
Proof.
  intros Hnd. revert rs m. induction Hnd as [|s ss Hs Hnd IH]; intros [|r rs] m E; try discriminate; [done|].
  simpl. f_equal; [|by apply IH; injection E].
  unfold encoding_of. by rewrite foldl_insert_ne, lookup_insert_eq.
Qed.

Lemma filter_streams (ss rs : list Z) : (forall s, s ∈ ss -> s ∉ rs) ->
  List.filter (fun s => negb (bool_decide (s ∈ rs))) (ss ++ rs) = ss.
Proof.
  intros Hd. rewrite List.filter_app.
  assert (forall l, (forall s, s ∈ l -> s ∉ rs) ->
    List.filter (fun s => negb (bool_decide (s ∈ rs))) l = l) as Hall.
  { induction l as [|x l IH]; intros Hl; [done|]. simpl. rewrite bool_decide_false by (apply Hl; by left). simpl.
    f_equal. apply IH. intros s Hs. apply Hl. by right. }
  assert (forall l, (forall s, s ∈ l -> s ∈ rs) ->
    List.filter (fun s => negb (bool_decide (s ∈ rs))) l = []) as Hnone.
  { induction l as [|x l IH]; intros Hl; [done|]. simpl. rewrite bool_decide_true by (apply Hl; by left). simpl.
    apply IH. intros s Hs. apply Hl. by right. }
  by rewrite (Hall ss Hd), (Hnone rs), app_nil_r.
Qed.

(** An offer with the lines and groups of some streams. *)
Lemma encodings_of_streams mo cname msid sim ss rs :
  Forall is_u32 ss -> Forall is_u32 rs -> NoDup ss -> NoDup rs -> (forall s, s ∈ ss -> s ∉ rs) ->
  ss <> [] -> (rs = [] \/ length ss = length rs) ->
  jfind mo "ssrcs" = Some (JArray (concat (map (ssrc_lines cname msid) (ss ++ rs)))) ->
  jfind mo "ssrcGroups" = Some (JArray (ssrc_group "SIM" sim :: zip_with fid_group ss rs)) ->
  getRtpEncodings mo = Ok (JArray (stream_encodings ss rs)).
Proof.
  intros Hss Hrs Hns Hnr Hd Hne Hlen El Eg. unfold getRtpEncodings. rewrite Eg.
  assert (jat mo "ssrcs" = Ok (JArray (concat (map (ssrc_lines cname msid) (ss ++ rs))))) as ->.
  { destruct mo; try discriminate El. cbn [jfind] in El. cbn [jat]. by rewrite El. }
  cbn [bind jiter]. rewrite line_ids by by apply Forall_app. cbn [bind].
  assert (is_nil (twice (ss ++ rs)) = false) as -> by by destruct ss.
  cbn [throw_if bind]. rewrite unique_twice by (apply NoDup_app; naive_solver).
  cbn [for_fold]. change (add_fid (ss ++ rs, empty) (ssrc_group "SIM" sim)) with (Ok (A := list Z * gmap Z Z) (ss ++ rs, empty)).
  cbn [bind]. destruct Hlen as [->|Hlen].
  - rewrite zip_with_nil_r, app_nil_r. cbn [for_fold bind]. reflexivity.
  - rewrite fid_fold by done. cbn [bind]. rewrite filter_streams by done.
    rewrite encodings_of_pairs by done. do 2 f_equal. unfold stream_encodings.
    destruct rs; [by destruct ss|done].
Qed.

(** [operator[]] inserts null only. *)
Lemma jref_found j k j' v : jref j k = Ok (j', v) -> v <> JNull -> j' = j /\ jfind j k = Some v.
Proof.
  destruct j; try discriminate; simpl; [by intros [= <- <-]|]. destruct (obj_get k o); by intros [= <- <-].
Qed.

(** The SSRC of the first line with the msid. *)
Definition msid_ssrc (mo : json) (ssrc : Z) : Prop :=
  exists lines line id, jfind mo "ssrcs" = Some lines /\ List.find is_msid_line (jiter lines) = Some line /\
    jfind line "id" = Some id /\ get_uint32 id = Ok ssrc.

(** What a successful [addLegacySimulcast] leaves behind. *)
Lemma legacy_simulcast_lines mo n mo' :
  1 < n -> addLegacySimulcast mo n = Ok mo' ->
  exists ssrc rtx cname msid,
    let ss := consecutive ssrc n in
    let rs := if rtx =? 0 then [] else consecutive rtx n in
    msid_ssrc mo ssrc /\
    jfind mo' "ssrcs" = Some (JArray (concat (map (ssrc_lines cname msid) (ss ++ rs)))) /\
    jfind mo' "ssrcGroups" = Some (JArray (ssrc_group "SIM" (join ss " ") :: zip_with fid_group ss rs)) /\
    getCname mo' = Ok cname.
Proof.
  intros Hn E. unfold addLegacySimulcast in E. rewrite (proj2 (Z.leb_gt _ _)) in E by lia.
  apply bind_Ok_inv in E as ([mo1 mSsrcs] & Es & E).
  destruct (List.find is_msid_line _) as [line|] eqn:Eline; [|discriminate].
  apply bind_Ok_inv in E as ([line' value] & Ev & E). apply bind_Ok_inv in E as (value' & Ev' & E).
  apply bind_Ok_inv in E as (streamId & _ & E). apply bind_Ok_inv in E as (trackId & _ & E).
  apply bind_Ok_inv in E as ([? id] & Eid & E). apply bind_Ok_inv in E as (ssrc & Essrc & E).
  apply bind_Ok_inv in E as (rtx & _ & E). destruct (List.find is_cname_line _) as [cline|]; [|discriminate].
  apply bind_Ok_inv in E as ([? c] & _ & E). apply bind_Ok_inv in E as (cname & _ & E). cbv zeta in E.
  apply bind_Ok_inv in E as (mo2 & E2 & E).
  exists ssrc, rtx, cname, (streamId +:+ " " +:+ trackId). cbv zeta.
  assert (jfind mo' "ssrcs" = Some (JArray (concat (map (ssrc_lines cname (streamId +:+ " " +:+ trackId))
    (consecutive ssrc n ++ (if rtx =? 0 then [] else consecutive rtx n)))))) as El by exact (jfind_jset_eq _ _ _ _ E).
  split; [|split; [exact El|split]].
  - apply jref_found in Es as [_ Es]; [|by intros ->]. apply jref_found in Ev as [-> _]; [|by intros ->].
    apply jref_found in Eid as [_ Eid]; [|by intros ->]. by exists mSsrcs, line, id.
  - rewrite (jfind_jset_ne mo2 "ssrcs" "ssrcGroups" _ mo' ltac:(discriminate) E). exact (jfind_jset_eq _ _ _ _ E2).
  - unfold getCname. rewrite El. unfold consecutive at 1. rewrite seqZ_cons by lia. reflexivity.
Qed.

(** ** Scalability modes *)

Lemma between_one a s : between (String a s) s = String a "".
Proof.
  unfold between. cbn [String.length]. replace (S (String.length s) - String.length s)%nat with 1%nat by lia.
  by destruct s.
Qed.

Lemma between_two a b s : between (String a (String b s)) s = String a (String b "").
Proof.
  unfold between. cbn [String.length]. replace (S (S (String.length s)) - String.length s)%nat with 2%nat by lia.
  by destruct s.
Qed.

(** A number of one or two digits without a leading zero. *)
Definition layer_number (s : string) : Prop :=
  exists z, stoull s = Ok z /\ 1 <= z <= 99.

Lemma digit_of_class a : in_class false [Range "1" "9"] a = true -> is_digit a = true /\ digit_value a <> 0.
Proof. by destruct a as [[] [] [] [] [] [] [] []]. Qed.

Lemma layer_one a : in_class false [Range "1" "9"] a = true -> layer_number (String a "").
Proof.
  intros Ha. destruct (digit_of_class a Ha) as [Hd Hne]. pose proof (digit_value_range a Hd).
  exists (digit_value a). split; [|lia]. unfold stoull.
  destruct (no_sign (String a "")) as [-> ->]; [by simpl; rewrite Hd|].
  cbn [read_digits]. rewrite Hd. cbn [Nat.eqb]. rewrite (proj2 (Z.leb_le _ _)) by lia. f_equal; lia.
Qed.

Lemma layer_two a b : in_class false [Range "1" "9"] a = true -> in_class false [Digit] b = true ->
  layer_number (String a (String b "")).
Proof.
  intros Ha Hb. destruct (digit_of_class a Ha) as [Hd Hne]. pose proof (digit_value_range a Hd).
  assert (is_digit b = true) as Hdb. { unfold in_class in Hb. simpl in Hb. by rewrite orb_false_r in Hb. }
  pose proof (digit_value_range b Hdb). exists (10 * digit_value a + digit_value b). split; [|lia].
  unfold stoull. destruct (no_sign (String a (String b ""))) as [-> ->]; [by simpl; rewrite Hd, Hdb|].
  cbn [read_digits]. rewrite Hd. cbn [read_digits]. rewrite Hdb. cbn [Nat.eqb].
  rewrite (proj2 (Z.leb_le _ _)) by lia. f_equal; lia.
Qed.

Definition layer_re (n : nat) : re :=
  Cap n (Cat (Cat Emp (Chars false [Range "1" "9"])) (Or (Chars false [Digit]) Emp)).

(** What the group around a number captures. *)
Lemma layer_capture total n s c s' c' :
  matches total (layer_re n) s c s' c' ->
  exists text, c' = (n, text) :: c /\ layer_number text.
Proof.
  intros H. inversion H as [| | | | | | |? ? ? ? ? ? H1| |]; subst; clear H.
  inversion H1 as [| |? ? ? ? ? ? ? ? H2 H3| | | | | | |]; subst; clear H1.
  inversion H2 as [| |? ? ? ? ? ? ? ? H4 H5| | | | | | |]; subst; clear H2.
  inversion H4; subst; clear H4. inversion H5; subst; clear H5.
  inversion H3 as [| | |? ? ? ? ? ? H6|? ? ? ? ? ? H6| | | | |]; subst; clear H3; inversion H6; subst; clear H6.
  - eexists. split; [reflexivity|]. rewrite between_two. by apply layer_two.
  - eexists. split; [reflexivity|]. rewrite between_one. by apply layer_one.
Qed.

Lemma many_captures total a s c s' c' :
  matches total (Many (Chars true a)) s c s' c' -> c' = c.
Proof.
  remember (Many (Chars true a)) as r eqn:Er. intros H. revert Er.
  induction H as [| | | | |a' s c|a' s c s1 c1 s2 c2 H1 _ Hne _ IH| | |]; intros [= ->]; try done.
  rewrite IH by done. by inversion H1.
Qed.

Lemma scalability_regex : ScalabilityModeRegex =
  Cat (Cat (Cat (Cat (Cat (Cat Emp Begin) (Chars false [Range "L" "L"; Range "S" "S"])) (layer_re 1))
    (Chars false [Range "T" "T"])) (layer_re 2)) (Many any).
Proof. vm_compute. reflexivity. Qed.

Lemma scalability_groups s c :
  regex_match ScalabilityModeRegex s = Some c -> layer_number (group c 1) /\ layer_number (group c 2).
Proof.
  intros H. apply matcher_sound in H as (s' & c' & H & Hk). destruct s'; [|done]. injection Hk as ->.
  rewrite scalability_regex in H.
  inversion H as [| |? ? ? ? ? ? ? ? H1 Hm| | | | | | |]; subst; clear H. apply many_captures in Hm as ->.
  inversion H1 as [| |? ? ? ? ? ? ? ? H2 Hc2| | | | | | |]; subst; clear H1.
  inversion H2 as [| |? ? ? ? ? ? ? ? H3 Ht| | | | | | |]; subst; clear H2. inversion Ht; subst; clear Ht.
  inversion H3 as [| |? ? ? ? ? ? ? ? H4 Hc1| | | | | | |]; subst; clear H3.
  apply layer_capture in Hc1 as (t1 & -> & L1), Hc2 as (t2 & -> & L2).
  done.
Qed.

(** All modes of two numbers. *)
Definition reads_back (prefix suffix : string) (spatial temporal : Z) : bool :=
  match parseScalabilityMode (prefix +:+ to_string spatial +:+ "T" +:+ to_string temporal +:+ suffix) with
  | Ok (JObject [(k1, JUint a); (k2, JUint b)]) =>
      String.eqb k1 "spatialLayers" && String.eqb k2 "temporalLayers" && (a =? spatial) && (b =? temporal)
  | _ => false
  end.

Lemma reads_back_eq prefix suffix spatial temporal :
  reads_back prefix suffix spatial temporal = true ->
  parseScalabilityMode (prefix +:+ to_string spatial +:+ "T" +:+ to_string temporal +:+ suffix)
  = Ok (JObj [("spatialLayers", JUint spatial); ("temporalLayers", JUint temporal)]).
Proof.
  unfold reads_back. destruct (parseScalabilityMode _) as [j| | |]; try done.
  destruct j as [| | | | | | |[|[k1 []] [|[k2 []] [|]]]]; try done.
  rewrite !andb_true_iff. by intros [[[->%String.eqb_eq ->%String.eqb_eq] ->%Z.eqb_eq] ->%Z.eqb_eq].
Qed.

Lemma reads_all :
  forallb (fun p => forallb (fun q => forallb (fun a => forallb (reads_back p q a)
    (seqZ 1 9)) (seqZ 1 9)) [""; "_KEY"]) ["L"; "S"] = true.
Proof. vm_compute. reflexivity. Qed.

(** ** Theorems *)


(** The layers of a scalability mode.  Every string has some: both numbers
    are between 1 and 99, so they fit the 8-bit count of streams.  A mode with
    two numbers of one digit, with or without the key-frame suffix, is read as
    these numbers. *)
Theorem scalability_layers_in_range :
  (forall s, exists layers spatial temporal,
     parseScalabilityMode s = Ok layers /\
     get_at get_int32 layers "spatialLayers" = Ok spatial /\ 1 <= spatial <= 99 /\
     get_at get_int32 layers "temporalLayers" = Ok temporal /\ 1 <= temporal <= 99) /\
  (forall prefix suffix spatial temporal,
     In prefix ["L"; "S"] -> In suffix [""; "_KEY"] -> 1 <= spatial <= 9 -> 1 <= temporal <= 9 ->
     parseScalabilityMode (prefix +:+ to_string spatial +:+ "T" +:+ to_string temporal +:+ suffix)
     = Ok (JObj [("spatialLayers", JUint spatial); ("temporalLayers", JUint temporal)])).
Proof.
  split.
  - intros s. unfold parseScalabilityMode.
    destruct (regex_match ScalabilityModeRegex s) as [c|] eqn:E; [|by exists (JObj [("spatialLayers", JInt 1); ("temporalLayers", JInt 1)]), 1, 1].
    destruct (scalability_groups s c E) as [(z1 & -> & H1) (z2 & -> & H2)].
    eexists _, z1, z2. split; [reflexivity|].
    assert (forall z, 1 <= z <= 99 -> i32 z = z) as Hi by (intros z Hz; unfold i32, sint; rewrite Z.mod_small by lia;
      by rewrite (proj2 (Z.ltb_lt _ _)) by lia).
    split; [|split; [done|split; [|done]]].
    + change (Ok (i32 z1) = Ok z1). by rewrite Hi.
    + change (Ok (i32 z2) = Ok z2). by rewrite Hi.
  - intros prefix suffix spatial temporal Hp Hs Ha Hb.
    pose proof reads_all as Hall. rewrite forallb_forall in Hall. specialize (Hall prefix Hp).
    rewrite forallb_forall in Hall. specialize (Hall suffix Hs).
    rewrite forallb_forall in Hall. specialize (Hall spatial ltac:(apply list_elem_of_In, elem_of_seqZ; lia)).
    rewrite forallb_forall in Hall. specialize (Hall temporal ltac:(apply list_elem_of_In, elem_of_seqZ; lia)).
    by apply reads_back_eq.
Qed.

(** ** An offer with one stream and its retransmission *)

Definition one_stream : json := JObj
  [("ssrcs", JArray (concat (map (ssrc_lines "c" "m t") [4294967295; 77])));
   ("ssrcGroups", JArray [fid_group 4294967295 77])].

Definition three_streams : json :=
  match addLegacySimulcast one_stream 3 with Ok mo => mo | _ => JNull end.


Lemma scalability_layers_in_range_witness :
  parseScalabilityMode "L3T2_KEY" = Ok (JObj [("spatialLayers", JUint 3); ("temporalLayers", JUint 2)]).
Proof.
  exact (proj2 scalability_layers_in_range "L" "_KEY" 3 2 ltac:(left; reflexivity)
    ltac:(right; left; reflexivity) ltac:(lia) ltac:(lia)).
Defined.
