(* ===== verification/RemoteSdp.v ===== *)
(** The SDP the remote side is described with: src/sdp/RemoteSdp.cpp of
    libmediasoupclient.

    [RemoteSdp.t] is the state of the class, one definition per method.  The
    text of [GetSdp] is printed by [SdpWriter.write], which also completes the
    SDP object. *)

From stdpp Require Import gmap.
From S2P Require Import Prelude Json OrtcValidate Ortc MediaSection Streams SdpWriter.

Module RemoteSdp.

Record t : Type := Mk {
  iceParameters : json;
  iceCandidates : json;
  dtlsParameters : json;
  sctpParameters : json;
  mediaSections : list MediaSection;
  midToIndex : gmap string nat;
  firstMid : string;
  sdpObject : json
}.

Record MediaSectionIdx : Type := SectionIdx { idx : nat; reuseMid : string }.

Definition set_sections (r : t) (sections : list MediaSection) (index : gmap string nat)
    (first : string) (sdp : json) : t :=
  Mk (iceParameters r) (iceCandidates r) (dtlsParameters r) (sctpParameters r)
     sections index first sdp.

(** ** Construction *)

Definition initial_object : json := JObj
  [("version", JInt 0);
   ("origin", JObj
     [("address", JString "0.0.0.0"); ("ipVer", JInt 4); ("netType", JString "IN");
      ("sessionId", JInt 10000); ("sessionVersion", JInt 0);
      ("username", JString "libmediasoupclient")]);
   ("name", JString "-");
   ("timing", JObj [("start", JInt 0); ("stop", JInt 0)]);
   ("media", JArray [])].

Definition set_icelite (sdp iceParameters : json) : res json :=
  if jcontains iceParameters "iceLite" then jset sdp "icelite" (JString "ice-lite") else Ok sdp.

(** [dtlsParameters.at("fingerprints")[n - 1][key]]; with no fingerprint the
    index wraps around and nothing is there. *)
Definition last_fingerprint (dtls : json) (n : nat) (key : string) : res (json * json) :=
  let* fingerprints := jat_checked dtls "fingerprints" in
  match n with
  | O => if is_array fingerprints || is_null fingerprints then Undef UbIndex
         else Throw (JsonTypeError 305)
  | S i =>
      let* (fingerprints, fp) := jidx_ref fingerprints i in
      let* (fp, v) := jref fp key in
      let* fingerprints := jidx_set fingerprints i fp in
      let* dtls := jset dtls "fingerprints" fingerprints in
      Ok (dtls, v)
  end.

Definition make (iceParameters iceCandidates dtlsParameters sctpParameters : json) : res t :=
  let* sdp := set_icelite initial_object iceParameters in
  let* sdp := jset sdp "msidSemantic" (JObj [("semantic", JString "WMS"); ("token", JString "*")]) in
  let* (dtls, fingerprints) := jref dtlsParameters "fingerprints" in
  let numFingerprints := jsize fingerprints in
  let* (dtls, type) := last_fingerprint dtls numFingerprints "algorithm" in
  let* (dtls, hash) := last_fingerprint dtls numFingerprints "value" in
  let* sdp := jset sdp "fingerprint" (JObj [("type", type); ("hash", hash)]) in
  let* sdp := jset sdp "groups"
    (JArray [JObj [("type", JString "BUNDLE"); ("mids", JString "")]]) in
  Ok (Mk iceParameters iceCandidates dtls sctpParameters [] empty "" sdp).

(** ** Private methods *)

(** [midToIndex[mid]]: an unknown mid is inserted with index 0. *)
Definition index_of (index : gmap string nat) (mid : string) : gmap string nat * nat :=
  match index !! mid with
  | Some i => (index, i)
  | None => (<[mid := O]> index, O)
  end.

(** [mediaSections[idx]] *)
Definition section_at (sections : list MediaSection) (i : nat) : res MediaSection :=
  match sections !! i with Some s => Ok s | None => Undef UbIndex end.

(** [sdpObject["media"][idx] = object] *)
Definition set_media (sdp : json) (i : nat) (object : json) : res json :=
  let* (sdp, media) := jref sdp "media" in
  let* media := jidx_set media i object in
  jset sdp "media" media.

Definition add_mid (mids : string) (s : MediaSection) : res string :=
  let* closed := IsClosed s in
  if closed then Ok mids
  else
    let* mid := GetMid s in
    Ok (if str_empty mids then mid else mids +:+ " " +:+ mid).

Definition RegenerateBundleMids (r : t) : res t :=
  let* mids := for_fold add_mid "" (mediaSections r) in
  let* (sdp, groups) := jref (sdpObject r) "groups" in
  let* (groups, group) := jidx_ref groups 0 in
  let* group := jset group "mids" (JString mids) in
  let* groups := jidx_set groups 0 group in
  let* sdp := jset sdp "groups" groups in
  Ok (set_sections r (mediaSections r) (midToIndex r) (firstMid r) sdp).

Definition AddMediaSection (r : t) (s : MediaSection) : res t :=
  let* first := if str_empty (firstMid r) then GetMid s else Ok (firstMid r) in
  let sections := mediaSections r ++ [s] in
  let* mid := GetMid s in
  let index := <[mid := (length sections - 1)%nat]> (midToIndex r) in
  let* sdp := jpush_at (sdpObject r) "media" (GetObject s) in
  RegenerateBundleMids (set_sections r sections index first sdp).

Definition ReplaceMediaSection (r : t) (s : MediaSection) (reuseMid : string) : res t :=
  if negb (str_empty reuseMid) then
    let '(index, i) := index_of (midToIndex r) reuseMid in
    let* old := section_at (mediaSections r) i in
    let sections := <[i := s]> (mediaSections r) in
    let* oldMid := GetMid old in
    let index := delete oldMid index in
    let* mid := GetMid s in
    let index := <[mid := i]> index in
    let* sdp := set_media (sdpObject r) i (GetObject s) in
    RegenerateBundleMids (set_sections r sections index (firstMid r) sdp)
  else
    let* mid := GetMid s in
    let '(index, i) := index_of (midToIndex r) mid in
    let* _ := section_at (mediaSections r) i in
    let sections := <[i := s]> (mediaSections r) in
    let* sdp := set_media (sdpObject r) (length sections - 1) (GetObject s) in
    Ok (set_sections r sections index (firstMid r) sdp).

(** ** Public methods *)

(** The loop of the two update methods over the sections: the sections done
    so far and the SDP object. *)
Definition update_one (f : MediaSection -> res MediaSection) (st : list MediaSection * json)
    (s : MediaSection) : res (list MediaSection * json) :=
  let '(sections, sdp) := st in
  let* s := f s in
  let* sdp := set_media sdp (length sections) (GetObject s) in
  Ok (sections ++ [s], sdp).

Definition update_sections (f : MediaSection -> res MediaSection) (r : t) (sdp : json) : res t :=
  let* (sections, sdp) := for_fold (update_one f) ([], sdp) (mediaSections r) in
  Ok (set_sections r sections (midToIndex r) (firstMid r) sdp).

Definition UpdateIceParameters (r : t) (iceParameters : json) : res t :=
  let r := Mk iceParameters (iceCandidates r) (dtlsParameters r) (sctpParameters r)
              (mediaSections r) (midToIndex r) (firstMid r) (sdpObject r) in
  let* sdp := set_icelite (sdpObject r) iceParameters in
  update_sections (fun s =>
      let* mo := SetIceParameters (mediaObject s) iceParameters in
      Ok (Section_ (class_of s) mo)) r sdp.

Definition UpdateDtlsRole (r : t) (role : string) : res t :=
  let* dtls := jset (dtlsParameters r) "role" (JString role) in
  let r := Mk (iceParameters r) (iceCandidates r) dtls (sctpParameters r)
              (mediaSections r) (midToIndex r) (firstMid r) (sdpObject r) in
  let* sdp := set_icelite (sdpObject r) (iceParameters r) in
  update_sections (fun s => SetDtlsRole s role) r sdp.

Fixpoint next_idx (sections : list MediaSection) (i : nat) : res MediaSectionIdx :=
  match sections with
  | [] => Ok (SectionIdx i "")
  | s :: sections =>
      let* closed := IsClosed s in
      if closed then let* mid := GetMid s in Ok (SectionIdx i mid)
      else next_idx sections (S i)
  end.

Definition GetNextMediaSectionIdx (r : t) : res MediaSectionIdx := next_idx (mediaSections r) 0.

(** [Send]: also the offer's and the answer's RTP parameters afterwards. *)
Definition Send (r : t) (offerMediaObject : json) (reuseMid : string)
    (offerRtpParameters answerRtpParameters : json) (codecOptions : option json)
    : res (t * json * json) :=
  let* (s, offer, answer) :=
    AnswerMediaSection (iceParameters r) (iceCandidates r) (dtlsParameters r) (sctpParameters r)
      offerMediaObject offerRtpParameters answerRtpParameters codecOptions in
  let* r := if negb (str_empty reuseMid) then ReplaceMediaSection r s reuseMid
            else AddMediaSection r s in
  Ok (r, offer, answer).

Definition SendSctpAssociation (r : t) (offerMediaObject : json) : res t :=
  let* (s, _, _) :=
    AnswerMediaSection (iceParameters r) (iceCandidates r) (dtlsParameters r) (sctpParameters r)
      offerMediaObject JNull JNull None in
  AddMediaSection r s.

Definition RecvSctpAssociation (r : t) : res t :=
  let* s :=
    OfferMediaSection (iceParameters r) (iceCandidates r) (dtlsParameters r) (sctpParameters r)
      "datachannel" "application" JNull "" "" in
  AddMediaSection r s.

Definition Receive (r : t) (mid kind : string) (offerRtpParameters : json)
    (streamId trackId : string) : res t :=
  let* s :=
    OfferMediaSection (iceParameters r) (iceCandidates r) (dtlsParameters r) JNull
      mid kind offerRtpParameters streamId trackId in
  let* closed := find_if IsClosed (mediaSections r) in
  match closed with
  | Some old => let* reuseMid := GetMid old in ReplaceMediaSection r s reuseMid
  | None => AddMediaSection r s
  end.

Definition DisableMediaSection (r : t) (mid : string) : res t :=
  let '(index, i) := index_of (midToIndex r) mid in
  let* s := section_at (mediaSections r) i in
  let* s := Disable s in
  Ok (set_sections r (<[i := s]> (mediaSections r)) index (firstMid r) (sdpObject r)).

Definition CloseMediaSection (r : t) (mid : string) : res t :=
  let '(index, i) := index_of (midToIndex r) mid in
  let* s := section_at (mediaSections r) i in
  let* s := if String.eqb mid (firstMid r) then Disable s else Close s in
  let* sdp := set_media (sdpObject r) i (GetObject s) in
  RegenerateBundleMids
    (set_sections r (<[i := s]> (mediaSections r)) index (firstMid r) sdp).

(** The object printed by [GetSdp], with the next session version. *)
Definition next_version (sdp : json) : res json :=
  let* (sdp, origin) := jref sdp "origin" in
  let* (origin, v) := jref origin "sessionVersion" in
  let* version := get_uint32 v in
  let* origin := jset origin "sessionVersion" (JUint (u32 (version + 1))) in
  jset sdp "origin" origin.

(** [sdptransform::write] takes the object by reference and may complete it. *)
Definition GetSdp `{FloatText} (r : t) : res (t * string) :=
  let* sdp := next_version (sdpObject r) in
  let* (sdp, text) := write sdp in
  Ok (set_sections r (mediaSections r) (midToIndex r) (firstMid r) sdp, text).

End RemoteSdp.
