(* ===== verification/RemoteSdpFacts.v ===== *)
(** [RemoteSdp] keeps an ordered list of m-sections.

    [line] is the abstract m-section, a mid and whether it is closed; [rep r l]
    says that every part of the state of [r] describes the list [l], and each
    method acts on [l] as [lstep] says. *)

From stdpp Require Import gmap.
From S2P Require Import Prelude Json OrtcValidate Ortc Streams SdpWriter MediaSection RemoteSdp.
Import RemoteSdp.

Abbreviation line := (string * bool)%type.

Definition line_mid (ln : line) : string := ln.1.
Definition mids (l : list line) : list string := line_mid <$> l.
Definition open_mids (l : list line) : list string :=
  line_mid <$> List.filter (fun ln => negb ln.2) l.

(** The mids of the BUNDLE group: the open sections in order. *)
Definition bundle (l : list line) : string := String.concat " " (open_mids l).

(** ** The abstract methods *)

Definition ladd (mid : string) (l : list line) : list line := l ++ [(mid, false)].

(** A closed section is taken over before a new one is added. *)
Definition first_closed (l : list line) : option nat :=
  fst <$> list_find (fun ln : line => ln.2 = true) l.

Definition lreceive (mid : string) (l : list line) : list line :=
  match first_closed l with
  | Some i => <[i := (mid, false)]> l
  | None => ladd mid l
  end.

Definition lreuse (reuse mid : string) (l : list line) : list line :=
  (fun ln : line => if String.eqb ln.1 reuse then (mid, false) else ln) <$> l.

(** The first section is never closed. *)
Definition lclose (mid : string) (l : list line) : list line :=
  match l with
  | [] => []
  | first :: rest =>
      if String.eqb mid first.1 then l
      else first :: ((fun ln : line => if String.eqb ln.1 mid then (mid, true) else ln) <$> rest)
  end.

(** ** The methods as steps *)

Inductive op : Type :=
| OpIce (ice : json)
| OpRole (role : string)
| OpSend (offerMedia : json) (reuse : string) (offer answer : json) (options : option json)
| OpSendSctp (offerMedia : json)
| OpRecvSctp
| OpReceive (mid kind : string) (params : json) (streamId trackId : string)
| OpClose (mid : string)
| OpGetSdp.

Section Steps.
Context `{FloatText}.

Definition step (r : t) (o : op) : res t :=
  match o with
  | OpIce ice => UpdateIceParameters r ice
  | OpRole role => UpdateDtlsRole r role
  | OpSend offerMedia reuse offer answer options =>
      let* (r, _, _) := Send r offerMedia reuse offer answer options in Ok r
  | OpSendSctp offerMedia => SendSctpAssociation r offerMedia
  | OpRecvSctp => RecvSctpAssociation r
  | OpReceive mid kind params streamId trackId => Receive r mid kind params streamId trackId
  | OpClose mid => CloseMediaSection r mid
  | OpGetSdp => let* (r, _) := GetSdp r in Ok r
  end.

(** The part of a step that depends on its arguments: the constructor of the
    new section, the writer. *)
Definition prepare (r : t) (o : op) : res unit :=
  match o with
  | OpSend offerMedia _ offer answer options =>
      do* AnswerMediaSection (iceParameters r) (iceCandidates r) (dtlsParameters r)
            (sctpParameters r) offerMedia offer answer options in Ok tt
  | OpSendSctp offerMedia =>
      do* AnswerMediaSection (iceParameters r) (iceCandidates r) (dtlsParameters r)
            (sctpParameters r) offerMedia JNull JNull None in Ok tt
  | OpRecvSctp =>
      do* OfferMediaSection (iceParameters r) (iceCandidates r) (dtlsParameters r)
            (sctpParameters r) "datachannel" "application" JNull "" "" in Ok tt
  | OpReceive mid kind params streamId trackId =>
      do* OfferMediaSection (iceParameters r) (iceCandidates r) (dtlsParameters r) JNull
            mid kind params streamId trackId in Ok tt
  | OpGetSdp => let* sdp := next_version (sdpObject r) in do* write sdp in Ok tt
  | _ => Ok tt
  end.
End Steps.

Definition offer_mid (offerMedia : json) : string :=
  match jfind offerMedia "mid" with Some (JString mid) => mid | _ => "" end.

Definition lstep (l : list line) (o : op) : list line :=
  match o with
  | OpSend offerMedia reuse _ _ _ =>
      if str_empty reuse then ladd (offer_mid offerMedia) l
      else lreuse reuse (offer_mid offerMedia) l
  | OpSendSctp offerMedia => ladd (offer_mid offerMedia) l
  | OpRecvSctp => ladd "datachannel" l
  | OpReceive mid _ _ _ _ => lreceive mid l
  | OpClose mid => lclose mid l
  | OpIce _ | OpRole _ | OpGetSdp => l
  end.

Definition fresh_mid (mid : string) (l : list line) : bool :=
  negb (str_empty mid) && forallb (fun m => negb (String.eqb m mid)) (mids l).

(** What the callers ensure: new mids are new, only a closed section is
    reused, the section to close is there, and the ICE parameters are
    complete. *)
Definition op_ok (l : list line) (o : op) : bool :=
  match o with
  | OpIce ice => jcontains ice "usernameFragment" && jcontains ice "password"
  | OpSend offerMedia reuse _ _ _ =>
      fresh_mid (offer_mid offerMedia) l &&
      (str_empty reuse || existsb (fun ln => String.eqb ln.1 reuse && ln.2) l)
  | OpSendSctp offerMedia => fresh_mid (offer_mid offerMedia) l
  | OpRecvSctp => fresh_mid "datachannel" l
  | OpReceive mid _ _ _ _ => fresh_mid mid l
  | OpClose mid => existsb (String.eqb mid) (mids l)
  | OpRole _ | OpGetSdp => true
  end.

(** ** The representation *)

(** The entry of a section in the [media] array: its object, to which the
    writer has added an empty payload list if there was none. *)
Definition shown (s : MediaSection) (v : json) : Prop :=
  v = mediaObject s \/
  (jcontains (mediaObject s) "payloads" = false /\
   jset (mediaObject s) "payloads" (JString EmptyString) = Ok v).

(** The SDP object: the media array, one BUNDLE group, a session version. *)
Record sdp_is (secs : list MediaSection) (group : string) (sdp : json) : Prop := SdpIs {
  sdp_object : is_object sdp = true;
  sdp_media : exists media, jfind sdp "media" = Some (JArray media) /\ Forall2 shown secs media;
  sdp_groups : exists g, jfind sdp "groups" = Some (JArray [JObject g]) /\
                         obj_get "mids" g = Some (JString group);
  sdp_origin : exists o v, jfind sdp "origin" = Some (JObject o) /\
                           obj_get "sessionVersion" o = Some v /\
                           (exists z, v = JInt z \/ v = JUint z)
}.

Definition line_is (s : MediaSection) (ln : line) : Prop := section_is ln.1 ln.2 s.

Record rep (r : t) (l : list line) : Prop := Rep {
  rep_sections : Forall2 line_is (mediaSections r) l;
  rep_nodup : NoDup (mids l);
  rep_named : Forall (fun mid => mid <> "") (mids l);
  rep_index : forall mid i, midToIndex r !! mid = Some i <-> mids l !! i = Some mid;
  rep_first : firstMid r = default "" (head (mids l));
  rep_first_open : forall ln, head l = Some ln -> ln.2 = false;
  rep_dtls : is_object (dtlsParameters r) = true;
  rep_sdp : sdp_is (mediaSections r) (bundle l) (sdpObject r)
}.

(** ** The BUNDLE group *)

Definition join_mid (acc mid : string) : string :=
  if str_empty acc then mid else acc +:+ " " +:+ mid.

Lemma add_mids secs l acc :
  Forall2 line_is secs l -> for_fold add_mid acc secs = Ok (foldl join_mid acc (open_mids l)).
Proof.
  intros H. revert acc. induction H as [|s [mid closed] secs l Hs Hl IH]; intros acc; simpl; [done|].
  unfold add_mid at 1. rewrite (IsClosed_is _ _ _ Hs). cbn [bind].
  destruct closed; cbn [bind]; [apply IH|].
  rewrite (GetMid_is _ _ _ Hs). cbn [bind]. apply IH.
Qed.

Lemma str_app_nonempty a b : a <> "" -> a +:+ b <> "".
Proof. by destruct a. Qed.

Lemma join_nonempty acc ms :
  acc <> "" -> foldl join_mid acc ms = String.concat " " (acc :: ms).
Proof.
  revert acc. induction ms as [|m ms IH]; intros acc Hacc; [done|].
  simpl foldl. unfold join_mid at 2. destruct acc as [|a acc]; [done|]. cbn [str_empty].
  rewrite IH by (by apply str_app_nonempty).
  destruct ms as [|m' ms]; [done|].
  change (String.concat " " (String a acc :: m :: m' :: ms))
    with (String a acc +:+ " " +:+ (m +:+ " " +:+ String.concat " " (m' :: ms))).
  change (String.concat " " ((String a acc +:+ " " +:+ m) :: m' :: ms))
    with ((String a acc +:+ " " +:+ m) +:+ " " +:+ String.concat " " (m' :: ms)).
  by rewrite !str_app_assoc.
Qed.

Lemma join_concat ms :
  Forall (fun mid => mid <> "") ms -> foldl join_mid "" ms = String.concat " " ms.
Proof. intros H. destruct H as [|m ms Hm Hms]; [done|]. simpl foldl. by apply join_nonempty. Qed.

Lemma open_mids_named l :
  Forall (fun mid => mid <> "") (mids l) -> Forall (fun mid => mid <> "") (open_mids l).
Proof.
  unfold mids, open_mids. induction l as [|[mid []] l IH]; simpl; inversion 1; subst; auto.
Qed.

(** ** The SDP object *)

Lemma jref_jfind j k v : jfind j k = Some v -> jref j k = Ok (j, v).
Proof. destruct j; try done. simpl. by intros ->. Qed.

Lemma jidx_ref_some l i v : l !! i = Some v -> jidx_ref (JArray l) i = Ok (JArray l, v).
Proof. simpl. by intros ->. Qed.

Lemma jidx_set_some l i v w : l !! i = Some w -> jidx_set (JArray l) i v = Ok (JArray (<[i := v]> l)).
Proof. intros H. unfold jidx_set. by rewrite (jidx_ref_some _ _ _ H). Qed.

Lemma jset_jfind j k v :
  is_object j = true ->
  exists j', jset j k v = Ok j' /\ is_object j' = true /\ jfind j' k = Some v /\
             forall k', k <> k' -> jfind j' k' = jfind j k'.
Proof.
  destruct j as [| | | | | | |o]; try done. intros _. eexists. split; [reflexivity|].
  split; [done|]. simpl. split; [apply obj_get_set_eq|]. intros. by apply obj_get_set_ne.
Qed.

Section SdpObject.
Context (secs : list MediaSection) (group : string) (sdp : json).
Hypothesis Hsdp : sdp_is secs group sdp.

Lemma sdp_set_other k v :
  k <> "media" -> k <> "groups" -> k <> "origin" ->
  exists sdp', jset sdp k v = Ok sdp' /\ sdp_is secs group sdp'.
Proof.
  intros H1 H2 H3. destruct Hsdp as [Ho Hm Hg Hv].
  destruct (jset_jfind sdp k v Ho) as (sdp' & E & Ho' & _ & Hk).
  exists sdp'. split; [done|]. split; rewrite ?Hk by done; done.
Qed.

Lemma sdp_set_media secs' media' :
  Forall2 shown secs' media' ->
  exists sdp', jset sdp "media" (JArray media') = Ok sdp' /\ sdp_is secs' group sdp'.
Proof.
  intros Hsh. destruct Hsdp as [Ho Hm Hg Hv].
  destruct (jset_jfind sdp "media" (JArray media') Ho) as (sdp' & E & Ho' & Hk' & Hk).
  exists sdp'. split; [done|]. split; rewrite ?Hk by done; try done. by exists media'.
Qed.

Lemma set_media_is i s w :
  secs !! i = Some w ->
  exists sdp', set_media sdp i (GetObject s) = Ok sdp' /\ sdp_is (<[i := s]> secs) group sdp'.
Proof.
  intros Hi. destruct (sdp_media _ _ _ Hsdp) as (media & Hm & Hsh).
  destruct (Forall2_lookup_l _ _ _ i w Hsh Hi) as (v & Hv & _).
  unfold set_media. rewrite (jref_jfind _ _ _ Hm). cbn [bind].
  rewrite (jidx_set_some _ _ _ _ Hv). cbn [bind]. apply sdp_set_media.
  apply Forall2_insert; [done|]. by left.
Qed.

Lemma push_media_is s :
  exists sdp', jpush_at sdp "media" (GetObject s) = Ok sdp' /\ sdp_is (secs ++ [s]) group sdp'.
Proof.
  destruct (sdp_media _ _ _ Hsdp) as (media & Hm & Hsh).
  unfold jpush_at. rewrite (jref_jfind _ _ _ Hm). cbn [bind jpush]. apply sdp_set_media.
  apply Forall2_app; [done|]. apply Forall2_cons. split; [by left|by apply Forall2_nil].
Qed.

Lemma set_icelite_is ice : exists sdp', set_icelite sdp ice = Ok sdp' /\ sdp_is secs group sdp'.
Proof.
  unfold set_icelite. destruct (jcontains ice "iceLite"); [by apply sdp_set_other|by exists sdp].
Qed.

Lemma regenerate_is r l :
  sdpObject r = sdp -> Forall2 line_is (mediaSections r) l ->
  Forall (fun mid => mid <> "") (mids l) ->
  exists sdp', RegenerateBundleMids r
    = Ok (set_sections r (mediaSections r) (midToIndex r) (firstMid r) sdp') /\
    sdp_is secs (bundle l) sdp'.
Proof.
  intros Hr Hl Hn. unfold RegenerateBundleMids. rewrite (add_mids _ _ _ Hl), Hr. cbn [bind].
  rewrite (join_concat _ (open_mids_named _ Hn)). fold (bundle l).
  destruct Hsdp as [Ho Hm (g & Hg & Hgm) Hv].
  rewrite (jref_jfind _ _ _ Hg). cbn [bind]. rewrite (jidx_ref_some [JObject g] 0 _ eq_refl).
  cbn [bind jset]. rewrite (jidx_set_some [JObject g] 0 _ _ eq_refl). cbn [bind].
  match goal with |- context [jset sdp "groups" ?v] =>
    destruct (jset_jfind sdp "groups" v Ho) as (sdp' & -> & Ho' & Hk' & Hk) end.
  exists sdp'. split; [done|]. split; rewrite ?Hk by done; try done.
  eexists. split; [exact Hk'|]. apply obj_get_set_eq.
Qed.

(** Each text has the next session version, modulo 2^32. *)
Lemma next_version_is :
  exists sdp', next_version sdp = Ok sdp' /\ sdp_is secs group sdp'.
Proof.
  destruct Hsdp as [Ho Hm Hg (o & v & Hor & Hv & z & Hz)]. unfold next_version.
  rewrite (jref_jfind _ _ _ Hor). cbn [bind]. rewrite (jref_jfind (JObject o) _ _ Hv). cbn [bind].
  assert (get_uint32 v = Ok (u32 z)) as -> by (by destruct Hz; subst).
  cbn [bind jset].
  match goal with |- context [jset sdp "origin" ?w] =>
    destruct (jset_jfind sdp "origin" w Ho) as (sdp' & -> & Ho' & Hk' & Hk) end.
  exists sdp'. split; [done|]. split; rewrite ?Hk by done; try done.
  eexists _, _. split; [exact Hk'|]. split; [apply obj_get_set_eq|]. by eexists; right.
Qed.

Lemma ensure_other_is k v :
  k <> "media" -> k <> "groups" -> k <> "origin" ->
  exists sdp', ensure_field sdp k v = Ok sdp' /\ sdp_is secs group sdp'.
Proof.
  intros. unfold ensure_field. destruct (jcontains sdp k); [by exists sdp|by apply sdp_set_other].
Qed.
End SdpObject.

Lemma ensure_payloads_shown s v :
  is_object (mediaObject s) = true -> shown s v ->
  exists v', ensure_field v "payloads" (JString EmptyString) = Ok v' /\ shown s v'.
Proof.
  intros Ho [->|[Hn E]]; unfold ensure_field.
  - destruct (jcontains (mediaObject s) "payloads") eqn:E.
    + exists (mediaObject s). split; [done|by left].
    + destruct (jset_jfind (mediaObject s) "payloads" (JString EmptyString) Ho) as (v' & E' & _).
      exists v'. split; [done|]. right. by split.
  - destruct (jset_jfind (mediaObject s) "payloads" (JString EmptyString) Ho) as (v' & E' & _ & Hf & _).
    rewrite E in E'. injection E' as <-. unfold jcontains. rewrite Hf. exists v. split; [done|]. right. by split.
Qed.

Lemma ensure_payloads_all secs media :
  Forall (fun s => is_object (mediaObject s) = true) secs -> Forall2 shown secs media ->
  exists media', for_each (fun v => ensure_field v "payloads" (JString EmptyString)) media = Ok media' /\
    Forall2 shown secs media'.
Proof.
  intros Ho H. induction H as [|s v secs media Hs H IH]; simpl; [by exists []|].
  inversion Ho as [|? ? Ho1 Ho2]; subst.
  destruct (ensure_payloads_shown s v Ho1 Hs) as (v' & -> & Hv'). cbn [bind].
  destruct (IH Ho2) as (media' & -> & Hm'). exists (v' :: media'). split; [done|]. by constructor.
Qed.

(** What the writer adds to the object changes no section. *)
Lemma write_is `{FloatText} secs group sdp sdp' text :
  sdp_is secs group sdp -> Forall (fun s => is_object (mediaObject s) = true) secs ->
  write sdp = Ok (sdp', text) -> sdp_is secs group sdp'.
Proof.
  intros H0 Ho. unfold write. rewrite (sdp_object _ _ _ H0). cbn [negb throw_if bind].
  destruct (ensure_other_is _ _ _ H0 "version" (JInt 0)) as (s1 & -> & H1); [done..|]. cbn [bind].
  destruct (ensure_other_is _ _ _ H1 "name" (JString "-")) as (s2 & -> & H2); [done..|]. cbn [bind].
  destruct (sdp_media _ _ _ H2) as (media & Hm & Hsh).
  assert (ensure_field s2 "media" (JArray []) = Ok s2) as ->.
  { unfold ensure_field, jcontains. by rewrite Hm. }
  cbn [bind].
  assert (jat_checked s2 "media" = Ok (JArray media)) as ->.
  { unfold jfind in Hm. destruct s2; try done. simpl. by rewrite Hm. }
  cbn [bind jiter]. destruct (ensure_payloads_all _ _ Ho Hsh) as (media' & -> & Hsh'). cbn [bind jreplace].
  destruct (sdp_set_media _ _ _ H2 _ _ Hsh') as (s3 & -> & H3). cbn [bind].
  destruct (ordered_lines OuterOrder s3); try done. cbn [bind].
  destruct (for_fold _ _ media'); try done. cbn [bind]. by intros [= <- _].
Qed.

(** ** Lists of lines *)

Lemma lookup_mids l i : mids l !! i = line_mid <$> l !! i.
Proof. apply list_lookup_fmap. Qed.

Lemma mids_insert l i (ln : line) : mids (<[i := ln]> l) = <[i := ln.1]> (mids l).
Proof. apply list_fmap_insert. Qed.

Lemma mids_app l l' : mids (l ++ l') = mids l ++ mids l'.
Proof. apply fmap_app. Qed.

Lemma fresh_mid_spec mid l : fresh_mid mid l = true -> mid <> "" /\ mid ∉ mids l.
Proof.
  unfold fresh_mid. rewrite andb_true_iff. intros [H1 H2]. split; [by destruct mid|].
  rewrite forallb_forall in H2. rewrite list_elem_of_In. intros Hin. apply H2 in Hin.
  by rewrite String.eqb_refl in Hin.
Qed.

(** Changing the line of one mid changes one position. *)
Lemma map_line_insert l i (ln ln' : line) :
  NoDup (mids l) -> l !! i = Some ln ->
  (fun x : line => if String.eqb x.1 ln.1 then ln' else x) <$> l = <[i := ln']> l.
Proof.
  intros Hnd Hi. apply list_eq. intros j. rewrite list_lookup_fmap.
  destruct (decide (j = i)) as [->|Hne].
  - rewrite Hi, list_lookup_insert_eq by (by apply lookup_lt_Some in Hi). simpl.
    by rewrite String.eqb_refl.
  - rewrite list_lookup_insert_ne by done. destruct (l !! j) as [x|] eqn:Hj; [|done]. simpl.
    destruct (String.eqb_spec x.1 ln.1) as [E|]; [|done]. destruct Hne.
    eapply (NoDup_lookup _ _ _ x.1 Hnd); rewrite lookup_mids, ?Hj, ?Hi; simpl; [done|].
    by rewrite E.
Qed.

Lemma NoDup_insert_fresh (ms : list string) i mid :
  NoDup ms -> mid ∉ ms -> NoDup (<[i := mid]> ms).
Proof.
  intros Hnd Hn. apply NoDup_alt. intros j k x Hj Hk.
  assert (forall j, <[i := mid]> ms !! j = Some mid -> j = i \/ ms !! j = Some mid) as Hmid.
  { intros j' H'. destruct (decide (j' = i)); [by left|]. right. by rewrite list_lookup_insert_ne in H'. }
  destruct (decide (j = i)) as [->|Hj']; destruct (decide (k = i)) as [->|Hk']; [done| | |].
  - rewrite list_lookup_insert_eq in Hj.
    2: { apply lookup_lt_Some in Hj. by rewrite length_insert in Hj. }
    injection Hj as <-. rewrite list_lookup_insert_ne in Hk by done.
    destruct Hn. by eapply list_elem_of_lookup_2.
  - rewrite list_lookup_insert_eq in Hk.
    2: { apply lookup_lt_Some in Hk. by rewrite length_insert in Hk. }
    injection Hk as <-. rewrite list_lookup_insert_ne in Hj by done.
    destruct Hn. by eapply list_elem_of_lookup_2.
  - rewrite list_lookup_insert_ne in Hj, Hk by done. by eapply NoDup_lookup.
Qed.

Section Rep.
Context (r : t) (l : list line).
Hypothesis Hr : rep r l.

Lemma rep_length : length (mediaSections r) = length l.
Proof. eapply Forall2_length, rep_sections, Hr. Qed.

Lemma rep_lookup i ln :
  l !! i = Some ln -> exists s, mediaSections r !! i = Some s /\ line_is s ln.
Proof. intros Hi. destruct (Forall2_lookup_r _ _ _ i ln (rep_sections _ _ Hr) Hi) as (s & ? & ?). by exists s. Qed.

Lemma rep_objects : Forall (fun s => is_object (mediaObject s) = true) (mediaSections r).
Proof.
  apply Forall_lookup. intros i s Hi.
  destruct (Forall2_lookup_l _ _ _ i s (rep_sections _ _ Hr) Hi) as (ln & _ & Hln).
  by eapply section_is_object.
Qed.

Lemma rep_index_of i ln : l !! i = Some ln -> index_of (midToIndex r) ln.1 = (midToIndex r, i).
Proof.
  intros Hi. unfold index_of.
  assert (midToIndex r !! ln.1 = Some i) as ->; [|done].
  apply (rep_index _ _ Hr). by rewrite lookup_mids, Hi.
Qed.

(** Replacing the section at a position by another with the same mid. *)
Lemma rep_update i ln ln' s index sdp :
  l !! i = Some ln -> line_is s ln' -> ln'.1 = ln.1 ->
  (forall first, head l = Some first -> i = O -> ln'.2 = false) ->
  index = midToIndex r ->
  sdp_is (<[i := s]> (mediaSections r)) (bundle (<[i := ln']> l)) sdp ->
  rep (set_sections r (<[i := s]> (mediaSections r)) index (firstMid r) sdp) (<[i := ln']> l).
Proof.
  intros Hi Hs Hmid Hopen -> Hsdp.
  assert (mids (<[i := ln']> l) = mids l) as Hm.
  { rewrite mids_insert, Hmid. apply list_insert_id. by rewrite lookup_mids, Hi. }
  destruct Hr as [R1 R2 R3 R4 R5 R6 R7 R8]. split; simpl; rewrite ?Hm; try done.
  - by apply Forall2_insert.
  - intros first Hf. destruct i as [|i], l as [|ln0 l']; simpl in *; try done; simplify_eq; eauto.
Qed.

Lemma regenerate_rep r' l' :
  (forall sdp', sdp_is (mediaSections r') (bundle l') sdp' ->
     rep (set_sections r' (mediaSections r') (midToIndex r') (firstMid r') sdp') l') ->
  Forall2 line_is (mediaSections r') l' -> Forall (fun mid => mid <> "") (mids l') ->
  (exists g, sdp_is (mediaSections r') g (sdpObject r')) ->
  exists r'', RegenerateBundleMids r' = Ok r'' /\ rep r'' l'.
Proof.
  intros Hrep Hl Hn (g & Hg). destruct (regenerate_is _ _ _ Hg r' l' eq_refl Hl Hn) as (sdp' & E & Hs).
  eexists. split; [exact E|]. by apply Hrep.
Qed.

Lemma rep_named_add mid : mid <> "" -> Forall (fun m => m <> "") (mids (ladd mid l)).
Proof.
  intros Hm. unfold ladd. rewrite mids_app. apply Forall_app. split; [apply Hr|by repeat constructor].
Qed.

Lemma AddMediaSection_rep mid s :
  mid <> "" -> mid ∉ mids l -> section_is mid false s ->
  exists r', AddMediaSection r s = Ok r' /\ rep r' (ladd mid l).
Proof.
  intros Hne Hfresh Hs. pose proof rep_length as Hlen. pose proof (rep_named_add _ Hne) as Hn.
  unfold AddMediaSection. rewrite (GetMid_is _ _ _ Hs).
  assert ((if str_empty (firstMid r) then Ok mid else Ok (firstMid r))
          = Ok (default "" (head (mids (ladd mid l))))) as ->.
  { rewrite (rep_first _ _ Hr). destruct l as [|[m c] l']; [done|]. simpl.
    assert (m <> "") by (pose proof (rep_named _ _ Hr) as H; by inversion H). by destruct m. }
  cbn [bind]. destruct (push_media_is _ _ _ (rep_sdp _ _ Hr) s) as (sdp & -> & Hsdp).
  cbn [bind].
  assert (Forall2 line_is (mediaSections r ++ [s]) (ladd mid l)) as Hl2.
  { apply Forall2_app; [apply Hr|apply Forall2_cons; split; [exact Hs|by apply Forall2_nil]]. }
  apply regenerate_rep; simpl; rewrite ?fmap_app; eauto.
  intros sdp' Hsdp'. destruct Hr as [R1 R2 R3 R4 R5 R6 R7 R8].
  rewrite length_app, Hlen. split; simpl; rewrite ?fmap_app; try done.
  - unfold ladd. rewrite mids_app. apply NoDup_app. split; [done|]. split; [|apply NoDup_singleton].
    intros x Hx ->%list_elem_of_singleton. done.
  - intros m i. unfold ladd. rewrite mids_app. change (mids [(mid, false)]) with [mid].
    replace (length l + 1 - 1)%nat with (length (mids l))
      by (unfold mids; rewrite length_fmap; lia).
    destruct (decide (m = mid)) as [->|Hm].
    + rewrite lookup_insert_eq. split.
      * intros [= <-]. by apply list_lookup_middle.
      * intros [Hi|[Hi1 Hi2]]%lookup_app_Some; [destruct Hfresh; by eapply list_elem_of_lookup_2|].
        apply list_lookup_singleton_Some in Hi2 as [Hi2 _]. f_equal. lia.
    + rewrite lookup_insert_ne by done. rewrite R4. split; [by apply lookup_app_l_Some|].
      intros [Hi|[Hi1 Hi2]]%lookup_app_Some; [done|].
      apply list_lookup_singleton_Some in Hi2 as [_ ?]. by destruct Hm.
  - intros ln. unfold ladd. destruct l; simpl; [by intros [= <-]|apply R6].
Qed.

(** A closed section is never the first one. *)
Lemma closed_not_first i mid : l !! i = Some (mid, true) -> i <> O.
Proof.
  intros Hi ->. pose proof (rep_first_open _ _ Hr (mid, true)) as H. rewrite head_lookup in H.
  discriminate (H Hi).
Qed.

Lemma ReplaceMediaSection_rep i old mid s :
  l !! i = Some (old, true) -> mid <> "" -> mid ∉ mids l -> section_is mid false s ->
  exists r', ReplaceMediaSection r s old = Ok r' /\ rep r' (<[i := (mid, false)]> l).
Proof.
  intros Hi Hne Hfresh Hs. pose proof (closed_not_first _ _ Hi) as Hi0.
  destruct (rep_lookup _ _ Hi) as (so & Hso & Hold).
  unfold ReplaceMediaSection.
  assert (str_empty old = false) as ->.
  { assert (old <> "") as H.
    { pose proof (rep_named _ _ Hr) as H. rewrite Forall_lookup in H. apply (H i).
      by rewrite lookup_mids, Hi. }
    by destruct old. }
  cbn [negb]. rewrite (rep_index_of _ _ Hi : index_of (midToIndex r) old = _).
  unfold section_at. rewrite Hso. cbn [bind]. rewrite (GetMid_is _ _ _ Hold), (GetMid_is _ _ _ Hs).
  cbn [bind]. destruct (set_media_is _ _ _ (rep_sdp _ _ Hr) i s so Hso) as (sdp & -> & Hsdp).
  cbn [bind].
  assert (Forall2 line_is (<[i := s]> (mediaSections r)) (<[i := (mid, false)]> l)) as Hl2.
  { apply Forall2_insert; [apply Hr|exact Hs]. }
  assert (Forall (fun m => m <> "") (mids (<[i := (mid, false)]> l))) as Hn.
  { rewrite mids_insert. apply Forall_insert; [apply Hr|done]. }
  apply regenerate_rep; simpl; eauto.
  intros sdp' Hsdp'. destruct Hr as [R1 R2 R3 R4 R5 R6 R7 R8]. split; simpl; try done.
  - rewrite mids_insert. by apply NoDup_insert_fresh.
  - intros m j. rewrite mids_insert. simpl.
    assert (forall j, mids l !! j = Some old -> j = i) as Huniq.
    { intros j' Hj'. eapply (NoDup_lookup _ _ _ old R2); [done|]. by rewrite lookup_mids, Hi. }
    assert (i < length (mids l))%nat as Hlt.
    { unfold mids. rewrite length_fmap. by eapply lookup_lt_Some. }
    destruct (decide (j = i)) as [->|Hj].
    + rewrite list_lookup_insert_eq by done. destruct (decide (m = mid)) as [->|Hm].
      { by rewrite lookup_insert_eq. }
      rewrite lookup_insert_ne by done. split; [|by intros [= <-]].
      intros Hd. apply lookup_delete_Some in Hd as [Hmo Hd]. apply R4 in Hd.
      rewrite lookup_mids, Hi in Hd. by simplify_eq/=.
    + rewrite list_lookup_insert_ne by done. destruct (decide (m = mid)) as [->|Hm].
      { rewrite lookup_insert_eq. split; [by intros [= <-]|].
        intros Hd. destruct Hfresh. by eapply list_elem_of_lookup_2. }
      rewrite lookup_insert_ne by done. rewrite lookup_delete_Some, R4. split; [by intros [_ ?]|].
      intros Hd. split; [|done]. intros <-. by apply Hj, Huniq.
  - rewrite mids_insert. destruct i, l; done.
  - destruct i, l; simpl in *; try done.
Qed.

Lemma CloseMediaSection_rep mid :
  mid ∈ mids l -> exists r', CloseMediaSection r mid = Ok r' /\ rep r' (lclose mid l).
Proof.
  intros (i & Hm)%list_elem_of_lookup_1. rewrite lookup_mids in Hm.
  destruct (l !! i) as [[m c]|] eqn:Hi; [|done]. injection Hm as Hm. unfold line_mid in Hm. simpl in Hm.
  subst m. destruct (rep_lookup _ _ Hi) as (s & Hs & Hline).
  unfold CloseMediaSection.
  rewrite (rep_index_of _ _ Hi : index_of (midToIndex r) mid = _).
  unfold section_at. rewrite Hs. cbn [bind].
  assert (exists s' c', (if String.eqb mid (firstMid r) then Disable s else Close s) = Ok s' /\
            section_is mid c' s' /\ lclose mid l = <[i := (mid, c')]> l /\
            (i = O -> c' = false)) as (s' & c' & -> & Hs' & Hl & Hi0).
  { rewrite (rep_first _ _ Hr). destruct l as [|[m0 c0] l']; [done|]. simpl.
    pose proof (rep_nodup _ _ Hr) as Hnd. pose proof (rep_first_open _ _ Hr _ eq_refl) as Hc0.
    simpl in Hc0. subst c0. destruct (String.eqb_spec mid m0) as [->|Hne].
    - assert (i = O) as ->.
      { eapply (NoDup_lookup _ _ _ m0 Hnd); [by rewrite lookup_mids, Hi|done]. }
      injection Hi as <-. destruct (Disable_is _ _ _ Hline) as (s' & -> & Hs').
      exists s', false. split; [done|]. split; [exact Hs'|]. by split.
    - destruct i as [|i]; [by simplify_eq/=|]. destruct (Close_is _ _ _ Hline) as (s' & -> & Hs').
      exists s', true. split; [done|]. split; [exact Hs'|]. split; [|done]. simpl. f_equal.
      simpl in Hi. apply (map_line_insert l' i (mid, c)); [by inversion Hnd|done]. }
  cbn [bind]. destruct (set_media_is _ _ _ (rep_sdp _ _ Hr) i s' s Hs) as (sdp & -> & Hsdp).
  cbn [bind]. rewrite Hl.
  assert (mids (<[i := (mid, c')]> l) = mids l) as Hm.
  { rewrite mids_insert. apply list_insert_id. by rewrite lookup_mids, Hi. }
  apply regenerate_rep; simpl; eauto.
  - intros sdp' Hsdp'. apply (rep_update i (mid, c) (mid, c') s'); eauto.
  - apply Forall2_insert; [apply Hr|exact Hs'].
  - rewrite Hm. apply Hr.
Qed.

End Rep.

(** The two methods that update every section. *)
Section Update.
Context (f : MediaSection -> res MediaSection) (group : string).
Hypothesis Hf : forall s ln, line_is s ln -> exists s', f s = Ok s' /\ line_is s' ln.

Lemma update_loop secs l2 before ld sdp :
  Forall2 line_is secs l2 -> Forall2 line_is before ld ->
  sdp_is (before ++ secs) group sdp ->
  exists secs' sdp', for_fold (update_one f) (before, sdp) secs = Ok (secs', sdp') /\
    Forall2 line_is secs' (ld ++ l2) /\ sdp_is secs' group sdp'.
Proof.
  intros H2. revert before ld sdp. induction H2 as [|s ln secs l2 Hln H2 IH]; intros before ld sdp Hb Hs0.
  - rewrite !app_nil_r in *. simpl. eauto.
  - simpl. destruct (Hf _ _ Hln) as (s' & -> & Hs'). cbn [bind].
    destruct (set_media_is _ _ _ Hs0 (length before) s' s) as (sdp1 & -> & H1).
    { rewrite lookup_app_r by done. by rewrite Nat.sub_diag. }
    cbn [bind]. destruct (IH (before ++ [s']) (ld ++ [ln]) sdp1) as (secs' & sdp' & E & Hl' & Hs1).
    { apply Forall2_app; [done|]. apply Forall2_cons; split; [done|by apply Forall2_nil]. }
    { rewrite insert_app_r_alt, Nat.sub_diag in H1 by done.
      by rewrite <- app_assoc. }
    rewrite <- app_assoc in Hl'. eauto.
Qed.

Lemma update_sections_rep r l r0 sdp :
  rep r l ->
  mediaSections r0 = mediaSections r -> midToIndex r0 = midToIndex r -> firstMid r0 = firstMid r ->
  is_object (dtlsParameters r0) = true ->
  sdp_is (mediaSections r) group sdp -> group = bundle l ->
  exists r', update_sections f r0 sdp = Ok r' /\ rep r' l.
Proof.
  intros Hr E1 E2 E3 Hd Hsdp Hg. unfold update_sections. rewrite E1, E2, E3.
  destruct (update_loop (mediaSections r) l [] [] sdp) as (secs' & sdp' & -> & Hl' & Hs').
  { apply Hr. } { by apply Forall2_nil. } { done. }
  cbn [bind]. eexists. split; [reflexivity|]. destruct Hr. by split; simpl; rewrite ?E2, ?E3, <- ?Hg.
Qed.
End Update.

(** ** The methods refine the list of lines *)

Lemma first_closed_spec l :
  match first_closed l with
  | Some i => exists mid, l !! i = Some (mid, true) /\ forall j ln, (j < i)%nat -> l !! j = Some ln -> ln.2 = false
  | None => forall j ln, l !! j = Some ln -> ln.2 = false
  end.
Proof.
  unfold first_closed. destruct (list_find _ l) as [[i [mid c]]|] eqn:E; simpl.
  - apply list_find_Some in E as (Hi & Hc & Hj). simpl in Hc. subst c. exists mid. split; [done|].
    intros j ln Hlt Hln. specialize (Hj j ln Hln Hlt). by destruct (ln.2).
  - intros j ln Hj. apply list_find_None in E. rewrite Forall_lookup in E.
    specialize (E j ln Hj). by destruct (ln.2).
Qed.

Lemma find_closed secs l :
  Forall2 line_is secs l ->
  find_if IsClosed secs = Ok (first_closed l ≫= fun i => secs !! i).
Proof.
  unfold first_closed. induction 1 as [|s [mid c] secs l Hs Hl IH]; simpl; [done|].
  rewrite (IsClosed_is _ _ _ Hs). cbn [bind]. destruct c; simpl.
  - done.
  - rewrite IH. by destruct (list_find _ l) as [[i ln]|].
Qed.

Lemma offer_mid_find offerMedia mid :
  offer_mid offerMedia = mid -> mid <> "" -> jfind offerMedia "mid" = Some (JString mid).
Proof. unfold offer_mid. intros <-. by destruct (jfind offerMedia "mid") as [[]|]. Qed.

Lemma do_Ok_inv {A} (m : res A) : (exists u, (do* m in Ok tt) = Ok u) -> exists a, m = Ok a.
Proof. intros (u & (a & -> & _)%bind_Ok_inv). by exists a. Qed.

Section Refinement.
Context (r : t) (l : list line).
Hypothesis Hr : rep r l.

Lemma Receive_rep mid kind params streamId trackId s :
  fresh_mid mid l = true ->
  OfferMediaSection (iceParameters r) (iceCandidates r) (dtlsParameters r) JNull
    mid kind params streamId trackId = Ok s ->
  exists r', Receive r mid kind params streamId trackId = Ok r' /\ rep r' (lreceive mid l).
Proof.
  intros [Hne Hfresh]%fresh_mid_spec E. pose proof (OfferMediaSection_is _ _ _ _ _ _ _ _ _ _ E) as Hs.
  unfold Receive, lreceive. rewrite E. cbn [bind]. rewrite (find_closed _ _ (rep_sections _ _ Hr)).
  cbn [bind]. pose proof (first_closed_spec l) as Hc. destruct (first_closed l) as [i|]; simpl.
  - destruct Hc as (old & Hi & _). destruct (rep_lookup _ _ Hr _ _ Hi) as (so & -> & Hold).
    rewrite (GetMid_is _ _ _ Hold). cbn [bind]. by apply (ReplaceMediaSection_rep _ _ Hr).
  - by apply (AddMediaSection_rep _ _ Hr).
Qed.

Lemma Send_rep offerMedia reuse offer answer options s offer' answer' :
  fresh_mid (offer_mid offerMedia) l = true ->
  str_empty reuse || existsb (fun ln => String.eqb ln.1 reuse && ln.2) l = true ->
  AnswerMediaSection (iceParameters r) (iceCandidates r) (dtlsParameters r) (sctpParameters r)
    offerMedia offer answer options = Ok (s, offer', answer') ->
  exists r', Send r offerMedia reuse offer answer options = Ok (r', offer', answer') /\
    rep r' (if str_empty reuse then ladd (offer_mid offerMedia) l
            else lreuse reuse (offer_mid offerMedia) l).
Proof.
  intros [Hne Hfresh]%fresh_mid_spec Hreuse E.
  pose proof (AnswerMediaSection_is _ _ _ _ _ _ _ _ _ (offer_mid_find _ _ eq_refl Hne) _ E) as Hs.
  simpl in Hs. unfold Send. rewrite E. cbn [bind]. destruct (str_empty reuse) eqn:Er; simpl.
  - destruct (AddMediaSection_rep _ _ Hr _ _ Hne Hfresh Hs) as (r' & -> & Hr'). by exists r'.
  - simpl in Hreuse. apply existsb_exists in Hreuse as ([m c] & Hin & Hm). simpl in Hm.
    apply andb_true_iff in Hm as [->%String.eqb_eq ->].
    apply list_elem_of_In, list_elem_of_lookup_1 in Hin as (i & Hi).
    destruct (ReplaceMediaSection_rep _ _ Hr i reuse _ _ Hi Hne Hfresh Hs) as (r' & -> & Hr').
    exists r'. split; [done|]. unfold lreuse.
    by rewrite (map_line_insert l i (reuse, true) _ (rep_nodup _ _ Hr) Hi).
Qed.

Lemma UpdateIceParameters_rep ice :
  jcontains ice "usernameFragment" = true -> jcontains ice "password" = true ->
  exists r', UpdateIceParameters r ice = Ok r' /\ rep r' l.
Proof.
  intros Hu Hp. unfold UpdateIceParameters. simpl.
  destruct (set_icelite_is _ _ _ (rep_sdp _ _ Hr) ice) as (sdp & -> & Hsdp). cbn [bind].
  eapply (update_sections_rep _ (bundle l)); [|exact Hr|done..|by apply Hr|exact Hsdp|done].
  intros s ln Hs. destruct (SetIceParameters_is _ _ _ ice Hs Hu Hp) as (mo & -> & Hmo). by eexists.
Qed.

Lemma UpdateDtlsRole_rep role : exists r', UpdateDtlsRole r role = Ok r' /\ rep r' l.
Proof.
  unfold UpdateDtlsRole.
  destruct (jset_object _ "role" (JString role) (rep_dtls _ _ Hr)) as (dtls & -> & Hd). cbn [bind].
  simpl. destruct (set_icelite_is _ _ _ (rep_sdp _ _ Hr) (iceParameters r)) as (sdp & -> & Hsdp).
  cbn [bind]. eapply (update_sections_rep _ (bundle l)); [|exact Hr|done..|exact Hsdp|done].
  intros s ln Hs. apply (SetDtlsRole_is _ _ _ role Hs).
Qed.

Lemma GetSdp_rep `{FloatText} :
  (exists u, prepare r OpGetSdp = Ok u) ->
  exists r' text, GetSdp r = Ok (r', text) /\ rep r' l.
Proof.
  intros (u & Hu). simpl in Hu. unfold GetSdp.
  destruct (next_version_is _ _ _ (rep_sdp _ _ Hr)) as (sdp & Ev & Hsdp).
  rewrite Ev in *. cbn [bind] in *. destruct (write sdp) as [[sdp' text]| | |] eqn:Ew; try done. cbn [bind].
  apply (write_is _ _ _ _ _ Hsdp (rep_objects _ _ Hr)) in Ew.
  eexists _, text. split; [reflexivity|]. destruct Hr. by split.
Qed.
End Refinement.

(** Every method refines its abstract counterpart. *)
Lemma step_rep `{FloatText} r l o :
  rep r l -> op_ok l o = true -> (exists u, prepare r o = Ok u) ->
  exists r', step r o = Ok r' /\ rep r' (lstep l o).
Proof.
  intros Hr Hok Hp. destruct o; simpl in Hok; simpl.
  - apply andb_true_iff in Hok as [Hu Hpw]. by apply UpdateIceParameters_rep.
  - by apply UpdateDtlsRole_rep.
  - apply andb_true_iff in Hok as [Hf Hre]. apply do_Ok_inv in Hp as ([[s offer'] answer'] & E).
    destruct (Send_rep _ _ Hr _ _ _ _ _ _ _ _ Hf Hre E) as (r' & -> & Hr'). by exists r'.
  - apply do_Ok_inv in Hp as ([[s offer'] answer'] & E). destruct (fresh_mid_spec _ _ Hok) as [Hne Hf].
    pose proof (AnswerMediaSection_is _ _ _ _ _ _ _ _ _ (offer_mid_find _ _ eq_refl Hne) _ E) as Hs.
    unfold SendSctpAssociation. rewrite E. cbn [bind]. by apply (AddMediaSection_rep _ _ Hr).
  - apply do_Ok_inv in Hp as (s & E). destruct (fresh_mid_spec _ _ Hok) as [Hne Hf].
    pose proof (OfferMediaSection_is _ _ _ _ _ _ _ _ _ _ E) as Hs.
    unfold RecvSctpAssociation. rewrite E. cbn [bind]. by apply (AddMediaSection_rep _ _ Hr).
  - apply do_Ok_inv in Hp as (s & E). by eapply Receive_rep.
  - apply existsb_exists in Hok as (m & Hin & <-%String.eqb_eq).
    apply (CloseMediaSection_rep _ _ Hr). by apply list_elem_of_In.
  - destruct (GetSdp_rep _ _ Hr Hp) as (r' & text & -> & Hr'). by exists r'.
Qed.

(** ** Construction *)

(** Setting another field keeps the fields the representation needs. *)
Definition sdp_base (sdp : json) : Prop :=
  is_object sdp = true /\ jfind sdp "media" = jfind initial_object "media" /\
  jfind sdp "origin" = jfind initial_object "origin".

Lemma sdp_base_set sdp k v :
  k <> "media" -> k <> "origin" -> sdp_base sdp -> ensures (jset sdp k v) sdp_base.
Proof.
  intros H1 H2 (Ho & Hm & Hv) sdp' E.
  destruct (jset_jfind sdp k v Ho) as (j & E' & Ho' & _ & Hk). rewrite E in E'. injection E' as <-.
  split; [done|]. by rewrite !Hk.
Qed.

Lemma jset_is_object j k v : is_object j = true -> ensures (jset j k v) (fun j' => is_object j' = true).
Proof. destruct j; try done. by intros _ j' [= <-]. Qed.

Lemma jref_is_object j k : ensures (jref j k) (fun p => is_object p.1 = true).
Proof.
  intros [j' v] H. destruct j as [| | | | | | |o]; try done; simpl in *.
  - by injection H as <- <-.
  - by destruct (obj_get k o); injection H as <- <-.
Qed.

Lemma last_fingerprint_object dtls n key :
  is_object dtls = true -> ensures (last_fingerprint dtls n key) (fun p => is_object p.1 = true).
Proof.
  intros Hd. unfold last_fingerprint. apply ensures_bind_any. intros fps.
  destruct n; [by destruct (_ || _); apply ensures_fail|].
  apply ensures_bind_any. intros [fps' fp]. apply ensures_bind_any. intros [fp' v].
  apply ensures_bind_any. intros fps''. eapply ensures_bind; [by apply jset_is_object|].
  intros dtls' Hd'. by apply ensures_Ok.
Qed.

(** The constructor describes the empty list. *)
Lemma make_rep ice cands dtls sctp : ensures (make ice cands dtls sctp) (fun r => rep r []).
Proof.
  unfold make, set_icelite.
  apply (ensures_bind _ _ sdp_base).
  { destruct (jcontains ice "iceLite"); [by apply sdp_base_set|by apply ensures_Ok]. }
  intros sdp0 H0. eapply ensures_bind; [by apply sdp_base_set|]. intros sdp1 H1.
  eapply ensures_bind; [apply jref_is_object|]. intros [d1 fps] Hd1.
  eapply ensures_bind; [by apply last_fingerprint_object|]. intros [d2 ty] Hd2.
  eapply ensures_bind; [by apply last_fingerprint_object|]. intros [d3 hash] Hd3.
  eapply ensures_bind; [by apply sdp_base_set|]. intros sdp2 (Ho & Hm & Hv).
  match goal with |- context [jset sdp2 "groups" ?v] =>
    destruct (jset_jfind sdp2 "groups" v Ho) as (sdp3 & -> & Ho3 & Hg3 & Hk3) end.
  apply ensures_Ok. split; simpl; try done; try apply NoDup_nil_2; try by constructor.
  split; [done| | |].
  - exists []. rewrite Hk3, Hm by done. split; [done|]. by apply Forall2_nil.
  - eexists. split; [exact Hg3|done].
  - eexists _, _. rewrite Hk3, Hv by done. split; [reflexivity|]. split; [reflexivity|].
    exists 0. by left.
Qed.

(** ** Runs *)

(** The arguments of a run are in order: each step is allowed by the list of
    lines at that point and its constructor or writer returns. *)
Fixpoint prepared `{FloatText} (r : t) (l : list line) (ops : list op) : bool :=
  match ops with
  | [] => true
  | o :: ops =>
      op_ok l o &&
      match prepare r o with
      | Ok _ => match step r o with
                | Ok r' => prepared r' (lstep l o) ops
                | _ => true
                end
      | _ => false
      end
  end.

Lemma run_rep `{FloatText} ops r l :
  rep r l -> prepared r l ops = true ->
  exists r', for_fold step r ops = Ok r' /\ rep r' (foldl lstep l ops).
Proof.
  revert r l. induction ops as [|o ops IH]; intros r l Hr Hp; simpl in *; [by exists r|].
  apply andb_true_iff in Hp as [Hok Hp].
  destruct (prepare r o) as [u| | |] eqn:E; try done.
  destruct (step_rep r l o Hr Hok (ex_intro _ u E)) as (r1 & E1 & Hr1).
  rewrite E1 in *. cbn [bind]. by apply IH.
Qed.


(** An open section keeps its place and its mid. *)
Lemma lstep_keeps l o i mid :
  NoDup (mids l) -> op_ok l o = true -> l !! i = Some (mid, false) ->
  exists c, lstep l o !! i = Some (mid, c).
Proof.
  intros Hnd Hok Hi.
  assert (forall m, ladd m l !! i = Some (mid, false)) as Hadd by (intros; by apply lookup_app_l_Some).
  destruct o as [| |offerMedia reuse| | |m| m|]; simpl in *; eauto.
  - apply andb_true_iff in Hok as [_ Hre]. destruct (str_empty reuse); [by eexists|].
    simpl in Hre. apply existsb_exists in Hre as ([m c] & Hin & Hm). simpl in Hm.
    apply andb_true_iff in Hm as [->%String.eqb_eq ->].
    apply list_elem_of_In, list_elem_of_lookup_1 in Hin as (j & Hj).
    exists false. unfold lreuse. rewrite list_lookup_fmap, Hi. simpl.
    destruct (String.eqb_spec mid reuse) as [->|]; [|done].
    assert (i = j) as <- by (eapply (NoDup_lookup _ _ _ reuse Hnd); rewrite lookup_mids, ?Hi, ?Hj; done).
    congruence.
  - unfold lreceive. pose proof (first_closed_spec l) as Hc. destruct (first_closed l) as [j|]; [|by eexists].
    destruct Hc as (old & Hj & _). exists false. rewrite list_lookup_insert_ne; [done|]. intros ->. congruence.
  - unfold lclose. destruct l as [|first rest]; [done|]. destruct (String.eqb m first.1); [by eexists|].
    destruct i as [|i]; simpl in *; [by eexists|]. rewrite list_lookup_fmap, Hi. simpl.
    destruct (String.eqb_spec mid m) as [->|]; by eexists.
Qed.

(** In any state such a run reaches, one more method never moves an open
    section: it stays at its index with its mid, as the order of m-sections in
    an SDP demands, and the section at index 0, which carries the bundled
    transport, is never closed. *)
Theorem open_sections_keep_their_place `{FloatText} ice cands dtls sctp r0 ops r o r' :
  make ice cands dtls sctp = Ok r0 -> prepared r0 [] (ops ++ [o]) = true ->
  for_fold step r0 ops = Ok r -> step r o = Ok r' ->
  (forall i s, mediaSections r !! i = Some s -> IsClosed s = Ok false ->
     exists s', mediaSections r' !! i = Some s' /\ GetMid s' = GetMid s) /\
  (forall s, mediaSections r' !! O = Some s -> IsClosed s = Ok false).
Proof.
  intros Hm Hp Hrun Hstep. apply make_rep in Hm.
  assert (exists l, rep r l /\ op_ok l o = true /\ rep r' (lstep l o)) as (l & Hr & Hok & Hr').
  { revert r0 Hm Hp Hrun. generalize (@nil line). induction ops as [|o1 ops IH]; intros l r0 H0 Hp Hrun; simpl in *.
    - injection Hrun as ->. apply andb_true_iff in Hp as [Hok Hp]. exists l. split; [done|]. split; [done|].
      destruct (prepare r o) as [u| | |] eqn:E; try done.
      destruct (step_rep r l o H0 Hok (ex_intro _ u E)) as (r1 & E1 & Hr1). congruence.
    - apply andb_true_iff in Hp as [Hok Hp]. destruct (prepare r0 o1) as [u| | |] eqn:E; try done.
      destruct (step_rep r0 l o1 H0 Hok (ex_intro _ u E)) as (r1 & E1 & Hr1).
      rewrite E1 in *. cbn [bind] in Hrun. by eapply IH. }
  split.
  - intros i s Hs Hc. destruct (Forall2_lookup_l _ _ _ i s (rep_sections _ _ Hr) Hs) as ([mid c] & Hi & Hline).
    rewrite (IsClosed_is _ _ _ Hline) in Hc. injection Hc as ->.
    destruct (lstep_keeps _ _ _ _ (rep_nodup _ _ Hr) Hok Hi) as (c' & Hi').
    destruct (rep_lookup _ _ Hr' _ _ Hi') as (s' & Hs' & Hline'). exists s'. split; [done|].
    by rewrite (GetMid_is _ _ _ Hline), (GetMid_is _ _ _ Hline').
  - intros s Hs. destruct (Forall2_lookup_l _ _ _ O s (rep_sections _ _ Hr') Hs) as (ln & Hi & Hline).
    rewrite (IsClosed_is _ _ _ Hline). f_equal. apply (rep_first_open _ _ Hr'). by rewrite head_lookup.
Qed.

(** [CloseMediaSection] with a mid no section has closes the section at
    index 0, whose index [operator[]] of the map makes up: the test that
    protects the first section compares mids, not indices. *)
Theorem close_unknown_mid_closes_first r first l mid :
  rep r (first :: l) -> mid ∉ mids (first :: l) ->
  exists r' s, CloseMediaSection r mid = Ok r' /\ mediaSections r' !! O = Some s /\
    IsClosed s = Ok true /\ midToIndex r' !! mid = Some O.
Proof.
  intros Hr Hn. destruct (rep_lookup _ _ Hr O first eq_refl) as (s & Hs & Hline).
  unfold CloseMediaSection, index_of.
  assert (midToIndex r !! mid = None) as ->.
  { destruct (midToIndex r !! mid) as [i|] eqn:E; [|done]. apply (rep_index _ _ Hr) in E.
    destruct Hn. by eapply list_elem_of_lookup_2. }
  unfold section_at. rewrite Hs. cbn [bind].
  destruct (String.eqb_spec mid (firstMid r)) as [E|_].
  { destruct Hn. rewrite E, (rep_first _ _ Hr). simpl. apply list_elem_of_here. }
  destruct (Close_is _ _ _ Hline) as (s' & -> & Hs'). cbn [bind].
  destruct (set_media_is _ _ _ (rep_sdp _ _ Hr) O s' s Hs) as (sdp & -> & Hsdp). cbn [bind].
  assert (O < length (mediaSections r))%nat as Hlt by (by eapply lookup_lt_Some).
  edestruct (regenerate_is _ _ _ Hsdp
    (set_sections r (<[O := s']> (mediaSections r)) (<[mid := O]> (midToIndex r)) (firstMid r) sdp)
    (<[O := (first.1, true)]> (first :: l)) eq_refl) as (sdp' & -> & _).
  { apply Forall2_insert; [apply Hr|exact Hs']. }
  { rewrite mids_insert. apply Forall_insert; [apply Hr|]. pose proof (rep_named _ _ Hr) as H. by inversion H. }
  eexists _, s'. split; [reflexivity|]. simpl. split; [by apply list_lookup_insert_eq|].
  split; [exact (IsClosed_is _ _ _ Hs')|]. apply lookup_insert_eq.
Qed.

(** ** A session *)

Module Session.
Definition ice : json := JObj
  [("usernameFragment", JString "u"); ("password", JString "p"); ("iceLite", JBool true)].
Definition candidates : json := JArray [JObj
  [("foundation", JString "udp"); ("ip", JString "1.2.3.4"); ("port", JUint 40000);
   ("priority", JUint 1078862079); ("protocol", JString "udp"); ("type", JString "host")]].
Definition dtls : json := JObj
  [("role", JString "auto");
   ("fingerprints", JArray [JObj [("algorithm", JString "sha-256"); ("value", JString "A9:F4")]])].
Definition sctp : json := JObj [("port", JUint 5000); ("maxMessageSize", JUint 262144)].

Definition vp8 : json := JObj
  [("mimeType", JString "video/VP8"); ("payloadType", JUint 101); ("clockRate", JUint 90000);
   ("parameters", JObj [("x-google-start-bitrate", JUint 1500)]);
   ("rtcpFeedback", JArray [JObj [("type", JString "nack"); ("parameter", JString "pli")]])].
Definition params : json := JObj
  [("codecs", JArray [vp8]);
   ("headerExtensions", JArray [JObj [("uri", JString "urn:ietf:params:rtp-hdrext:sdes:mid"); ("id", JUint 1)]]);
   ("encodings", JArray [JObj [("ssrc", JUint 4242); ("rtx", JObj [("ssrc", JUint 4243)])]]);
   ("rtcp", JObj [("cname", JString "c")])].
Definition offer_media (mid : string) : json := JObj
  [("type", JString "video"); ("mid", JString mid); ("protocol", JString "UDP/TLS/RTP/SAVPF");
   ("ext", JArray [JObj [("uri", JString "urn:ietf:params:rtp-hdrext:sdes:mid"); ("value", JInt 4)]])].

#[global] Instance float_text : FloatText := show_float.

Definition ops : list op :=
  [OpReceive "0" "video" params "s" "t0"; OpReceive "1" "video" params "s" "t1"; OpGetSdp;
   OpClose "1"; OpIce ice; OpRole "server"; OpReceive "2" "video" params "s" "t2"; OpRecvSctp;
   OpClose "0"; OpClose "datachannel"; OpSend (offer_media "3") "datachannel" params params None;
   OpGetSdp].

Definition start : res t := make ice candidates dtls sctp.
Definition remote : t :=
  match start with Ok r => r | _ => Mk JNull JNull JNull JNull [] empty "" JNull end.

Example session_lines : foldl lstep [] ops = [("0", false); ("2", false); ("3", false)].
Proof. reflexivity. Qed.
End Session.


Lemma open_sections_keep_their_place_witness :
  exists r r', for_fold step Session.remote (take 2 Session.ops) = Ok r /\
    step r (OpClose "1") = Ok r' /\
    (forall s, mediaSections r' !! O = Some s -> IsClosed s = Ok false).
Proof.
  destruct (run_rep (take 2 Session.ops) Session.remote []) as (r & E & Hr).
  { apply (make_rep Session.ice Session.candidates Session.dtls Session.sctp). vm_compute; reflexivity. }
  { vm_compute; reflexivity. }
  destruct (step_rep r _ (OpClose "1") Hr) as (r' & E' & _).
  { reflexivity. }
  { by exists tt. }
  exists r, r'. split; [exact E|]. split; [exact E'|].
  exact (proj2 (open_sections_keep_their_place Session.ice Session.candidates
    Session.dtls Session.sctp Session.remote (take 2 Session.ops) r (OpClose "1") r'
    ltac:(vm_compute; reflexivity) ltac:(vm_compute; reflexivity) E E')).
Defined.

Lemma close_unknown_mid_closes_first_witness :
  exists r r' s, rep r [("0", false); ("1", false)] /\ CloseMediaSection r "9" = Ok r' /\
    mediaSections r' !! O = Some s /\ IsClosed s = Ok true.
Proof.
  destruct (run_rep (take 2 Session.ops) Session.remote []) as (r & _ & Hr).
  { apply (make_rep Session.ice Session.candidates Session.dtls Session.sctp). vm_compute; reflexivity. }
  { vm_compute; reflexivity. }
  destruct (close_unknown_mid_closes_first r ("0", false) [("1", false)] "9" Hr) as (r' & s & H1 & H2 & H3 & _).
  { intros H. apply list_elem_of_In in H. destruct H as [|[|[]]]; done. }
  exists r, r', s. exact (conj Hr (conj H1 (conj H2 H3))).
Defined.
