(* ===== verification/MediaSectionFacts.v ===== *)
(** Offers for validated parameters.

    [RecvTransport::Consume] validates the RTP parameters it is given before an
    [OfferMediaSection] is made of them.  What the validator accepts and fills
    in is enough for the constructor, up to the first encoding, which has to be
    there and to have an SSRC; the section lists the codecs in order. *)

From Stdlib Require Import ZArith Lia.
From stdpp Require Import pretty.
From S2P Require Import Prelude Json OrtcValidate Ortc MediaSection RemoteSdp RemoteSdpFacts.

(** ** Objects that only grow *)

(** [extends ks mo mo']: [mo'] is an object that agrees with [mo] outside [ks]. *)
Definition among (ks : list string) (k : string) : bool := existsb (String.eqb k) ks.
Definition extends (ks : list string) (mo mo' : json) : Prop :=
  is_object mo' = true /\ forall k, among ks k = false -> jfind mo' k = jfind mo k.

Lemma extends_refl ks mo : is_object mo = true -> extends ks mo mo.
Proof. by split. Qed.

Lemma extends_trans ks mo mo' mo'' : extends ks mo mo' -> extends ks mo' mo'' -> extends ks mo mo''.
Proof. intros [? H1] [? H2]. split; [done|]. intros k Hk. by rewrite H2, H1. Qed.

Lemma extends_weaken ks ks' mo mo' :
  forallb (among ks') ks = true -> extends ks mo mo' -> extends ks' mo mo'.
Proof.
  intros Hs [? H1]. split; [done|]. intros k Hk. apply H1.
  destruct (among ks k) eqn:E; [|done]. apply existsb_exists in E as (k' & Hin & ->%String.eqb_eq).
  rewrite forallb_forall in Hs. apply Hs in Hin. congruence.
Qed.

Lemma jset_extends mo k v :
  is_object mo = true ->
  exists mo', jset mo k v = Ok mo' /\ jfind mo' k = Some v /\ extends [k] mo mo'.
Proof.
  intros Ho. destruct (jset_jfind mo k v Ho) as (mo' & E & Ho' & Hk & Hne).
  exists mo'. split; [done|]. split; [done|]. split; [done|].
  intros k' Hk'. apply Hne. intros ->. unfold among in Hk'. simpl in Hk'.
  by rewrite String.eqb_refl in Hk'.
Qed.

Lemma jpush_extends mo k l v :
  is_object mo = true -> jfind mo k = Some (JArray l) ->
  exists mo', jpush_at mo k v = Ok mo' /\ jfind mo' k = Some (JArray (l ++ [v])) /\ extends [k] mo mo'.
Proof.
  intros Ho Hk. unfold jpush_at. rewrite (jref_jfind _ _ _ Hk). cbn [bind jpush].
  by apply jset_extends.
Qed.

(** ** Reading validated fields *)

Lemma opt_is_jat p j k : opt_is p (jfind j k) = true -> exists v, jat j k = Ok v /\ jfind j k = Some v /\ p v = true.
Proof. destruct (jfind j k) as [v|] eqn:E; [|done]. intros Hp. exists v. by rewrite (jat_jfind _ _ _ E). Qed.

Lemma get_uint8_integer j : is_number_integer j = true -> exists z, get_uint8 j = Ok z /\ 0 <= z < 256.
Proof. destruct j; try done; intros _; eexists; (split; [reflexivity|]); apply u8_range. Qed.

Lemma get_uint32_integer j : is_number_integer j = true -> exists z, get_uint32 j = Ok z.
Proof. destruct j; try done; intros _; by eexists. Qed.

(** ** The statements of the constructor *)

Lemma codec_config_returns params :
  opt_is is_object params = true -> forallb wf_codec_parameter (members params) = true ->
  exists p config, params = Some p /\ codec_config p = Ok config.
Proof.
  destruct params as [[| | | | | | |o]|]; try done. simpl. intros _ Ho. unfold codec_config. simpl.
  assert (forall c, exists c', for_fold add_config c o = Ok c') as H; [|destruct (H "") as (c & ?); eauto].
  induction o as [|[k v] o IH]; intros c; cbn [forallb for_fold] in *; [by exists c|].
  apply andb_true_iff in Ho as [Hv Ho].
  assert (exists c', add_config c (k, v) = Ok c') as (c' & ->); [|by apply IH].
  unfold wf_codec_parameter in Hv. unfold add_config. simpl in *. destruct v; try done; by eexists.
Qed.

Lemma add_fmtp_returns mo payload params fmtp :
  is_object mo = true -> jfind mo "fmtp" = Some (JArray fmtp) ->
  opt_is is_object params = true -> forallb wf_codec_parameter (members params) = true ->
  exists p mo' fmtp', params = Some p /\ add_fmtp mo payload p = Ok mo' /\
    jfind mo' "fmtp" = Some (JArray fmtp') /\ extends ["fmtp"] mo mo'.
Proof.
  intros Ho Hf Hp1 Hp2. destruct (codec_config_returns _ Hp1 Hp2) as (p & config & -> & E).
  exists p. unfold add_fmtp. rewrite E. cbn [bind]. destruct (str_empty config).
  { exists mo, fmtp. by repeat split. }
  match goal with |- context [jpush_at mo "fmtp" ?v] =>
    destruct (jpush_extends mo "fmtp" fmtp v Ho Hf) as (mo' & E' & H1 & H2) end.
  eexists mo', _. split; [done|]. split; [exact E'|]. by split.
Qed.

Lemma offer_feedback_returns payload fbs mo l :
  forallb wf_feedback fbs = true -> is_object mo = true -> jfind mo "rtcpFb" = Some (JArray l) ->
  exists mo' l', for_fold (offer_feedback payload) mo fbs = Ok mo' /\
    jfind mo' "rtcpFb" = Some (JArray l') /\ extends ["rtcpFb"] mo mo'.
Proof.
  revert mo l. induction fbs as [|fb fbs IH]; intros mo l Hw Ho Hl; cbn [forallb for_fold] in *.
  { exists mo, l. by repeat split. }
  apply andb_true_iff in Hw as [Hfb Hw]. unfold wf_feedback in Hfb. bool_hyps.
  destruct (opt_is_jat is_string fb "type") as (ty & Et & _); [done|].
  destruct (opt_is_jat is_string fb "parameter") as (pa & Ep & _); [done|].
  unfold offer_feedback at 1. rewrite Et, Ep. cbn [bind].
  match goal with |- context [jpush_at mo _ ?v] =>
    destruct (jpush_extends mo "rtcpFb" l v Ho Hl) as (mo1 & -> & E1 & X1) end. cbn [bind].
  destruct (IH mo1 _ Hw (proj1 X1) E1) as (mo' & l' & -> & E' & X'). exists mo', l'.
  split; [done|]. split; [done|]. by eapply extends_trans.
Qed.

(** What an [rtp] entry says of its codec. *)
Definition rtp_line (codec rtp : json) : Prop :=
  jfind rtp "payload" = jfind codec "payloadType" /\ jfind rtp "rate" = jfind codec "clockRate".

Lemma add_channels_returns kind codec rtp :
  wf_codec_common kind codec = true -> is_object rtp = true ->
  exists rtp', add_channels codec rtp = Ok rtp' /\ extends ["encoding"] rtp rtp'.
Proof.
  intros Hw Ho. unfold add_channels, wf_codec_common in *. bool_hyps.
  destruct (String.eqb kind "audio").
  - destruct (opt_is_jat is_number_integer codec "channels") as (v & _ & -> & Hv); [done|].
    destruct (get_uint8_integer v Hv) as (z & -> & _). cbn [bind]. destruct (z >? 1).
    + destruct (jset_extends rtp "encoding" (JUint z) Ho) as (rtp' & -> & _ & X). by exists rtp'.
    + exists rtp. by split; [|apply extends_refl].
  - destruct (jfind codec "channels"); [done|]. exists rtp. by split; [|apply extends_refl].
Qed.

Lemma wf_codec_name codec : wf_codec_parameters codec = true -> exists name, getCodecName codec = Ok name.
Proof.
  unfold wf_codec_parameters, mime_kind, getCodecName. intros Hw. bool_hyps.
  destruct (jfind codec "mimeType") as [[]|] eqn:E; try done. rewrite (jat_jfind _ _ _ E). by eexists.
Qed.

Definition codec_keys : list string := ["rtp"; "fmtp"; "rtcpFb"].

(** The arrays the codec loop appends to. *)
Definition codec_arrays (rtp : list json) (mo : json) : Prop :=
  is_object mo = true /\ jfind mo "rtp" = Some (JArray rtp) /\
  (exists l, jfind mo "fmtp" = Some (JArray l)) /\ exists l, jfind mo "rtcpFb" = Some (JArray l).

Lemma offer_codec_returns mo codec rtp :
  wf_codec_parameters codec = true -> codec_arrays rtp mo ->
  exists mo' line, offer_codec mo codec = Ok mo' /\ rtp_line codec line /\
    codec_arrays (rtp ++ [line]) mo' /\ extends codec_keys mo mo'.
Proof.
  intros Hw (Ho & Hrtp & (fmtp & Hfmtp) & (fb & Hfb)).
  destruct (wf_codec_name _ Hw) as (name & Ename). unfold wf_codec_parameters in Hw. bool_hyps.
  destruct (mime_kind codec) as [kind|]; [|done]. bool_hyps. pose proof Hw as Hc.
  unfold wf_codec_common in Hc. bool_hyps.
  destruct (opt_is_jat is_number_integer codec "payloadType") as (pt & Ept & Fpt & _); [done|].
  destruct (opt_is_jat is_number_integer codec "clockRate") as (rate & Erate & Frate & _); [done|].
  destruct (opt_is_jat is_object codec "parameters") as (p & Ep & Fp & Hp); [done|].
  destruct (opt_is_jat is_array codec "rtcpFeedback") as (fbs & Efb & Ffb & Hfbs); [done|].
  unfold offer_codec. rewrite Ept, Ename, Erate, Ep, Efb. cbn [bind].
  destruct (add_channels_returns kind codec
    (JObj [("payload", pt); ("codec", JString name); ("rate", rate)]) Hw eq_refl) as (line & -> & Xl).
  cbn [bind]. destruct (jpush_extends mo "rtp" rtp line Ho Hrtp) as (mo1 & -> & F1 & X1). cbn [bind].
  destruct (add_fmtp_returns mo1 pt (jfind codec "parameters") fmtp) as (p' & mo2 & fmtp' & Ep' & E2 & F2 & X2).
  { apply X1. } { by rewrite (proj2 X1) by reflexivity. } { assumption. } { assumption. }
  rewrite Fp in Ep'. injection Ep' as <-. rewrite E2. cbn [bind].
  destruct (offer_feedback_returns pt (jiter fbs) mo2 fb) as (mo3 & fb' & -> & F3 & X3).
  { rewrite Ffb in *. by destruct fbs. } { apply X2. }
  { rewrite (proj2 X2), (proj2 X1) by reflexivity. done. }
  exists mo3, line. split; [done|]. split.
  { split; rewrite (proj2 Xl) by reflexivity; by rewrite ?Fpt, ?Frate. }
  split.
  - split; [apply X3|]. split; [rewrite (proj2 X3), (proj2 X2) by reflexivity; done|].
    split; [exists fmtp'; rewrite (proj2 X3) by reflexivity; done|by exists fb'].
  - eapply extends_trans; [|eapply extends_trans];
      (eapply extends_weaken; [|eassumption]); reflexivity.
Qed.

Lemma offer_codecs_return codecs mo rtp :
  forallb wf_codec_parameters codecs = true -> codec_arrays rtp mo ->
  exists mo' lines, for_fold offer_codec mo codecs = Ok mo' /\ Forall2 rtp_line codecs lines /\
    codec_arrays (rtp ++ lines) mo' /\ extends codec_keys mo mo'.
Proof.
  revert mo rtp. induction codecs as [|codec codecs IH]; intros mo rtp Hw Ha; cbn [forallb for_fold] in *.
  { exists mo, []. rewrite app_nil_r. split; [done|]. split; [by apply Forall2_nil|]. split; [done|].
    apply extends_refl, Ha. }
  apply andb_true_iff in Hw as [Hc Hw].
  destruct (offer_codec_returns _ _ _ Hc Ha) as (mo1 & line & -> & Hl & Ha1 & X1). cbn [bind].
  destruct (IH _ _ Hw Ha1) as (mo' & lines & -> & Hls & Ha' & X'). exists mo', (line :: lines).
  rewrite <- app_assoc in Ha'. split; [done|]. split; [by apply Forall2_cons|]. split; [done|].
  by eapply extends_trans.
Qed.

(** ** Payload types *)

Definition payload_text (codec : json) : string :=
  match jfind codec "payloadType" with
  | Some v => match get_uint8 v with Ok z => to_string z | _ => "" end
  | None => ""
  end.

Definition offer_payload (payloads : string) (codec : json) : res string :=
  let* pt := jat codec "payloadType" in add_payload payloads pt.

Lemma to_string_named z : 0 <= z < 256 -> to_string z <> "".
Proof.
  assert (forallb (fun n => negb (str_empty (to_string (Z.of_nat n)))) (seq 0 256) = true) as H
    by (vm_compute; reflexivity).
  intros Hz E. rewrite forallb_forall in H. specialize (H (Z.to_nat z)).
  rewrite Z2Nat.id, E in H by lia. discriminate H. apply in_seq. lia.
Qed.

Lemma offer_payload_step payloads codec :
  wf_codec_parameters codec = true ->
  offer_payload payloads codec = Ok (join_mid payloads (payload_text codec)) /\ payload_text codec <> "".
Proof.
  intros Hw. unfold wf_codec_parameters in Hw. bool_hyps. destruct (mime_kind codec); [|done]. bool_hyps.
  destruct (opt_is_jat is_number_integer codec "payloadType") as (v & E & F & Hv); [done|].
  unfold offer_payload, payload_text, add_payload. rewrite E, F. cbn [bind].
  destruct (get_uint8_integer v Hv) as (z & -> & Hz). cbn [bind]. split; [|by apply to_string_named].
  unfold join_mid. destruct (str_empty payloads) eqn:Ee; [by destruct payloads|].
  by rewrite str_app_assoc.
Qed.

Lemma offer_payloads codecs :
  forallb wf_codec_parameters codecs = true ->
  for_fold offer_payload "" codecs = Ok (String.concat " " (map payload_text codecs)).
Proof.
  intros Hw. rewrite <- join_concat.
  - generalize "". revert Hw. induction codecs as [|c codecs IH]; intros Hw acc;
      cbn [forallb for_fold map foldl] in *; [done|].
    apply andb_true_iff in Hw as [Hc Hw]. rewrite (proj1 (offer_payload_step acc c Hc)). cbn [bind].
    by apply IH.
  - rewrite forallb_forall in Hw. apply Forall_forall. intros x Hx.
    apply list_elem_of_In, in_map_iff in Hx as (c & <- & Hc). by apply (offer_payload_step ""), Hw.
Qed.

(** ** Header extensions and SSRCs *)

Lemma offer_extensions_return exts mo l :
  forallb wf_extension_parameters exts = true -> is_object mo = true ->
  jfind mo "ext" = Some (JArray l) ->
  exists mo', for_fold offer_extension mo exts = Ok mo' /\ extends ["ext"] mo mo'.
Proof.
  revert mo l. induction exts as [|ext exts IH]; intros mo l Hw Ho Hl; cbn [forallb for_fold] in *.
  { exists mo. by split; [|apply extends_refl]. }
  apply andb_true_iff in Hw as [He Hw]. unfold wf_extension_parameters in He. bool_hyps.
  destruct (opt_is_jat is_nonempty_string ext "uri") as (uri & Eu & _); [done|].
  destruct (opt_is_jat is_number_integer ext "id") as (id & Ei & _); [done|].
  unfold offer_extension at 1. rewrite Eu, Ei. cbn [bind].
  match goal with |- context [jpush_at mo _ ?v] =>
    destruct (jpush_extends mo "ext" l v Ho Hl) as (mo1 & -> & E1 & X1) end. cbn [bind].
  destruct (IH mo1 _ Hw (proj1 X1) E1) as (mo' & -> & X'). exists mo'.
  split; [done|]. by eapply extends_trans.
Qed.

(** The first encoding, with its SSRC. *)
Definition first_ssrc (params : json) : bool :=
  match elements (jfind params "encodings") with
  | e :: _ => opt_is is_number_integer (jfind e "ssrc")
  | [] => false
  end.

Definition ssrc_keys : list string := ["ssrcs"; "ssrcGroups"].

(** Both SSRC arrays are there; pushing to one keeps that. *)
Definition ssrc_arrays (mo0 mo : json) : Prop :=
  extends ssrc_keys mo0 mo /\ (exists l, jfind mo "ssrcs" = Some (JArray l)) /\
  exists l, jfind mo "ssrcGroups" = Some (JArray l).

Lemma ssrc_push mo0 mo k v :
  among ssrc_keys k = true -> ssrc_arrays mo0 mo ->
  exists mo', jpush_at mo k v = Ok mo' /\ ssrc_arrays mo0 mo'.
Proof.
  intros Hk (X & (l1 & H1) & (l2 & H2)). pose proof (proj1 X) as Ho.
  assert (exists l mo', jpush_at mo k v = Ok mo' /\ jfind mo' k = Some (JArray l) /\ extends [k] mo mo')
    as (l & mo' & -> & F & X').
  { apply existsb_exists in Hk as (k' & Hin & ->%String.eqb_eq).
    destruct Hin as [<-|[<-|[]]]; eexists; by eapply jpush_extends. }
  exists mo'. split; [done|]. split; [|split].
  - eapply extends_trans; [exact X|]. eapply extends_weaken; [|exact X']. cbn [forallb]. by rewrite Hk.
  - destruct (String.eqb_spec k "ssrcs") as [->|Hne]; [by exists l|]. exists l1.
    rewrite (proj2 X'); [done|]. unfold among. cbn [existsb].
    rewrite orb_false_r. apply String.eqb_neq. congruence.
  - destruct (String.eqb_spec k "ssrcGroups") as [->|Hne]; [by exists l|]. exists l2.
    rewrite (proj2 X'); [done|]. unfold among. cbn [existsb].
    rewrite orb_false_r. apply String.eqb_neq. congruence.
Qed.

Lemma offer_ssrcs_return mo params streamId trackId :
  wf_array wf_encoding params "encodings" = true -> opt_is wf_rtcp (jfind params "rtcp") = true ->
  first_ssrc params = true -> is_object mo = true ->
  exists mo', offer_ssrcs mo params streamId trackId = Ok mo' /\ extends ssrc_keys mo mo'.
Proof.
  intros Hw Hrtcp Hs Ho. unfold wf_array, first_ssrc in *. bool_hyps.
  destruct (opt_is_jat is_array params "encodings") as (encs & Ee & Fe & He); [done|].
  destruct (opt_is_jat wf_rtcp params "rtcp") as (rtcp & Er & _ & _); [done|].
  rewrite Fe in *. destruct encs as [| | | | | |[|e encs]|]; try done. simpl in Hs, Hw.
  apply andb_true_iff in Hw as [Hwe _]. unfold wf_encoding in Hwe. bool_hyps.
  destruct (opt_is_jat is_number_integer e "ssrc") as (s & Es & _ & Hsi); [done|].
  unfold offer_ssrcs. rewrite Ee, Er. cbn [bind jidx lookup list_lookup]. rewrite Es. cbn [bind].
  destruct (get_uint32_integer s Hsi) as (ssrc & ->). cbn [bind].
  assert (exists z, match jfind e "rtx" with
    | Some rtx => match jfind rtx "ssrc" with Some s => get_uint32 s | None => Ok 0 end
    | None => Ok 0
    end = Ok z) as (rtxSsrc & ->).
  { destruct (jfind e "rtx") as [rtx|]; [|by eexists]. simpl in *. bool_hyps.
    destruct (jfind rtx "ssrc") as [rs|]; [|done]. by apply get_uint32_integer. }
  cbn [bind]. destruct (jset_extends mo "ssrcs" (JArray []) Ho) as (mo1 & -> & F1 & X1). cbn [bind].
  destruct (jset_extends mo1 "ssrcGroups" (JArray []) (proj1 X1)) as (mo2 & -> & F2 & X2). cbn [bind].
  assert (ssrc_arrays mo mo2) as Harr.
  { split; [eapply extends_trans; (eapply extends_weaken; [|eassumption]); reflexivity|].
    split; eexists; [rewrite (proj2 X2) by reflexivity; exact F1|exact F2]. }
  destruct (jfind rtcp "cname") as [[]|]; try (exists mo2; split; [done|exact (proj1 Harr)]).
  repeat match goal with
  | |- context [if ?b then _ else _] => destruct b
  | H : ssrc_arrays mo ?m |- context [bind (jpush_at ?m ?k ?v) _] =>
      destruct (ssrc_push mo m k v eq_refl H) as (? & -> & ?); cbn [bind]; clear H
  | H : ssrc_arrays mo ?m |- context [jpush_at ?m ?k ?v] =>
      destruct (ssrc_push mo m k v eq_refl H) as (? & -> & ?); clear H
  end.
  all: eexists; split; [reflexivity|].
  all: match goal with H : ssrc_arrays _ _ |- _ => exact (proj1 H) end.
Qed.

(** ** The base class *)

Lemma candidate_object_returns c : wf_ice_candidate c = true -> exists v, candidate_object c = Ok v.
Proof.
  unfold wf_ice_candidate. intros Hw. bool_hyps.
  destruct (opt_is_jat is_nonempty_string c "foundation") as (v1 & E1 & _); [done|].
  destruct (opt_is_jat is_nonempty_string c "ip") as (v2 & E2 & _); [done|].
  destruct (opt_is_jat is_number_unsigned c "port") as (v3 & E3 & _); [done|].
  destruct (opt_is_jat is_number_unsigned c "priority") as (v4 & E4 & _); [done|].
  destruct (opt_is_jat (is_word ["udp"; "tcp"]) c "protocol") as (v5 & E5 & _); [done|].
  destruct (opt_is_jat (is_word ["host"; "srflx"; "prflx"; "relay"]) c "type") as (v6 & E6 & _); [done|].
  unfold candidate_object. rewrite E1, E2, E3, E4, E5, E6. cbn [jset bind].
  destruct (jfind c "tcpType"); by eexists.
Qed.

Definition base_keys : list string := ["iceUfrag"; "icePwd"; "candidates"; "endOfCandidates"; "iceOptions"].

Lemma MediaSection_init_returns ice cands :
  wf_ice_parameters ice = true -> wf_ice_candidates cands = true ->
  exists mo, MediaSection_init ice cands = Ok mo /\ is_object mo = true.
Proof.
  intros Hi Hc. unfold wf_ice_parameters in Hi. bool_hyps.
  destruct (opt_is_jat is_nonempty_string ice "usernameFragment") as (u & Eu & _); [done|].
  destruct (opt_is_jat is_nonempty_string ice "password") as (p & Ep & _); [done|].
  unfold MediaSection_init, SetIceParameters. rewrite Eu, Ep. cbn [jset bind].
  match goal with |- context [for_fold _ (JObject ?o) _] =>
    assert (exists l, jfind (JObject o) "candidates" = Some (JArray l)) as (l & Hl) by (by eexists);
    generalize dependent (JObject o); intros mo Hl; assert (is_object mo = true) as Ho by (by destruct mo) end.
  destruct cands as [| | | | | |cs|]; try done. simpl jiter. simpl in Hc.
  revert mo l Hl Ho. induction cs as [|c cs IH]; intros mo l Hl Ho; cbn [forallb for_fold] in *.
  - destruct mo; try done. by eexists.
  - apply andb_true_iff in Hc as [Hc Hcs]. destruct (candidate_object_returns c Hc) as (v & ->). cbn [bind].
    destruct (jpush_extends mo "candidates" l v Ho Hl) as (mo1 & -> & F1 & X1). cbn [bind].
    by apply (IH Hcs mo1 _ F1), X1.
Qed.

(** ** The offer *)

Lemma offer_media_returns params streamId trackId mo :
  wf_parameters params = true -> first_ssrc params = true -> is_object mo = true ->
  exists mo' lines, offer_media params streamId trackId mo = Ok mo' /\
    jfind mo' "rtp" = Some (JArray lines) /\ Forall2 rtp_line (elements (jfind params "codecs")) lines /\
    jfind mo' "payloads"
      = Some (JString (String.concat " " (map payload_text (elements (jfind params "codecs"))))).
Proof.
  intros Hw Hs Ho. unfold wf_parameters, wf_array in Hw. bool_hyps.
  destruct (opt_is_jat is_array params "codecs") as (cs & Ec & Fc & Hc); [done|].
  destruct (opt_is_jat is_array params "headerExtensions") as (es & Ee & Fe & He); [done|].
  unfold offer_media. rewrite Ec, Ee, Fc, Fe in *. destruct cs as [| | | | | |cs|]; try done.
  destruct es as [| | | | | |es|]; try done. simpl elements in *.
  destruct (jset_extends mo "direction" (JString "sendonly") Ho) as (m1 & -> & _ & X1). cbn [bind].
  destruct (jset_extends m1 "rtp" (JArray []) (proj1 X1)) as (m2 & -> & F2 & X2). cbn [bind].
  destruct (jset_extends m2 "rtcpFb" (JArray []) (proj1 X2)) as (m3 & -> & F3 & X3). cbn [bind].
  destruct (jset_extends m3 "fmtp" (JArray []) (proj1 X3)) as (m4 & -> & F4 & X4). cbn [bind].
  change (jiter (JArray cs)) with cs. change (jiter (JArray es)) with es.
  destruct (offer_codecs_return cs m4 []) as (m5 & lines & -> & Hl & (Ho5 & Fr & _) & X5); [done| |].
  { split; [apply X4|]. split; [by rewrite (proj2 X4), (proj2 X3) by reflexivity|].
    split; [by eexists|]. exists []. by rewrite (proj2 X4) by reflexivity. }
  cbn [bind]. change (for_fold _ "" cs) with (for_fold offer_payload "" cs).
  rewrite offer_payloads by done. cbn [bind].
  destruct (jset_extends m5 "payloads" (JString (String.concat " " (map payload_text cs))) Ho5)
    as (m6 & -> & F6 & X6). cbn [bind].
  destruct (jset_extends m6 "ext" (JArray []) (proj1 X6)) as (m7 & -> & F7 & X7). cbn [bind].
  destruct (offer_extensions_return es m7 []) as (m8 & -> & X8); [done|apply X7|done|]. cbn [bind].
  unfold set_rtcp.
  destruct (jset_extends m8 "rtcpMux" (JString "rtcp-mux") (proj1 X8)) as (m9 & -> & _ & X9). cbn [bind].
  destruct (jset_extends m9 "rtcpRsize" (JString "rtcp-rsize") (proj1 X9)) as (m10 & -> & _ & X10). cbn [bind].
  destruct (offer_ssrcs_return m10 params streamId trackId) as (m11 & -> & X11); try done.
  { unfold wf_array. by apply andb_true_iff. } { apply X10. }
  exists m11, lines. split; [done|].
  rewrite !(proj2 X11), !(proj2 X10), !(proj2 X9), !(proj2 X8), !(proj2 X7) by reflexivity.
  rewrite (proj2 X6) by reflexivity. done.
Qed.

(** C39. An offer for RTP parameters the validator accepted, on a transport
    whose ICE parameters and candidates it accepted: if the first encoding has
    an SSRC, the constructor of [OfferMediaSection] returns.  The section is
    open and has the given mid, and for audio and video its [rtp] entries and
    its payload types are those of the codecs, in order. *)
Theorem valid_parameters_give_offer ice cands dtls mid kind params params' streamId trackId :
  wf_ice_parameters ice = true -> wf_ice_candidates cands = true ->
  validateRtpParameters params = Ok params' -> first_ssrc params' = true ->
  kind = "audio" \/ kind = "video" ->
  exists s lines,
    OfferMediaSection ice cands dtls JNull mid kind params' streamId trackId = Ok s /\
    section_is mid false s /\
    jfind (mediaObject s) "rtp" = Some (JArray lines) /\
    Forall2 rtp_line (elements (jfind params' "codecs")) lines /\
    jfind (mediaObject s) "payloads"
      = Some (JString (String.concat " " (map payload_text (elements (jfind params' "codecs"))))).
Proof.
  intros Hi Hc Hv Hs Hk. pose proof (post_Ok_elim _ _ _ _ (parameters_post params) Hv) as Hw.
  simpl in Hw. destruct (MediaSection_init_returns ice cands Hi Hc) as (mo & Em & Ho).
  assert (exists mo' lines,
    OfferMediaSection ice cands dtls JNull mid kind params' streamId trackId = Ok (Section_ Offer mo') /\
    jfind mo' "rtp" = Some (JArray lines) /\ Forall2 rtp_line (elements (jfind params' "codecs")) lines /\
    jfind mo' "payloads"
      = Some (JString (String.concat " " (map payload_text (elements (jfind params' "codecs"))))))
    as (mo' & lines & E & H).
  { unfold OfferMediaSection. rewrite Em. destruct mo as [| | | | | | |o]; try done. cbn [jset bind].
    assert (String.eqb kind "audio" || String.eqb kind "video" = true) as -> by (by destruct Hk; subst).
    match goal with |- context [offer_media params' streamId trackId ?m] =>
      destruct (offer_media_returns params' streamId trackId m Hw Hs eq_refl) as (mo' & lines & -> & H) end.
    by exists mo', lines. }
  exists (Section_ Offer mo'), lines. split; [exact E|]. split; [|exact H].
  exact (OfferMediaSection_is _ _ _ _ _ _ _ _ _ _ E).
Qed.

Lemma valid_parameters_give_offer_witness :
  exists params' s lines,
    validateRtpParameters Session.params = Ok params' /\
    OfferMediaSection Session.ice Session.candidates Session.dtls JNull "0" "video" params' "s" "t" = Ok s /\
    jfind (mediaObject s) "rtp" = Some (JArray lines) /\ length lines = 1%nat /\
    jfind (mediaObject s) "payloads" = Some (JString "101").
Proof.
  destruct (validateRtpParameters Session.params) as [params'| | |] eqn:E; [|discriminate E..].
  destruct (valid_parameters_give_offer Session.ice Session.candidates Session.dtls "0" "video"
    Session.params params' "s" "t" eq_refl eq_refl E) as (s & lines & H1 & _ & H2 & H3 & H4).
  { vm_compute in E. injection E as <-. reflexivity. }
  { right. reflexivity. }
  exists params', s, lines. split; [reflexivity|]. split; [exact H1|]. split; [exact H2|].
  vm_compute in E. injection E as <-. split; [|exact H4].
  apply Forall2_length in H3. exact (eq_sym H3).
Defined.
