(* ===== verification/Device.v ===== *)
(** The device: src/Device.cpp of libmediasoupclient.

    [Device.t] is the state of the class, one definition per method, in the
    monad that keeps what was assigned before an exception.  The native RTP
    capabilities, which WebRTC reports through an SDP offer, are an argument of
    [Load].  A value a validator was filling in when it threw counts as not
    changed. *)

From stdpp Require Import gmap.
From S2P Require Import Prelude Json OrtcValidate Ortc OrtcFacts.

Module Device.

Record t : Type := Mk {
  loaded : bool;
  extendedRtpCapabilities : json;
  recvRtpCapabilities : json;
  canProduceByKind : gmap string bool;
  sctpCapabilities : json
}.

Definition make : t :=
  Mk false JNull JNull (<["audio" := false]> (<["video" := false]> empty)) JNull.

(** [Handler::GetNativeSctpCapabilities] *)
Definition SctpNumStreams : json := JObj [("OS", JUint 1024); ("MIS", JUint 1024)].
Definition GetNativeSctpCapabilities : json := JObj [("numStreams", SctpNumStreams)].

Definition set_extended (ext : json) (d : t) : t :=
  Mk (loaded d) ext (recvRtpCapabilities d) (canProduceByKind d) (sctpCapabilities d).
Definition set_recv (recv : json) (d : t) : t :=
  Mk (loaded d) (extendedRtpCapabilities d) recv (canProduceByKind d) (sctpCapabilities d).
Definition set_can (kind : string) (b : bool) (d : t) : t :=
  Mk (loaded d) (extendedRtpCapabilities d) (recvRtpCapabilities d)
     (<[kind := b]> (canProduceByKind d)) (sctpCapabilities d).
Definition set_sctp_caps (caps : json) (d : t) : t :=
  Mk (loaded d) (extendedRtpCapabilities d) (recvRtpCapabilities d) (canProduceByKind d) caps.
Definition set_loaded (d : t) : t :=
  Mk true (extendedRtpCapabilities d) (recvRtpCapabilities d) (canProduceByKind d)
     (sctpCapabilities d).

Definition not_loaded : exn := MscInvalidStateError "not loaded".

Definition IsLoaded (d : t) : bool := loaded d.

Definition GetRtpCapabilities (d : t) : res json :=
  do* throw_if (negb (loaded d)) not_loaded in Ok (recvRtpCapabilities d).

Definition GetSctpCapabilities (d : t) : res json :=
  do* throw_if (negb (loaded d)) not_loaded in Ok (sctpCapabilities d).

(** [native]: the outcome of [Handler::GetNativeRtpCapabilities]. *)
Definition Load (native : res json) (routerRtpCapabilities : json) : ST t unit :=
  let! d := st_get in
  do! st_throw_if (loaded d) (MscInvalidStateError "already loaded") in
  let! router := st_lift (validateRtpCapabilities routerRtpCapabilities) in
  let! native := st_lift native in
  let! native := st_lift (validateRtpCapabilities native) in
  let! (ext, _, _) := st_lift (getExtendedRtpCapabilities native router) in
  do! st_modify (set_extended ext) in
  let! audio := st_lift (canSend "audio" ext) in
  do! st_modify (set_can "audio" audio) in
  let! video := st_lift (canSend "video" ext) in
  do! st_modify (set_can "video" video) in
  let! recv := st_lift (getRecvRtpCapabilities ext) in
  do! st_modify (set_recv recv) in
  let! recv := st_lift (validateRtpCapabilities recv) in
  do! st_modify (set_recv recv) in
  do! st_modify (set_sctp_caps GetNativeSctpCapabilities) in
  let! caps := st_lift (validateSctpCapabilities GetNativeSctpCapabilities) in
  do! st_modify (set_sctp_caps caps) in
  st_modify set_loaded.

(** [canProduceByKind[kind]] inserts a missing kind with [false]. *)
Definition CanProduce (kind : string) : ST t bool :=
  let! d := st_get in
  do! st_throw_if (negb (loaded d)) not_loaded in
  do! st_throw_if (negb (String.eqb kind "audio") && negb (String.eqb kind "video"))
        (MscTypeError "invalid kind") in
  match canProduceByKind d !! kind with
  | Some b => st_ret b
  | None => do! st_modify (set_can kind false) in st_ret false
  end.

(** The parameters a transport is created with, validated. *)
Record transport_parameters : Type := TransportParameters {
  tp_ice : json; tp_candidates : json; tp_dtls : json; tp_sctp : json; tp_appData : json
}.

(** The checks both [CreateSendTransport] and [CreateRecvTransport] make before
    the constructor of the transport runs. *)
Definition check_transport (d : t) (iceParameters iceCandidates dtlsParameters sctpParameters appData : json)
    : res transport_parameters :=
  do* throw_if (negb (loaded d)) not_loaded in
  do* throw_if (negb (is_object appData)) (MscTypeError "appData must be a JSON object") in
  let* ice := validateIceParameters iceParameters in
  let* candidates := validateIceCandidates iceCandidates in
  let* dtls := validateDtlsParameters dtlsParameters in
  let* sctp := if negb (is_null sctpParameters) then validateSctpParameters sctpParameters
               else Ok sctpParameters in
  Ok (TransportParameters ice candidates dtls sctp appData).
End Device.
Import Device.

(** ** Facts *)

(** [Load] on a device that is not loaded, with capabilities that can be
    negotiated. *)
Lemma Load_runs d router native r n :
  loaded d = false ->
  validateRtpCapabilities router = Ok r -> negotiable_capabilities r = true ->
  validateRtpCapabilities native = Ok n -> negotiable_capabilities n = true ->
  exists ext recv recv' audio video,
    extended_capabilities ext /\ (exists n' r', getExtendedRtpCapabilities native router = Ok (ext, n', r')) /\
    canSend "audio" ext = Ok audio /\ canSend "video" ext = Ok video /\
    getRecvRtpCapabilities ext = Ok recv /\ validateRtpCapabilities recv = Ok recv' /\
    Load (Ok native) router d =
      (Mk true ext recv' (<["video" := video]> (<["audio" := audio]> (canProduceByKind d)))
         GetNativeSctpCapabilities, Ok tt).
Proof.
  intros Hd Hr Nr Hn Nn.
  assert (forall c c', validateRtpCapabilities c = Ok c' -> validateRtpCapabilities c' = Ok c') as Hidem.
  { intros c c' Hc. apply capabilities_id. exact (post_Ok_elim _ _ _ _ (capabilities_post c) Hc). }
  destruct (getExtendedRtpCapabilities_ok n r n r (Hidem _ _ Hn) (Hidem _ _ Hr) Nn Nr)
    as (ext & n' & r' & E & Hext).
  destruct (getRecvRtpCapabilities_ok ext Hext) as (recv & recv' & E1 & E2).
  assert (getExtendedRtpCapabilities native router = Ok (ext, n', r')) as E'.
  { unfold getExtendedRtpCapabilities in *. rewrite Hn, Hr. rewrite (Hidem _ _ Hn), (Hidem _ _ Hr) in E.
    exact E. }
  pose proof Hext as (codecs & exts & Hshape & _).
  destruct (canSend_spec "audio" ext codecs exts Hshape Hext) as [Ea _].
  destruct (canSend_spec "video" ext codecs exts Hshape Hext) as [Ev _].
  exists ext, recv, recv', (existsb (kind_is "audio") codecs), (existsb (kind_is "video") codecs).
  split; [done|]. split; [by exists n', r'|]. repeat (split; [done|]).
  unfold Load, st_bind, st_get, st_throw_if, st_lift, st_modify, st_ret. rewrite Hd.
  rewrite Hr, Hn, E, Ea, Ev, E1, E2. reflexivity.
Qed.

(** Every way [Load] can end: it is loaded exactly when it returned. *)
Lemma Load_loaded native router d d' r :
  loaded d = false -> Load native router d = (d', r) -> (r = Ok tt <-> loaded d' = true).
Proof.
  intros Hd. unfold Load, st_bind, st_get, st_throw_if, st_lift, st_modify, st_ret. rewrite Hd. cbv beta iota.
  repeat match goal with
  | |- (match ?x with _ => _ end _ = _) -> _ => destruct x; cbv beta iota
  | |- (match ?x with _ => _ end = _) -> _ => destruct x
  | |- ((_, _) = (_, _)) -> _ => intros [= <- <-]; simpl; rewrite ?Hd; split; done
  end.
Qed.

(** Loading a device.  With router and native capabilities that validate
    and are complete, [Load] returns; the device then has receiving
    capabilities and SCTP capabilities that pass validation, can produce a kind
    exactly when a codec of that kind was negotiated, and cannot be loaded a
    second time.  However [Load] ends, the device is loaded just when it
    returned, so a failed one can be repeated. *)
Theorem device_load_spec d router native r n :
  loaded d = false ->
  validateRtpCapabilities router = Ok r -> negotiable_capabilities r = true ->
  validateRtpCapabilities native = Ok n -> negotiable_capabilities n = true ->
  (exists d' caps, Load (Ok native) router d = (d', Ok tt) /\
    GetRtpCapabilities d' = Ok caps /\ wf_capabilities caps = true /\
    wf_sctp_capabilities (sctpCapabilities d') = true /\
    (forall kind, kind = "audio" \/ kind = "video" ->
       CanProduce kind d' =
         (d', Ok (existsb (kind_is kind) (elements (jfind (extendedRtpCapabilities d') "codecs"))))) /\
    (forall native2 router2,
       Load native2 router2 d' = (d', Throw (MscInvalidStateError "already loaded")))) /\
  (forall native2 router2 d2 r2, Load native2 router2 d = (d2, r2) -> (r2 = Ok tt <-> loaded d2 = true)).
Proof.
  intros Hd Hr Nr Hn Nn. split; [|intros; by eapply Load_loaded].
  destruct (Load_runs d router native r n Hd Hr Nr Hn Nn)
    as (ext & recv & recv' & audio & video & Hext & _ & Ea & Ev & _ & E2 & EL).
  eexists _, recv'. split; [exact EL|]. split; [reflexivity|].
  split; [exact (post_Ok_elim _ _ _ _ (capabilities_post recv) E2)|]. split; [reflexivity|]. split.
  - pose proof Hext as (codecs & exts & -> & _). cbn [extendedRtpCapabilities].
    change (elements (jfind (JObj [("codecs", JArray codecs); ("headerExtensions", JArray exts)]) "codecs"))
      with codecs.
    destruct (canSend_spec "audio" _ codecs exts eq_refl Hext) as [Ea' _].
    destruct (canSend_spec "video" _ codecs exts eq_refl Hext) as [Ev' _].
    rewrite Ea' in Ea. rewrite Ev' in Ev. injection Ea as <-. injection Ev as <-.
    intros kind [-> | ->]; unfold CanProduce, st_bind, st_get, st_throw_if, st_ret; cbn.
    + by rewrite lookup_insert_ne, lookup_insert_eq.
    + by rewrite lookup_insert_eq.
  - reflexivity.
Qed.

Lemma device_load_spec_witness :
  exists d' caps, Load (Ok Sample.caps) Sample.caps make = (d', Ok tt) /\
    GetRtpCapabilities d' = Ok caps /\ wf_capabilities caps = true.
Proof.
  set (v := result_of (validateRtpCapabilities Sample.caps) JNull).
  destruct (device_load_spec make Sample.caps Sample.caps v v eq_refl
    ltac:(vm_compute; reflexivity) ltac:(vm_compute; reflexivity)
    ltac:(vm_compute; reflexivity) ltac:(vm_compute; reflexivity))
    as ((d' & caps & H1 & H2 & H3 & _) & _).
  exists d', caps. exact (conj H1 (conj H2 H3)).
Defined.
