(* ===== verification/Registry.v ===== *)
(** Registries of shared objects.

    The transports keep pointers to the objects they created in maps by id,
    and the application holds the same pointers: an object lives in a heap by
    address and carries its id and whether it is closed.  [registry] says that
    the map holds exactly the open objects as long as its owner is open; the
    lemmas follow it through the changes the owners make, and [close_each]
    through the loop that closes every registered object. *)

From stdpp Require Import gmap.
From S2P Require Import Prelude.

(** The pointers of an unordered map, in some order. *)
Definition pointers (m : gmap string Z) : list Z := (map_to_list m).*2.

Lemma pointers_In (m : gmap string Z) p : p ∈ pointers m <-> exists k, m !! k = Some p.
Proof.
  unfold pointers. rewrite list_elem_of_fmap. split.
  - intros ([k q] & -> & Hk). exists k. by apply elem_of_map_to_list in Hk.
  - intros (k & Hk). exists (k, p). split; [done|]. by apply elem_of_map_to_list.
Qed.

Lemma pointers_NoDup (m : gmap string Z) :
  (forall k k' p, m !! k = Some p -> m !! k' = Some p -> k = k') -> NoDup (pointers m).
Proof.
  intros Hinj. unfold pointers. apply NoDup_fmap_2_strong; [|apply NoDup_map_to_list].
  intros [k p] [k' p'] Hx Hy E. simpl in E. subst p'.
  apply elem_of_map_to_list in Hx, Hy. f_equal. by eapply Hinj.
Qed.

(** An object with an id that can be closed, for good. *)
Class Closable (O : Type) : Type := {
  o_id : O -> string;
  o_closed : O -> bool;
  o_close : O -> O;
  o_close_id : forall o, o_id (o_close o) = o_id o;
  o_close_closed : forall o, o_closed (o_close o) = true
}.

Section Registry.
Context {O : Type} `{Closable O}.
Implicit Types (m : gmap string Z) (heap : gmap Z O) (closed : bool).

Record registry m heap closed : Prop := Registered {
  registered : forall k p, m !! k = Some p ->
    exists o, heap !! p = Some o /\ o_id o = k /\ o_closed o = closed;
  registers_open : forall p o, heap !! p = Some o -> o_closed o = false -> m !! o_id o = Some p
}.

Definition open_at heap (p : Z) : Prop := exists o, heap !! p = Some o /\ o_closed o = false.

Lemma registry_empty closed : registry empty empty closed.
Proof. by split. Qed.

(** An object is changed, but not its id. *)
Lemma registry_update m heap closed p o o' :
  registry m heap closed -> heap !! p = Some o -> o_id o' = o_id o -> o_closed o' = o_closed o ->
  registry m (<[p := o']> heap) closed.
Proof.
  intros [R1 R2] Ho Eid Ec. split.
  - intros k q Hk. destruct (R1 k q Hk) as (o1 & Ho1 & Hid & Hc). destruct (decide (q = p)) as [->|Hne].
    + exists o'. rewrite lookup_insert_eq. simplify_eq. by rewrite Eid, Ec.
    + exists o1. by rewrite lookup_insert_ne.
  - intros q o1 Ho1 Hc. destruct (decide (q = p)) as [->|Hne].
    + rewrite lookup_insert_eq in Ho1. injection Ho1 as <-. rewrite Eid. apply R2; congruence.
    + rewrite lookup_insert_ne in Ho1 by done. by apply R2.
Qed.

(** An object is closed and taken out. *)
Lemma registry_close m heap closed p o :
  registry m heap closed -> heap !! p = Some o -> o_closed o = false ->
  registry (delete (o_id o) m) (<[p := o_close o]> heap) closed.
Proof.
  intros [R1 R2] Ho Hopen. pose proof (R2 p o Ho Hopen) as Hreg. split.
  - intros k q Hk. apply lookup_delete_Some in Hk as [Hne Hk].
    destruct (R1 k q Hk) as (o1 & Ho1 & Hid & Hc). exists o1. rewrite lookup_insert_ne; [done|].
    intros ->. apply Hne. rewrite <- Hid. congruence.
  - intros q o1 Ho1 Hc. destruct (decide (q = p)) as [->|Hne].
    { rewrite lookup_insert_eq in Ho1. injection Ho1 as <-. by rewrite o_close_closed in Hc. }
    rewrite lookup_insert_ne in Ho1 by done. pose proof (R2 q o1 Ho1 Hc) as Hq.
    rewrite lookup_delete_ne; [done|]. intros E. rewrite E in Hreg. congruence.
Qed.

(** A new object gets a new address and a new id. *)
Lemma registry_add m heap p o :
  registry m heap false -> heap !! p = None -> m !! o_id o = None -> o_closed o = false ->
  registry (<[o_id o := p]> m) (<[p := o]> heap) false.
Proof.
  intros [R1 R2] Hp Hid Hc. split.
  - intros k q Hk. destruct (decide (k = o_id o)) as [->|Hne].
    + rewrite lookup_insert_eq in Hk. injection Hk as <-. exists o. by rewrite lookup_insert_eq.
    + rewrite lookup_insert_ne in Hk by done. destruct (R1 k q Hk) as (o1 & Ho1 & Hk1 & Hc1).
      exists o1. rewrite lookup_insert_ne; [done|]. congruence.
  - intros q o1 Ho1 Hc1. destruct (decide (q = p)) as [->|Hne].
    + rewrite lookup_insert_eq in Ho1. injection Ho1 as <-. apply lookup_insert_eq.
    + rewrite lookup_insert_ne in Ho1 by done. pose proof (R2 q o1 Ho1 Hc1) as Hq.
      rewrite lookup_insert_ne; [done|]. congruence.
Qed.

(** While the owner is open its pointers are the open objects. *)
Lemma registry_open m heap p : registry m heap false -> p ∈ pointers m <-> open_at heap p.
Proof.
  intros [R1 R2]. rewrite pointers_In. split.
  - intros (k & Hk). destruct (R1 k p Hk) as (o & Ho & _ & Hc). by exists o.
  - intros (o & Ho & Hc). exists (o_id o). by apply R2.
Qed.

Lemma registry_NoDup m heap closed : registry m heap closed -> NoDup (pointers m).
Proof.
  intros [R1 R2]. apply pointers_NoDup. intros k k' p Hk Hk'.
  destruct (R1 k p Hk) as (o & Ho & <- & _), (R1 k' p Hk') as (o' & Ho' & <- & _). congruence.
Qed.

(** Once the owner is closed every object is. *)
Lemma registry_closed m heap p o : registry m heap true -> heap !! p = Some o -> o_closed o = true.
Proof.
  intros [R1 R2] Ho. destruct (o_closed o) eqn:Hc; [done|].
  destruct (R1 _ _ (R2 p o Ho Hc)) as (o' & Ho' & _ & Hc'). congruence.
Qed.

(** The heap with the objects at [ps] closed. *)
Definition close_at (ps : list Z) (heap heap' : gmap Z O) : Prop :=
  forall p, heap' !! p = if decide (p ∈ ps) then o_close <$> heap !! p else heap !! p.

(** The owner closes all it has registered. *)
Lemma registry_close_all m heap heap' :
  registry m heap false -> close_at (pointers m) heap heap' -> registry m heap' true.
Proof.
  intros R Hat. split.
  - intros k p Hk. destruct (registered _ _ _ R k p Hk) as (o & Ho & Hid & _).
    exists (o_close o). rewrite Hat, decide_True by (apply pointers_In; by exists k). rewrite Ho.
    by rewrite o_close_id, o_close_closed.
  - intros p o Ho Hc. exfalso. rewrite Hat in Ho. destruct (decide (p ∈ pointers m)) as [Hin|Hn].
    + destruct (heap !! p) as [o1|]; [|done]. injection Ho as <-. by rewrite o_close_closed in Hc.
    + apply Hn, (registry_open m heap p R). by exists o.
Qed.
End Registry.

(** ** The loop that closes *)

Section CloseEach.
Context {S O E F : Type} `{Closable O}.
(** The heap of the objects, the notifications, and the rest of the state. *)
Context (heap : S -> gmap Z O) (events : S -> list E) (frame : S -> F).
Context (notify : Z -> O -> list E) (f : Z -> ST S unit).

(** An open object is marked closed and its listener is told. *)
Hypothesis Hf : forall s p o, heap s !! p = Some o -> o_closed o = false ->
  exists s', f p s = (s', Ok tt) /\ heap s' = <[p := o_close o]> (heap s) /\
    events s' = events s ++ notify p o /\ frame s' = frame s.

Definition notified (h : gmap Z O) (p : Z) : list E :=
  match h !! p with Some o => notify p o | None => [] end.

Lemma close_each ps s :
  NoDup ps -> (forall p, p ∈ ps -> open_at (heap s) p) ->
  exists s', each f ps s = (s', Ok tt) /\ close_at ps (heap s) (heap s') /\
    events s' = events s ++ concat (notified (heap s) <$> ps) /\ frame s' = frame s.
Proof.
  revert s. induction ps as [|p ps IH]; intros s Hnd Hopen.
  { exists s. split; [done|]. split; [|by rewrite app_nil_r].
    intros p. by rewrite decide_False by apply not_elem_of_nil. }
  apply NoDup_cons in Hnd as [Hp Hnd]. destruct (Hopen p) as (o & Ho & Hc); [by apply list_elem_of_here|].
  destruct (Hf s p o Ho Hc) as (s1 & E1 & Hh1 & Hev1 & Hfr1).
  destruct (IH s1 Hnd) as (s2 & E2 & Hh2 & Hev2 & Hfr2).
  { intros q Hq. destruct (Hopen q) as (oq & Hoq & Hcq); [by apply list_elem_of_further|].
    exists oq. rewrite Hh1, lookup_insert_ne; [done|]. by intros ->. }
  exists s2. split; [|split; [|split]].
  - simpl. by rewrite (st_bind_ok _ _ _ _ _ E1).
  - intros q. rewrite Hh2, Hh1. destruct (decide (q = p)) as [->|Hne].
    + rewrite decide_False, lookup_insert_eq by done. rewrite decide_True by apply list_elem_of_here. by rewrite Ho.
    + rewrite lookup_insert_ne by done. destruct (decide (q ∈ ps)) as [Hq|Hq].
      * by rewrite decide_True by by apply list_elem_of_further.
      * rewrite decide_False; [done|]. intros [->|?]%elem_of_cons; done.
  - rewrite Hev2, Hev1, <- app_assoc. simpl. unfold notified at 2. rewrite Ho. do 2 f_equal. f_equal.
    apply list_fmap_ext. intros i q Hi. unfold notified. rewrite Hh1, lookup_insert_ne; [done|].
    intros ->. apply Hp. by eapply list_elem_of_lookup_2.
  - by rewrite Hfr2.
Qed.

(** Each object has one notification. *)
Lemma notified_fmap (e : Z -> E) (h : gmap Z O) qs :
  (forall p o, notify p o = [e p]) -> (forall p, p ∈ qs -> open_at h p) ->
  concat (notified h <$> qs) = e <$> qs.
Proof.
  intros He Hopen. induction qs as [|p qs IH]; [done|]. simpl.
  destruct (Hopen p) as (o & Ho & _); [by apply list_elem_of_here|].
  unfold notified at 1. rewrite Ho, He. simpl. f_equal. apply IH. intros q Hq. by apply Hopen, list_elem_of_further.
Qed.
End CloseEach.

(** ** Methods that leave a part of the state alone *)

Section Quiet.
Context {S X : Type} (proj : S -> X).

Definition quiet {A : Type} (m : ST S A) : Prop := forall x, keeps (fun s => proj s = x) m.

Lemma quiet_bind {A B} (m : ST S A) (f : A -> ST S B) :
  quiet m -> (forall a, quiet (f a)) -> quiet (st_bind m f).
Proof. intros Hm Hf x. apply keeps_bind; [apply Hm|]. intros a. apply Hf. Qed.
Lemma quiet_try {A} (m : ST S A) handle :
  quiet m -> (forall e, quiet (handle e)) -> quiet (st_try m handle).
Proof. intros Hm Hh x. apply keeps_try; [apply Hm|]. intros e. apply Hh. Qed.
Lemma quiet_ret {A} (a : A) : quiet (st_ret a). Proof. intros x. apply keeps_ret. Qed.
Lemma quiet_throw {A} e : quiet (st_throw (A := A) e). Proof. intros x. apply keeps_throw. Qed.
Lemma quiet_lift {A} (r : res A) : quiet (st_lift r). Proof. intros x. apply keeps_lift. Qed.
Lemma quiet_get : quiet st_get. Proof. intros x. apply keeps_get. Qed.
Lemma quiet_throw_if b e : quiet (st_throw_if b e). Proof. intros x. apply keeps_throw_if. Qed.
Lemma quiet_modify f : (forall s, proj (f s) = proj s) -> quiet (st_modify f).
Proof. intros Hf x. apply keeps_modify. intros s. by rewrite Hf. Qed.

(** [from I x0 m]: started where the part is [x0], [m] ends where it satisfies
    [I], whatever its outcome. *)
Context (I : X -> Prop).
Definition from (x0 : X) {A : Type} (m : ST S A) : Prop := forall s, proj s = x0 -> I (proj (m s).1).

Lemma from_quiet x0 {A} (m : ST S A) : I x0 -> quiet m -> from x0 m.
Proof. intros Hi Hm s Hs. by rewrite (Hm x0 s Hs). Qed.

Lemma from_bind x0 {A B} (m : ST S A) (f : A -> ST S B) :
  I x0 -> quiet m -> (forall a, from x0 (f a)) -> from x0 (st_bind m f).
Proof.
  intros Hi Hm Hf s Hs. unfold st_bind. pose proof (Hm x0 s Hs) as Hx.
  destruct (m s) as [s1 [a|e|u|d]]; simpl in *; try by rewrite Hx. by apply Hf.
Qed.

Lemma from_get x0 {B} (f : S -> ST S B) :
  (forall s, proj s = x0 -> from x0 (f s)) -> from x0 (st_bind st_get f).
Proof. intros Hf s Hs. by apply (Hf s Hs). Qed.

Lemma from_modify x0 {B} g (m : ST S B) :
  (forall s, proj s = x0 -> I (proj (g s))) -> quiet m -> from x0 (st_bind (st_modify g) (fun _ => m)).
Proof.
  intros Hg Hm s Hs. unfold st_bind, st_modify. by rewrite (Hm _ (g s) eq_refl); apply Hg.
Qed.
End Quiet.

Create HintDb quiet_db.
#[export] Hint Resolve quiet_ret quiet_throw quiet_lift quiet_get quiet_throw_if : quiet_db.

(** A method whose statements are all quiet. *)
Ltac quiets :=
  repeat first
    [ apply quiet_bind; [|intros ?]
    | apply quiet_try; [|intros ?]
    | solve [auto with quiet_db]
    | apply quiet_modify; reflexivity
    | match goal with |- quiet _ (match ?x with _ => _ end) => destruct x end ].
