(* ===== verification/SendTransport.v ===== *)
(** Sending: src/Producer.cpp, src/DataProducer.cpp and the [Transport] and
    [SendTransport] classes of src/Transport.cpp.

    Producers are shared between the transport, which keeps pointers to them by
    id, and the application, so they live in a heap of objects by address
    together with the WebRTC tracks they send.  The methods are translated in
    the monad that keeps assignments made before an exception.  The handler
    that drives the peer connection is a class of operations
    ([SendHandlerInterface]) over a state of its own; the answers of the
    application's listeners are arguments, and its notifications are recorded
    as events. *)

From Stdlib Require Import SpecFloat.
From stdpp Require Import gmap.
From S2P Require Import Prelude Json OrtcValidate Ortc Registry.

(** ** Data *)

(** [webrtc::RtpEncodingParameters] *)
Record RtpEncodingParameters : Type := Encoding {
  e_ssrc : option Z;
  e_bitrate_priority : spec_float;
  e_network_priority : Z;
  e_max_bitrate_bps : option Z;
  e_min_bitrate_bps : option Z;
  e_max_framerate : option spec_float;
  e_num_temporal_layers : option Z;
  e_scale_resolution_down_by : option spec_float;
  e_scalability_mode : option string;
  e_active : bool;
  e_rid : string;
  e_adaptive_ptime : bool
}.

(** The copy [Produce] makes of an encoding: the other fields keep their
    defaults ([kDefaultBitratePriority] is 1.0). *)
Definition normalize_encoding (entry : RtpEncodingParameters) : RtpEncodingParameters :=
  Encoding None (S754_finite false 4503599627370496 (-52)) (e_network_priority entry)
    (e_max_bitrate_bps entry) None (e_max_framerate entry) None
    (e_scale_resolution_down_by entry) (e_scalability_mode entry) (e_active entry) "" false.

Record DataChannelInit : Type := ChannelInit {
  dc_ordered : bool;
  dc_maxRetransmitTime : option Z;
  dc_maxRetransmits : option Z;
  dc_protocol : string;
  dc_negotiated : bool;
  dc_id : Z
}.

Record SendResult : Type := SentAs {
  sr_localId : string;
  sr_rtpSender : option Z;
  sr_rtpParameters : json
}.

Record DataChannel : Type := Channel {
  ch_dataChannel : Z;
  ch_sctpStreamParameters : json
}.

(** What the transport asks of its [SendHandler]. *)
Class SendHandlerInterface (H : Type) : Type := {
  h_Send : Z -> list RtpEncodingParameters -> option json -> option json -> ST H SendResult;
  h_StopSending : string -> ST H unit;
  h_ReplaceTrack : string -> Z -> ST H unit;
  h_SetMaxSpatialLayer : string -> Z -> ST H unit;
  h_GetSenderStats : string -> ST H json;
  h_SendDataChannel : string -> DataChannelInit -> ST H DataChannel;
  h_Close : ST H unit;
  h_GetTransportStats : ST H json;
  h_RestartIce : json -> ST H unit;
  h_UpdateIceServers : json -> ST H unit
}.

(** A WebRTC track. *)
Record Track : Type := MkTrack { t_kind : string; t_enabled : bool; t_ended : bool }.

Record Producer : Type := MkProducer {
  p_id : string;
  p_localId : string;
  p_closed : bool;
  p_rtpSender : option Z;
  p_track : Z;
  p_rtpParameters : json;
  p_maxSpatialLayer : Z;
  p_appData : json
}.

Record DataProducer : Type := MkDataProducer {
  dp_id : string;
  dp_closed : bool;
  dp_dataChannel : Z;
  dp_sctpStreamParameters : json;
  dp_appData : json
}.

(** [webrtc::DataChannelInterface::DataState] *)
Inductive DataState : Set := kConnecting | kOpen | kClosing | kClosed.

(** Calls out of the library: notifications of the application's listeners,
    by the address of the (data) producer, and calls on WebRTC objects. *)
Inductive event : Type :=
| OnTransportClose (producer : Z)
| OnDataTransportClose (dataProducer : Z)
| RegisterObserver (channel dataProducer : Z)
| DataChannelClose (channel : Z)
| DataChannelSend (channel : Z) (buffer : list Z)
| OnDataOpen (dataProducer : Z)
| OnDataClose (dataProducer : Z)
| OnDataBuffered (dataProducer sentDataSize : Z)
| SenderSetFrameEncryptor (sender encryptor : Z)
| OnConnectionStateChange_ (state : Z).

Record world (H : Type) : Type := World {
  handler : H;
  tracks : gmap Z Track;
  producer_heap : gmap Z Producer;
  data_heap : gmap Z DataProducer;
  closed : bool;
  connectionState : Z;
  hasSctpParameters : bool;
  maxSctpMessageSize : Z;
  canProduceByKind : gmap string bool;
  producers : gmap string Z;
  dataProducers : gmap string Z;
  events : list event
}.
Arguments World {H}.
Arguments handler {H}.
Arguments tracks {H}.
Arguments producer_heap {H}.
Arguments data_heap {H}.
Arguments closed {H}.
Arguments connectionState {H}.
Arguments hasSctpParameters {H}.
Arguments maxSctpMessageSize {H}.
Arguments canProduceByKind {H}.
Arguments producers {H}.
Arguments dataProducers {H}.
Arguments events {H}.

Definition is_msc_error (e : exn) : bool :=
  match e with
  | MscError _ | MscTypeError _ | MscUnsupportedError _ | MscInvalidStateError _ => true
  | _ => false
  end.

Section Operations.
Context {H : Type} `{SendHandlerInterface H}.
Implicit Types (w : world H).

(** ** State access *)

Definition set_handler (h : H) w : world H :=
  World h (tracks w) (producer_heap w) (data_heap w) (closed w) (connectionState w)
    (hasSctpParameters w) (maxSctpMessageSize w) (canProduceByKind w) (producers w)
    (dataProducers w) (events w).
Definition set_tracks (ts : gmap Z Track) w : world H :=
  World (handler w) ts (producer_heap w) (data_heap w) (closed w) (connectionState w)
    (hasSctpParameters w) (maxSctpMessageSize w) (canProduceByKind w) (producers w)
    (dataProducers w) (events w).
Definition set_producer (p : Z) (P : Producer) w : world H :=
  World (handler w) (tracks w) (<[p := P]> (producer_heap w)) (data_heap w) (closed w)
    (connectionState w) (hasSctpParameters w) (maxSctpMessageSize w) (canProduceByKind w)
    (producers w) (dataProducers w) (events w).
Definition set_data (p : Z) (P : DataProducer) w : world H :=
  World (handler w) (tracks w) (producer_heap w) (<[p := P]> (data_heap w)) (closed w)
    (connectionState w) (hasSctpParameters w) (maxSctpMessageSize w) (canProduceByKind w)
    (producers w) (dataProducers w) (events w).
Definition set_closed w : world H :=
  World (handler w) (tracks w) (producer_heap w) (data_heap w) true (connectionState w)
    (hasSctpParameters w) (maxSctpMessageSize w) (canProduceByKind w) (producers w)
    (dataProducers w) (events w).
Definition set_connection (s : Z) w : world H :=
  World (handler w) (tracks w) (producer_heap w) (data_heap w) (closed w) s
    (hasSctpParameters w) (maxSctpMessageSize w) (canProduceByKind w) (producers w)
    (dataProducers w) (events w).
Definition set_maps (ps ds : gmap string Z) w : world H :=
  World (handler w) (tracks w) (producer_heap w) (data_heap w) (closed w) (connectionState w)
    (hasSctpParameters w) (maxSctpMessageSize w) (canProduceByKind w) ps ds (events w).
Definition emit (e : event) w : world H :=
  World (handler w) (tracks w) (producer_heap w) (data_heap w) (closed w) (connectionState w)
    (hasSctpParameters w) (maxSctpMessageSize w) (canProduceByKind w) (producers w)
    (dataProducers w) (events w ++ [e]).

(** A call on the handler. *)
Definition on_handler {A : Type} (m : ST H A) : ST (world H) A := fun w =>
  let '(h, r) := m (handler w) in (set_handler h w, r).

Definition deref {A : Type} (o : option A) : ST (world H) A :=
  match o with Some a => st_ret a | None => st_lift (Undef UbDeref) end.

Definition producer_at (p : Z) : ST (world H) Producer :=
  let! w := st_get in deref (producer_heap w !! p).
Definition data_at (p : Z) : ST (world H) DataProducer :=
  let! w := st_get in deref (data_heap w !! p).
Definition track_at (p : Z) : ST (world H) Track :=
  let! w := st_get in deref (tracks w !! p).

Definition set_enabled (p : Z) (b : bool) : ST (world H) unit :=
  let! t := track_at p in
  st_modify (fun w => set_tracks (<[p := MkTrack (t_kind t) b (t_ended t)]> (tracks w)) w).

Definition mark_closed (P : Producer) : Producer :=
  MkProducer (p_id P) (p_localId P) true (p_rtpSender P) (p_track P) (p_rtpParameters P)
    (p_maxSpatialLayer P) (p_appData P).
Definition mark_data_closed (P : DataProducer) : DataProducer :=
  MkDataProducer (dp_id P) true (dp_dataChannel P) (dp_sctpStreamParameters P) (dp_appData P).

(** ** SendTransport as the producers' private listener *)

Definition OnClose (producer : Z) : ST (world H) unit :=
  let! P := producer_at producer in
  do! st_modify (fun w => set_maps (delete (p_id P) (producers w)) (dataProducers w) w) in
  let! w := st_get in
  if closed w then st_ret tt else on_handler (h_StopSending (p_localId P)).

Definition OnCloseData (dataProducer : Z) : ST (world H) unit :=
  let! P := data_at dataProducer in
  st_modify (fun w => set_maps (producers w) (delete (dp_id P) (dataProducers w)) w).

Definition OnReplaceTrack (producer track : Z) : ST (world H) unit :=
  let! P := producer_at producer in on_handler (h_ReplaceTrack (p_localId P) track).

Definition OnSetMaxSpatialLayer (producer layer : Z) : ST (world H) unit :=
  let! P := producer_at producer in on_handler (h_SetMaxSpatialLayer (p_localId P) layer).

Definition OnGetStats (producer : Z) : ST (world H) json :=
  let! w := st_get in
  do! st_throw_if (closed w) (MscInvalidStateError "SendTransport closed") in
  let! P := producer_at producer in
  on_handler (h_GetSenderStats (p_localId P)).

(** ** Producer *)

Definition Producer_Close (this : Z) : ST (world H) unit :=
  let! P := producer_at this in
  if p_closed P then st_ret tt
  else
    do! st_modify (set_producer this (mark_closed P)) in
    OnClose this.

Definition Producer_GetStats (this : Z) : ST (world H) json :=
  let! P := producer_at this in
  do! st_throw_if (p_closed P) (MscInvalidStateError "Producer closed") in
  OnGetStats this.

Definition Producer_Pause (this : Z) : ST (world H) unit :=
  let! P := producer_at this in
  if p_closed P then st_ret tt else set_enabled (p_track P) false.

Definition Producer_Resume (this : Z) : ST (world H) unit :=
  let! P := producer_at this in
  if p_closed P then st_ret tt else set_enabled (p_track P) true.

Definition Producer_IsPaused (this : Z) : ST (world H) bool :=
  let! P := producer_at this in
  let! t := track_at (p_track P) in
  st_ret (negb (t_enabled t)).

Definition Producer_ReplaceTrack (this : Z) (track : option Z) : ST (world H) unit :=
  let! P := producer_at this in
  do! st_throw_if (p_closed P) (MscInvalidStateError "Producer closed") in
  match track with
  | None => st_throw (MscTypeError "missing track")
  | Some track =>
      let! t := track_at track in
      do! st_throw_if (t_ended t) (MscInvalidStateError "track ended") in
      if track =? p_track P then st_ret tt
      else
        do! OnReplaceTrack this track in
        let! paused := Producer_IsPaused this in
        do! st_modify (set_producer this
              (MkProducer (p_id P) (p_localId P) (p_closed P) (p_rtpSender P) track
                 (p_rtpParameters P) (p_maxSpatialLayer P) (p_appData P))) in
        set_enabled track (negb paused)
  end.

Definition Producer_SetMaxSpatialLayer (this spatialLayer : Z) : ST (world H) unit :=
  let! P := producer_at this in
  do! st_throw_if (p_closed P) (MscInvalidStateError "Producer closed") in
  let! t := track_at (p_track P) in
  do! st_throw_if (negb (String.eqb (t_kind t) "video")) (MscTypeError "not a video Producer") in
  if spatialLayer =? p_maxSpatialLayer P then st_ret tt
  else
    do! OnSetMaxSpatialLayer this spatialLayer in
    st_modify (set_producer this
      (MkProducer (p_id P) (p_localId P) (p_closed P) (p_rtpSender P) (p_track P)
         (p_rtpParameters P) spatialLayer (p_appData P))).

Definition Producer_SetFrameEncryptor (this encryptor : Z) : ST (world H) unit :=
  let! P := producer_at this in
  do! st_throw_if (p_closed P) (MscInvalidStateError "Producer closed") in
  match p_rtpSender P with
  | Some sender => st_modify (emit (SenderSetFrameEncryptor sender encryptor))
  | None => st_ret tt
  end.

Definition Producer_TransportClosed (this : Z) : ST (world H) unit :=
  let! P := producer_at this in
  if p_closed P then st_ret tt
  else
    do! st_modify (set_producer this (mark_closed P)) in
    st_modify (emit (OnTransportClose this)).

(** ** DataProducer *)

Definition DataProducer_Close (this : Z) : ST (world H) unit :=
  let! P := data_at this in
  if dp_closed P then st_ret tt
  else
    do! st_modify (set_data this (mark_data_closed P)) in
    do! st_modify (emit (DataChannelClose (dp_dataChannel P))) in
    OnCloseData this.

Definition DataProducer_TransportClosed (this : Z) : ST (world H) unit :=
  let! P := data_at this in
  if dp_closed P then st_ret tt
  else
    do! st_modify (set_data this (mark_data_closed P)) in
    do! st_modify (emit (DataChannelClose (dp_dataChannel P))) in
    st_modify (emit (OnDataTransportClose this)).

(** The closed flag is not looked at. *)
Definition DataProducer_Send (this : Z) (buffer : list Z) : ST (world H) unit :=
  let! P := data_at this in
  st_modify (emit (DataChannelSend (dp_dataChannel P) buffer)).

(** [state]: the state of its data channel. *)
Definition DataProducer_OnStateChange (this : Z) (state : DataState) : ST (world H) unit :=
  let! _ := data_at this in
  match state with
  | kConnecting => st_ret tt
  | kOpen => st_modify (emit (OnDataOpen this))
  | kClosing => st_ret tt
  | kClosed => st_modify (emit (OnDataClose this))
  end.

Definition DataProducer_OnBufferedAmountChange (this sentDataSize : Z) : ST (world H) unit :=
  let! _ := data_at this in
  st_modify (emit (OnDataBuffered this sentDataSize)).

(** ** Transport *)

Definition Transport_Close : ST (world H) unit :=
  let! w := st_get in
  if closed w then st_ret tt
  else
    do! st_modify set_closed in
    on_handler h_Close.

Definition Transport_GetStats : ST (world H) json :=
  let! w := st_get in
  do! st_throw_if (closed w) (MscInvalidStateError "Transport closed") in
  on_handler h_GetTransportStats.

Definition Transport_RestartIce (iceParameters : json) : ST (world H) unit :=
  let! w := st_get in
  do! st_throw_if (closed w) (MscInvalidStateError "Transport closed") in
  on_handler (h_RestartIce iceParameters).

Definition Transport_UpdateIceServers (iceServers : json) : ST (world H) unit :=
  let! w := st_get in
  do! st_throw_if (closed w) (MscInvalidStateError "Transport closed") in
  on_handler (h_UpdateIceServers iceServers).

(** [onConnect]: what the application's listener answers. *)
Definition Transport_OnConnect (onConnect : json -> res unit) (dtlsParameters : json) : ST (world H) unit :=
  let! w := st_get in
  do! st_throw_if (closed w) (MscInvalidStateError "Transport closed") in
  st_lift (onConnect dtlsParameters).

Definition Transport_OnConnectionStateChange (state : Z) : ST (world H) unit :=
  do! st_modify (set_connection state) in
  st_modify (emit (OnConnectionStateChange_ state)).

(** ** SendTransport *)

Definition SendTransport_Close : ST (world H) unit :=
  let! w := st_get in
  if closed w then st_ret tt
  else
    do! Transport_Close in
    let! w := st_get in
    do! each Producer_TransportClosed (pointers (producers w)) in
    let! w := st_get in
    each DataProducer_TransportClosed (pointers (dataProducers w)).

(** [onProduce]: the id the application's listener answers with, or what it
    throws; [fresh]: the address of the new producer. *)
Definition Produce (fresh : Z) (onProduce : string -> json -> json -> res string)
    (track : option Z) (encodings : option (list RtpEncodingParameters))
    (codecOptions codec : option json) (appData : json) : ST (world H) Z :=
  let! w := st_get in
  do! st_throw_if (closed w) (MscInvalidStateError "SendTransport closed") in
  match track with
  | None => st_throw (MscTypeError "missing track")
  | Some track =>
      let! t := track_at track in
      do! st_throw_if (t_ended t) (MscInvalidStateError "track ended") in
      do! st_throw_if (match canProduceByKind w !! t_kind t with None => true | Some _ => false end)
            (MscUnsupportedError "cannot produce track kind") in
      let! codecOptions := match codecOptions with
        | None => st_ret None
        | Some o => let! o := st_lift (validateProducerCodecOptions o) in st_ret (Some o)
        end in
      let normalizedEncodings := normalize_encoding <$> default [] encodings in
      let! sendResult := on_handler (h_Send track normalizedEncodings codecOptions codec) in
      match (let* rtpParameters := validateRtpParameters (sr_rtpParameters sendResult) in
             let* producerId := onProduce (t_kind t) rtpParameters appData in
             Ok (rtpParameters, producerId)) with
      | Ok (rtpParameters, producerId) =>
          do! st_modify (set_producer fresh
                (MkProducer producerId (sr_localId sendResult) false (sr_rtpSender sendResult) track
                   rtpParameters 0 appData)) in
          do! st_modify (fun w => set_maps (<[producerId := fresh]> (producers w)) (dataProducers w) w) in
          st_ret fresh
      | Throw e =>
          if is_msc_error e then
            do! on_handler (h_StopSending (sr_localId sendResult)) in st_throw e
          else st_throw e
      | Undef u => st_lift (Undef u)
      | Fatal d => st_lift (Fatal d)
      end
  end.

Definition ProduceData (fresh : Z) (onProduceData : json -> string -> string -> json -> res string)
    (label protocol : string) (ordered : bool) (maxRetransmits maxPacketLifeTime : Z) (appData : json)
    : ST (world H) Z :=
  let! w := st_get in
  do! st_throw_if (negb (hasSctpParameters w))
        (MscError "SctpParameters are mandatory when using data producer listener") in
  do! st_throw_if (negb (maxRetransmits =? -1) && negb (maxPacketLifeTime =? 0))
        (MscError "Cannot set both maxRetransmits and maxPacketLifeTime") in
  let dataChannelInit := ChannelInit ordered
    (if negb (maxPacketLifeTime =? 0) then Some maxPacketLifeTime else None)
    (if negb (maxRetransmits =? -1) then Some maxRetransmits else None) protocol false (-1) in
  let! sendResult := on_handler (h_SendDataChannel label dataChannelInit) in
  let! dataChannelId :=
    st_lift (onProduceData (ch_sctpStreamParameters sendResult) label protocol appData) in
  do! st_modify (set_data fresh
        (MkDataProducer dataChannelId false (ch_dataChannel sendResult)
           (ch_sctpStreamParameters sendResult) appData)) in
  do! st_modify (emit (RegisterObserver (ch_dataChannel sendResult) fresh)) in
  do! st_modify (fun w => set_maps (producers w) (<[dataChannelId := fresh]> (dataProducers w)) w) in
  st_ret fresh.

(** The constructor of [SendTransport], up to the new handler: the maximum
    message size and the sending parameters the handler is given. *)
Definition SendTransport_make (h : H) (ts : gmap Z Track) (extendedRtpCapabilities sctpParameters : json)
    (can : gmap string bool) : res (world H * json * json) :=
  let* (has, size) :=
    if negb (is_null sctpParameters) && is_object sctpParameters then
      match jfind sctpParameters "maxMessageSize" with
      | None => Undef UbDeref
      | Some m => if is_number_integer m then let* n := get_uint64 m in Ok (true, n) else Ok (true, 0)
      end
    else Ok (false, 0) in
  let* audio := getSendingRtpParameters "audio" extendedRtpCapabilities in
  let* video := getSendingRtpParameters "video" extendedRtpCapabilities in
  let* remoteAudio := getSendingRemoteRtpParameters "audio" extendedRtpCapabilities in
  let* remoteVideo := getSendingRemoteRtpParameters "video" extendedRtpCapabilities in
  Ok (World h ts empty empty false 0 has size can empty empty [],
      JObj [("audio", audio); ("video", video)],
      JObj [("audio", remoteAudio); ("video", remoteVideo)]).
End Operations.
