(* ===== verification/SendTransportFacts.v ===== *)
(** The life of producers and of their transport.

    A producer is open exactly as long as it is registered with an open
    transport ([inv]).  Every method keeps that, exceptions included; closing
    the transport closes and notifies every open producer, and afterwards the
    handler is left alone. *)

From stdpp Require Import gmap.
From S2P Require Import Prelude Json OrtcValidate Ortc Registry SendTransport.

(** What the handler promises: closing the peer connection does not throw. *)
Class SendHandlerLaws (H : Type) `{SendHandlerInterface H} : Prop := {
  h_Close_returns : forall h, (h_Close h).2 = Ok tt
}.

(** ** Steps *)

Inductive op : Type :=
| OpProduce (fresh : Z) (onProduce : string -> json -> json -> res string) (track : option Z)
    (encodings : option (list RtpEncodingParameters)) (codecOptions codec : option json) (appData : json)
| OpProduceData (fresh : Z) (onProduceData : json -> string -> string -> json -> res string)
    (label protocol : string) (ordered : bool) (maxRetransmits maxPacketLifeTime : Z) (appData : json)
| OpClose
| OpGetStats
| OpRestartIce (iceParameters : json)
| OpUpdateIceServers (iceServers : json)
| OpConnectionState (state : Z)
| OpProducerClose (p : Z)
| OpProducerGetStats (p : Z)
| OpPause (p : Z)
| OpResume (p : Z)
| OpReplaceTrack (p : Z) (track : option Z)
| OpSetMaxSpatialLayer (p layer : Z)
| OpSetFrameEncryptor (p encryptor : Z)
| OpDataProducerClose (p : Z)
| OpDataSend (p : Z) (buffer : list Z)
| OpDataState (p : Z) (state : DataState)
| OpDataBuffered (p sentDataSize : Z).

Section Lifecycle.
Context {H : Type} `{SendHandlerLaws H}.
Implicit Types (w : world H).

Definition step (o : op) : ST (world H) unit :=
  match o with
  | OpProduce fresh onProduce track encodings codecOptions codec appData =>
      ignore (Produce fresh onProduce track encodings codecOptions codec appData)
  | OpProduceData fresh onProduceData label protocol ordered maxRetransmits maxPacketLifeTime appData =>
      ignore (ProduceData fresh onProduceData label protocol ordered maxRetransmits maxPacketLifeTime appData)
  | OpClose => SendTransport_Close
  | OpGetStats => ignore Transport_GetStats
  | OpRestartIce ice => Transport_RestartIce ice
  | OpUpdateIceServers servers => Transport_UpdateIceServers servers
  | OpConnectionState s => Transport_OnConnectionStateChange s
  | OpProducerClose p => Producer_Close p
  | OpProducerGetStats p => ignore (Producer_GetStats p)
  | OpPause p => Producer_Pause p
  | OpResume p => Producer_Resume p
  | OpReplaceTrack p track => Producer_ReplaceTrack p track
  | OpSetMaxSpatialLayer p layer => Producer_SetMaxSpatialLayer p layer
  | OpSetFrameEncryptor p encryptor => Producer_SetFrameEncryptor p encryptor
  | OpDataProducerClose p => DataProducer_Close p
  | OpDataSend p buffer => DataProducer_Send p buffer
  | OpDataState p state => DataProducer_OnStateChange p state
  | OpDataBuffered p size => DataProducer_OnBufferedAmountChange p size
  end.

(** New objects get new addresses and the server new ids; data producers are
    created while the transport is open ([ProduceData] does not check). *)
Definition op_ok w (o : op) : Prop :=
  match o with
  | OpProduce fresh onProduce _ _ _ _ _ =>
      producer_heap w !! fresh = None /\
      forall kind params appData id, onProduce kind params appData = Ok id -> producers w !! id = None
  | OpProduceData fresh onProduceData _ _ _ _ _ _ =>
      closed w = false /\ data_heap w !! fresh = None /\
      forall params label protocol appData id,
        onProduceData params label protocol appData = Ok id -> dataProducers w !! id = None
  | _ => True
  end.

(** A sequence of calls by an application that catches what they throw. *)
Fixpoint run (w : world H) (ops : list op) : world H :=
  match ops with
  | [] => w
  | o :: ops => run (step o w).1 ops
  end.

Fixpoint run_ok (w : world H) (ops : list op) : Prop :=
  match ops with
  | [] => True
  | o :: ops => op_ok w o /\ run_ok (step o w).1 ops
  end.

(** ** The invariant *)

(** Producers are open exactly as long as they are registered with an open
    transport. *)
#[global] Instance producer_closable : Closable Producer :=
  {| o_id := p_id; o_closed := p_closed; o_close := mark_closed;
     o_close_id _ := eq_refl; o_close_closed _ := eq_refl |}.
#[global] Instance data_producer_closable : Closable DataProducer :=
  {| o_id := dp_id; o_closed := dp_closed; o_close := mark_data_closed;
     o_close_id _ := eq_refl; o_close_closed _ := eq_refl |}.

Definition lines : Type := gmap string Z * gmap Z Producer * (gmap string Z * gmap Z DataProducer) * bool.

Definition lines_of w : lines :=
  (producers w, producer_heap w, (dataProducers w, data_heap w), closed w).

Definition inv_of (x : lines) : Prop :=
  let '(ps, ph, (ds, dh), c) := x in registry ps ph c /\ registry ds dh c.

Definition inv w : Prop := inv_of (lines_of w).

Lemma quiet_handler {A} (m : ST H A) : quiet lines_of (on_handler m).
Proof. intros x w <-. unfold on_handler. by destruct (m (handler w)). Qed.
Lemma quiet_deref {A} (o : option A) : quiet lines_of (deref o).
Proof. unfold deref. destruct o; auto with quiet_db. Qed.
End Lifecycle.

#[export] Hint Resolve quiet_handler quiet_deref : quiet_db.

Section Methods.
Context {H : Type} `{SendHandlerLaws H}.
Implicit Types (w : world H).

Lemma producer_at_quiet p : quiet (lines_of (H := H)) (producer_at p).
Proof. unfold producer_at. quiets. Qed.
Lemma data_at_quiet p : quiet (lines_of (H := H)) (data_at p).
Proof. unfold data_at. quiets. Qed.
Lemma track_at_quiet p : quiet (lines_of (H := H)) (track_at p).
Proof. unfold track_at. quiets. Qed.
Lemma set_enabled_quiet p b : quiet (lines_of (H := H)) (set_enabled p b).
Proof. unfold set_enabled. apply quiet_bind; [apply track_at_quiet|]. intros t. by apply quiet_modify. Qed.
End Methods.
#[export] Hint Resolve producer_at_quiet data_at_quiet track_at_quiet set_enabled_quiet : quiet_db.

(** ** Every method keeps it *)

Section Preservation.
Context {H : Type} `{SendHandlerLaws H}.
Context (ps : gmap string Z) (ph : gmap Z Producer) (ds : gmap string Z) (dh : gmap Z DataProducer) (c : bool).
Hypothesis Hinv : inv_of (ps, ph, (ds, dh), c).
Implicit Types (w : world H).

Abbreviation x0 := (ps, ph, (ds, dh), c).
Notation "'from' m" := (from (lines_of (H := H)) inv_of x0 m) (at level 10, m at level 9).

Lemma from_producer {B} p (f : Producer -> ST (world H) B) :
  (forall P, ph !! p = Some P -> from (f P)) -> from (let! P := producer_at p in f P).
Proof.
  intros Hf w Hw. pose proof Hw as [= _ E _ _ _]. unfold producer_at, st_bind, st_get. rewrite E.
  destruct (ph !! p) as [P|] eqn:EP; [by apply (Hf P)|]. change (inv_of (lines_of w)). by rewrite Hw.
Qed.

Lemma from_data {B} p (f : DataProducer -> ST (world H) B) :
  (forall P, dh !! p = Some P -> from (f P)) -> from (let! P := data_at p in f P).
Proof.
  intros Hf w Hw. pose proof Hw as [= _ _ _ E _]. unfold data_at, st_bind, st_get. rewrite E.
  destruct (dh !! p) as [P|] eqn:EP; [by apply (Hf P)|]. change (inv_of (lines_of w)). by rewrite Hw.
Qed.

Lemma update_inv p P P' w :
  ph !! p = Some P -> p_id P' = p_id P -> p_closed P' = p_closed P -> lines_of w = x0 ->
  inv_of (lines_of (set_producer p P' w)).
Proof.
  intros HP Eid Ec [= E1 E2 E3 E4 E5]. destruct Hinv as [R1 R2].
  unfold lines_of. simpl. rewrite E1, E2, E3, E4, E5. split; [|done]. by eapply registry_update.
Qed.

Lemma Producer_Close_inv p : from (Producer_Close p).
Proof.
  unfold Producer_Close. apply from_producer. intros P HP. destruct (p_closed P) eqn:Hc.
  { apply from_quiet; [done|apply quiet_ret]. }
  intros w Hw. pose proof Hw as [= E1 E2 E3 E4 E5].
  unfold OnClose, producer_at, st_bind, st_modify, st_get, deref. simpl. rewrite lookup_insert_eq. simpl.
  set (w' := set_maps _ _ _). assert (inv w') as Hi.
  { unfold inv, w', lines_of. simpl. rewrite E1, E2, E3, E4, E5. destruct Hinv as [R1 R2].
    split; [exact (registry_close ps ph c p P R1 HP Hc)|done]. }
  destruct (closed w); [done|]. exact (from_quiet lines_of inv_of (lines_of w') (on_handler (h_StopSending (p_localId P))) Hi
    (quiet_handler _) w' eq_refl).
Qed.

Lemma DataProducer_Close_inv p : from (DataProducer_Close p).
Proof.
  unfold DataProducer_Close. apply from_data. intros P HP. destruct (dp_closed P) eqn:Hc.
  { apply from_quiet; [done|apply quiet_ret]. }
  intros w [= E1 E2 E3 E4 E5].
  unfold OnCloseData, data_at, st_bind, st_modify, st_get, deref. simpl. rewrite lookup_insert_eq.
  unfold lines_of. simpl. rewrite E1, E2, E3, E4, E5. destruct Hinv as [R1 R2].
  split; [done|exact (registry_close ds dh c p P R2 HP Hc)].
Qed.

Lemma Producer_ReplaceTrack_inv p track : from (Producer_ReplaceTrack p track).
Proof.
  unfold Producer_ReplaceTrack. apply from_producer. intros P HP.
  apply from_bind; [done|quiets|]. intros _. destruct track as [track|].
  2: { apply from_quiet; [done|quiets]. }
  apply from_bind; [done|quiets|]. intros t. apply from_bind; [done|quiets|]. intros _.
  destruct (track =? p_track P); [apply from_quiet; [done|quiets]|].
  apply from_bind; [done|unfold OnReplaceTrack; quiets|]. intros _.
  apply from_bind; [done|unfold Producer_IsPaused; quiets|]. intros paused.
  apply from_modify; [|quiets]. intros w Hw. by eapply update_inv.
Qed.

Lemma Producer_SetMaxSpatialLayer_inv p layer : from (Producer_SetMaxSpatialLayer p layer).
Proof.
  unfold Producer_SetMaxSpatialLayer. apply from_producer. intros P HP.
  apply from_bind; [done|quiets|]. intros _. apply from_bind; [done|quiets|]. intros t.
  apply from_bind; [done|quiets|]. intros _.
  destruct (layer =? p_maxSpatialLayer P); [apply from_quiet; [done|quiets]|].
  apply from_bind; [done|unfold OnSetMaxSpatialLayer; quiets|]. intros _.
  intros w Hw. by eapply update_inv.
Qed.

Lemma Produce_inv fresh onProduce track encodings codecOptions codec appData :
  ph !! fresh = None ->
  (forall kind params appData id, onProduce kind params appData = Ok id -> ps !! id = None) ->
  from (Produce fresh onProduce track encodings codecOptions codec appData).
Proof.
  intros Hfresh Hid. unfold Produce. apply from_get. intros w1 [= _ _ _ _ Ec].
  destruct (closed w1) eqn:Hopen; [intros w Hw; change (inv_of (lines_of w)); by rewrite Hw|].
  apply from_bind; [done|quiets|]. intros _. destruct track as [track|].
  2: { apply from_quiet; [done|quiets]. }
  apply from_bind; [done|quiets|]. intros t. apply from_bind; [done|quiets|]. intros _.
  apply from_bind; [done|quiets|]. intros _. apply from_bind; [done|quiets|]. intros options.
  apply from_bind; [done|quiets|]. intros sent.
  destruct (bind (validateRtpParameters (sr_rtpParameters sent)) _) as [[params id]|e|u|d] eqn:E.
  - intros w [= E1 E2 E3 E4 E5]. unfold st_bind, st_modify, st_ret, lines_of. simpl. rewrite E1, E2, E3, E4, E5.
    apply bind_Ok_inv in E as (p & _ & E). apply bind_Ok_inv in E as (id' & Eid & [= -> ->]).
    destruct Hinv as [R1 R2]. split; [|done]. subst c.
    exact (registry_add ps ph fresh (MkProducer id (sr_localId sent) false (sr_rtpSender sent)
             track params 0 appData) R1 Hfresh (Hid _ _ _ _ Eid) eq_refl).
  - apply from_quiet; [done|]. destruct (is_msc_error e); quiets.
  - apply from_quiet; [done|quiets].
  - apply from_quiet; [done|quiets].
Qed.

Lemma ProduceData_inv fresh onProduceData label protocol ordered retransmits lifetime appData :
  c = false -> dh !! fresh = None ->
  (forall params label protocol appData id,
     onProduceData params label protocol appData = Ok id -> ds !! id = None) ->
  from (ProduceData fresh onProduceData label protocol ordered retransmits lifetime appData).
Proof.
  intros -> Hfresh Hid. unfold ProduceData. apply from_get. intros w1 _.
  apply from_bind; [done|quiets|]. intros _. apply from_bind; [done|quiets|]. intros _.
  apply from_bind; [done|quiets|]. intros sent.
  destruct (onProduceData (ch_sctpStreamParameters sent) label protocol appData) as [id|e|u|d] eqn:E;
    try (intros w Hw; change (inv_of (lines_of w)); by rewrite Hw).
  intros w [= E1 E2 E3 E4 E5]. unfold st_bind, st_lift, st_modify, st_ret, lines_of. simpl.
  rewrite E1, E2, E3, E4, E5. destruct Hinv as [R1 R2]. split; [done|].
  exact (registry_add ds dh fresh (MkDataProducer id false (ch_dataChannel sent)
           (ch_sctpStreamParameters sent) appData) R2 Hfresh (Hid _ _ _ _ _ E) eq_refl).
Qed.
End Preservation.

(** ** Closing the transport *)

Section Runs.
Context {H : Type} `{SendHandlerLaws H}.
Implicit Types (w : world H).

Definition is_open_producer w (p : Z) : Prop := open_at (producer_heap w) p.
Definition is_open_data w (p : Z) : Prop := open_at (data_heap w) p.

(** The notifications of a data producer: its channel is closed first. *)
Definition data_events w (p : Z) : list event :=
  match data_heap w !! p with
  | Some P => [DataChannelClose (dp_dataChannel P); OnDataTransportClose p]
  | None => []
  end.

(** The loop over the producers. *)
Lemma close_producers qs w :
  NoDup qs -> (forall p, p ∈ qs -> is_open_producer w p) ->
  exists w', each Producer_TransportClosed qs w = (w', Ok tt) /\
    close_at qs (producer_heap w) (producer_heap w') /\
    events w' = events w ++ (OnTransportClose <$> qs) /\
    (data_heap w', producers w', dataProducers w', closed w') =
    (data_heap w, producers w, dataProducers w, closed w).
Proof.
  intros Hnd Hopen.
  destruct (close_each (producer_heap (H := H)) events
    (fun w => (data_heap w, producers w, dataProducers w, closed w))
    (fun p _ => [OnTransportClose p]) Producer_TransportClosed) with (ps := qs) (s := w)
    as (w' & E & Hh & Hev & Hfr); try done.
  { intros s p P HP Hc. simpl in Hc. unfold Producer_TransportClosed, producer_at, st_bind, st_get, deref.
    rewrite HP. cbn. rewrite Hc. eexists. by split. }
  exists w'. do 2 (split; [done|]). split; [|done]. rewrite Hev. f_equal.
  by apply (notified_fmap _ OnTransportClose).
Qed.

(** The loop over the data producers. *)
Lemma close_data qs w :
  NoDup qs -> (forall p, p ∈ qs -> is_open_data w p) ->
  exists w', each DataProducer_TransportClosed qs w = (w', Ok tt) /\
    close_at qs (data_heap w) (data_heap w') /\
    events w' = events w ++ concat (data_events w <$> qs) /\
    (producer_heap w', producers w', dataProducers w', closed w') =
    (producer_heap w, producers w, dataProducers w, closed w).
Proof.
  intros Hnd Hopen.
  apply (close_each (data_heap (H := H)) events
    (fun w => (producer_heap w, producers w, dataProducers w, closed w))
    (fun p P => [DataChannelClose (dp_dataChannel P); OnDataTransportClose p])
    DataProducer_TransportClosed); try done.
  intros s p P HP Hc. simpl in Hc. unfold DataProducer_TransportClosed, data_at, st_bind, st_get, deref.
  rewrite HP. cbn. rewrite Hc. eexists. split; [reflexivity|]. simpl. by rewrite <- app_assoc.
Qed.

(** Once the transport is closed, so is every producer. *)
Lemma closed_all w :
  inv w -> closed w = true ->
  (forall p P, producer_heap w !! p = Some P -> p_closed P = true) /\
  (forall p P, data_heap w !! p = Some P -> dp_closed P = true).
Proof.
  intros [R1 R2] Hc. rewrite Hc in R1, R2. split; intros p P HP; by eapply registry_closed in HP.
Qed.

Lemma Close_spec w :
  inv w -> closed w = false ->
  exists w', SendTransport_Close w = (w', Ok tt) /\ inv w' /\ closed w' = true /\
    events w' = events w ++ (OnTransportClose <$> pointers (producers w)) ++
                concat (data_events w <$> pointers (dataProducers w)).
Proof.
  intros [R1 R2] Hc. rewrite Hc in R1, R2.
  destruct (h_Close (handler w)) as [h' r'] eqn:Eh.
  assert (r' = Ok tt) as -> by (pose proof (h_Close_returns (handler w)) as Hh; by rewrite Eh in Hh).
  set (w1 := set_handler h' (set_closed w)).
  assert (Transport_Close w = (w1, Ok tt)) as E1.
  { unfold Transport_Close, st_bind, st_get, st_modify, on_handler. rewrite Hc. simpl. by rewrite Eh. }
  destruct (close_producers (pointers (producers w)) w1) as (w2 & E2 & Hat2 & Ev2 & [= Hd2 Hp2 Hdp2 Hc2]).
  { exact (registry_NoDup _ _ _ R1). }
  { intros p Hp. by apply (registry_open _ _ p R1). }
  destruct (close_data (pointers (dataProducers w)) w2) as (w3 & E3 & Hat3 & Ev3 & [= Hh3 Hp3 Hdp3 Hc3]).
  { exact (registry_NoDup _ _ _ R2). }
  { intros p Hp. unfold is_open_data. rewrite Hd2. by apply (registry_open _ _ p R2). }
  exists w3. split; [|split; [|split]].
  - unfold SendTransport_Close. rewrite (st_bind_ok st_get _ w w w eq_refl), Hc.
    rewrite (st_bind_ok _ _ _ _ _ E1), (st_bind_ok st_get _ w1 w1 w1 eq_refl).
    rewrite (st_bind_ok _ _ _ _ _ E2), (st_bind_ok st_get _ w2 w2 w2 eq_refl). rewrite Hdp2. exact E3.
  - unfold inv, lines_of. rewrite Hp3, Hh3, Hdp3, Hc3, Hp2, Hdp2, Hc2. simpl. rewrite Hd2 in Hat3.
    split; by eapply registry_close_all.
  - by rewrite Hc3, Hc2.
  - rewrite Ev3, Ev2. simpl. rewrite <- app_assoc. do 2 f_equal. f_equal. apply list_fmap_ext.
    intros i p _. unfold data_events. by rewrite Hd2.
Qed.

Lemma step_inv w o : inv w -> op_ok w o -> inv (step o w).1.
Proof.
  intros Hi Hok.
  assert (forall A (m : ST (world H) A), from lines_of inv_of (lines_of w) m ->
    from lines_of inv_of (lines_of w) (ignore m)) as Hign.
  { intros A m Hm w1 Hw1. unfold ignore, st_bind, st_ret. specialize (Hm w1 Hw1).
    by destruct (m w1) as [w2 [a|e|u|d]]. }
  assert (forall m : ST (world H) unit, quiet lines_of m -> inv (m w).1) as Hquiet.
  { intros m Hm. by apply (from_quiet lines_of inv_of (lines_of w) m Hi Hm). }
  destruct o; cbn [step].
  - destruct Hok as [Hf Hid]. by apply (Hign _ _ (Produce_inv _ _ _ _ _ Hi _ _ _ _ _ _ _ Hf Hid)).
  - destruct Hok as (Hc & Hf & Hid). by apply (Hign _ _ (ProduceData_inv _ _ _ _ _ Hi _ _ _ _ _ _ _ _ Hc Hf Hid)).
  - destruct (closed w) eqn:Hc.
    + unfold SendTransport_Close, st_bind, st_get. by rewrite Hc.
    + by destruct (Close_spec w Hi Hc) as (w' & -> & Hi' & _).
  - apply Hquiet. unfold ignore, Transport_GetStats. quiets.
  - apply Hquiet. unfold Transport_RestartIce. quiets.
  - apply Hquiet. unfold Transport_UpdateIceServers. quiets.
  - apply Hquiet. unfold Transport_OnConnectionStateChange. quiets.
  - by apply (Producer_Close_inv _ _ _ _ _ Hi).
  - apply Hquiet. unfold ignore, Producer_GetStats, OnGetStats. quiets.
  - apply Hquiet. unfold Producer_Pause. quiets.
  - apply Hquiet. unfold Producer_Resume. quiets.
  - by apply (Producer_ReplaceTrack_inv _ _ _ _ _ Hi).
  - by apply (Producer_SetMaxSpatialLayer_inv _ _ _ _ _ Hi).
  - apply Hquiet. unfold Producer_SetFrameEncryptor. quiets.
  - by apply (DataProducer_Close_inv _ _ _ _ _ Hi).
  - apply Hquiet. unfold DataProducer_Send. quiets.
  - apply Hquiet. unfold DataProducer_OnStateChange. quiets.
  - apply Hquiet. unfold DataProducer_OnBufferedAmountChange. quiets.
Qed.

Lemma run_inv w ops : inv w -> run_ok w ops -> inv (run w ops).
Proof.
  revert w. induction ops as [|o ops IH]; intros w Hi Hok; simpl in *; [done|].
  destruct Hok as [Ho Hok]. apply IH; [by apply step_inv|done].
Qed.

(** A transport as its constructor leaves it. *)
Definition fresh_transport (h : H) (ts : gmap Z Track) (sctp : bool) (size : Z) (can : gmap string bool) : world H :=
  World h ts empty empty false 0 sctp size can empty empty [].

Lemma fresh_inv h ts sctp size can : inv (fresh_transport h ts sctp size can).
Proof. split; apply registry_empty. Qed.

Definition is_produce_data (o : op) : bool :=
  match o with OpProduceData _ _ _ _ _ _ _ _ => true | _ => false end.

(** On a closed transport nothing but [ProduceData] gets to the handler. *)
Lemma closed_inert w o :
  inv w -> closed w = true -> is_produce_data o = false -> handler (step o w).1 = handler w.
Proof.
  intros Hi Hc Ho. destruct (closed_all w Hi Hc) as [Hp Hd].
  assert (forall A (f : Producer -> ST (world H) A) p,
    (forall P, p_closed P = true -> handler (f P w).1 = handler w) ->
    handler ((let! P := producer_at p in f P) w).1 = handler w) as Hprod.
  { intros A f p Hf. unfold producer_at, st_bind, st_get. destruct (producer_heap w !! p) as [P|] eqn:EP; simpl; [|done].
    apply Hf. by eapply Hp. }
  assert (forall A (f : DataProducer -> ST (world H) A) p,
    (forall P, dp_closed P = true -> handler (f P w).1 = handler w) ->
    handler ((let! P := data_at p in f P) w).1 = handler w) as Hdata.
  { intros A f p Hf. unfold data_at, st_bind, st_get. destruct (data_heap w !! p) as [P|] eqn:EP; simpl; [|done].
    apply Hf. by eapply Hd. }
  assert (forall A (m : ST (world H) A), handler (m w).1 = handler w -> handler (ignore m w).1 = handler w) as Hign.
  { intros A m Hm. unfold ignore, st_bind, st_ret. by destruct (m w) as [w2 [a|e|u|d]]. }
  assert (forall A e (f : world H -> unit -> ST (world H) A),
    handler ((let! w := st_get in let! u := st_throw_if (closed w) e in f w u) w).1 = handler w) as Hguard.
  { intros A e f. unfold st_bind, st_get. by rewrite Hc. }
  destruct o; cbn [step]; try done.
  - apply Hign, Hguard.
  - unfold SendTransport_Close, st_bind, st_get. by rewrite Hc.
  - apply Hign. apply (Hguard _ _ (fun _ _ => on_handler h_GetTransportStats)).
  - apply (Hguard _ _ (fun _ _ => on_handler (h_RestartIce iceParameters))).
  - apply (Hguard _ _ (fun _ _ => on_handler (h_UpdateIceServers iceServers))).
  - apply Hprod. intros P HP. by rewrite HP.
  - apply Hign, Hprod. intros P HP. by rewrite HP.
  - apply Hprod. intros P HP. by rewrite HP.
  - apply Hprod. intros P HP. by rewrite HP.
  - apply Hprod. intros P HP. by rewrite HP.
  - apply Hprod. intros P HP. by rewrite HP.
  - apply Hprod. intros P HP. by rewrite HP.
  - apply Hdata. intros P HP. by rewrite HP.
  - by apply Hdata.
  - apply Hdata. by destruct state.
  - by apply Hdata.
Qed.
End Runs.

(** ** Invariants of the handler *)

(** A property of the handler that its own methods keep. *)
Class HandlerKeeps {H : Type} `{SendHandlerInterface H} (J : H -> Prop) : Prop := {
  Send_keeps : forall track encodings options codec, keeps J (h_Send track encodings options codec);
  StopSending_keeps : forall localId, keeps J (h_StopSending localId);
  ReplaceTrack_keeps : forall localId track, keeps J (h_ReplaceTrack localId track);
  SetMaxSpatialLayer_keeps : forall localId layer, keeps J (h_SetMaxSpatialLayer localId layer);
  GetSenderStats_keeps : forall localId, keeps J (h_GetSenderStats localId);
  SendDataChannel_keeps : forall label init, keeps J (h_SendDataChannel label init);
  Close_keeps : keeps J h_Close;
  GetTransportStats_keeps : keeps J h_GetTransportStats;
  RestartIce_keeps : forall ice, keeps J (h_RestartIce ice);
  UpdateIceServers_keeps : forall servers, keeps J (h_UpdateIceServers servers)
}.

Section HandlerKeeps.
Context {H : Type} `{SendHandlerInterface H} (J : H -> Prop) `{!HandlerKeeps J}.

(** The transport reaches the handler through its methods only. *)
Definition holds (w : world H) : Prop := J (handler w).

Lemma on_handler_keeps {A} (m : ST H A) : keeps J m -> keeps holds (on_handler m).
Proof. intros Hm w Hw. unfold on_handler. specialize (Hm _ Hw). by destruct (m (handler w)). Qed.

Lemma modify_keeps f : (forall w, handler (f w) = handler w) -> keeps holds (st_modify f).
Proof. intros Hf. apply keeps_modify. unfold holds. intros w. by rewrite Hf. Qed.

#[local] Hint Extern 1 (keeps holds (st_modify _)) => (apply modify_keeps; reflexivity) : keeps_db.
#[local] Hint Resolve on_handler_keeps Send_keeps StopSending_keeps ReplaceTrack_keeps
  SetMaxSpatialLayer_keeps GetSenderStats_keeps SendDataChannel_keeps Close_keeps
  GetTransportStats_keeps RestartIce_keeps UpdateIceServers_keeps : keeps_db.

Lemma transport_step_keeps o : keeps holds (step o).
Proof.
  destruct o; simpl; unfold ignore, Produce, ProduceData, SendTransport_Close, Transport_Close,
    Transport_GetStats, Transport_RestartIce, Transport_UpdateIceServers, Transport_OnConnectionStateChange,
    Producer_Close, Producer_GetStats, Producer_Pause, Producer_Resume, Producer_ReplaceTrack,
    Producer_SetMaxSpatialLayer, Producer_SetFrameEncryptor, DataProducer_Close, DataProducer_Send, DataProducer_OnStateChange,
    DataProducer_OnBufferedAmountChange, Producer_IsPaused,
    OnClose, OnCloseData, OnReplaceTrack, OnSetMaxSpatialLayer, OnGetStats, set_enabled, producer_at,
    data_at, track_at, deref; keep.
  all: apply each_keeps; intros p; unfold Producer_TransportClosed, DataProducer_TransportClosed,
    producer_at, data_at, deref; keep.
Qed.

Lemma transport_run_keeps w ops : holds w -> holds (run w ops).
Proof.
  revert w. induction ops as [|o ops IH]; intros w Hw; simpl; [done|]. by apply IH, transport_step_keeps.
Qed.
End HandlerKeeps.

(** ** Theorems *)



(** ** A handler that records what it is asked *)

Module Recorder.
Inductive call : Type :=
| Sent (track : Z) | Stopped (localId : string) | Replaced (localId : string) (track : Z)
| Layer (localId : string) (layer : Z) | Stats (localId : string) | Data (label : string) | ClosedPc
| Other.

Definition log (c : call) : ST (list call) unit := fun l => (l ++ [c], Ok tt).

#[global] Instance recorder : SendHandlerInterface (list call) := {
  h_Send track _ _ _ := do! log (Sent track) in
    st_ret (SentAs ("mid" +:+ to_string track) (Some (100 + track)) (JObj [("codecs", JArray [])]));
  h_StopSending localId := log (Stopped localId);
  h_ReplaceTrack localId track := log (Replaced localId track);
  h_SetMaxSpatialLayer localId layer := log (Layer localId layer);
  h_GetSenderStats localId := do! log (Stats localId) in st_ret (JArray []);
  h_SendDataChannel label _ := do! log (Data label) in st_ret (Channel 200 (JObj []));
  h_Close := log ClosedPc;
  h_GetTransportStats := do! log Other in st_ret (JArray []);
  h_RestartIce _ := log Other;
  h_UpdateIceServers _ := log Other
}.

#[global] Instance recorder_laws : SendHandlerLaws (list call).
Proof. split. done. Qed.

Definition tracks : gmap Z Track :=
  <[1 := MkTrack "audio" true false]> (<[2 := MkTrack "video" true false]> empty).
Definition can : gmap string bool := <["audio" := true]> (<["video" := true]> empty).
Definition start : world (list call) := fresh_transport [] tracks true 262144 can.

Definition produce (fresh track : Z) (id : string) : op :=
  OpProduce fresh (fun _ _ _ => Ok id) (Some track) None None None (JObj []).
Definition ops : list op :=
  [produce 10 1 "a"; produce 11 2 "v"; OpPause 10; OpSetMaxSpatialLayer 11 2;
   OpProducerClose 10; OpProduceData 20 (fun _ _ _ _ => Ok "d") "l" "" true (-1) 0 (JObj [])].
End Recorder.


