(* ===== verification/Handler.v ===== *)
(** The handlers between the transports and the peer connection:
    src/Handler.cpp of libmediasoupclient.

    The peer connection (src/PeerConnection.cpp, which forwards to WebRTC) and
    the transceivers it owns are a class of operations over a state of its own;
    a transceiver, its sender and its receiver go by one address.  The remote
    SDP, the SDP parser and writer and the ORTC functions are the definitions
    of the files that model them.  [OnConnect] of the application's listener is
    an argument, and every call of it is recorded.  A method of the remote SDP
    that throws leaves it as it was here; the theorems on it show when it does
    not throw. *)

From Stdlib Require Import ZArith Lia SpecFloat.
From stdpp Require Import gmap.
From S2P Require Import Prelude Json Streams OrtcValidate Ortc.
From S2P Require Import SdpParser SdpWriter SdpUtils MediaSection RemoteSdp SendTransport.

Inductive SdpType : Set := OFFER | PRANSWER | ANSWER.

(** What the handlers ask of the peer connection and its transceivers. *)
Class PeerConnectionInterface (P : Type) : Type := {
  pc_AddMediaTransceiver : string -> ST P unit;
  pc_AddTransceiver : Z -> list RtpEncodingParameters -> ST P (option Z);
  pc_CreateOffer : bool -> ST P string;
  pc_CreateAnswer : ST P string;
  pc_SetLocalDescription : SdpType -> string -> ST P unit;
  pc_SetRemoteDescription : SdpType -> string -> ST P unit;
  pc_GetLocalDescription : ST P string;
  pc_GetTransceivers : ST P (list Z);
  pc_RemoveTrack : Z -> ST P unit;
  pc_CreateDataChannel : string -> DataChannelInit -> ST P Z;
  pc_GetStats : ST P json;
  pc_GetSenderStats : Z -> ST P json;
  pc_GetReceiverStats : Z -> ST P json;
  pc_Close : ST P unit;
  pc_SetServers : list string -> ST P bool;
  tr_mid : Z -> ST P (option string);
  tr_SetInactive : Z -> ST P unit;
  tr_SetTrack : Z -> option Z -> ST P unit;
  tr_GetEncodings : Z -> ST P (list RtpEncodingParameters);
  tr_SetEncodings : Z -> list RtpEncodingParameters -> ST P (option string);
  tr_receiver_track : Z -> ST P Z;
  track_kind : Z -> string
}.

Module Handler.

(** The members of [Handler] and [SendHandler], with the DTLS parameters
    [OnConnect] was called with. *)
Record t (P : Type) : Type := Mk {
  remoteSdp : RemoteSdp.t;
  transportReady : bool;
  mapMidTransceiver : gmap string Z;
  pc : P;
  hasDataChannelMediaSection : bool;
  nextSendSctpStreamId : Z;
  forcedLocalDtlsRole : string;
  sendingRtpParametersByKind : json;
  sendingRemoteRtpParametersByKind : json;
  connects : list json
}.
Arguments Mk {P}.
Arguments remoteSdp {P}.
Arguments transportReady {P}.
Arguments mapMidTransceiver {P}.
Arguments pc {P}.
Arguments hasDataChannelMediaSection {P}.
Arguments nextSendSctpStreamId {P}.
Arguments forcedLocalDtlsRole {P}.
Arguments sendingRtpParametersByKind {P}.
Arguments sendingRemoteRtpParametersByKind {P}.
Arguments connects {P}.

Definition SctpNumStreamsMis : Z := 1024.

Section Methods.
Context {P : Type} `{PeerConnectionInterface P} `{FloatText}.
(** The answer of [privateListener->OnConnect] to its [n]-th call. *)
Context (onConnect : nat -> json -> res unit).
Implicit Types h : t P.

Definition set_remote (r : RemoteSdp.t) h : t P :=
  Mk r (transportReady h) (mapMidTransceiver h) (pc h) (hasDataChannelMediaSection h)
    (nextSendSctpStreamId h) (forcedLocalDtlsRole h) (sendingRtpParametersByKind h)
    (sendingRemoteRtpParametersByKind h) (connects h).
Definition set_ready h : t P :=
  Mk (remoteSdp h) true (mapMidTransceiver h) (pc h) (hasDataChannelMediaSection h)
    (nextSendSctpStreamId h) (forcedLocalDtlsRole h) (sendingRtpParametersByKind h)
    (sendingRemoteRtpParametersByKind h) (connects h).
Definition set_map (m : gmap string Z) h : t P :=
  Mk (remoteSdp h) (transportReady h) m (pc h) (hasDataChannelMediaSection h)
    (nextSendSctpStreamId h) (forcedLocalDtlsRole h) (sendingRtpParametersByKind h)
    (sendingRemoteRtpParametersByKind h) (connects h).
Definition set_pc (p : P) h : t P :=
  Mk (remoteSdp h) (transportReady h) (mapMidTransceiver h) p (hasDataChannelMediaSection h)
    (nextSendSctpStreamId h) (forcedLocalDtlsRole h) (sendingRtpParametersByKind h)
    (sendingRemoteRtpParametersByKind h) (connects h).
Definition set_has_data h : t P :=
  Mk (remoteSdp h) (transportReady h) (mapMidTransceiver h) (pc h) true
    (nextSendSctpStreamId h) (forcedLocalDtlsRole h) (sendingRtpParametersByKind h)
    (sendingRemoteRtpParametersByKind h) (connects h).
Definition set_next_stream (z : Z) h : t P :=
  Mk (remoteSdp h) (transportReady h) (mapMidTransceiver h) (pc h) (hasDataChannelMediaSection h)
    z (forcedLocalDtlsRole h) (sendingRtpParametersByKind h)
    (sendingRemoteRtpParametersByKind h) (connects h).
Definition set_by_kind (sending remote : json) h : t P :=
  Mk (remoteSdp h) (transportReady h) (mapMidTransceiver h) (pc h) (hasDataChannelMediaSection h)
    (nextSendSctpStreamId h) (forcedLocalDtlsRole h) sending remote (connects h).
Definition add_connect (dtls : json) h : t P :=
  Mk (remoteSdp h) (transportReady h) (mapMidTransceiver h) (pc h) (hasDataChannelMediaSection h)
    (nextSendSctpStreamId h) (forcedLocalDtlsRole h) (sendingRtpParametersByKind h)
    (sendingRemoteRtpParametersByKind h) (connects h ++ [dtls]).

(** A call on the peer connection, and calls on the remote SDP. *)
Definition on_pc {A : Type} (m : ST P A) : ST (t P) A := fun h =>
  let '(p, r) := m (pc h) in (set_pc p h, r).

Definition on_remote {A : Type} (f : RemoteSdp.t -> res (RemoteSdp.t * A)) : ST (t P) A := fun h =>
  match f (remoteSdp h) with
  | Ok (r, a) => (set_remote r h, Ok a)
  | Throw e => (h, Throw e)
  | Undef u => (h, Undef u)
  | Fatal d => (h, Fatal d)
  end.

Definition on_remote_ (f : RemoteSdp.t -> res RemoteSdp.t) : ST (t P) unit :=
  on_remote (fun r => let* r := f r in Ok (r, tt)).

(** ** Handler *)

Definition forced_role (dtlsParameters : json) : res string :=
  match jfind dtlsParameters "role" with
  | None => Ok ""
  | Some v =>
      let* role := get_string v in
      Ok (if String.eqb role "auto" then "" else if String.eqb role "server" then "client" else "server")
  end.

(** The constructor, given a new peer connection. *)
Definition make (p : P) (iceParameters iceCandidates dtlsParameters sctpParameters : json)
    (sending sendingRemote : json) : res (t P) :=
  let* role := forced_role dtlsParameters in
  let* r := RemoteSdp.make iceParameters iceCandidates dtlsParameters sctpParameters in
  Ok (Mk r false empty p false 0 role sending sendingRemote []).

(** [GetNativeRtpCapabilities]: the offer of a fresh peer connection with an
    audio and a video transceiver. *)
Definition GetNativeRtpCapabilities : ST P json :=
  do! pc_AddMediaTransceiver "audio" in
  do! pc_AddMediaTransceiver "video" in
  let! offer := pc_CreateOffer false in
  st_lift (let* sdpObject := parse offer in extractRtpCapabilities sdpObject).

Definition Close : ST (t P) unit := on_pc pc_Close.
Definition GetTransportStats : ST (t P) json := on_pc pc_GetStats.

Definition UpdateIceServers (iceServerUris : json) : ST (t P) unit :=
  let! uris := st_lift (for_each get_string (jiter iceServerUris)) in
  let! ok := on_pc (pc_SetServers uris) in
  st_throw_if (negb ok) (MscError "failed to update ICE servers").

Definition OnConnect (dtlsParameters : json) : ST (t P) unit :=
  let! h := st_get in
  do! st_modify (add_connect dtlsParameters) in
  st_lift (onConnect (length (connects h)) dtlsParameters).

Definition SetupTransport (localDtlsRole : string) (localSdpObject : json) : ST (t P) unit :=
  let! localSdpObject :=
    if jempty localSdpObject then
      let! text := on_pc pc_GetLocalDescription in st_lift (parse text)
    else st_ret localSdpObject in
  let! dtlsParameters := st_lift (extractDtlsParameters localSdpObject) in
  let! dtlsParameters := st_lift (jset dtlsParameters "role" (JString localDtlsRole)) in
  let remoteDtlsRole := if String.eqb localDtlsRole "client" then "server" else "client" in
  do! on_remote_ (fun r => RemoteSdp.UpdateDtlsRole r remoteDtlsRole) in
  do! OnConnect dtlsParameters in
  st_modify set_ready.

(** [if (!this->transportReady) this->SetupTransport(...)] with the role used
    when none is forced. *)
Definition setup_once (defaultRole : string) (localSdpObject : json) : ST (t P) unit :=
  let! h := st_get in
  if transportReady h then st_ret tt
  else SetupTransport
         (if negb (str_empty (forcedLocalDtlsRole h)) then forcedLocalDtlsRole h else defaultRole)
         localSdpObject.

(** The answer (or offer) of the router, handed to the peer connection. *)
Definition set_remote_description (type : SdpType) : ST (t P) unit :=
  let! text := on_remote RemoteSdp.GetSdp in
  on_pc (pc_SetRemoteDescription type text).

(** [transceiver->mid().value()] *)
Definition transceiver_mid (tr : Z) : ST (t P) string :=
  let! mid := on_pc (tr_mid tr) in
  match mid with Some m => st_ret m | None => st_throw StdBadOptionalAccess end.

(** The transceiver stored under a local id. *)
Definition transceiver_of (localId : string) : ST (t P) Z :=
  let! h := st_get in
  match mapMidTransceiver h !! localId with
  | Some tr => st_ret tr
  | None => st_throw (MscError "associated RtpTransceiver not found")
  end.

(** ** SendHandler *)

(** Several encodings are told apart by their rid; the counter has 8 bits. *)
Definition number_encodings (encodings : list RtpEncodingParameters) : list RtpEncodingParameters :=
  if Nat.ltb 1 (length encodings) then
    imap (fun i e => Encoding (e_ssrc e) (e_bitrate_priority e) (e_network_priority e)
            (e_max_bitrate_bps e) (e_min_bitrate_bps e) (e_max_framerate e) (e_num_temporal_layers e)
            (e_scale_resolution_down_by e) (e_scalability_mode e) (e_active e)
            ("r" +:+ to_string (u8 (Z.of_nat i))) (e_adaptive_ptime e)) encodings
  else encodings.

Definition set_opt {A : Type} (k : string) (f : A -> json) (v : option A) (j : json) : res json :=
  match v with Some a => jset j k (f a) | None => Ok j end.

Definition fillJsonRtpEncodingParameters (jsonEncoding : json) (encoding : RtpEncodingParameters)
    : res json :=
  let* j := jset jsonEncoding "active" (JBool (e_active encoding)) in
  let* j := if str_empty (e_rid encoding) then Ok j else jset j "rid" (JString (e_rid encoding)) in
  let* j := set_opt "maxBitrate" JInt (e_max_bitrate_bps encoding) j in
  let* j := set_opt "maxFramerate" JFloat (e_max_framerate encoding) j in
  let* j := set_opt "scaleResolutionDownBy" JFloat (e_scale_resolution_down_by encoding) j in
  let* j := set_opt "scalabilityMode" JString (e_scalability_mode encoding) j in
  jset j "networkPriority" (JInt (e_network_priority encoding)).

(** [byKind[kind]] with its codecs reduced; the member afterwards. *)
Definition reduced_parameters (byKind : json) (kind : string) (codec : option json)
    : res (json * json) :=
  let* (byKind, parameters) := jref byKind kind in
  let* (parameters, codecs) := jref parameters "codecs" in
  let* (reduced, _) := reduceCodecs codecs codec in
  let* parameters := jset parameters "codecs" reduced in
  Ok (byKind, parameters).

(** [parameters["codecs"][0]["mimeType"]] in lower case. *)
Definition first_mime (parameters : json) : res string :=
  let* (_, codecs) := jref parameters "codecs" in
  let* (_, codec) := jidx_ref codecs 0 in
  let* (_, m) := jref codec "mimeType" in
  let* mimeType := get_string m in
  Ok (str_lower mimeType).

(** [sdpObject["media"][idx]], and putting it back. *)
Definition media_at (sdpObject : json) (idx : nat) : res json :=
  let* (_, media) := jref sdpObject "media" in
  let* (_, m) := jidx_ref media idx in
  Ok m.

Definition set_media_at (sdpObject : json) (idx : nat) (m : json) : res json :=
  let* (sdpObject, media) := jref sdpObject "media" in
  let* media := jidx_set media idx m in
  jset sdpObject "media" media.

(** Whether the offer is rewritten for VP9 with spatial layers, and the offer. *)
Definition legacy_offer (encodings : list RtpEncodingParameters) (parameters : json) (idx : nat)
    (offer : string) : res (bool * string) :=
  let scalability_mode :=
    match encodings with e :: _ => default "" (e_scalability_mode e) | [] => "" end in
  let* layers := parseScalabilityMode scalability_mode in
  let* spatialLayers := get_at get_int32 layers "spatialLayers" in
  let* mimeType := first_mime parameters in
  if Nat.eqb (length encodings) 1 && (spatialLayers >? 1) && String.eqb mimeType "video/vp9" then
    let* localSdpObject := parse offer in
    let* m := media_at localSdpObject idx in
    let* m := addLegacySimulcast m (u8 spatialLayers) in
    let* localSdpObject := set_media_at localSdpObject idx m in
    let* (_, offer) := write localSdpObject in
    Ok (true, offer)
  else Ok (false, offer).

(** The encodings put into the RTP parameters. *)
Definition json_encodings (encodings : list RtpEncodingParameters) (hackVp9Svc : bool)
    (offerMediaObject : json) : res json :=
  match encodings with
  | [] => getRtpEncodings offerMediaObject
  | [encoding] =>
      let* newEncodings := getRtpEncodings offerMediaObject in
      match newEncodings with
      | JArray (first :: rest) =>
          let* first := fillJsonRtpEncodingParameters first encoding in
          Ok (JArray (first :: if hackVp9Svc then [] else rest))
      | _ => Undef UbDeref
      end
  | _ =>
      let* es := for_each (fillJsonRtpEncodingParameters JNull) encodings in
      Ok (JArray es)
  end.

(** Simulcast of VP8 and H264 is announced with its scalability mode. *)
Definition mark_simulcast (parameters encodings : json) : res json :=
  let* mimeType := first_mime parameters in
  if Nat.ltb 1 (jsize encodings) && (String.eqb mimeType "video/vp8" || String.eqb mimeType "video/h264")
  then
    let* es := for_each (fun e => jset e "scalabilityMode" (JString "S1T3")) (jiter encodings) in
    Ok (JArray es)
  else Ok encodings.

(** The RTP parameters completed from the local description. *)
Definition complete_parameters (encodings : list RtpEncodingParameters) (hackVp9Svc : bool)
    (offerMediaObject parameters : json) : res json :=
  let* cname := getCname offerMediaObject in
  let* (parameters, rtcp) := jref parameters "rtcp" in
  let* rtcp := jset rtcp "cname" (JString cname) in
  let* parameters := jset parameters "rtcp" rtcp in
  let* es := json_encodings encodings hackVp9Svc offerMediaObject in
  let* es := mark_simulcast parameters es in
  jset parameters "encodings" es.

(** The part of [Send] inside the [try]: the offer becomes the local
    description, and the transceiver gets its mid. *)
Definition offer_transceiver (transceiver : Z) (encodings : list RtpEncodingParameters)
    (parameters : json) (idx : nat) : ST (t P) (bool * string) :=
  let! offer := on_pc (pc_CreateOffer false) in
  let! localSdpObject := st_lift (parse offer) in
  do! setup_once "server" localSdpObject in
  let! (hackVp9Svc, offer) := st_lift (legacy_offer encodings parameters idx offer) in
  do! on_pc (pc_SetLocalDescription OFFER offer) in
  let! localId := transceiver_mid transceiver in
  st_ret (hackVp9Svc, localId).

Definition Send (track : option Z) (encodings : list RtpEncodingParameters)
    (codecOptions codec : option json) : ST (t P) SendResult :=
  match track with
  | None => st_throw (MscTypeError "missing track")
  | Some track =>
    let encodings := number_encodings encodings in
    let kind := track_kind track in
    let! h := st_get in
    let! (sending, parameters) := st_lift (reduced_parameters (sendingRtpParametersByKind h) kind codec) in
    do! st_modify (set_by_kind sending (sendingRemoteRtpParametersByKind h)) in
    let! (remote, remoteParameters) :=
      st_lift (reduced_parameters (sendingRemoteRtpParametersByKind h) kind codec) in
    do! st_modify (set_by_kind sending remote) in
    let! section := st_lift (RemoteSdp.GetNextMediaSectionIdx (remoteSdp h)) in
    let idx := RemoteSdp.idx section in
    let! transceiver := on_pc (pc_AddTransceiver track encodings) in
    match transceiver with
    | None => st_throw (MscError "error creating transceiver")
    | Some transceiver =>
        let! (hackVp9Svc, localId) :=
          st_try (offer_transceiver transceiver encodings parameters idx)
            (fun e => do! on_pc (tr_SetInactive transceiver) in
                      do! on_pc (tr_SetTrack transceiver None) in
                      st_throw e) in
        let! parameters := st_lift (jset parameters "mid" (JString localId)) in
        let! localSdp := on_pc pc_GetLocalDescription in
        let! localSdpObject := st_lift (parse localSdp) in
        let! offerMediaObject := st_lift (media_at localSdpObject idx) in
        let! parameters := st_lift (complete_parameters encodings hackVp9Svc offerMediaObject parameters) in
        let! (parameters, _) := on_remote (fun r =>
          let* (r, offer, answer) := RemoteSdp.Send r offerMediaObject (RemoteSdp.reuseMid section)
                                       parameters remoteParameters codecOptions in
          Ok (r, (offer, answer))) in
        do! set_remote_description ANSWER in
        do! st_modify (fun h => set_map (<[localId := transceiver]> (mapMidTransceiver h)) h) in
        st_ret (SentAs localId (Some transceiver) parameters)
    end
  end.

Definition opt_int (k : string) (v : option Z) (j : json) : res json := set_opt k JInt v j.

Definition is_application (m : json) : res bool :=
  let* v := jat_checked m "type" in
  let* type := get_string v in
  Ok (String.eqb type "application").

Definition SendDataChannel (label : string) (init : DataChannelInit) : ST (t P) DataChannel :=
  let! h := st_get in
  let streamId := u16 (nextSendSctpStreamId h) in
  let init := ChannelInit (dc_ordered init) (dc_maxRetransmitTime init) (dc_maxRetransmits init)
                (dc_protocol init) true streamId in
  let! params := st_lift (
    let params := JObj [("streamId", JUint streamId); ("ordered", JBool (dc_ordered init));
                        ("protocol", JString (dc_protocol init))] in
    let* params := opt_int "maxPacketLifeTime" (dc_maxRetransmitTime init) params in
    let* params := opt_int "maxRetransmits" (dc_maxRetransmits init) params in
    validateSctpStreamParameters params) in
  let! channel := on_pc (pc_CreateDataChannel label init) in
  do! st_modify (fun h => set_next_stream ((nextSendSctpStreamId h + 1) `mod` SctpNumStreamsMis) h) in
  let! h := st_get in
  do! (if hasDataChannelMediaSection h then st_ret tt
       else
         let! offer := on_pc (pc_CreateOffer false) in
         let! localSdpObject := st_lift (parse offer) in
         let! _ := st_lift (RemoteSdp.GetNextMediaSectionIdx (remoteSdp h)) in
         let! (_, media) := st_lift (jref localSdpObject "media") in
         let! found := st_lift (find_if is_application (jiter media)) in
         match found with
         | None => st_throw (MscError "Missing 'application' media section in SDP offer")
         | Some offerMediaObject =>
             do! setup_once "server" localSdpObject in
             do! on_pc (pc_SetLocalDescription OFFER offer) in
             do! on_remote_ (fun r => RemoteSdp.SendSctpAssociation r offerMediaObject) in
             do! set_remote_description ANSWER in
             st_modify set_has_data
         end) in
  st_ret (Channel channel params).

(** A new offer, answered by the remote SDP as it is now. *)
Definition renegotiate (ice_restart : bool) : ST (t P) unit :=
  let! offer := on_pc (pc_CreateOffer ice_restart) in
  do! on_pc (pc_SetLocalDescription OFFER offer) in
  let! text := on_pc pc_GetLocalDescription in
  let! _ := st_lift (parse text) in
  set_remote_description ANSWER.

Definition StopSending (localId : string) : ST (t P) unit :=
  let! transceiver := transceiver_of localId in
  do! on_pc (tr_SetTrack transceiver None) in
  do! on_pc (pc_RemoveTrack transceiver) in
  let! mid := transceiver_mid transceiver in
  do! on_remote_ (fun r => RemoteSdp.CloseMediaSection r mid) in
  renegotiate false.

Definition ReplaceTrack (localId : string) (track : option Z) : ST (t P) unit :=
  let! transceiver := transceiver_of localId in
  on_pc (tr_SetTrack transceiver track).

Definition set_active (b : bool) (e : RtpEncodingParameters) : RtpEncodingParameters :=
  Encoding (e_ssrc e) (e_bitrate_priority e) (e_network_priority e) (e_max_bitrate_bps e)
    (e_min_bitrate_bps e) (e_max_framerate e) (e_num_temporal_layers e) (e_scale_resolution_down_by e)
    (e_scalability_mode e) b (e_rid e) (e_adaptive_ptime e).

(** The low, medium and high encodings switched on or off; any further one and
    any other layer number changes nothing. *)
Definition select_layers (spatialLayer : Z) (encodings : list RtpEncodingParameters)
    : list RtpEncodingParameters :=
  let select low medium high :=
    imap (fun i e => match i with
                     | O => set_active low e
                     | 1%nat => set_active medium e
                     | 2%nat => set_active high e
                     | _ => e
                     end) encodings in
  if spatialLayer =? 1 then select true false false
  else if spatialLayer =? 2 then select true true false
  else if spatialLayer =? 3 then select true true true
  else encodings.

Definition SetMaxSpatialLayer (localId : string) (spatialLayer : Z) : ST (t P) unit :=
  let! transceiver := transceiver_of localId in
  let! encodings := on_pc (tr_GetEncodings transceiver) in
  let! error := on_pc (tr_SetEncodings transceiver (select_layers spatialLayer encodings)) in
  match error with
  | None => st_ret tt
  | Some message => st_throw (MscError message)
  end.

Definition GetSenderStats (localId : string) : ST (t P) json :=
  let! transceiver := transceiver_of localId in
  on_pc (pc_GetSenderStats transceiver).

Definition SendHandler_RestartIce (iceParameters : json) : ST (t P) unit :=
  do! on_remote_ (fun r => RemoteSdp.UpdateIceParameters r iceParameters) in
  let! h := st_get in
  if negb (transportReady h) then st_ret tt else renegotiate true.

(** ** RecvHandler *)

Record RecvResult : Type := ReceivedAs {
  rr_localId : string;
  rr_rtpReceiver : Z;
  rr_track : Z
}.

Definition receive_id (h : t P) (rtpParameters : json) : string :=
  let counted := to_string (Z.of_nat (size (mapMidTransceiver h))) in
  match jfind rtpParameters "mid" with
  | Some (JString mid) => if str_empty mid then counted else mid
  | _ => counted
  end.

Definition has_mid (localId : string) (m : json) : res bool :=
  let* v := jat m "mid" in
  let* mid := get_string v in
  Ok (String.eqb mid localId).

(** The answer with the codec parameters of the offer: [mediaIt] is
    dereferenced whether or not the section was found. *)
Definition adapt_answer (localId : string) (rtpParameters localSdpObject : json) : res json :=
  let* (localSdpObject, media) := jref localSdpObject "media" in
  let* found := rewrite_first (has_mid localId) (applyCodecParameters rtpParameters) (jiter media) in
  match found with
  | Some l => jset localSdpObject "media" (jreplace media l)
  | None => Undef UbDeref
  end.

Definition has_transceiver_mid (localId : string) (tr : Z) : ST (t P) bool :=
  let! mid := on_pc (tr_mid tr) in
  st_ret (match mid with Some m => String.eqb m localId | None => false end).

Fixpoint find_transceiver (localId : string) (trs : list Z) : ST (t P) (option Z) :=
  match trs with
  | [] => st_ret None
  | tr :: trs =>
      let! b := has_transceiver_mid localId tr in
      if b then st_ret (Some tr) else find_transceiver localId trs
  end.

Definition Receive (id kind : string) (rtpParameters : json) : ST (t P) RecvResult :=
  let! h := st_get in
  let localId := receive_id h rtpParameters in
  let! cname := st_lift (let* rtcp := jat rtpParameters "rtcp" in
                         let* c := jat rtcp "cname" in get_string c) in
  do! on_remote_ (fun r => RemoteSdp.Receive r localId kind rtpParameters cname id) in
  do! set_remote_description OFFER in
  let! answer := on_pc pc_CreateAnswer in
  let! localSdpObject := st_lift (parse answer) in
  let! localSdpObject := st_lift (adapt_answer localId rtpParameters localSdpObject) in
  let! (localSdpObject, answer) := st_lift (write localSdpObject) in
  do! setup_once "client" localSdpObject in
  do! on_pc (pc_SetLocalDescription ANSWER answer) in
  let! transceivers := on_pc pc_GetTransceivers in
  let! found := find_transceiver localId transceivers in
  match found with
  | None => st_throw (MscError "new RTCRtpTransceiver not found")
  | Some transceiver =>
      do! st_modify (fun h => set_map (<[localId := transceiver]> (mapMidTransceiver h)) h) in
      let! track := on_pc (tr_receiver_track transceiver) in
      st_ret (ReceivedAs localId transceiver track)
  end.

(** The answer of the peer connection to the remote SDP as it is now. *)
Definition answer_remote : ST (t P) unit :=
  do! set_remote_description OFFER in
  let! answer := on_pc pc_CreateAnswer in
  on_pc (pc_SetLocalDescription ANSWER answer).

Definition ReceiveDataChannel (label : string) (init : DataChannelInit) : ST (t P) DataChannel :=
  let init := ChannelInit (dc_ordered init) (dc_maxRetransmitTime init) (dc_maxRetransmits init)
                (dc_protocol init) true (dc_id init) in
  let! params := st_lift (validateSctpStreamParameters
    (JObj [("streamId", JInt (dc_id init)); ("ordered", JBool (dc_ordered init))])) in
  let! channel := on_pc (pc_CreateDataChannel label init) in
  let! h := st_get in
  do! (if hasDataChannelMediaSection h then st_ret tt
       else
         do! on_remote_ RemoteSdp.RecvSctpAssociation in
         do! set_remote_description OFFER in
         let! sdpAnswer := on_pc pc_CreateAnswer in
         do! (if transportReady h then st_ret tt
              else let! localSdpObject := st_lift (parse sdpAnswer) in
                   setup_once "client" localSdpObject) in
         do! on_pc (pc_SetLocalDescription ANSWER sdpAnswer) in
         st_modify set_has_data) in
  st_ret (Channel channel params).

Definition StopReceiving (localId : string) : ST (t P) unit :=
  let! transceiver := transceiver_of localId in
  let! mid := transceiver_mid transceiver in
  do! on_remote_ (fun r => RemoteSdp.CloseMediaSection r mid) in
  answer_remote.

Definition GetReceiverStats (localId : string) : ST (t P) json :=
  let! transceiver := transceiver_of localId in
  on_pc (pc_GetReceiverStats transceiver).

Definition RecvHandler_RestartIce (iceParameters : json) : ST (t P) unit :=
  do! on_remote_ (fun r => RemoteSdp.UpdateIceParameters r iceParameters) in
  let! h := st_get in
  if negb (transportReady h) then st_ret tt else answer_remote.
End Methods.

(** The handler of a sending transport. *)
#[export] Instance send_handler {P : Type} `{PeerConnectionInterface P} `{FloatText}
    (onConnect : nat -> json -> res unit) : SendHandlerInterface (t P) := {
  h_Send track := Send onConnect (Some track);
  h_StopSending := StopSending;
  h_ReplaceTrack localId track := ReplaceTrack localId (Some track);
  h_SetMaxSpatialLayer := SetMaxSpatialLayer;
  h_GetSenderStats := GetSenderStats;
  h_SendDataChannel := SendDataChannel onConnect;
  h_Close := Close;
  h_GetTransportStats := GetTransportStats;
  h_RestartIce := SendHandler_RestartIce;
  h_UpdateIceServers := UpdateIceServers
}.
End Handler.
