(* ===== verification/HandlerFacts.v ===== *)
(** Theorems on the handlers: the transport is connected once, the SCTP stream
    ids stay in range, a failed [Send] takes the transceiver back, and the
    handler meets the interface the sending transport relies on. *)

From Stdlib Require Import ZArith Lia.
From stdpp Require Import gmap.
From S2P Require Import Prelude Json Streams OrtcValidate Ortc SdpParser SdpWriter.
From S2P Require Import SdpUtils MediaSection RemoteSdp RemoteSdpFacts SendTransport SendTransportFacts Handler.
Import Handler.

(** ** Invariants of methods *)

Section Keeps.
Context {P : Type} `{PeerConnectionInterface P} `{FloatText} (onConnect : nat -> json -> res unit).

(** An invariant that depends on none of the members the methods share. *)
Class Stable (I : t P -> Prop) : Prop := {
  stable_pc : forall p h, I h -> I (set_pc p h);
  stable_remote : forall r h, I h -> I (set_remote r h);
  stable_map : forall m h, I h -> I (set_map m h);
  stable_by_kind : forall a b h, I h -> I (set_by_kind a b h);
  stable_has_data : forall h, I h -> I (set_has_data h)
}.

Section Rules.
Context (I : t P -> Prop) `{Stable I}.

Lemma keeps_pc {A} (m : ST P A) : keeps I (on_pc m).
Proof. intros h Hh. unfold on_pc. destruct (m (pc h)). by apply stable_pc. Qed.

Lemma keeps_remote {A} (f : RemoteSdp.t -> res (RemoteSdp.t * A)) : keeps I (on_remote f).
Proof.
  intros h Hh. unfold on_remote. destruct (f (remoteSdp h)) as [[r a]|e|u|d]; try done. by apply stable_remote.
Qed.

Lemma keeps_remote_ f : keeps I (on_remote_ f).
Proof. apply keeps_remote. Qed.

Lemma keeps_set_map k v : keeps I (st_modify (fun h => set_map (<[k := v]> (mapMidTransceiver h)) h)).
Proof. apply keeps_modify. intros. by apply stable_map. Qed.
Lemma keeps_set_by_kind a b : keeps I (st_modify (set_by_kind a b)).
Proof. apply keeps_modify. intros. by apply stable_by_kind. Qed.
Lemma keeps_set_has_data : keeps I (st_modify set_has_data).
Proof. apply keeps_modify. apply stable_has_data. Qed.
End Rules.

#[local] Hint Resolve keeps_pc keeps_remote keeps_remote_ keeps_set_map keeps_set_by_kind
  keeps_set_has_data : keeps_db.

(** ** The methods *)

Inductive op : Type :=
| HClose | HGetTransportStats
| HUpdateIceServers (uris : json)
| HSend (track : option Z) (encodings : list RtpEncodingParameters) (codecOptions codec : option json)
| HSendDataChannel (label : string) (init : DataChannelInit)
| HStopSending (localId : string)
| HReplaceTrack (localId : string) (track : option Z)
| HSetMaxSpatialLayer (localId : string) (layer : Z)
| HGetSenderStats (localId : string)
| HSendRestartIce (iceParameters : json)
| HReceive (id kind : string) (rtpParameters : json)
| HReceiveDataChannel (label : string) (init : DataChannelInit)
| HStopReceiving (localId : string)
| HGetReceiverStats (localId : string)
| HRecvRestartIce (iceParameters : json).

Definition step (o : op) : ST (t P) unit :=
  match o with
  | HClose => Close
  | HGetTransportStats => ignore GetTransportStats
  | HUpdateIceServers uris => UpdateIceServers uris
  | HSend track encodings codecOptions codec => ignore (Send onConnect track encodings codecOptions codec)
  | HSendDataChannel label init => ignore (SendDataChannel onConnect label init)
  | HStopSending localId => StopSending localId
  | HReplaceTrack localId track => ReplaceTrack localId track
  | HSetMaxSpatialLayer localId layer => SetMaxSpatialLayer localId layer
  | HGetSenderStats localId => ignore (GetSenderStats localId)
  | HSendRestartIce ice => SendHandler_RestartIce ice
  | HReceive id kind params => ignore (Receive onConnect id kind params)
  | HReceiveDataChannel label init => ignore (ReceiveDataChannel onConnect label init)
  | HStopReceiving localId => StopReceiving localId
  | HGetReceiverStats localId => ignore (GetReceiverStats localId)
  | HRecvRestartIce ice => RecvHandler_RestartIce ice
  end.

(** Calls by a transport that passes exceptions on to an application that goes
    on. *)
Fixpoint run (h : t P) (ops : list op) : t P :=
  match ops with
  | [] => h
  | o :: ops => run (step o h).1 ops
  end.

Section Methods.
Context (I : t P -> Prop) `{Stable I}.
Hypothesis Hsetup : forall role sdp, role = "client" \/ role = "server" ->
  keeps I (setup_once onConnect role sdp).
Hypothesis Hstream : keeps I (st_modify (fun h =>
  set_next_stream ((nextSendSctpStreamId h + 1) `mod` SctpNumStreamsMis) h)).

Lemma set_remote_description_keeps type : keeps I (set_remote_description type).
Proof. unfold set_remote_description. keep. Qed.
Lemma transceiver_mid_keeps tr : keeps I (transceiver_mid tr).
Proof. unfold transceiver_mid. keep. Qed.
Lemma transceiver_of_keeps localId : keeps I (transceiver_of localId).
Proof. unfold transceiver_of. keep. Qed.
Lemma find_transceiver_keeps localId trs : keeps I (find_transceiver localId trs).
Proof. induction trs as [|tr trs IH]; simpl; unfold has_transceiver_mid; keep. Qed.

#[local] Hint Resolve set_remote_description_keeps transceiver_mid_keeps transceiver_of_keeps
  find_transceiver_keeps Hsetup Hstream : keeps_db.

Lemma renegotiate_keeps b : keeps I (renegotiate b).
Proof. unfold renegotiate. keep. Qed.
Lemma answer_remote_keeps : keeps I answer_remote.
Proof. unfold answer_remote. keep. Qed.
Lemma offer_transceiver_keeps tr encodings parameters idx :
  keeps I (offer_transceiver onConnect tr encodings parameters idx).
Proof. unfold offer_transceiver. keep. Qed.

#[local] Hint Resolve renegotiate_keeps answer_remote_keeps offer_transceiver_keeps : keeps_db.

Lemma step_keeps o : keeps I (step o).
Proof.
  destruct o; simpl; unfold ignore, Close, GetTransportStats, UpdateIceServers, Send, SendDataChannel, StopSending,
    ReplaceTrack, SetMaxSpatialLayer, GetSenderStats, SendHandler_RestartIce, Receive, ReceiveDataChannel,
    StopReceiving, GetReceiverStats, RecvHandler_RestartIce; keep.
Qed.

Lemma run_keeps h ops : I h -> I (run h ops).
Proof. revert h. induction ops as [|o ops IH]; intros h Hh; simpl; [done|]. by apply IH, step_keeps. Qed.
End Methods.
End Keeps.

(** ** The transport is connected once *)

Section Connect.
Context {P : Type} `{PeerConnectionInterface P} `{FloatText} (onConnect : nat -> json -> res unit).

(** The [i]-th call of [OnConnect] succeeded exactly if the transport is ready
    and it was the last call. *)
Definition conn_inv (h : t P) : Prop :=
  (forall i d, connects h !! i = Some d ->
     onConnect i d = Ok tt <-> transportReady h = true /\ S i = length (connects h)) /\
  (transportReady h = true -> connects h <> []).

#[export] Instance conn_stable : Stable conn_inv.
Proof. by split. Qed.

(** Before the transport is ready every call has failed. *)
Definition unready (h : t P) : Prop := conn_inv h /\ transportReady h = false.

#[local] Instance unready_stable : Stable unready.
Proof. by split. Qed.

Lemma connect_keeps dtls h :
  unready h -> conn_inv ((do! OnConnect onConnect dtls in st_modify set_ready) h).1.
Proof.
  intros [[Hi _] Hr]. unfold OnConnect, st_bind, st_get, st_modify, st_lift.
  assert (forall i d (b : bool), (connects h ++ [dtls]) !! i = Some d ->
    (onConnect (length (connects h)) dtls = Ok tt <-> b = true) ->
    onConnect i d = Ok tt <-> b = true /\ S i = length (connects h ++ [dtls])) as Hall.
  { intros i d b Hd Hb. rewrite length_app. simpl.
    apply lookup_app_Some in Hd as [Hd|[Hge Hd]].
    - rewrite (Hi i d Hd), Hr. apply lookup_lt_Some in Hd. split; [by intros []|]. lia.
    - apply list_lookup_singleton_Some in Hd as [Hd <-]. replace i with (length (connects h)) by lia.
      rewrite Hb. split; [intros ->; split; [done|lia]|by intros []]. }
  destruct (onConnect (length (connects h)) dtls) as [[]|e|u|d] eqn:E; simpl.
  - split; simpl; [intros i d Hd; by apply Hall|]. intros _ Hn. by destruct (connects h).
  - split; simpl; rewrite ?Hr; [intros i d Hd; by apply Hall|done].
  - split; simpl; rewrite ?Hr; [intros i d' Hd; by apply Hall|done].
  - split; simpl; rewrite ?Hr; [intros i d' Hd; by apply Hall|done].
Qed.

Lemma unready_bind {A B} (m : ST (t P) A) (f : A -> ST (t P) B) :
  keeps unready m -> (forall a h, unready h -> conn_inv (f a h).1) ->
  forall h, unready h -> conn_inv (st_bind m f h).1.
Proof.
  intros Hm Hf h Hh. specialize (Hm h Hh). unfold st_bind.
  destruct (m h) as [h1 [a|e|u|d]]; simpl in *; [by apply Hf|apply Hm..].
Qed.

Lemma setup_once_conn role sdp : keeps conn_inv (setup_once onConnect role sdp).
Proof.
  intros h Hh. unfold setup_once, st_bind at 1, st_get at 1.
  destruct (transportReady h) eqn:Er; [done|]. unfold SetupTransport.
  apply unready_bind; [| |by split].
  { destruct (jempty sdp); [|apply keeps_ret].
    apply keeps_bind; [by apply keeps_pc, unready_stable|]. intros. apply keeps_lift. }
  intros sdp'. apply unready_bind; [apply keeps_lift|]. intros d1.
  apply unready_bind; [apply keeps_lift|]. intros d2. cbv zeta.
  apply unready_bind; [by apply keeps_remote_, unready_stable|]. intros _.
  apply connect_keeps.
Qed.

Lemma conn_stream : keeps conn_inv (st_modify (fun h =>
  set_next_stream ((nextSendSctpStreamId h + 1) `mod` SctpNumStreamsMis) h)).
Proof. by apply keeps_modify. Qed.
End Connect.

(** ** Stream ids *)

Section Streams.
Context {P : Type} `{PeerConnectionInterface P} `{FloatText} (onConnect : nat -> json -> res unit).

Definition stream_inv (h : t P) : Prop := 0 <= nextSendSctpStreamId h < SctpNumStreamsMis.

#[export] Instance stream_stable : Stable stream_inv.
Proof. by split. Qed.

Lemma setup_once_stream role sdp : keeps stream_inv (setup_once onConnect role sdp).
Proof.
  unfold setup_once, SetupTransport, OnConnect. pose proof stream_stable.
  apply keeps_bind; [apply keeps_get|]. intros h0. destruct (transportReady h0); [apply keeps_ret|].
  apply keeps_bind. { destruct (jempty sdp); [|apply keeps_ret].
    apply keeps_bind; [by apply keeps_pc|]. intros. apply keeps_lift. }
  intros sdp'. apply keeps_bind; [apply keeps_lift|]. intros d1. apply keeps_bind; [apply keeps_lift|].
  intros d2. cbv zeta. apply keeps_bind; [by apply keeps_remote_|]. intros _.
  apply keeps_bind; [|intros _; by apply keeps_modify].
  apply keeps_bind; [apply keeps_get|]. intros h1. apply keeps_bind; [by apply keeps_modify|].
  intros _. apply keeps_lift.
Qed.

Lemma stream_next : keeps stream_inv (st_modify (fun h : t P =>
  set_next_stream ((nextSendSctpStreamId h + 1) `mod` SctpNumStreamsMis) h)).
Proof.
  apply keeps_modify. intros h Hh. unfold stream_inv. simpl. apply Z.mod_pos_bound. done.
Qed.
End Streams.

(** ** Roles *)

Section Roles.
Context {P : Type} `{PeerConnectionInterface P} `{FloatText} (onConnect : nat -> json -> res unit).

Definition is_role (role : string) : Prop := role = "client" \/ role = "server".

(** What [OnConnect] is called with names the local role: the forced one if
    there is one. *)
Definition role_inv (forced : string) (h : t P) : Prop :=
  forcedLocalDtlsRole h = forced /\
  Forall (fun d => exists role, jfind d "role" = Some (JString role) /\ is_role role /\
            (forced <> "" -> role = forced)) (connects h).

#[export] Instance role_stable forced : Stable (role_inv forced).
Proof. by split. Qed.

Lemma connect_role forced dtls role :
  jfind dtls "role" = Some (JString role) -> is_role role -> (forced <> "" -> role = forced) ->
  keeps (role_inv forced) (OnConnect onConnect dtls).
Proof.
  intros Hd Hr Hf. unfold OnConnect. apply keeps_bind; [apply keeps_get|]. intros h.
  apply keeps_bind; [|intros; apply keeps_lift]. apply keeps_modify. intros h' [E Hall]. split; [done|].
  simpl. apply Forall_app. split; [done|]. apply Forall_singleton. eauto.
Qed.

Lemma setup_once_role forced role sdp :
  (forced = "" \/ is_role forced) -> is_role role -> keeps (role_inv forced) (setup_once onConnect role sdp).
Proof.
  intros Hforced Hrole h Hh. unfold setup_once, st_bind at 1, st_get at 1.
  destruct (transportReady h); [done|].
  assert (forcedLocalDtlsRole h = forced) as -> by apply Hh.
  set (r := if negb (str_empty forced) then forced else role).
  assert (is_role r /\ (forced <> "" -> r = forced)) as [Hr Hf].
  { unfold r. by destruct Hforced as [->|[->| ->]]; cbn; split; try done; [left|right]. }
  revert h Hh. fold (keeps (role_inv forced) (SetupTransport onConnect r sdp)). unfold SetupTransport.
  apply keeps_bind. { destruct (jempty sdp); [|apply keeps_ret].
    apply keeps_bind; [by apply keeps_pc, role_stable|]. intros. apply keeps_lift. }
  intros sdp'. apply keeps_bind; [apply keeps_lift|]. intros d1. cbv zeta.
  destruct (jset d1 "role" (JString r)) as [d2|e|u|d] eqn:E; try by intros h.
  match goal with |- keeps _ (st_bind _ ?k) => change (keeps (role_inv forced) (k d2)) end.
  apply keeps_bind; [by apply keeps_remote_, role_stable|]. intros _.
  apply keeps_bind; [|intros _; by apply keeps_modify].
  eapply connect_role; [exact (jfind_jset_eq _ _ _ _ E)|done|done].
Qed.

Lemma role_stream forced : keeps (role_inv forced) (st_modify (fun h =>
  set_next_stream ((nextSendSctpStreamId h + 1) `mod` SctpNumStreamsMis) h)).
Proof. by apply keeps_modify. Qed.

Lemma forced_role_spec dtls forced :
  forced_role dtls = Ok forced ->
  (forced = "" \/ is_role forced) /\
  (forall r, jfind dtls "role" = Some (JString r) -> r <> "auto" ->
     forced = if String.eqb r "server" then "client" else "server").
Proof.
  unfold forced_role, is_role. destruct (jfind dtls "role") as [v|]; [|by intros [= <-]; split; [left|]].
  destruct v; simpl; try discriminate. destruct (String.eqb_spec s "auto") as [->|Hne].
  - intros [= <-]. split; [by left|]. intros r [= <-]. done.
  - intros [= <-]. destruct (String.eqb s "server") eqn:E; (split; [auto|]); intros r [= <-] _; by rewrite E.
Qed.
End Roles.

(** ** The interface of the sending transport *)

(** The peer connection can always be closed. *)
Class PeerConnectionLaws (P : Type) `{PeerConnectionInterface P} : Prop := {
  pc_Close_returns : forall p, (pc_Close p).2 = Ok tt
}.

#[export] Instance send_handler_laws {P : Type} `{PeerConnectionLaws P} `{FloatText} onConnect :
  @SendHandlerLaws (t P) (send_handler onConnect).
Proof.
  split. intros h. cbn. unfold Close, on_pc. pose proof (pc_Close_returns (pc h)) as Hc.
  by destruct (pc_Close (pc h)).
Qed.

Section Interface.
Context {P : Type} `{PeerConnectionInterface P} `{FloatText} (onConnect : nat -> json -> res unit).

(** An invariant of all methods is one the transport's calls keep. *)
Lemma send_handler_keeps (I : t P -> Prop) :
  (forall o, keeps I (step onConnect o)) -> HandlerKeeps (H := t P) (H0 := send_handler onConnect) I.
Proof.
  intros Hs.
  split; intros; cbn.
  - apply keeps_ignore, (Hs (HSend (Some track) encodings options codec)).
  - apply (Hs (HStopSending localId)).
  - apply (Hs (HReplaceTrack localId (Some track))).
  - apply (Hs (HSetMaxSpatialLayer localId layer)).
  - apply keeps_ignore, (Hs (HGetSenderStats localId)).
  - apply keeps_ignore, (Hs (HSendDataChannel label init)).
  - apply (Hs HClose).
  - apply keeps_ignore, (Hs HGetTransportStats).
  - apply (Hs (HSendRestartIce ice)).
  - apply (Hs (HUpdateIceServers servers)).
Qed.

(** The three invariants together. *)
Definition handler_inv (forced : string) (h : t P) : Prop :=
  conn_inv onConnect h /\ stream_inv h /\ role_inv forced h.

Lemma handler_step_inv forced o :
  (forced = "" \/ is_role forced) -> keeps (handler_inv forced) (step onConnect o).
Proof.
  intros Hf h (Hc & Hs & Hr). split; [|split].
  - apply step_keeps; [apply conn_stable|intros; apply setup_once_conn|apply conn_stream|done].
  - apply step_keeps; [apply stream_stable|intros; apply setup_once_stream|apply stream_next|done].
  - apply step_keeps; [apply role_stable|intros; by apply setup_once_role|apply role_stream|done].
Qed.

Lemma make_inv p ice candidates dtls sctp sending remote (h : t P) :
  make p ice candidates dtls sctp sending remote = Ok h ->
  exists forced, forced_role dtls = Ok forced /\ handler_inv forced h.
Proof.
  intros E. unfold make in E. apply bind_Ok_inv in E as (forced & Ef & E).
  apply bind_Ok_inv in E as (r & _ & [= <-]). exists forced. split; [done|].
  split; [|split]; [|done|by split; [|constructor]]. by split.
Qed.

(** What the application sees of the connection of a handler. *)
Definition connected_once (dtls : json) (h : t P) : Prop :=
  (forall i d, connects h !! i = Some d -> onConnect i d = Ok tt -> S i = length (connects h)) /\
  (transportReady h = true <-> exists i d, connects h !! i = Some d /\ onConnect i d = Ok tt) /\
  (forall i d, connects h !! i = Some d ->
     exists role, jfind d "role" = Some (JString role) /\ is_role role /\
       forall r, jfind dtls "role" = Some (JString r) -> r <> "auto" ->
         role = if String.eqb r "server" then "client" else "server").

Lemma inv_connected_once dtls forced h :
  forced_role dtls = Ok forced -> handler_inv forced h -> connected_once dtls h.
Proof.
  intros Ef ([Hi Hne] & _ & [Efo Hall]). destruct (forced_role_spec dtls forced Ef) as [Hf Hr].
  split; [|split].
  - intros i d Hd Ho. by apply (Hi i d Hd).
  - split.
    + intros Ht. destruct (connects h) as [|d l] eqn:El using rev_ind; [by destruct (Hne Ht)|].
      exists (length l), d. rewrite lookup_app_r, Nat.sub_diag by lia. split; [done|].
      apply (Hi (length l) d); [by rewrite lookup_app_r, Nat.sub_diag by lia|]. rewrite length_app. simpl. split; [done|lia].
    + intros (i & d & Hd & Ho). by apply (Hi i d Hd).
  - intros i d Hd. rewrite Forall_lookup in Hall. destruct (Hall i d Hd) as (role & E & Hro & Hfo).
    exists role. split; [done|]. split; [done|]. intros r Er Hn. rewrite <- (Hr r Er Hn). apply Hfo.
    rewrite (Hr r Er Hn). by destruct (String.eqb r "server").
Qed.
End Interface.

(** ** Data channels *)

Section DataChannels.
Context {P : Type} `{PeerConnectionInterface P} `{FloatText} (onConnect : nat -> json -> res unit).

Lemma validate_streamId params params' :
  validateSctpStreamParameters params = Ok params' -> jfind params' "streamId" = jfind params "streamId".
Proof.
  unfold validateSctpStreamParameters. cbv zeta. intros E.
  repeat match type of E with
  | bind (throw_if ?c _) _ = _ => destruct c; [discriminate|]; cbn [throw_if bind] in E
  | bind (if ?c then _ else _) _ = _ => destruct c
  | (if ?c then _ else _) = _ => destruct c
  | bind (Ok _) _ = _ => cbn [bind] in E
  | bind (jset _ _ _) _ = Ok _ =>
      let q := fresh "q" in let Eq := fresh "Eq" in
      apply bind_Ok_inv in E as (q & Eq & E); apply jfind_jset_ne with (k' := "streamId") in Eq; [|done]
  | jset _ _ _ = Ok _ => apply jfind_jset_ne with (k' := "streamId") in E; [|done]
  | Ok _ = Ok _ => injection E as E
  end; congruence.
Qed.

Lemma opt_int_find k v j j' k' : k <> k' -> opt_int k v j = Ok j' -> jfind j' k' = jfind j k'.
Proof.
  intros Hk. unfold opt_int, set_opt. destruct v; [by apply jfind_jset_ne|by intros [= ->]].
Qed.

(** The next stream id does not change while the channel is set up. *)
Definition next_is (n : Z) (h : t P) : Prop := nextSendSctpStreamId h = n.

#[local] Instance next_stable n : Stable (next_is n).
Proof. by split. Qed.

Lemma setup_once_next n role sdp : keeps (next_is n) (setup_once onConnect role sdp).
Proof.
  pose proof (next_stable n). unfold setup_once, SetupTransport, OnConnect. keep; unfold on_remote_;
    first [by apply keeps_pc|by apply keeps_remote|by apply keeps_modify].
Qed.

Lemma SendDataChannel_id label init h h' channel :
  stream_inv h -> SendDataChannel onConnect label init h = (h', Ok channel) ->
  jfind (ch_sctpStreamParameters channel) "streamId" = Some (JUint (nextSendSctpStreamId h)) /\
  nextSendSctpStreamId h' = (nextSendSctpStreamId h + 1) `mod` SctpNumStreamsMis.
Proof.
  intros Hs E. unfold SendDataChannel in E.
  rewrite (st_bind_ok st_get _ h h h eq_refl) in E. cbv zeta in E.
  apply st_bind_Ok_inv in E as (h1 & params & E1 & E). unfold st_lift in E1. injection E1 as <- E1.
  apply st_bind_Ok_inv in E as (h2 & c & E2 & E).
  assert (nextSendSctpStreamId h2 = nextSendSctpStreamId h) as Hn.
  { unfold on_pc in E2. destruct (pc_CreateDataChannel label _ (pc h)). by injection E2 as <- _. }
  rewrite (st_bind_ok (st_modify _) _ h2 _ tt eq_refl), (st_bind_ok st_get _ _ _ _ eq_refl) in E.
  apply st_bind_Ok_inv in E as (h3 & [] & E3 & E). unfold st_ret in E. injection E as <- <-. simpl. split.
  - apply bind_Ok_inv in E1 as (p1 & Ep1 & E1). apply bind_Ok_inv in E1 as (p2 & Ep2 & E1).
    apply opt_int_find with (k' := "streamId") in Ep1, Ep2; [|done..].
    rewrite (validate_streamId _ _ E1), Ep2, Ep1. simpl. do 2 f_equal. unfold u16.
    apply Z.mod_small. unfold stream_inv, SctpNumStreamsMis in Hs. lia.
  - change (next_is ((nextSendSctpStreamId h + 1) `mod` SctpNumStreamsMis) h3).
    replace h3 with (((h3, Ok tt) : t P * res unit).1) by done. rewrite <- E3. rewrite Hn.
    pose proof (next_stable ((nextSendSctpStreamId h + 1) `mod` SctpNumStreamsMis)) as Hst.
    match goal with |- next_is ?n (?m ?s).1 => cut (keeps (next_is n) m) end.
    { intros Hk. apply Hk. unfold next_is. simpl. done. }
    unfold set_remote_description, on_remote_. keep;
      first [by apply keeps_pc|by apply keeps_remote|by apply keeps_modify|apply setup_once_next].
Qed.

(** Several data channels in a row; their stream ids. *)
Fixpoint open_channels (reqs : list (string * DataChannelInit)) : ST (t P) (list (option json)) :=
  match reqs with
  | [] => st_ret []
  | (label, init) :: reqs =>
      let! channel := SendDataChannel onConnect label init in
      let! ids := open_channels reqs in
      st_ret (jfind (ch_sctpStreamParameters channel) "streamId" :: ids)
  end.

Lemma open_channels_ids reqs h h' ids :
  stream_inv h -> open_channels reqs h = (h', Ok ids) ->
  ids = (fun i => Some (JUint ((nextSendSctpStreamId h + Z.of_nat i) `mod` SctpNumStreamsMis)))
        <$> seq 0 (length reqs).
Proof.
  revert h ids. induction reqs as [|[label init] reqs IH]; intros h ids Hs E; simpl in E; [by injection E as _ <-|].
  apply st_bind_Ok_inv in E as (h1 & channel & E1 & E). apply st_bind_Ok_inv in E as (h2 & ids' & E2 & E).
  injection E as <- <-. destruct (SendDataChannel_id label init h h1 channel Hs E1) as [Hid Hnext].
  assert (stream_inv h1) as Hs1. { unfold stream_inv. rewrite Hnext. by apply Z.mod_pos_bound. }
  rewrite (IH h1 ids' Hs1 E2), Hid. simpl. rewrite Z.add_0_r, Z.mod_small by apply Hs. f_equal.
  rewrite <- fmap_S_seq, <- list_fmap_compose. apply list_fmap_ext. intros i x _. simpl. do 2 f_equal.
  rewrite Hnext, Z.add_mod_idemp_l by done. f_equal. lia.
Qed.
End DataChannels.

(** ** A failed [Send] *)

Section FailedSend.
Context {P : Type} `{PeerConnectionInterface P} `{FloatText} (onConnect : nat -> json -> res unit).

(** The transceivers by mid and the sections of the remote SDP by mid. *)
Definition same_lines (h0 h : t P) : Prop :=
  mapMidTransceiver h = mapMidTransceiver h0 /\
  RemoteSdp.midToIndex (remoteSdp h) = RemoteSdp.midToIndex (remoteSdp h0).

Lemma UpdateDtlsRole_lines r role r' :
  RemoteSdp.UpdateDtlsRole r role = Ok r' -> RemoteSdp.midToIndex r' = RemoteSdp.midToIndex r.
Proof.
  unfold RemoteSdp.UpdateDtlsRole, RemoteSdp.update_sections. intros E.
  apply bind_Ok_inv in E as (dtls & _ & E). apply bind_Ok_inv in E as (sdp & _ & E).
  apply bind_Ok_inv in E as ([sections sdp'] & _ & [= <-]). done.
Qed.

Lemma pc_lines h0 {A} (m : ST P A) : keeps (same_lines h0) (on_pc m).
Proof. intros h Hh. unfold on_pc. by destruct (m (pc h)). Qed.

Lemma role_lines h0 role : keeps (same_lines h0) (on_remote_ (fun r => RemoteSdp.UpdateDtlsRole r role)).
Proof.
  intros h [Hm Hi]. unfold on_remote_, on_remote.
  destruct (RemoteSdp.UpdateDtlsRole (remoteSdp h) role) as [r|e|u|d] eqn:E; simpl; try done.
  split; [done|]. simpl. by rewrite (UpdateDtlsRole_lines _ _ _ E).
Qed.

Lemma offer_lines h0 tr encodings parameters idx :
  keeps (same_lines h0) (offer_transceiver onConnect tr encodings parameters idx).
Proof.
  unfold offer_transceiver, setup_once, SetupTransport, OnConnect, transceiver_mid.
  keep; first [apply pc_lines|apply role_lines|by apply keeps_modify].
Qed.

(** The transceivers by mid are those of [m0], with the one sent if the method
    returns. *)
Definition registers (m0 : gmap string Z) (m : ST (t P) SendResult) : Prop :=
  forall h, mapMidTransceiver h = m0 ->
    match m h with
    | (h', Ok sent) => exists tr, sr_rtpSender sent = Some tr /\
                         mapMidTransceiver h' = <[sr_localId sent := tr]> m0
    | (h', _) => mapMidTransceiver h' = m0
    end.

Definition map_is (m0 : gmap string Z) (h : t P) : Prop := mapMidTransceiver h = m0.

Lemma registers_bind m0 {A} (m : ST (t P) A) f :
  keeps (map_is m0) m -> (forall a, registers m0 (f a)) -> registers m0 (st_bind m f).
Proof.
  intros Hm Hf h Hh. specialize (Hm h Hh). unfold st_bind.
  destruct (m h) as [h1 [a|e|u|d]]; simpl in *; try done. by apply Hf.
Qed.

Lemma pc_map m0 {A} (m : ST P A) : keeps (map_is m0) (on_pc m).
Proof. intros h Hh. unfold on_pc. by destruct (m (pc h)). Qed.

Lemma remote_map m0 {A} (f : RemoteSdp.t -> res (RemoteSdp.t * A)) : keeps (map_is m0) (on_remote f).
Proof. intros h Hh. unfold on_remote. by destruct (f (remoteSdp h)) as [[r a]|e|u|d]. Qed.

Lemma Send_registers m0 track encodings codecOptions codec :
  registers m0 (Send onConnect track encodings codecOptions codec).
Proof.
  unfold Send, set_remote_description, offer_transceiver, setup_once, SetupTransport, OnConnect,
    transceiver_mid, on_remote_. destruct track as [track|]; [|by intros h]. cbv zeta.
  repeat (first
    [ apply registers_bind;
      [keep; first [apply pc_map|apply remote_map|by apply keeps_modify]|intros ?]
    | match goal with |- registers _ (match ?x with _ => _ end) => destruct x end ]; cbv beta iota).
  all: try by intros h.
  intros h <-. unfold st_bind, st_modify, st_ret. simpl. eauto.
Qed.
End FailedSend.

(** ** Theorems *)

(** C36. Stream ids of data channels.  On a handler reached by any calls, the
    data channels opened one after another get consecutive stream ids modulo
    1024, starting at the handler's next id: up to 1024 in a row they are
    different, the next one has the first id again. *)
Theorem data_channel_stream_ids {P : Type} `{PeerConnectionInterface P} `{FloatText} onConnect
    (p : P) ice candidates dtls sctp sending remote h0 ops reqs h' ids :
  make p ice candidates dtls sctp sending remote = Ok h0 ->
  open_channels onConnect reqs (run onConnect h0 ops) = (h', Ok ids) ->
  exists first, 0 <= first < 1024 /\
    ids = (fun i => Some (JUint ((first + Z.of_nat i) `mod` 1024))) <$> seq 0 (length reqs) /\
    (Z.of_nat (length reqs) <= 1024 -> NoDup ids) /\
    ids !! 1024%nat = if Z.of_nat (length reqs) >? 1024 then ids !! O else None.
Proof.
  intros E Eo. destruct (make_inv onConnect _ _ _ _ _ _ _ _ E) as (forced & Ef & Hi).
  set (h := run onConnect h0 ops) in *.
  assert (stream_inv h) as Hs.
  { apply run_keeps; [apply stream_stable|intros; apply setup_once_stream|apply stream_next|apply Hi]. }
  pose proof (open_channels_ids onConnect reqs h h' ids Hs Eo) as ->.
  unfold stream_inv, SctpNumStreamsMis in Hs |- *. exists (nextSendSctpStreamId h).
  split; [done|]. split; [done|]. split.
  - intros Hle. apply NoDup_fmap_2_strong; [|apply NoDup_seq].
    intros i j Hi' Hj' [= Eij]. apply elem_of_seq in Hi', Hj'. apply Nat2Z.inj. Z.div_mod_to_equations. lia.
  - rewrite !list_lookup_fmap. destruct (Z.gtb_spec (Z.of_nat (length reqs)) 1024) as [Hgt|Hle].
    + rewrite !lookup_seq_lt by lia. simpl. do 3 f_equal. Z.div_mod_to_equations. lia.
    + by rewrite lookup_seq_ge by lia.
Qed.

(** C37. When the offer of a [Send] fails, for whatever reason, its transceiver is
    made inactive and loses its track, the exception is passed on, and neither
    the transceivers the handler knows by mid nor the sections of the remote SDP
    have changed. *)
Theorem failed_send_is_undone {P : Type} `{PeerConnectionInterface P} `{FloatText} onConnect
    (h : t P) track encodings codecOptions codec sending parameters remote remoteParameters section
    p1 tr h2 e p3 p4 :
  reduced_parameters (sendingRtpParametersByKind h) (track_kind track) codec = Ok (sending, parameters) ->
  reduced_parameters (sendingRemoteRtpParametersByKind h) (track_kind track) codec
    = Ok (remote, remoteParameters) ->
  RemoteSdp.GetNextMediaSectionIdx (remoteSdp h) = Ok section ->
  pc_AddTransceiver track (number_encodings encodings) (pc h) = (p1, Ok (Some tr)) ->
  offer_transceiver onConnect tr (number_encodings encodings) parameters (RemoteSdp.idx section)
    (set_pc p1 (set_by_kind sending remote h)) = (h2, Throw e) ->
  tr_SetInactive tr (pc h2) = (p3, Ok tt) -> tr_SetTrack tr None p3 = (p4, Ok tt) ->
  Send onConnect (Some track) encodings codecOptions codec h = (set_pc p4 h2, Throw e) /\
  mapMidTransceiver h2 = mapMidTransceiver h /\
  RemoteSdp.midToIndex (remoteSdp h2) = RemoteSdp.midToIndex (remoteSdp h).
Proof.
  intros E1 E2 E3 E4 E5 E6 E7. split.
  - unfold Send. cbv zeta. rewrite (st_bind_ok st_get _ h h h eq_refl), E1.
    do 2 (erewrite st_bind_ok; [|reflexivity]; cbv beta iota). rewrite E2.
    do 2 (erewrite st_bind_ok; [|reflexivity]; cbv beta iota). rewrite E3.
    erewrite st_bind_ok; [|reflexivity]; cbv beta iota.
    erewrite (st_bind_ok (on_pc _)); [|unfold on_pc; simpl; rewrite E4; reflexivity].
    apply st_bind_throw. unfold st_try.
    change (set_pc p1 (set_by_kind sending remote (set_by_kind sending (sendingRemoteRtpParametersByKind h) h)))
      with (set_pc p1 (set_by_kind sending remote h)).
    rewrite E5. erewrite (st_bind_ok (on_pc _)); [|unfold on_pc; rewrite E6; reflexivity].
    erewrite (st_bind_ok (on_pc _)); [|unfold on_pc; simpl; rewrite E7; reflexivity]. done.
  - pose proof (offer_lines onConnect h tr (number_encodings encodings) parameters (RemoteSdp.idx section)
      (set_pc p1 (set_by_kind sending remote h))) as Hl.
    rewrite E5 in Hl. by apply Hl.
Qed.

(** The handler knows a transceiver by its mid exactly when [Send] has
    returned: a [Send] that throws, at whatever point, leaves the map as it was;
    one that returns adds its transceiver under the local id of the result, and
    the methods that take a local id find it there. *)
Theorem send_registers_transceiver {P : Type} `{PeerConnectionInterface P} `{FloatText} onConnect
    (h : t P) track encodings codecOptions codec :
  match Send onConnect track encodings codecOptions codec h with
  | (h', Ok sent) =>
      exists tr, sr_rtpSender sent = Some tr /\
        mapMidTransceiver h' = <[sr_localId sent := tr]> (mapMidTransceiver h) /\
        transceiver_of (sr_localId sent) h' = (h', Ok tr)
  | (h', _) => mapMidTransceiver h' = mapMidTransceiver h
  end.
Proof.
  pose proof (Send_registers onConnect (mapMidTransceiver h) track encodings codecOptions codec h eq_refl) as Hs.
  destruct (Send onConnect track encodings codecOptions codec h) as [h' [sent|e|u|d]]; try done.
  destruct Hs as (tr & E & Em). exists tr. split; [done|]. split; [done|].
  unfold transceiver_of, st_bind, st_get. by rewrite Em, lookup_insert_eq.
Qed.

(** ** A peer connection that records what it is asked *)

Module FakePc.
Inductive call : Type :=
| Added (track : Z) | Offered | Local (type : SdpType) | Remote (type : SdpType)
| Inactive (tr : Z) | TrackSet (tr : Z) (track : option Z) | Removed (tr : Z) | OpenedChannel (id : Z).

Record state : Type := State { local : string; calls : list call }.

Definition log (c : call) : ST state unit := fun s => (State (local s) (calls s ++ [c]), Ok tt).

Definition offer : string :=
  "v=0" +:+ crlf +:+ "o=- 1 2 IN IP4 127.0.0.1" +:+ crlf +:+ "s=-" +:+ crlf +:+ "t=0 0" +:+ crlf +:+
  "m=video 9 UDP/TLS/RTP/SAVPF 101" +:+ crlf +:+ "c=IN IP4 0.0.0.0" +:+ crlf +:+
  "a=ice-ufrag:uf" +:+ crlf +:+ "a=ice-pwd:pw" +:+ crlf +:+ "a=fingerprint:sha-256 A9:F4" +:+ crlf +:+
  "a=setup:actpass" +:+ crlf +:+ "a=mid:0" +:+ crlf +:+ "a=sendonly" +:+ crlf +:+
  "a=extmap:4 urn:ietf:params:rtp-hdrext:sdes:mid" +:+ crlf +:+ "a=rtpmap:101 VP8/90000" +:+ crlf +:+
  "a=ssrc:4242 cname:c" +:+ crlf +:+
  "a=ssrc:4242 msid:m t" +:+ crlf +:+
  "m=application 9 UDP/DTLS/SCTP webrtc-datachannel" +:+ crlf +:+ "c=IN IP4 0.0.0.0" +:+ crlf +:+
  "a=mid:1" +:+ crlf +:+ "a=sctp-port:5000" +:+ crlf.

(** The offer is refused for track 13. *)
#[global] Instance fake : PeerConnectionInterface state := {
  pc_AddMediaTransceiver _ := st_ret tt;
  pc_AddTransceiver track _ := do! log (Added track) in st_ret (Some (100 + track));
  pc_CreateOffer _ := do! log Offered in st_ret offer;
  pc_CreateAnswer := st_ret offer;
  pc_SetLocalDescription type text := do! log (Local type) in fun s => (State text (calls s), Ok tt);
  pc_SetRemoteDescription type _ := log (Remote type);
  pc_GetLocalDescription := fun s => (s, Ok (local s));
  pc_GetTransceivers := st_ret [];
  pc_RemoveTrack tr := log (Removed tr);
  pc_CreateDataChannel _ init := do! log (OpenedChannel (dc_id init)) in st_ret 7;
  pc_GetStats := st_ret (JArray []);
  pc_GetSenderStats _ := st_ret (JArray []);
  pc_GetReceiverStats _ := st_ret (JArray []);
  pc_Close := st_ret tt;
  pc_SetServers _ := st_ret true;
  tr_mid tr := st_ret (if tr =? 113 then None else Some "0");
  tr_SetInactive tr := log (Inactive tr);
  tr_SetTrack tr track := log (TrackSet tr track);
  tr_GetEncodings _ := st_ret [];
  tr_SetEncodings _ _ := st_ret None;
  tr_receiver_track tr := st_ret tr;
  track_kind _ := "video"
}.

#[global] Instance fake_laws : PeerConnectionLaws state.
Proof. by split. Qed.

(** The application refuses the first call of [OnConnect]. *)
Definition onConnect (n : nat) (dtls : json) : res unit :=
  match n with O => Throw (MscError "not yet") | _ => Ok tt end.

Definition byKind : json := JObj [("video", Session.params)].

Definition start : t state :=
  match make (State "" []) Session.ice Session.candidates Session.dtls Session.sctp byKind byKind with
  | Ok h => h
  | _ => Mk Session.remote false empty (State "" []) false 0 "" JNull JNull []
  end.

Definition init : DataChannelInit := ChannelInit true None None "" false (-1).
Definition ops : list op :=
  [HSend (Some 1) [] None None; HSend (Some 2) [] None None; HSendDataChannel "l" init; HStopSending "0"].
End FakePc.

Lemma data_channel_stream_ids_witness :
  exists h' ids first,
    open_channels FakePc.onConnect [("a", FakePc.init); ("b", FakePc.init)]
      (run FakePc.onConnect FakePc.start FakePc.ops) = (h', Ok ids) /\
    NoDup ids /\
    ids = (fun i => Some (JUint ((first + Z.of_nat i) `mod` 1024))) <$> seq 0 2.
Proof.
  destruct (open_channels FakePc.onConnect [("a", FakePc.init); ("b", FakePc.init)]
    (run FakePc.onConnect FakePc.start FakePc.ops)) as [h' r] eqn:E.
  assert (r = Ok [Some (JUint 1); Some (JUint 2)]) as ->.
  { change r with (snd (h', r)). rewrite <- E. vm_compute. reflexivity. }
  destruct (data_channel_stream_ids FakePc.onConnect (FakePc.State "" []) Session.ice Session.candidates
    Session.dtls Session.sctp FakePc.byKind FakePc.byKind FakePc.start FakePc.ops
    [("a", FakePc.init); ("b", FakePc.init)] h' _ ltac:(vm_compute; reflexivity) E)
    as (first & _ & Hids & Hnd & _).
  exists h', [Some (JUint 1); Some (JUint 2)], first. split; [reflexivity|]. split; [by apply Hnd|exact Hids].
Defined.

Lemma failed_send_is_undone_witness :
  exists h', Send FakePc.onConnect (Some 1) [] None None FakePc.start = (h', Throw (MscError "not yet")) /\
    FakePc.calls (pc h') = [FakePc.Added 1; FakePc.Offered; FakePc.Inactive 101; FakePc.TrackSet 101 None] /\
    mapMidTransceiver h' = empty.
Proof.
  destruct (offer_transceiver FakePc.onConnect 101 (number_encodings []) Session.params 0
    (set_pc (FakePc.State "" [FakePc.Added 1]) (set_by_kind FakePc.byKind FakePc.byKind FakePc.start)))
    as [h2 r] eqn:E5.
  assert (r = Throw (MscError "not yet")) as ->.
  { change r with (snd (h2, r)). rewrite <- E5. vm_compute. reflexivity. }
  assert (pc h2 = FakePc.State "" [FakePc.Added 1; FakePc.Offered]) as Ep.
  { change h2 with (fst (h2, Throw (A := bool * string) (MscError "not yet"))). rewrite <- E5. vm_compute. reflexivity. }
  destruct (failed_send_is_undone FakePc.onConnect FakePc.start 1 [] None None FakePc.byKind Session.params
    FakePc.byKind Session.params (RemoteSdp.SectionIdx 0 "") (FakePc.State "" [FakePc.Added 1]) 101 h2
    (MscError "not yet")
    (FakePc.State "" [FakePc.Added 1; FakePc.Offered; FakePc.Inactive 101])
    (FakePc.State "" [FakePc.Added 1; FakePc.Offered; FakePc.Inactive 101; FakePc.TrackSet 101 None]))
    as (Es & Em & _); try (vm_compute; reflexivity).
  - exact E5.
  - rewrite Ep. vm_compute. reflexivity.
  - eexists. split; [exact Es|]. split; [reflexivity|]. exact Em.
Defined.
