(* ===== verification/RecvTransport.v ===== *)
(** Receiving: src/Consumer.cpp, src/DataConsumer.cpp and the [RecvTransport]
    class of src/Transport.cpp, with the [Transport] methods it inherits.

    As for sending, consumers are shared between the transport and the
    application and live in a heap by address; the handler is a class of
    operations ([RecvHandlerInterface]), which the receiving handler of
    Handler.v implements ([recv_handler]). *)

From stdpp Require Import gmap.
From S2P Require Import Prelude Json Streams OrtcValidate Ortc Registry SendTransport Handler.

(** What the transport asks of its [RecvHandler]. *)
Class RecvHandlerInterface (H : Type) : Type := {
  rh_Receive : string -> string -> json -> ST H Handler.RecvResult;
  rh_StopReceiving : string -> ST H unit;
  rh_GetReceiverStats : string -> ST H json;
  rh_ReceiveDataChannel : string -> DataChannelInit -> ST H DataChannel;
  rh_Close : ST H unit;
  rh_GetTransportStats : ST H json;
  rh_RestartIce : json -> ST H unit;
  rh_UpdateIceServers : json -> ST H unit
}.

#[export] Instance recv_handler {P : Type} `{PeerConnectionInterface P} `{FloatText}
    (onConnect : nat -> json -> res unit) : RecvHandlerInterface (Handler.t P) := {
  rh_Receive := Handler.Receive onConnect;
  rh_StopReceiving := Handler.StopReceiving;
  rh_GetReceiverStats := Handler.GetReceiverStats;
  rh_ReceiveDataChannel := Handler.ReceiveDataChannel onConnect;
  rh_Close := Handler.Close;
  rh_GetTransportStats := Handler.GetTransportStats;
  rh_RestartIce := Handler.RecvHandler_RestartIce;
  rh_UpdateIceServers := Handler.UpdateIceServers
}.

Module RecvTransport.

(** ** Data *)

Record Consumer : Type := MkConsumer {
  c_id : string;
  c_localId : string;
  c_producerId : string;
  c_rtpReceiver : option Z;
  c_track : Z;
  c_rtpParameters : json;
  c_closed : bool;
  c_appData : json
}.

Record DataConsumer : Type := MkDataConsumer {
  dc_id : string;
  dc_dataProducerId : string;
  dc_dataChannel : Z;
  dc_sctpParameters : json;
  dc_closed : bool;
  dc_appData : json
}.

(** Calls out of the library. *)
Inductive event : Type :=
| OnTransportClose (consumer : Z)
| OnDataTransportClose (dataConsumer : Z)
| RegisterObserver (channel dataConsumer : Z)
| DataChannelClose (channel : Z)
| OnDataState (dataConsumer : Z) (state : DataState)
| OnMessage_ (dataConsumer : Z) (buffer : list Z)
| ReceiverSetFrameDecryptor (receiver decryptor : Z)
| OnConnectionStateChange_ (state : Z).

Record world (H : Type) : Type := World {
  handler : H;
  tracks : gmap Z Track;
  consumer_heap : gmap Z Consumer;
  data_heap : gmap Z DataConsumer;
  closed : bool;
  connectionState : Z;
  hasSctpParameters : bool;
  extendedRtpCapabilities : json;
  probatorConsumerCreated : bool;
  consumers : gmap string Z;
  dataConsumers : gmap string Z;
  events : list event
}.
Arguments World {H}.
Arguments handler {H}.
Arguments tracks {H}.
Arguments consumer_heap {H}.
Arguments data_heap {H}.
Arguments closed {H}.
Arguments connectionState {H}.
Arguments hasSctpParameters {H}.
Arguments extendedRtpCapabilities {H}.
Arguments probatorConsumerCreated {H}.
Arguments consumers {H}.
Arguments dataConsumers {H}.
Arguments events {H}.

Section Operations.
Context {H : Type} `{RecvHandlerInterface H}.
Implicit Types (w : world H).

Definition set_handler (h : H) w : world H :=
  World h (tracks w) (consumer_heap w) (data_heap w) (closed w) (connectionState w)
    (hasSctpParameters w) (extendedRtpCapabilities w) (probatorConsumerCreated w) (consumers w)
    (dataConsumers w) (events w).
Definition set_tracks (ts : gmap Z Track) w : world H :=
  World (handler w) ts (consumer_heap w) (data_heap w) (closed w) (connectionState w)
    (hasSctpParameters w) (extendedRtpCapabilities w) (probatorConsumerCreated w) (consumers w)
    (dataConsumers w) (events w).
Definition set_consumer (p : Z) (C : Consumer) w : world H :=
  World (handler w) (tracks w) (<[p := C]> (consumer_heap w)) (data_heap w) (closed w)
    (connectionState w) (hasSctpParameters w) (extendedRtpCapabilities w)
    (probatorConsumerCreated w) (consumers w) (dataConsumers w) (events w).
Definition set_data (p : Z) (C : DataConsumer) w : world H :=
  World (handler w) (tracks w) (consumer_heap w) (<[p := C]> (data_heap w)) (closed w)
    (connectionState w) (hasSctpParameters w) (extendedRtpCapabilities w)
    (probatorConsumerCreated w) (consumers w) (dataConsumers w) (events w).
Definition set_closed w : world H :=
  World (handler w) (tracks w) (consumer_heap w) (data_heap w) true (connectionState w)
    (hasSctpParameters w) (extendedRtpCapabilities w) (probatorConsumerCreated w) (consumers w)
    (dataConsumers w) (events w).
Definition set_connection (s : Z) w : world H :=
  World (handler w) (tracks w) (consumer_heap w) (data_heap w) (closed w) s
    (hasSctpParameters w) (extendedRtpCapabilities w) (probatorConsumerCreated w) (consumers w)
    (dataConsumers w) (events w).
Definition set_probator w : world H :=
  World (handler w) (tracks w) (consumer_heap w) (data_heap w) (closed w) (connectionState w)
    (hasSctpParameters w) (extendedRtpCapabilities w) true (consumers w) (dataConsumers w) (events w).
Definition set_maps (cs ds : gmap string Z) w : world H :=
  World (handler w) (tracks w) (consumer_heap w) (data_heap w) (closed w) (connectionState w)
    (hasSctpParameters w) (extendedRtpCapabilities w) (probatorConsumerCreated w) cs ds (events w).
Definition emit (e : event) w : world H :=
  World (handler w) (tracks w) (consumer_heap w) (data_heap w) (closed w) (connectionState w)
    (hasSctpParameters w) (extendedRtpCapabilities w) (probatorConsumerCreated w) (consumers w)
    (dataConsumers w) (events w ++ [e]).

Definition on_handler {A : Type} (m : ST H A) : ST (world H) A := fun w =>
  let '(h, r) := m (handler w) in (set_handler h w, r).

Definition deref {A : Type} (o : option A) : ST (world H) A :=
  match o with Some a => st_ret a | None => st_lift (Undef UbDeref) end.

Definition consumer_at (p : Z) : ST (world H) Consumer :=
  let! w := st_get in deref (consumer_heap w !! p).
Definition data_at (p : Z) : ST (world H) DataConsumer :=
  let! w := st_get in deref (data_heap w !! p).
Definition track_at (p : Z) : ST (world H) Track :=
  let! w := st_get in deref (tracks w !! p).

Definition set_enabled (p : Z) (b : bool) : ST (world H) unit :=
  let! t := track_at p in
  st_modify (fun w => set_tracks (<[p := MkTrack (t_kind t) b (t_ended t)]> (tracks w)) w).

Definition mark_closed (C : Consumer) : Consumer :=
  MkConsumer (c_id C) (c_localId C) (c_producerId C) (c_rtpReceiver C) (c_track C)
    (c_rtpParameters C) true (c_appData C).
Definition mark_data_closed (C : DataConsumer) : DataConsumer :=
  MkDataConsumer (dc_id C) (dc_dataProducerId C) (dc_dataChannel C) (dc_sctpParameters C) true
    (dc_appData C).

(** ** RecvTransport as the consumers' private listener *)

Definition OnClose (consumer : Z) : ST (world H) unit :=
  let! C := consumer_at consumer in
  do! st_modify (fun w => set_maps (delete (c_id C) (consumers w)) (dataConsumers w) w) in
  let! w := st_get in
  if closed w then st_ret tt else on_handler (rh_StopReceiving (c_localId C)).

Definition OnCloseData (dataConsumer : Z) : ST (world H) unit :=
  let! C := data_at dataConsumer in
  st_modify (fun w => set_maps (consumers w) (delete (dc_id C) (dataConsumers w)) w).

Definition OnGetStats (consumer : Z) : ST (world H) json :=
  let! w := st_get in
  do! st_throw_if (closed w) (MscInvalidStateError "RecvTransport closed") in
  let! C := consumer_at consumer in
  on_handler (rh_GetReceiverStats (c_localId C)).

(** ** Consumer *)

Definition Consumer_Close (this : Z) : ST (world H) unit :=
  let! C := consumer_at this in
  if c_closed C then st_ret tt
  else
    do! st_modify (set_consumer this (mark_closed C)) in
    OnClose this.

Definition Consumer_GetStats (this : Z) : ST (world H) json :=
  let! C := consumer_at this in
  do! st_throw_if (c_closed C) (MscInvalidStateError "Consumer closed") in
  OnGetStats this.

Definition Consumer_IsPaused (this : Z) : ST (world H) bool :=
  let! C := consumer_at this in
  let! t := track_at (c_track C) in
  st_ret (negb (t_enabled t)).

Definition Consumer_Pause (this : Z) : ST (world H) unit :=
  let! C := consumer_at this in
  if c_closed C then st_ret tt else set_enabled (c_track C) false.

Definition Consumer_Resume (this : Z) : ST (world H) unit :=
  let! C := consumer_at this in
  if c_closed C then st_ret tt else set_enabled (c_track C) true.

Definition Consumer_SetFrameDecryptor (this decryptor : Z) : ST (world H) unit :=
  let! C := consumer_at this in
  do! st_throw_if (c_closed C) (MscInvalidStateError "Consumer closed") in
  match c_rtpReceiver C with
  | Some receiver => st_modify (emit (ReceiverSetFrameDecryptor receiver decryptor))
  | None => st_ret tt
  end.

Definition Consumer_TransportClosed (this : Z) : ST (world H) unit :=
  let! C := consumer_at this in
  if c_closed C then st_ret tt
  else
    do! st_modify (set_consumer this (mark_closed C)) in
    st_modify (emit (OnTransportClose this)).

(** ** DataConsumer *)

(** [state]: the state of its data channel. *)
Definition DataConsumer_OnStateChange (this : Z) (state : DataState) : ST (world H) unit :=
  let! _ := data_at this in
  st_modify (emit (OnDataState this state)).

Definition DataConsumer_OnMessage (this : Z) (buffer : list Z) : ST (world H) unit :=
  let! _ := data_at this in
  st_modify (emit (OnMessage_ this buffer)).

Definition DataConsumer_Close (this : Z) : ST (world H) unit :=
  let! C := data_at this in
  if dc_closed C then st_ret tt
  else
    do! st_modify (set_data this (mark_data_closed C)) in
    do! st_modify (emit (DataChannelClose (dc_dataChannel C))) in
    OnCloseData this.

Definition DataConsumer_TransportClosed (this : Z) : ST (world H) unit :=
  let! C := data_at this in
  if dc_closed C then st_ret tt
  else
    do! st_modify (set_data this (mark_data_closed C)) in
    do! st_modify (emit (DataChannelClose (dc_dataChannel C))) in
    st_modify (emit (OnDataTransportClose this)).

(** ** Transport *)

Definition Transport_Close : ST (world H) unit :=
  let! w := st_get in
  if closed w then st_ret tt
  else
    do! st_modify set_closed in
    on_handler rh_Close.

(** A method of the handler behind the check of the closed flag. *)
Definition Transport_GetStats : ST (world H) json :=
  let! w := st_get in
  do! st_throw_if (closed w) (MscInvalidStateError "Transport closed") in
  on_handler rh_GetTransportStats.

Definition Transport_RestartIce (iceParameters : json) : ST (world H) unit :=
  let! w := st_get in
  do! st_throw_if (closed w) (MscInvalidStateError "Transport closed") in
  on_handler (rh_RestartIce iceParameters).

Definition Transport_UpdateIceServers (iceServers : json) : ST (world H) unit :=
  let! w := st_get in
  do! st_throw_if (closed w) (MscInvalidStateError "Transport closed") in
  on_handler (rh_UpdateIceServers iceServers).

Definition Transport_OnConnectionStateChange (state : Z) : ST (world H) unit :=
  do! st_modify (set_connection state) in
  st_modify (emit (OnConnectionStateChange_ state)).

(** ** RecvTransport *)

Definition RecvTransport_Close : ST (world H) unit :=
  let! w := st_get in
  if closed w then st_ret tt
  else
    do! Transport_Close in
    let! w := st_get in
    do! each Consumer_TransportClosed (pointers (consumers w)) in
    let! w := st_get in
    each DataConsumer_TransportClosed (pointers (dataConsumers w)).

(** The consumer for RTP probation; a [std::runtime_error] is logged only. *)
Definition create_probator (kind : string) (rtpParameters : json) : ST (world H) unit :=
  st_try
    (let! probatorRtpParameters := st_lift (generateProbatorRtpParameters rtpParameters) in
     let! _ := on_handler (rh_Receive "probator" kind probatorRtpParameters) in
     st_modify set_probator)
    (fun e => if is_msc_error e then st_ret tt else st_throw e).

(** [fresh]: the address of the new consumer. *)
Definition Consume (fresh : Z) (id producerId kind : string) (rtpParameters : option json) (appData : json)
    : ST (world H) Z :=
  let! w := st_get in
  do! st_throw_if (closed w) (MscInvalidStateError "RecvTransport closed") in
  do! st_throw_if (str_empty id) (MscTypeError "missing id") in
  do! st_throw_if (str_empty producerId) (MscTypeError "missing producerId") in
  do! st_throw_if (negb (String.eqb kind "audio") && negb (String.eqb kind "video"))
        (MscTypeError "invalid kind") in
  match rtpParameters with
  | None => st_throw (MscTypeError "missing rtpParameters")
  | Some rtpParameters =>
      do! st_throw_if (negb (is_object appData)) (MscTypeError "appData must be a JSON object") in
      let! (can, rtpParameters) := st_lift (canReceive rtpParameters (extendedRtpCapabilities w)) in
      do! st_throw_if (negb can) (MscUnsupportedError "cannot consume this Producer") in
      let! recvResult := on_handler (rh_Receive id kind rtpParameters) in
      do! st_modify (set_consumer fresh
            (MkConsumer id (Handler.rr_localId recvResult) producerId
               (Some (Handler.rr_rtpReceiver recvResult)) (Handler.rr_track recvResult) rtpParameters
               false appData)) in
      do! st_modify (fun w => set_maps (<[id := fresh]> (consumers w)) (dataConsumers w) w) in
      do! (if negb (probatorConsumerCreated w) && String.eqb kind "video"
           then create_probator kind rtpParameters else st_ret tt) in
      st_ret fresh
  end.

Definition ConsumeData (fresh : Z) (id producerId : string) (streamId : Z) (label protocol : string)
    (appData : json) : ST (world H) Z :=
  let dataChannelInit := ChannelInit true None None protocol false streamId in
  let! w := st_get in
  do! st_throw_if (closed w) (MscInvalidStateError "RecvTransport closed") in
  do! st_throw_if (str_empty id) (MscTypeError "missing id") in
  do! st_throw_if (str_empty producerId) (MscTypeError "missing producerId") in
  do! st_throw_if (negb (hasSctpParameters w))
        (MscTypeError "Cannot use DataChannels with this transport. SctpParameters are not set.") in
  let! recvResult := on_handler (rh_ReceiveDataChannel label dataChannelInit) in
  do! st_modify (set_data fresh
        (MkDataConsumer id producerId (ch_dataChannel recvResult) (ch_sctpStreamParameters recvResult)
           false appData)) in
  do! st_modify (emit (RegisterObserver (ch_dataChannel recvResult) fresh)) in
  do! st_modify (fun w => set_maps (consumers w) (<[id := fresh]> (dataConsumers w)) w) in
  st_ret fresh.

(** The constructor, given its new handler. *)
Definition make (h : H) (ts : gmap Z Track) (sctpParameters extended : json) : world H :=
  World h ts empty empty false 0 (negb (is_null sctpParameters) && is_object sctpParameters) extended
    false empty empty [].
End Operations.
End RecvTransport.
