(* ===== verification/RecvTransportFacts.v ===== *)
(** The life of consumers and of their transport.

    A consumer is open exactly as long as it is registered with an open
    transport; every method keeps that, exceptions included.  Closing the
    transport closes and notifies every open consumer, and afterwards no method
    reaches the handler.  The theorem on connecting composes the transports of
    both directions with their handlers. *)

From stdpp Require Import gmap.
From S2P Require Import Prelude Json Streams OrtcValidate Ortc Registry.
From S2P Require Import RemoteSdp RemoteSdpFacts SendTransport SendTransportFacts Handler HandlerFacts RecvTransport.
Import RecvTransport.

(** What the handler promises: closing the peer connection does not throw. *)
Class RecvHandlerLaws (H : Type) `{RecvHandlerInterface H} : Prop := {
  rh_Close_returns : forall h, (rh_Close h).2 = Ok tt
}.

#[export] Instance recv_handler_laws {P : Type} `{PeerConnectionLaws P} `{FloatText} onConnect :
  @RecvHandlerLaws (Handler.t P) (recv_handler onConnect).
Proof.
  split. intros h. cbn. unfold Handler.Close, Handler.on_pc.
  pose proof (pc_Close_returns (Handler.pc h)) as Hc. by destruct (pc_Close (Handler.pc h)).
Qed.

(** ** Steps *)

Inductive rop : Type :=
| RConsume (fresh : Z) (id producerId kind : string) (rtpParameters : option json) (appData : json)
| RConsumeData (fresh : Z) (id producerId : string) (streamId : Z) (label protocol : string) (appData : json)
| RClose
| RGetStats
| RRestartIce (iceParameters : json)
| RUpdateIceServers (iceServers : json)
| RConnectionState (state : Z)
| RConsumerClose (p : Z)
| RConsumerGetStats (p : Z)
| RPause (p : Z)
| RResume (p : Z)
| RSetFrameDecryptor (p decryptor : Z)
| RDataConsumerClose (p : Z)
| RStateChange (p : Z) (state : DataState)
| RMessage (p : Z) (buffer : list Z).

Section Lifecycle.
Context {H : Type} `{RecvHandlerInterface H}.
Implicit Types (w : world H).

Definition rstep (o : rop) : ST (world H) unit :=
  match o with
  | RConsume fresh id producerId kind params appData =>
      ignore (Consume fresh id producerId kind params appData)
  | RConsumeData fresh id producerId streamId label protocol appData =>
      ignore (ConsumeData fresh id producerId streamId label protocol appData)
  | RClose => RecvTransport_Close
  | RGetStats => ignore Transport_GetStats
  | RRestartIce ice => Transport_RestartIce ice
  | RUpdateIceServers servers => Transport_UpdateIceServers servers
  | RConnectionState s => Transport_OnConnectionStateChange s
  | RConsumerClose p => Consumer_Close p
  | RConsumerGetStats p => ignore (Consumer_GetStats p)
  | RPause p => Consumer_Pause p
  | RResume p => Consumer_Resume p
  | RSetFrameDecryptor p decryptor => Consumer_SetFrameDecryptor p decryptor
  | RDataConsumerClose p => DataConsumer_Close p
  | RStateChange p s => DataConsumer_OnStateChange p s
  | RMessage p buffer => DataConsumer_OnMessage p buffer
  end.

(** New objects get new addresses, and ids that are not in use. *)
Definition rop_ok w (o : rop) : Prop :=
  match o with
  | RConsume fresh id _ _ _ _ => consumer_heap w !! fresh = None /\ consumers w !! id = None
  | RConsumeData fresh id _ _ _ _ _ => data_heap w !! fresh = None /\ dataConsumers w !! id = None
  | _ => True
  end.

Fixpoint rrun (w : world H) (ops : list rop) : world H :=
  match ops with
  | [] => w
  | o :: ops => rrun (rstep o w).1 ops
  end.

Fixpoint rrun_ok (w : world H) (ops : list rop) : Prop :=
  match ops with
  | [] => True
  | o :: ops => rop_ok w o /\ rrun_ok (rstep o w).1 ops
  end.

(** ** The invariant *)

#[global] Instance consumer_closable : Closable Consumer :=
  {| o_id := c_id; o_closed := c_closed; o_close := mark_closed;
     o_close_id _ := eq_refl; o_close_closed _ := eq_refl |}.
#[global] Instance data_consumer_closable : Closable DataConsumer :=
  {| o_id := dc_id; o_closed := dc_closed; o_close := mark_data_closed;
     o_close_id _ := eq_refl; o_close_closed _ := eq_refl |}.

Definition rlines : Type := gmap string Z * gmap Z Consumer * (gmap string Z * gmap Z DataConsumer) * bool.

Definition rlines_of w : rlines :=
  (consumers w, consumer_heap w, (dataConsumers w, data_heap w), closed w).

Definition rinv_of (x : rlines) : Prop :=
  let '(cs, ch, (ds, dh), c) := x in registry cs ch c /\ registry ds dh c.

Definition rinv w : Prop := rinv_of (rlines_of w).

Lemma rquiet_handler {A} (m : ST H A) : quiet rlines_of (on_handler m).
Proof. intros x w <-. unfold on_handler. by destruct (m (handler w)). Qed.
Lemma rquiet_deref {A} (o : option A) : quiet rlines_of (deref o).
Proof. unfold deref. destruct o; auto with quiet_db. Qed.
End Lifecycle.

#[export] Hint Resolve rquiet_handler rquiet_deref : quiet_db.

Section Methods.
Context {H : Type} `{RecvHandlerInterface H}.

Lemma consumer_at_quiet p : quiet (rlines_of (H := H)) (consumer_at p).
Proof. unfold consumer_at. quiets. Qed.
Lemma rdata_at_quiet p : quiet (rlines_of (H := H)) (data_at p).
Proof. unfold data_at. quiets. Qed.
Lemma rset_enabled_quiet p b : quiet (rlines_of (H := H)) (set_enabled p b).
Proof. unfold set_enabled, track_at. quiets. Qed.
Lemma create_probator_quiet kind params : quiet (rlines_of (H := H)) (create_probator kind params).
Proof. unfold create_probator. quiets. Qed.
End Methods.
#[export] Hint Resolve consumer_at_quiet rdata_at_quiet rset_enabled_quiet create_probator_quiet : quiet_db.

(** ** Every method keeps it *)

Section Preservation.
Context {H : Type} `{RecvHandlerLaws H}.
Context (cs : gmap string Z) (ch : gmap Z Consumer) (ds : gmap string Z) (dh : gmap Z DataConsumer) (c : bool).
Hypothesis Hinv : rinv_of (cs, ch, (ds, dh), c).
Implicit Types (w : world H).

Abbreviation x0 := (cs, ch, (ds, dh), c).
Notation "'rfrom' m" := (from (rlines_of (H := H)) rinv_of x0 m) (at level 10, m at level 9).

Lemma from_consumer {B} p (f : Consumer -> ST (world H) B) :
  (forall C, ch !! p = Some C -> rfrom (f C)) -> rfrom (let! C := consumer_at p in f C).
Proof.
  intros Hf w Hw. pose proof Hw as [= _ E _ _ _]. unfold consumer_at, st_bind, st_get. rewrite E.
  destruct (ch !! p) as [C|] eqn:EC; [by apply (Hf C)|]. change (rinv_of (rlines_of w)). by rewrite Hw.
Qed.

Lemma from_data_consumer {B} p (f : DataConsumer -> ST (world H) B) :
  (forall C, dh !! p = Some C -> rfrom (f C)) -> rfrom (let! C := data_at p in f C).
Proof.
  intros Hf w Hw. pose proof Hw as [= _ _ _ E _]. unfold data_at, st_bind, st_get. rewrite E.
  destruct (dh !! p) as [C|] eqn:EC; [by apply (Hf C)|]. change (rinv_of (rlines_of w)). by rewrite Hw.
Qed.

Lemma Consumer_Close_inv p : rfrom (Consumer_Close p).
Proof.
  unfold Consumer_Close. apply from_consumer. intros C HC. destruct (c_closed C) eqn:Hc.
  { apply from_quiet; [done|apply quiet_ret]. }
  intros w Hw. pose proof Hw as [= E1 E2 E3 E4 E5].
  unfold OnClose, consumer_at, st_bind, st_modify, st_get, deref. simpl. rewrite lookup_insert_eq. simpl.
  set (w' := set_maps _ _ _). assert (rinv w') as Hi.
  { unfold rinv, w', rlines_of. simpl. rewrite E1, E2, E3, E4, E5. destruct Hinv as [R1 R2].
    split; [exact (registry_close cs ch c p C R1 HC Hc)|done]. }
  destruct (closed w); [done|].
  exact (from_quiet rlines_of rinv_of (rlines_of w') (on_handler (rh_StopReceiving (c_localId C))) Hi
    (rquiet_handler _) w' eq_refl).
Qed.

Lemma DataConsumer_Close_inv p : rfrom (DataConsumer_Close p).
Proof.
  unfold DataConsumer_Close. apply from_data_consumer. intros C HC. destruct (dc_closed C) eqn:Hc.
  { apply from_quiet; [done|apply quiet_ret]. }
  intros w [= E1 E2 E3 E4 E5].
  unfold OnCloseData, data_at, st_bind, st_modify, st_get, deref. simpl. rewrite lookup_insert_eq.
  unfold rlines_of. simpl. rewrite E1, E2, E3, E4, E5. destruct Hinv as [R1 R2].
  split; [done|exact (registry_close ds dh c p C R2 HC Hc)].
Qed.

(** Two assignments in a row. *)
Lemma from_modify2 {B} g1 g2 (m : ST (world H) B) :
  (forall w, rlines_of w = x0 -> rinv_of (rlines_of (g2 (g1 w)))) -> quiet rlines_of m ->
  rfrom (do! st_modify g1 in do! st_modify g2 in m).
Proof. intros Hg Hm. exact (from_modify rlines_of rinv_of x0 (fun w => g2 (g1 w)) m Hg Hm). Qed.

Lemma Consume_inv fresh id producerId kind params appData :
  ch !! fresh = None -> cs !! id = None -> rfrom (Consume fresh id producerId kind params appData).
Proof.
  intros Hfresh Hid. unfold Consume. apply from_get. intros w1 [= _ _ _ _ Ec].
  destruct (closed w1) eqn:Hopen; [intros w Hw; change (rinv_of (rlines_of w)); by rewrite Hw|].
  do 4 (apply from_bind; [done|quiets|]; intros _). destruct params as [params|].
  2: { apply from_quiet; [done|quiets]. }
  apply from_bind; [done|quiets|]. intros _. apply from_bind; [done|quiets|]. intros [can params'].
  apply from_bind; [done|quiets|]. intros _. apply from_bind; [done|quiets|]. intros r.
  apply from_modify2; [|quiets]. intros w [= E1 E2 E3 E4 E5]. unfold rlines_of. simpl.
  rewrite E1, E2, E3, E4, E5. destruct Hinv as [R1 R2]. split; [|done]. subst c.
  exact (registry_add cs ch fresh (MkConsumer id (Handler.rr_localId r) producerId
    (Some (Handler.rr_rtpReceiver r)) (Handler.rr_track r) params' false appData) R1 Hfresh Hid eq_refl).
Qed.

Lemma ConsumeData_inv fresh id producerId streamId label protocol appData :
  dh !! fresh = None -> ds !! id = None ->
  rfrom (ConsumeData fresh id producerId streamId label protocol appData).
Proof.
  intros Hfresh Hid. unfold ConsumeData. cbv zeta. apply from_get. intros w1 [= _ _ _ _ Ec].
  destruct (closed w1) eqn:Hopen; [intros w Hw; change (rinv_of (rlines_of w)); by rewrite Hw|].
  do 4 (apply from_bind; [done|quiets|]; intros _). apply from_bind; [done|quiets|]. intros r.
  intros w [= E1 E2 E3 E4 E5]. unfold st_bind, st_modify, st_ret, rlines_of. simpl.
  rewrite E1, E2, E3, E4, E5. destruct Hinv as [R1 R2]. split; [done|]. subst c.
  exact (registry_add ds dh fresh (MkDataConsumer id producerId (ch_dataChannel r)
    (ch_sctpStreamParameters r) false appData) R2 Hfresh Hid eq_refl).
Qed.
End Preservation.

(** ** Closing the transport *)

Section Runs.
Context {H : Type} `{RecvHandlerLaws H}.
Implicit Types (w : world H).

Definition is_open_consumer w (p : Z) : Prop := open_at (consumer_heap w) p.
Definition is_open_data_consumer w (p : Z) : Prop := open_at (data_heap w) p.

Definition data_consumer_events w (p : Z) : list event :=
  match data_heap w !! p with
  | Some C => [DataChannelClose (dc_dataChannel C); OnDataTransportClose p]
  | None => []
  end.

Lemma close_consumers qs w :
  NoDup qs -> (forall p, p ∈ qs -> is_open_consumer w p) ->
  exists w', each Consumer_TransportClosed qs w = (w', Ok tt) /\
    close_at qs (consumer_heap w) (consumer_heap w') /\
    events w' = events w ++ (OnTransportClose <$> qs) /\
    (data_heap w', consumers w', dataConsumers w', closed w') =
    (data_heap w, consumers w, dataConsumers w, closed w).
Proof.
  intros Hnd Hopen.
  destruct (close_each (consumer_heap (H := H)) events
    (fun w => (data_heap w, consumers w, dataConsumers w, closed w))
    (fun p _ => [OnTransportClose p]) Consumer_TransportClosed) with (ps := qs) (s := w)
    as (w' & E & Hh & Hev & Hfr); try done.
  { intros s p C HC Hc. simpl in Hc. unfold Consumer_TransportClosed, consumer_at, st_bind, st_get, deref.
    rewrite HC. cbn. rewrite Hc. eexists. by split. }
  exists w'. do 2 (split; [done|]). split; [|done]. rewrite Hev. f_equal.
  by apply (notified_fmap _ OnTransportClose).
Qed.

Lemma close_data_consumers qs w :
  NoDup qs -> (forall p, p ∈ qs -> is_open_data_consumer w p) ->
  exists w', each DataConsumer_TransportClosed qs w = (w', Ok tt) /\
    close_at qs (data_heap w) (data_heap w') /\
    events w' = events w ++ concat (data_consumer_events w <$> qs) /\
    (consumer_heap w', consumers w', dataConsumers w', closed w') =
    (consumer_heap w, consumers w, dataConsumers w, closed w).
Proof.
  intros Hnd Hopen.
  apply (close_each (data_heap (H := H)) events
    (fun w => (consumer_heap w, consumers w, dataConsumers w, closed w))
    (fun p C => [DataChannelClose (dc_dataChannel C); OnDataTransportClose p])
    DataConsumer_TransportClosed); try done.
  intros s p C HC Hc. simpl in Hc. unfold DataConsumer_TransportClosed, data_at, st_bind, st_get, deref.
  rewrite HC. cbn. rewrite Hc. eexists. split; [reflexivity|]. simpl. by rewrite <- app_assoc.
Qed.

Lemma rclosed_all w :
  rinv w -> closed w = true ->
  (forall p C, consumer_heap w !! p = Some C -> c_closed C = true) /\
  (forall p C, data_heap w !! p = Some C -> dc_closed C = true).
Proof.
  intros [R1 R2] Hc. rewrite Hc in R1, R2. split; intros p C HC; by eapply registry_closed in HC.
Qed.

Lemma RClose_spec w :
  rinv w -> closed w = false ->
  exists w', RecvTransport_Close w = (w', Ok tt) /\ rinv w' /\ closed w' = true /\
    events w' = events w ++ (OnTransportClose <$> pointers (consumers w)) ++
                concat (data_consumer_events w <$> pointers (dataConsumers w)).
Proof.
  intros [R1 R2] Hc. rewrite Hc in R1, R2.
  destruct (rh_Close (handler w)) as [h' r'] eqn:Eh.
  assert (r' = Ok tt) as -> by (pose proof (rh_Close_returns (handler w)) as Hh; by rewrite Eh in Hh).
  set (w1 := set_handler h' (set_closed w)).
  assert (Transport_Close w = (w1, Ok tt)) as E1.
  { unfold Transport_Close, st_bind, st_get, st_modify, on_handler. rewrite Hc. simpl. by rewrite Eh. }
  destruct (close_consumers (pointers (consumers w)) w1) as (w2 & E2 & Hat2 & Ev2 & [= Hd2 Hp2 Hdp2 Hc2]).
  { exact (registry_NoDup _ _ _ R1). }
  { intros p Hp. by apply (registry_open _ _ p R1). }
  destruct (close_data_consumers (pointers (dataConsumers w)) w2)
    as (w3 & E3 & Hat3 & Ev3 & [= Hh3 Hp3 Hdp3 Hc3]).
  { exact (registry_NoDup _ _ _ R2). }
  { intros p Hp. unfold is_open_data_consumer. rewrite Hd2. by apply (registry_open _ _ p R2). }
  exists w3. split; [|split; [|split]].
  - unfold RecvTransport_Close. rewrite (st_bind_ok st_get _ w w w eq_refl), Hc.
    rewrite (st_bind_ok _ _ _ _ _ E1), (st_bind_ok st_get _ w1 w1 w1 eq_refl).
    rewrite (st_bind_ok _ _ _ _ _ E2), (st_bind_ok st_get _ w2 w2 w2 eq_refl). rewrite Hdp2. exact E3.
  - unfold rinv, rlines_of. rewrite Hp3, Hh3, Hdp3, Hc3, Hp2, Hdp2, Hc2. simpl. rewrite Hd2 in Hat3.
    split; by eapply registry_close_all.
  - by rewrite Hc3, Hc2.
  - rewrite Ev3, Ev2. simpl. rewrite <- app_assoc. do 2 f_equal. f_equal. apply list_fmap_ext.
    intros i p _. unfold data_consumer_events. by rewrite Hd2.
Qed.

Lemma rstep_inv w o : rinv w -> rop_ok w o -> rinv (rstep o w).1.
Proof.
  intros Hi Hok.
  assert (forall A (m : ST (world H) A), from rlines_of rinv_of (rlines_of w) m ->
    from rlines_of rinv_of (rlines_of w) (ignore m)) as Hign.
  { intros A m Hm w1 Hw1. unfold ignore, st_bind, st_ret. specialize (Hm w1 Hw1).
    by destruct (m w1) as [w2 [a|e|u|d]]. }
  assert (forall m : ST (world H) unit, quiet rlines_of m -> rinv (m w).1) as Hquiet.
  { intros m Hm. by apply (from_quiet rlines_of rinv_of (rlines_of w) m Hi Hm). }
  destruct o; cbn [rstep].
  - destruct Hok as [Hf Hid]. by apply (Hign _ _ (Consume_inv _ _ _ _ _ Hi _ _ _ _ _ _ Hf Hid)).
  - destruct Hok as [Hf Hid]. by apply (Hign _ _ (ConsumeData_inv _ _ _ _ _ Hi _ _ _ _ _ _ _ Hf Hid)).
  - destruct (closed w) eqn:Hc.
    + unfold RecvTransport_Close, st_bind, st_get. by rewrite Hc.
    + by destruct (RClose_spec w Hi Hc) as (w' & -> & Hi' & _).
  - apply Hquiet. unfold ignore, Transport_GetStats. quiets.
  - apply Hquiet. unfold Transport_RestartIce. quiets.
  - apply Hquiet. unfold Transport_UpdateIceServers. quiets.
  - apply Hquiet. unfold Transport_OnConnectionStateChange. quiets.
  - by apply (Consumer_Close_inv _ _ _ _ _ Hi).
  - apply Hquiet. unfold ignore, Consumer_GetStats, OnGetStats. quiets.
  - apply Hquiet. unfold Consumer_Pause. quiets.
  - apply Hquiet. unfold Consumer_Resume. quiets.
  - apply Hquiet. unfold Consumer_SetFrameDecryptor. quiets.
  - by apply (DataConsumer_Close_inv _ _ _ _ _ Hi).
  - apply Hquiet. unfold DataConsumer_OnStateChange. quiets.
  - apply Hquiet. unfold DataConsumer_OnMessage. quiets.
Qed.

Lemma rrun_inv w ops : rinv w -> rrun_ok w ops -> rinv (rrun w ops).
Proof.
  revert w. induction ops as [|o ops IH]; intros w Hi Hok; simpl in *; [done|].
  destruct Hok as [Ho Hok]. apply IH; [by apply rstep_inv|done].
Qed.

Lemma make_rinv h ts sctp extended : rinv (make (H := H) h ts sctp extended).
Proof. split; apply registry_empty. Qed.

(** On a closed transport nothing gets to the handler. *)
Lemma rclosed_inert w o : rinv w -> closed w = true -> handler (rstep o w).1 = handler w.
Proof.
  intros Hi Hc. destruct (rclosed_all w Hi Hc) as [Hp Hd].
  assert (forall A (f : Consumer -> ST (world H) A) p,
    (forall C, c_closed C = true -> handler (f C w).1 = handler w) ->
    handler ((let! C := consumer_at p in f C) w).1 = handler w) as Hcons.
  { intros A f p Hf. unfold consumer_at, st_bind, st_get.
    destruct (consumer_heap w !! p) as [C|] eqn:EC; simpl; [|done]. apply Hf. by eapply Hp. }
  assert (forall A (f : DataConsumer -> ST (world H) A) p,
    (forall C, dc_closed C = true -> handler (f C w).1 = handler w) ->
    handler ((let! C := data_at p in f C) w).1 = handler w) as Hdata.
  { intros A f p Hf. unfold data_at, st_bind, st_get.
    destruct (data_heap w !! p) as [C|] eqn:EC; simpl; [|done]. apply Hf. by eapply Hd. }
  assert (forall A (m : ST (world H) A), handler (m w).1 = handler w -> handler (ignore m w).1 = handler w) as Hign.
  { intros A m Hm. unfold ignore, st_bind, st_ret. by destruct (m w) as [w2 [a|e|u|d]]. }
  assert (forall A e (f : world H -> unit -> ST (world H) A),
    handler ((let! w := st_get in let! u := st_throw_if (closed w) e in f w u) w).1 = handler w) as Hguard.
  { intros A e f. unfold st_bind, st_get. by rewrite Hc. }
  destruct o; cbn [rstep]; try done.
  - apply Hign, Hguard.
  - apply Hign, Hguard.
  - unfold RecvTransport_Close, st_bind, st_get. by rewrite Hc.
  - apply Hign. apply (Hguard _ _ (fun _ _ => on_handler rh_GetTransportStats)).
  - apply (Hguard _ _ (fun _ _ => on_handler (rh_RestartIce iceParameters))).
  - apply (Hguard _ _ (fun _ _ => on_handler (rh_UpdateIceServers iceServers))).
  - apply Hcons. intros C HC. by rewrite HC.
  - apply Hign, Hcons. intros C HC. by rewrite HC.
  - apply Hcons. intros C HC. by rewrite HC.
  - apply Hcons. intros C HC. by rewrite HC.
  - apply Hcons. intros C HC. by rewrite HC.
  - apply Hdata. intros C HC. by rewrite HC.
  - by apply Hdata.
  - by apply Hdata.
Qed.
End Runs.

(** ** Invariants of the handler *)

(** A property of the handler that its own methods keep. *)
Class RecvHandlerKeeps {H : Type} `{RecvHandlerInterface H} (J : H -> Prop) : Prop := {
  Receive_keeps : forall id kind params, keeps J (rh_Receive id kind params);
  StopReceiving_keeps : forall localId, keeps J (rh_StopReceiving localId);
  GetReceiverStats_keeps : forall localId, keeps J (rh_GetReceiverStats localId);
  ReceiveDataChannel_keeps : forall label init, keeps J (rh_ReceiveDataChannel label init);
  RClose_keeps : keeps J rh_Close;
  RGetTransportStats_keeps : keeps J rh_GetTransportStats;
  RRestartIce_keeps : forall ice, keeps J (rh_RestartIce ice);
  RUpdateIceServers_keeps : forall servers, keeps J (rh_UpdateIceServers servers)
}.

Section HandlerKeeps.
Context {H : Type} `{RecvHandlerInterface H} (J : H -> Prop) `{!RecvHandlerKeeps J}.

Definition rholds (w : world H) : Prop := J (handler w).

Lemma ron_handler_keeps {A} (m : ST H A) : keeps J m -> keeps rholds (on_handler m).
Proof. intros Hm w Hw. unfold on_handler. specialize (Hm _ Hw). by destruct (m (handler w)). Qed.

Lemma rmodify_keeps f : (forall w, handler (f w) = handler w) -> keeps rholds (st_modify f).
Proof. intros Hf. apply keeps_modify. unfold rholds. intros w. by rewrite Hf. Qed.

#[local] Hint Extern 1 (keeps rholds (st_modify _)) => (apply rmodify_keeps; reflexivity) : keeps_db.
#[local] Hint Resolve ron_handler_keeps Receive_keeps StopReceiving_keeps GetReceiverStats_keeps
  ReceiveDataChannel_keeps RClose_keeps RGetTransportStats_keeps RRestartIce_keeps
  RUpdateIceServers_keeps : keeps_db.

Lemma recv_step_keeps o : keeps rholds (rstep o).
Proof.
  destruct o; simpl; unfold ignore, Consume, ConsumeData, create_probator, RecvTransport_Close, Transport_Close,
    Transport_GetStats, Transport_RestartIce, Transport_UpdateIceServers, Transport_OnConnectionStateChange,
    Consumer_Close, Consumer_GetStats, Consumer_Pause, Consumer_Resume, Consumer_SetFrameDecryptor,
    DataConsumer_Close, DataConsumer_OnStateChange, DataConsumer_OnMessage, OnClose, OnCloseData, OnGetStats,
    set_enabled, consumer_at, data_at, track_at, deref; keep.
  all: apply each_keeps; intros p; unfold Consumer_TransportClosed, DataConsumer_TransportClosed,
    consumer_at, data_at, deref; keep.
Qed.

Lemma recv_run_keeps w ops : rholds w -> rholds (rrun w ops).
Proof.
  revert w. induction ops as [|o ops IH]; intros w Hw; simpl; [done|]. by apply IH, recv_step_keeps.
Qed.
End HandlerKeeps.

Lemma recv_handler_keeps {P : Type} `{PeerConnectionInterface P} `{FloatText} onConnect
    (I : Handler.t P -> Prop) :
  (forall o, keeps I (HandlerFacts.step onConnect o)) ->
  RecvHandlerKeeps (H := Handler.t P) (H0 := recv_handler onConnect) I.
Proof.
  intros Hs. split; intros; cbn.
  - apply keeps_ignore, (Hs (HReceive id kind params)).
  - apply (Hs (HStopReceiving localId)).
  - apply keeps_ignore, (Hs (HGetReceiverStats localId)).
  - apply keeps_ignore, (Hs (HReceiveDataChannel label init)).
  - apply (Hs HClose).
  - apply keeps_ignore, (Hs HGetTransportStats).
  - apply (Hs (HRecvRestartIce ice)).
  - apply (Hs (HUpdateIceServers servers)).
Qed.

(** ** Probation *)

(** The parameters of the probation consumer exist for all parameters that can
    be received. *)
Lemma probator_returns params extended params' :
  canReceive params extended = Ok (true, params') ->
  exists probator, generateProbatorRtpParameters params' = Ok probator /\
    jfind probator "mid" = Some (JString "probator").
Proof.
  intros E. unfold canReceive in E. apply bind_Ok_inv in E as (p & Ev & E).
  pose proof (post_Ok_elim _ _ _ _ (parameters_post params) Ev) as Hw. simpl in Hw.
  assert (p = params') as ->.
  { apply bind_Ok_inv in E as (codecs & _ & E). destruct (jempty codecs); [congruence|].
    apply bind_Ok_inv in E as ([? first] & _ & E). apply bind_Ok_inv in E as (exts & _ & E).
    apply bind_Ok_inv in E as (r & _ & E). congruence. }
  clear E Ev. unfold generateProbatorRtpParameters. rewrite (parameters_id _ Hw). cbn [bind].
  unfold wf_parameters, wf_array in Hw. destruct params' as [| | | | | | |o]; try done. bool_hyps.
  cbn [jfind] in *. unfold jget, jref.
  destruct (obj_get "codecs" o) as [[| | | | | |codecs|]|]; try done. cbn [bind jidx_ref].
  destruct (obj_get "headerExtensions" o) as [[| | | | | |exts|]|]; try done. cbn [bind elements] in *.
  assert (exists c, (match codecs !! O with
    | Some v => Ok (JArray codecs, v)
    | None => Ok (JArray (codecs ++ replicate (0 - length codecs + 1)%nat JNull), JNull) end) = Ok c) as [[c1 c2] ->].
  { destruct (codecs !! O); eauto. }
  cbn [bind].
  destruct (post_total (for_fold (fun (l : list json) ext =>
      let* uri := (let* (_, v) := jref ext "uri" in Ok v) in
      Ok (if json_eqb uri (JString ABS_SEND_TIME_URI) || json_eqb uri (JString TRANSPORT_CC_URI)
          then l ++ [ext] else l)) [] exts) (fun _ => True)) as (l & El & _).
  { apply (for_fold_post _ _ (fun ext => wf_extension_parameters ext = true)); [|
      |done].
    - apply Forall_forall. intros x Hx. eapply forallb_forall; [|by apply list_elem_of_In]. done.
    - intros s x _ Hx. unfold wf_extension_parameters in Hx. destruct x as [| | | | | | |ox]; try done. bool_hyps.
      cbn [jfind] in *. unfold jref. by destruct (obj_get "uri" ox). }
  unfold jref in El. cbn [jiter]. rewrite El. cbn [bind]. eexists. split; [reflexivity|]. done.
Qed.

(** ** Theorems *)


(** The first video consumer and the probation consumer that goes with it.
    Once the handler receives the producer's stream, the consumer is created and
    registered, open, with the validated parameters; the parameters of the
    probation consumer can then always be generated, and the handler is asked
    for it with mid "probator".  If that fails with an error of the library the
    consumer is returned all the same and the next video consumer tries again;
    any other exception leaves [Consume] although the consumer stays registered. *)
Theorem consume_with_probation {H} `{RecvHandlerInterface H} (w : world H) fresh id producerId params params'
    appData h1 r :
  closed w = false -> id <> "" -> producerId <> "" -> is_object appData = true ->
  canReceive params (extendedRtpCapabilities w) = Ok (true, params') ->
  probatorConsumerCreated w = false ->
  rh_Receive id "video" params' (handler w) = (h1, Ok r) ->
  exists w1 probator C,
    consumers w1 = <[id := fresh]> (consumers w) /\ consumer_heap w1 !! fresh = Some C /\
    c_closed C = false /\ c_rtpParameters C = params' /\ c_localId C = Handler.rr_localId r /\
    handler w1 = h1 /\ probatorConsumerCreated w1 = false /\
    jfind probator "mid" = Some (JString "probator") /\
    Consume fresh id producerId "video" (Some params) appData w =
      match rh_Receive "probator" "video" probator h1 with
      | (h2, Ok _) => (set_probator (set_handler h2 w1), Ok fresh)
      | (h2, Throw e) => (set_handler h2 w1, if is_msc_error e then Ok fresh else Throw e)
      | (h2, Undef u) => (set_handler h2 w1, Undef u)
      | (h2, Fatal d) => (set_handler h2 w1, Fatal d)
      end.
Proof.
  intros Hc Hid Hpid Ha Hcan Hp Hr.
  destruct (probator_returns _ _ _ Hcan) as (probator & Epr & Hmid).
  set (C := MkConsumer id (Handler.rr_localId r) producerId (Some (Handler.rr_rtpReceiver r))
              (Handler.rr_track r) params' false appData).
  exists (set_maps (<[id := fresh]> (consumers w)) (dataConsumers w) (set_consumer fresh C (set_handler h1 w))),
    probator, C.
  do 8 (split; [by (try apply lookup_insert_eq)|]).
  unfold Consume. rewrite (st_bind_ok st_get _ w w w eq_refl), Hc, Ha, Hcan, Hp.
  assert (forall s, s <> "" -> str_empty s = false) as Hne by (by intros []).
  rewrite (Hne id Hid), (Hne producerId Hpid). cbn [negb andb String.eqb].
  do 7 (erewrite st_bind_ok; [|reflexivity]; cbv beta iota).
  assert (on_handler (rh_Receive id "video" params') w = (set_handler h1 w, Ok r)) as Er
    by (unfold on_handler; by rewrite Hr).
  rewrite (st_bind_ok _ _ _ _ _ Er).
  do 2 (erewrite st_bind_ok; [|reflexivity]; cbv beta iota).
  unfold create_probator, st_try, st_bind, st_lift, st_modify, st_ret, st_throw, on_handler. rewrite Epr. simpl.
  destruct (rh_Receive "probator" "video" probator h1) as [h2 [a|e|u|d]]; simpl; try done.
  by destruct (is_msc_error e).
Qed.

(** C32. The transports on top of their handlers: no sequence of calls on a send
    transport and its producers, or on a receive transport and its consumers,
    connects the transport twice, whatever the peer connection and the
    application do. *)
Theorem transports_connect_once {P : Type} `{PeerConnectionInterface P} `{FloatText} onConnect
    (p : P) ice candidates dtls sctp sending remote h0 :
  Handler.make p ice candidates dtls sctp sending remote = Ok h0 ->
  (forall tracks hasSctp size can ops,
     connected_once onConnect dtls
       (SendTransport.handler (@SendTransportFacts.run (Handler.t P) (Handler.send_handler onConnect)
          (fresh_transport h0 tracks hasSctp size can) ops))) /\
  (forall tracks extended ops,
     connected_once onConnect dtls
       (handler (@rrun (Handler.t P) (recv_handler onConnect) (make h0 tracks sctp extended) ops))).
Proof.
  intros E. destruct (make_inv onConnect _ _ _ _ _ _ _ _ E) as (forced & Ef & Hi).
  destruct (forced_role_spec dtls forced Ef) as [Hf _].
  pose proof (fun o => handler_step_inv onConnect forced o Hf) as Hs.
  split; intros; (eapply inv_connected_once; [exact Ef|]).
  - by apply (@transport_run_keeps _ _ (handler_inv onConnect forced) (send_handler_keeps _ _ Hs)).
  - by apply (@recv_run_keeps _ _ (handler_inv onConnect forced) (recv_handler_keeps _ _ Hs)).
Qed.

(** ** A handler that records what it is asked *)

Module RecvRecorder.
Inductive call : Type := Received (id kind : string) | Stopped (localId : string) | Data (label : string) | Other.

Definition log (c : call) : ST (list call) unit := fun l => (l ++ [c], Ok tt).

(** The probation consumer is refused. *)
#[global] Instance recorder : RecvHandlerInterface (list call) := {
  rh_Receive id kind _ := do! log (Received id kind) in
    if String.eqb id "probator" then st_throw (MscError "refused")
    else st_ret (Handler.ReceivedAs ("mid" +:+ id) 50 2);
  rh_StopReceiving localId := log (Stopped localId);
  rh_GetReceiverStats _ := st_ret (JArray []);
  rh_ReceiveDataChannel label _ := do! log (Data label) in st_ret (Channel 200 (JObj []));
  rh_Close := log Other;
  rh_GetTransportStats := st_ret (JArray []);
  rh_RestartIce _ := log Other;
  rh_UpdateIceServers _ := log Other
}.

#[global] Instance recorder_laws : RecvHandlerLaws (list call).
Proof. by split. Qed.

Definition extended : json := JObj [("codecs", JArray [JObj [("remotePayloadType", JUint 101)]])].
Definition start : world (list call) := make [] Recorder.tracks Session.sctp extended.
Definition ops : list rop :=
  [RConsume 10 "c" "p" "video" (Some Session.params) (JObj []);
   RConsume 11 "c2" "p2" "video" (Some Session.params) (JObj []);
   RConsume 12 "" "p2" "video" (Some Session.params) (JObj []); RPause 10; RConsumerClose 10;
   RConsumeData 20 "d" "dp" 3 "l" "" (JObj []); RStateChange 20 kOpen].
End RecvRecorder.


Lemma consume_with_probation_witness :
  exists w', Consume 10 "c" "p" "video" (Some Session.params) (JObj []) RecvRecorder.start = (w', Ok 10) /\
    handler w' = [RecvRecorder.Received "c" "video"; RecvRecorder.Received "probator" "video"].
Proof.
  destruct (canReceive Session.params RecvRecorder.extended) as [[b params']| | |] eqn:E; [|discriminate E..].
  assert (b = true) as ->.
  { change b with (match Ok (b, params') with Ok (b, _) => b | _ => false end). rewrite <- E. vm_compute. reflexivity. }
  destruct (consume_with_probation RecvRecorder.start 10 "c" "p" Session.params params' (JObj [])
    [RecvRecorder.Received "c" "video"] (Handler.ReceivedAs "midc" 50 2)
    eq_refl ltac:(discriminate) ltac:(discriminate) eq_refl E eq_refl eq_refl)
    as (w1 & probator & C & _ & _ & _ & _ & _ & _ & _ & _ & Ec).
  rewrite Ec. cbn. eexists. split; reflexivity.
Defined.

Lemma transports_connect_once_witness :
  let w := @SendTransportFacts.run (Handler.t FakePc.state) (Handler.send_handler FakePc.onConnect)
    (fresh_transport FakePc.start Recorder.tracks true 262144 Recorder.can)
    [Recorder.produce 10 2 "v"; Recorder.produce 11 2 "v2"; OpPause 11; OpClose] in
  connected_once FakePc.onConnect Session.dtls (SendTransport.handler w) /\
  Handler.transportReady (SendTransport.handler w) = true /\
  map_to_list (producers w) = [("v2", 11)].
Proof.
  cbv zeta. split; [|split; vm_compute; reflexivity].
  destruct (transports_connect_once FakePc.onConnect (FakePc.State "" []) Session.ice Session.candidates
    Session.dtls Session.sctp FakePc.byKind FakePc.byKind FakePc.start ltac:(vm_compute; reflexivity))
    as [Hsend _].
  exact (Hsend Recorder.tracks true 262144 Recorder.can
    [Recorder.produce 10 2 "v"; Recorder.produce 11 2 "v2"; OpPause 11; OpClose]).
Defined.
