(* ===== verification/ClientJni.v ===== *)
(** The JNI entry points of the mediasoup client: device_jni.cpp,
    transport_jni.cpp, producer_jni.cpp, consumer_jni.cpp, data_producer_jni.cpp
    and data_consumer_jni.cpp of src/main/jni.

    A Java object keeps the address of a native object.  The state is the native
    heap: devices, transports with the producers or consumers they created, the
    listeners that forward to Java, and the [Owned...] pairs Java points to.  The
    library keeps raw pointers between them (a producer to its transport, a
    transport into its device); an access through a pointer whose object was
    deleted, or never existed, is [None].  Otherwise a native method returns to
    Java with a value or a pending exception, or a C++ exception leaves it, which
    ends the process.

    A deleted transport keeps its entry with [ow_live] off, because its producers
    outlive it; their addresses are those of the transport's model.  A Java string is its UTF-8 bytes or null.  The answers of
    Java's listeners, of WebRTC's data channels and of the tracks are arguments,
    and so are the constructors of the handlers, which a later section gives. *)

From stdpp Require Import gmap.
From S2P Require Import Prelude Json Streams JsonText H264 OrtcValidate Ortc Registry.
From S2P Require Import Device SendTransport Handler RecvTransport.

(** ** Values that cross the border *)

Definition jstring : Type := option string.

(** [getBytes] of a null string raises, which fails the check after the call. *)
Definition JavaToNativeString (j : jstring) : res string :=
  match j with Some s => Ok s | None => Fatal "getStringBytes" end.

(** [NewStringUTF(str.c_str())] *)
Definition NativeToJavaString (s : string) : string := c_str s.

(** [json v = d; if (!j.is_null()) v = json::parse(...)] *)
Definition json_or (d : json) (j : jstring) : res json :=
  match j with Some s => json_parse s | None => Ok d end.

(** [std::string v; if (!j.is_null()) v = ...] *)
Definition string_or_empty (j : jstring) : string := default EmptyString j.

(** A [jlong] used as a pointer. *)
Definition nullable (p : Z) : option Z := if p =? 0 then None else Some p.

(** What Java sees when a native method returns: a value, or a pending
    [MediasoupException] with the message of the C++ exception. *)
Inductive jresult (A : Type) : Type :=
| Returned (a : A)
| Raised (e : exn).
Arguments Returned {A} _.
Arguments Raised {A} _.

(** ** The listeners that forward to Java

    A Java method that throws, or answers null where a string is read, fails the
    check after the call. *)

Inductive janswer (A : Type) : Type :=
| Answer (a : A)
| JavaThrew.
Arguments Answer {A} _.
Arguments JavaThrew {A}.

Definition checked {A : Type} (a : janswer A) : res A :=
  match a with Answer a => Ok a | JavaThrew => Fatal "CheckException" end.

(** What a [Transport.Listener] of Java does on its [n]-th [onConnect]. *)
Definition jlistener : Type := nat -> string -> janswer unit.

Section Listeners.
Context `{FloatText}.

(** [OnConnect] of [SendTransportListenerJni] and of [RecvTransportListenerJni]:
    the future is ready when Java returns. *)
Definition ListenerJni_OnConnect (j_listener : jlistener) (n : nat) (dtlsParameters : json) : res unit :=
  let* text := dump dtlsParameters in
  checked (j_listener n (NativeToJavaString text)).

Definition SendTransportListenerJni_OnProduce (j_onProduce : string -> string -> string -> janswer jstring)
    (kind : string) (rtpParameters appData : json) : res string :=
  let* params := dump rtpParameters in
  let* data := dump appData in
  let* result := checked (j_onProduce (NativeToJavaString kind) (NativeToJavaString params)
                            (NativeToJavaString data)) in
  JavaToNativeString result.

Definition SendTransportListenerJni_OnProduceData
    (j_onProduceData : string -> string -> string -> string -> janswer jstring)
    (sctpStreamParameters : json) (label protocol : string) (appData : json) : res string :=
  let* params := dump sctpStreamParameters in
  let* data := dump appData in
  let* result := checked (j_onProduceData (NativeToJavaString params) (NativeToJavaString label)
                            (NativeToJavaString protocol) (NativeToJavaString data)) in
  JavaToNativeString result.
End Listeners.

(** ** The native heap *)

(** A transport: the members of [Transport] the transport's own model leaves out,
    the device its capabilities point into, its listener, and whether it still
    exists. *)
Record owner (W : Type) : Type := Owner {
  ow_id : string;
  ow_appData : json;
  ow_device : Z;
  ow_listener : Z;
  ow_live : bool;
  ow_world : W
}.
Arguments Owner {W}.
Arguments ow_id {W}.
Arguments ow_appData {W}.
Arguments ow_device {W}.
Arguments ow_listener {W}.
Arguments ow_live {W}.
Arguments ow_world {W}.

Definition with_world {W : Type} (w : W) (o : owner W) : owner W :=
  Owner (ow_id o) (ow_appData o) (ow_device o) (ow_listener o) (ow_live o) w.
Definition deleted {W : Type} (o : owner W) : owner W :=
  Owner (ow_id o) (ow_appData o) (ow_device o) (ow_listener o) false (ow_world o).

(** The [Owned...] objects: [transport_] and [listener_], or the transport of a
    producer or consumer, the object itself and [listener_]. *)
Inductive owned : Type :=
| OwnedSendTransport (transport_ listener_ : Z)
| OwnedRecvTransport (transport_ listener_ : Z)
| OwnedProducer (transport producer_ listener_ : Z)
| OwnedDataProducer (transport data_producer_ listener_ : Z)
| OwnedConsumer (transport consumer_ listener_ : Z)
| OwnedDataConsumer (transport consumer_ listener_ : Z).

Record heap (H R : Type) : Type := Heap {
  next : Z;
  devices : gmap Z Device.t;
  listeners : gset Z;
  sends : gmap Z (owner (SendTransport.world H));
  recvs : gmap Z (owner (RecvTransport.world R));
  handles : gmap Z owned
}.
Arguments Heap {H R}.
Arguments next {H R}.
Arguments devices {H R}.
Arguments listeners {H R}.
Arguments sends {H R}.
Arguments recvs {H R}.
Arguments handles {H R}.

Definition empty_heap {H R : Type} : heap H R := Heap 1 empty empty empty empty empty.

Section Updates.
Context {H R : Type}.
Implicit Types h : heap H R.

Definition set_next (z : Z) h : heap H R := Heap z (devices h) (listeners h) (sends h) (recvs h) (handles h).
Definition set_devices (m : gmap Z Device.t) h : heap H R :=
  Heap (next h) m (listeners h) (sends h) (recvs h) (handles h).
Definition set_listeners (m : gset Z) h : heap H R :=
  Heap (next h) (devices h) m (sends h) (recvs h) (handles h).
Definition set_sends (m : gmap Z (owner (SendTransport.world H))) h : heap H R :=
  Heap (next h) (devices h) (listeners h) m (recvs h) (handles h).
Definition set_recvs (m : gmap Z (owner (RecvTransport.world R))) h : heap H R :=
  Heap (next h) (devices h) (listeners h) (sends h) m (handles h).
Definition set_handles (m : gmap Z owned) h : heap H R :=
  Heap (next h) (devices h) (listeners h) (sends h) (recvs h) m.
End Updates.

(** ** Native methods *)

(** [None]: a pointer to no live object was followed. *)
Definition JNI (S A : Type) : Type := S -> option (S * res A).

Section Monad.
Context {S : Type}.

Definition jbind {A B : Type} (m : JNI S A) (f : A -> JNI S B) : JNI S B := fun s =>
  match m s with
  | Some (s', Ok a) => f a s'
  | Some (s', Throw e) => Some (s', Throw e)
  | Some (s', Undef u) => Some (s', Undef u)
  | Some (s', Fatal d) => Some (s', Fatal d)
  | None => None
  end.
Definition jret {A : Type} (a : A) : JNI S A := fun s => Some (s, Ok a).
Definition jlift {A : Type} (r : res A) : JNI S A := fun s => Some (s, r).
Definition jget : JNI S S := fun s => Some (s, Ok s).
Definition jmodify (f : S -> S) : JNI S unit := fun s => Some (f s, Ok tt).
(** Follow a pointer. *)
Definition follow {A : Type} (o : option A) : JNI S A := fun s =>
  match o with Some a => Some (s, Ok a) | None => None end.

(** [try { ... } catch (const std::exception& e) { THROW_MEDIASOUP_CLIENT_EXCEPTION }] *)
Definition caught {A : Type} (m : JNI S A) : JNI S (jresult A) := fun s =>
  match m s with
  | Some (s', Ok a) => Some (s', Ok (Returned a))
  | Some (s', Throw e) => Some (s', Ok (Raised e))
  | Some (s', Undef u) => Some (s', Undef u)
  | Some (s', Fatal d) => Some (s', Fatal d)
  | None => None
  end.
End Monad.

Notation "'let+' x ':=' m 'in' k" := (jbind m (fun x => k))
  (at level 10, x pattern, m at level 100, k at level 200).
Notation "'do+' m 'in' k" := (jbind m (fun _ => k))
  (at level 10, m at level 100, k at level 200).

(** WebRTC's answers about a data channel. *)
Record data_channel : Type := DataChannelView {
  v_id : Z; v_label : string; v_protocol : string; v_state : DataState; v_buffered_amount : Z
}.

(** [static_cast<jint>] of the state. *)
Definition DataState_int (s : DataState) : Z :=
  match s with kConnecting => 0 | kOpen => 1 | kClosing => 2 | kClosed => 3 end.

(** [PeerConnection::iceConnectionState2String[connectionState]] *)
Definition iceConnectionState2String (s : Z) : string :=
  default EmptyString
    (nth_error ["new"; "checking"; "connected"; "completed"; "failed"; "disconnected"; "closed"] (Z.to_nat s)).

(** A Java [Transport]: a [SendTransport] or a [RecvTransport] with its
    [mNativeTransport]. *)
Inductive jtransport : Type := JSend (mNativeTransport : Z) | JRecv (mNativeTransport : Z).

Section Natives.
Context {H R : Type} `{SendHandlerInterface H} `{RecvHandlerInterface R} `{FloatText}.
(** [new SendHandler(...)] and [new RecvHandler(...)]: the Java listener their
    [OnConnect] ends up at, the parameters of the transport, and for sending the
    RTP parameters by kind. *)
Context (newSendHandler : jlistener -> json -> json -> json -> json -> json -> json -> res H)
        (newRecvHandler : jlistener -> json -> json -> json -> json -> res R).
(** The tracks of the process. *)
Context (process_tracks : gmap Z Track).
(** The data channels as they are now. *)
Context (channel : Z -> data_channel).

Abbreviation native := (JNI (heap H R)).

(** *** Pointers *)

Definition alloc : native Z := fun h => Some (set_next (next h + 1) h, Ok (next h)).

Definition new_listener : native Z :=
  let+ l := alloc in
  do+ jmodify (fun h => set_listeners ({[l]} ∪ listeners h) h) in
  jret l.

Definition new_owned (o : owned) : native Z :=
  let+ j := alloc in
  do+ jmodify (fun h => set_handles (<[j := o]> (handles h)) h) in
  jret j.

Definition delete_listener (l : Z) : native unit :=
  let+ h := jget in
  if bool_decide (l ∈ listeners h) then jmodify (fun h => set_listeners (listeners h ∖ {[l]}) h)
  else follow None.

Definition device_at (j_device : Z) : native Device.t :=
  let+ h := jget in follow (devices h !! j_device).

Definition handle_at (j : Z) : native owned :=
  let+ h := jget in follow (handles h !! j).

(** [reinterpret_cast<OwnedProducer*>(j)->producer()] with the transport it
    belongs to, and the same for the other classes. *)
Definition producer_of (j : Z) : native (Z * Z) :=
  let+ o := handle_at j in
  match o with OwnedProducer t p _ => jret (t, p) | _ => follow None end.
Definition data_producer_of (j : Z) : native (Z * Z) :=
  let+ o := handle_at j in
  match o with OwnedDataProducer t p _ => jret (t, p) | _ => follow None end.
Definition consumer_of (j : Z) : native (Z * Z) :=
  let+ o := handle_at j in
  match o with OwnedConsumer t c _ => jret (t, c) | _ => follow None end.
Definition data_consumer_of (j : Z) : native (Z * Z) :=
  let+ o := handle_at j in
  match o with OwnedDataConsumer t c _ => jret (t, c) | _ => follow None end.

(** [new] of a producer or consumer: an address that is not in use. *)
Definition fresh_address {A : Type} (m : gmap Z A) : Z := fresh (map_to_list m).*1.

(** A transport object, deleted or not. *)
Definition send_at (t : Z) : native (owner (SendTransport.world H)) :=
  let+ h := jget in follow (sends h !! t).
Definition recv_at (t : Z) : native (owner (RecvTransport.world R)) :=
  let+ h := jget in follow (recvs h !! t).

(** The transport is there if the call reaches it. *)
Definition alive {W : Type} (reached : bool) (o : owner W) : native unit :=
  if reached && negb (ow_live o) then follow None else jret tt.

(** A call of the library on the objects around a transport. *)
Definition on_send {A : Type} (t : Z) (m : ST (SendTransport.world H) A) : native A := fun h =>
  match sends h !! t with
  | None => None
  | Some o => let '(w, r) := m (ow_world o) in Some (set_sends (<[t := with_world w o]> (sends h)) h, r)
  end.
Definition on_recv {A : Type} (t : Z) (m : ST (RecvTransport.world R) A) : native A := fun h =>
  match recvs h !! t with
  | None => None
  | Some o => let '(w, r) := m (ow_world o) in Some (set_recvs (<[t := with_world w o]> (recvs h)) h, r)
  end.

(** A method of a producer (data producer, consumer, data consumer) that reaches
    the transport, its private listener, when [reached] says so. *)
Definition on_producer {A : Type} (j : Z) (reached : SendTransport.world H -> Z -> bool)
    (m : Z -> ST (SendTransport.world H) A) : native A :=
  let+ (t, p) := producer_of j in
  let+ o := send_at t in
  do+ alive (reached (ow_world o) p) o in
  on_send t (m p).
Definition on_data_producer {A : Type} (j : Z) (reached : SendTransport.world H -> Z -> bool)
    (m : Z -> ST (SendTransport.world H) A) : native A :=
  let+ (t, p) := data_producer_of j in
  let+ o := send_at t in
  do+ alive (reached (ow_world o) p) o in
  on_send t (m p).
Definition on_consumer {A : Type} (j : Z) (reached : RecvTransport.world R -> Z -> bool)
    (m : Z -> ST (RecvTransport.world R) A) : native A :=
  let+ (t, c) := consumer_of j in
  let+ o := recv_at t in
  do+ alive (reached (ow_world o) c) o in
  on_recv t (m c).
Definition on_data_consumer {A : Type} (j : Z) (reached : RecvTransport.world R -> Z -> bool)
    (m : Z -> ST (RecvTransport.world R) A) : native A :=
  let+ (t, c) := data_consumer_of j in
  let+ o := recv_at t in
  do+ alive (reached (ow_world o) c) o in
  on_recv t (m c).

(** Members only. *)
Definition unreached {W : Type} (w : W) (p : Z) : bool := false.

(** The methods that call the private listener do so for an object that is not
    closed, some after further checks. *)
Definition producer_open (w : SendTransport.world H) (p : Z) : bool :=
  match producer_heap w !! p with Some P => negb (p_closed P) | None => false end.
Definition data_producer_open (w : SendTransport.world H) (p : Z) : bool :=
  match SendTransport.data_heap w !! p with Some P => negb (dp_closed P) | None => false end.
Definition consumer_open (w : RecvTransport.world R) (c : Z) : bool :=
  match RecvTransport.consumer_heap w !! c with Some C => negb (RecvTransport.c_closed C) | None => false end.
Definition data_consumer_open (w : RecvTransport.world R) (c : Z) : bool :=
  match RecvTransport.data_heap w !! c with Some C => negb (RecvTransport.dc_closed C) | None => false end.

Definition replaces_track (track : option Z) (w : SendTransport.world H) (p : Z) : bool :=
  match producer_heap w !! p, track with
  | Some P, Some track =>
      negb (p_closed P) && negb (track =? p_track P) &&
      match tracks w !! track with Some t => negb (t_ended t) | None => false end
  | _, _ => false
  end.
Definition sets_layer (layer : Z) (w : SendTransport.world H) (p : Z) : bool :=
  match producer_heap w !! p with
  | Some P =>
      negb (p_closed P) && negb (layer =? p_maxSpatialLayer P) &&
      match tracks w !! p_track P with Some t => String.eqb (t_kind t) "video" | None => false end
  | None => false
  end.

(** The RTP sender and receiver belong to the peer connection of the transport. *)
Definition sets_encryptor (w : SendTransport.world H) (p : Z) : bool :=
  match producer_heap w !! p with
  | Some P => negb (p_closed P) && bool_decide (is_Some (p_rtpSender P))
  | None => false
  end.
Definition sets_decryptor (w : RecvTransport.world R) (c : Z) : bool :=
  match RecvTransport.consumer_heap w !! c with
  | Some C => negb (RecvTransport.c_closed C) && bool_decide (is_Some (RecvTransport.c_rtpReceiver C))
  | None => false
  end.

(** [dump()] as the last step of a getter. *)
Definition dumped (j : json) : native string :=
  let+ text := jlift (dump j) in jret (NativeToJavaString text).

(** ** device_jni.cpp *)

Definition JNI_Device_NewDevice : native Z :=
  let+ d := alloc in
  do+ jmodify (fun h => set_devices (<[d := Device.make]> (devices h)) h) in
  jret d.

(** Deleting a null pointer does nothing. *)
Definition JNI_Device_FreeDevice (j_device : Z) : native unit :=
  if j_device =? 0 then jret tt
  else
    let+ _ := device_at j_device in
    jmodify (fun h => set_devices (delete j_device (devices h)) h).

Definition on_device {A : Type} (j_device : Z) (m : ST Device.t A) : native A := fun h =>
  match devices h !! j_device with
  | None => None
  | Some d => let '(d, r) := m d in Some (set_devices (<[j_device := d]> (devices h)) h, r)
  end.

(** [nativeCaps]: the outcome of [Handler::GetNativeRtpCapabilities]. *)
Definition JNI_Device_Load (j_device : Z) (j_routerRtpCapabilities : jstring) (nativeCaps : res json)
    : native (jresult unit) :=
  caught
    (let+ text := jlift (JavaToNativeString j_routerRtpCapabilities) in
     let+ capabilities := jlift (json_parse text) in
     on_device j_device (Device.Load nativeCaps capabilities)).

Definition JNI_Device_IsLoaded (j_device : Z) : native bool :=
  let+ d := device_at j_device in jret (Device.IsLoaded d).

Definition JNI_Device_GetRtpCapabilities (j_device : Z) : native (jresult string) :=
  caught (let+ d := device_at j_device in
          let+ caps := jlift (Device.GetRtpCapabilities d) in dumped caps).

Definition JNI_Device_GetSctpCapabilities (j_device : Z) : native (jresult string) :=
  caught (let+ d := device_at j_device in
          let+ caps := jlift (Device.GetSctpCapabilities d) in dumped caps).

(** [JNI_FALSE] goes with the exception. *)
Definition JNI_Device_CanProduce (j_device : Z) (j_kind : jstring) : native (jresult bool) :=
  caught (let+ kind := jlift (JavaToNativeString j_kind) in
          on_device j_device (Device.CanProduce kind)).

(** The arguments of both [Create...Transport]; those of the call are evaluated
    from left to right here. *)
Definition transport_arguments (j_device : Z)
    (j_id j_iceParameters j_iceCandidates j_dtlsParameters j_sctpParameters j_appData : jstring)
    : native (string * Device.t * Device.transport_parameters) :=
  let+ ice := jlift (JavaToNativeString j_iceParameters) in
  let+ candidates := jlift (JavaToNativeString j_iceCandidates) in
  let+ dtls := jlift (JavaToNativeString j_dtlsParameters) in
  let+ appData := jlift (json_or (JObj []) j_appData) in
  let+ sctp := jlift (json_or JNull j_sctpParameters) in
  let+ id := jlift (JavaToNativeString j_id) in
  let+ ice := jlift (json_parse ice) in
  let+ candidates := jlift (json_parse candidates) in
  let+ dtls := jlift (json_parse dtls) in
  let+ d := device_at j_device in
  let+ tp := jlift (Device.check_transport d ice candidates dtls sctp appData) in
  jret (id, d, tp).

(** [new SendTransport(...)]: the constructor computes the sending parameters its
    handler is created with. *)
Definition new_SendTransport (j_listener : jlistener) (d : Device.t) (tp : Device.transport_parameters)
    : res (SendTransport.world H) :=
  let ext := Device.extendedRtpCapabilities d in
  let can := Device.canProduceByKind d in
  let* (_, sending, remote) := SendTransport_make tt process_tracks ext (Device.tp_sctp tp) can in
  let* handler := newSendHandler j_listener (Device.tp_ice tp) (Device.tp_candidates tp) (Device.tp_dtls tp) (Device.tp_sctp tp)
                    sending remote in
  let* (w, _, _) := SendTransport_make handler process_tracks ext (Device.tp_sctp tp) can in
  Ok w.

Definition new_RecvTransport (j_listener : jlistener) (d : Device.t) (tp : Device.transport_parameters)
    : res (RecvTransport.world R) :=
  let* handler := newRecvHandler j_listener (Device.tp_ice tp) (Device.tp_candidates tp) (Device.tp_dtls tp) (Device.tp_sctp tp) in
  Ok (RecvTransport.make handler process_tracks (Device.tp_sctp tp) (Device.extendedRtpCapabilities d)).

(** [NativeToJavaSendTransport], [NativeToJavaRecvTransport] are the last line. *)
Definition JNI_Device_CreateSendTransport (j_device : Z) (j_listener : jlistener)
    (j_id j_iceParameters j_iceCandidates j_dtlsParameters j_sctpParameters j_appData : jstring)
    : native (jresult Z) :=
  caught
    (let+ listener := new_listener in
     let+ (id, d, tp) := transport_arguments j_device j_id j_iceParameters j_iceCandidates
                           j_dtlsParameters j_sctpParameters j_appData in
     let+ w := jlift (new_SendTransport j_listener d tp) in
     let+ t := alloc in
     do+ jmodify (fun h => set_sends (<[t := Owner id (Device.tp_appData tp) j_device listener true w]> (sends h)) h) in
     new_owned (OwnedSendTransport t listener)).

Definition JNI_Device_CreateRecvTransport (j_device : Z) (j_listener : jlistener)
    (j_id j_iceParameters j_iceCandidates j_dtlsParameters j_sctpParameters j_appData : jstring)
    : native (jresult Z) :=
  caught
    (let+ listener := new_listener in
     let+ (id, d, tp) := transport_arguments j_device j_id j_iceParameters j_iceCandidates
                           j_dtlsParameters j_sctpParameters j_appData in
     let+ w := jlift (new_RecvTransport j_listener d tp) in
     let+ t := alloc in
     do+ jmodify (fun h => set_recvs (<[t := Owner id (Device.tp_appData tp) j_device listener true w]> (recvs h)) h) in
     new_owned (OwnedRecvTransport t listener)).

(** ** transport_jni.cpp *)

(** [JNI_SendTransport_GetNativeTransport], [JNI_RecvTransport_GetNativeTransport]:
    nothing checks the pointer, so a disposed transport is followed at 0. *)
Definition JNI_SendTransport_GetNativeTransport (j_transport : Z) : native Z :=
  let+ o := handle_at j_transport in
  match o with OwnedSendTransport t _ => jret t | _ => follow None end.
Definition JNI_RecvTransport_GetNativeTransport (j_transport : Z) : native Z :=
  let+ o := handle_at j_transport in
  match o with OwnedRecvTransport t _ => jret t | _ => follow None end.

(** [ExtractNativeTransport]: a transport that exists. *)
Definition ExtractNativeTransport (j_transport : jtransport) : native (Z * (owner (SendTransport.world H) + owner (RecvTransport.world R))) :=
  match j_transport with
  | JSend j =>
      let+ t := JNI_SendTransport_GetNativeTransport j in
      let+ o := send_at t in
      do+ alive true o in
      jret (t, inl o)
  | JRecv j =>
      let+ t := JNI_RecvTransport_GetNativeTransport j in
      let+ o := recv_at t in
      do+ alive true o in
      jret (t, inr o)
  end.

Definition JNI_Transport_GetId (j_transport : jtransport) : native string :=
  let+ (_, o) := ExtractNativeTransport j_transport in
  jret (NativeToJavaString (match o with inl o => ow_id o | inr o => ow_id o end)).

Definition JNI_Transport_GetConnectionState (j_transport : jtransport) : native string :=
  let+ (_, o) := ExtractNativeTransport j_transport in
  jret (NativeToJavaString (iceConnectionState2String
    (match o with
     | inl o => SendTransport.connectionState (ow_world o)
     | inr o => RecvTransport.connectionState (ow_world o)
     end))).

Definition JNI_Transport_GetAppData (j_transport : jtransport) : native string :=
  let+ (_, o) := ExtractNativeTransport j_transport in
  dumped (match o with inl o => ow_appData o | inr o => ow_appData o end).

(** A virtual call on the transport. *)
Definition on_transport {A : Type} (j_transport : jtransport) (send : ST (SendTransport.world H) A)
    (recv : ST (RecvTransport.world R) A) : native A :=
  let+ (t, o) := ExtractNativeTransport j_transport in
  match o with inl _ => on_send t send | inr _ => on_recv t recv end.

Definition JNI_Transport_GetStats (j_transport : jtransport) : native (jresult string) :=
  caught
    (let+ stats := on_transport j_transport SendTransport.Transport_GetStats RecvTransport.Transport_GetStats in
     dumped stats).

Definition JNI_Transport_IsClosed (j_transport : jtransport) : native bool :=
  let+ (_, o) := ExtractNativeTransport j_transport in
  jret (match o with
        | inl o => SendTransport.closed (ow_world o)
        | inr o => RecvTransport.closed (ow_world o)
        end).

Definition JNI_Transport_RestartIce (j_transport : jtransport) (j_iceParameters : jstring)
    : native (jresult unit) :=
  caught
    (let+ ice := jlift (json_or (JObj []) j_iceParameters) in
     on_transport j_transport (SendTransport.Transport_RestartIce ice) (RecvTransport.Transport_RestartIce ice)).

Definition JNI_Transport_UpdateIceServers (j_transport : jtransport) (j_iceServers : jstring)
    : native (jresult unit) :=
  caught
    (let+ servers := jlift (json_or (JArray []) j_iceServers) in
     on_transport j_transport (SendTransport.Transport_UpdateIceServers servers)
       (RecvTransport.Transport_UpdateIceServers servers)).

Definition JNI_Transport_Close (j_transport : jtransport) : native unit :=
  on_transport j_transport SendTransport_Close RecvTransport.RecvTransport_Close.

(** [(reinterpret_cast<OwnedSendTransport*>(j_transport))->transport()], which
    exists. *)
Definition live_send (j_transport : Z) : native (Z * owner (SendTransport.world H)) :=
  let+ t := JNI_SendTransport_GetNativeTransport j_transport in
  let+ o := send_at t in
  do+ alive true o in
  jret (t, o).
Definition live_recv (j_transport : Z) : native (Z * owner (RecvTransport.world R)) :=
  let+ t := JNI_RecvTransport_GetNativeTransport j_transport in
  let+ o := recv_at t in
  do+ alive true o in
  jret (t, o).

(** [Produce] looks into the device when the transport is open and the track can
    be sent; [Consume] once its other arguments are right. *)
Definition reads_can_produce (track : option Z) (w : SendTransport.world H) : bool :=
  match track with
  | Some track =>
      negb (SendTransport.closed w) &&
      match tracks w !! track with Some t => negb (t_ended t) | None => false end
  | None => false
  end.
Definition reads_capabilities (id producerId kind : string) (appData : json) (w : RecvTransport.world R) : bool :=
  negb (RecvTransport.closed w) && negb (str_empty id) && negb (str_empty producerId) &&
  (String.eqb kind "audio" || String.eqb kind "video") && is_object appData.

Definition device_if (reads : bool) (d : Z) : native unit :=
  if reads then (let+ _ := device_at d in jret tt) else jret tt.

(** [json* v = nullptr; if (!j.is_null()) ...] *)
Definition optional_json (j : jstring) : res (option json) :=
  match j with Some s => let* v := json_parse s in Ok (Some v) | None => Ok None end.

(** [j_onProduce]: what Java's listener answers. *)
Definition JNI_SendTransport_Produce (j_transport : Z)
    (j_onProduce : string -> string -> string -> janswer jstring) (j_track : Z)
    (j_encodings : option (list RtpEncodingParameters)) (j_codecOptions j_codec j_appData : jstring)
    : native (jresult Z) :=
  caught
    (let+ listener := new_listener in
     let encodings := default [] j_encodings in
     let+ codecOptions := jlift (optional_json j_codecOptions) in
     let+ codec := jlift (optional_json j_codec) in
     let+ appData := jlift (json_or (JObj []) j_appData) in
     let+ (t, o) := live_send j_transport in
     do+ device_if (reads_can_produce (nullable j_track) (ow_world o)) (ow_device o) in
     let p := fresh_address (producer_heap (ow_world o)) in
     let+ producer := on_send t (Produce p (SendTransportListenerJni_OnProduce j_onProduce)
                                   (nullable j_track) (Some encodings) codecOptions codec appData) in
     new_owned (OwnedProducer t producer listener)).

Definition JNI_SendTransport_ProduceData (j_transport : Z)
    (j_onProduceData : string -> string -> string -> string -> janswer jstring)
    (j_label j_protocol : jstring) (j_ordered : bool) (j_maxRetransmits j_maxPacketLifeTime : Z)
    (j_appData : jstring) : native (jresult Z) :=
  caught
    (let+ listener := new_listener in
     let label := string_or_empty j_label in
     let protocol := string_or_empty j_protocol in
     let+ appData := jlift (json_or (JObj []) j_appData) in
     let+ (t, o) := live_send j_transport in
     let p := fresh_address (SendTransport.data_heap (ow_world o)) in
     let+ producer := on_send t (ProduceData p (SendTransportListenerJni_OnProduceData j_onProduceData)
                                   label protocol j_ordered j_maxRetransmits j_maxPacketLifeTime appData) in
     new_owned (OwnedDataProducer t producer listener)).

(** [delete] of the pair: its destructor deletes the listener, then the
    transport. *)
Definition JNI_SendTransport_FreeTransport (j_transport : Z) : native unit :=
  if j_transport =? 0 then jret tt
  else
    let+ o := handle_at j_transport in
    match o with
    | OwnedSendTransport t l =>
        do+ delete_listener l in
        let+ o := send_at t in
        do+ alive true o in
        do+ jmodify (fun h => set_sends (<[t := deleted o]> (sends h)) h) in
        jmodify (fun h => set_handles (delete j_transport (handles h)) h)
    | _ => follow None
    end.

Definition JNI_RecvTransport_Consume (j_transport : Z) (j_id j_producerId j_kind j_rtpParameters j_appData : jstring)
    : native (jresult Z) :=
  caught
    (let+ listener := new_listener in
     let+ id := jlift (JavaToNativeString j_id) in
     let+ producerId := jlift (JavaToNativeString j_producerId) in
     let+ kind := jlift (JavaToNativeString j_kind) in
     let+ rtpParameters := jlift (json_or (JObj []) j_rtpParameters) in
     let+ appData := jlift (json_or (JObj []) j_appData) in
     let+ (t, o) := live_recv j_transport in
     do+ device_if (reads_capabilities id producerId kind appData (ow_world o)) (ow_device o) in
     let c := fresh_address (RecvTransport.consumer_heap (ow_world o)) in
     let+ consumer := on_recv t (RecvTransport.Consume c id producerId kind (Some rtpParameters) appData) in
     new_owned (OwnedConsumer t consumer listener)).

(** The stream id, a [jlong], becomes a [uint16_t]. *)
Definition JNI_RecvTransport_ConsumeData (j_transport : Z) (j_id j_producerId : jstring) (j_streamId : Z)
    (j_label j_protocol j_appData : jstring) : native (jresult Z) :=
  caught
    (let+ listener := new_listener in
     let+ id := jlift (JavaToNativeString j_id) in
     let+ producerId := jlift (JavaToNativeString j_producerId) in
     let label := string_or_empty j_label in
     let protocol := string_or_empty j_protocol in
     let+ appData := jlift (json_or (JObj []) j_appData) in
     let+ (t, o) := live_recv j_transport in
     let c := fresh_address (RecvTransport.data_heap (ow_world o)) in
     let+ consumer := on_recv t (RecvTransport.ConsumeData c id producerId (u16 j_streamId) label protocol appData) in
     new_owned (OwnedDataConsumer t consumer listener)).

Definition JNI_RecvTransport_FreeTransport (j_transport : Z) : native unit :=
  if j_transport =? 0 then jret tt
  else
    let+ o := handle_at j_transport in
    match o with
    | OwnedRecvTransport t l =>
        do+ delete_listener l in
        let+ o := recv_at t in
        do+ alive true o in
        do+ jmodify (fun h => set_recvs (<[t := deleted o]> (recvs h)) h) in
        jmodify (fun h => set_handles (delete j_transport (handles h)) h)
    | _ => follow None
    end.

(** ** producer_jni.cpp *)

Definition JNI_Producer_GetId (j_producer : Z) : native string :=
  on_producer j_producer unreached (fun p => let! P := producer_at p in st_ret (NativeToJavaString (p_id P))).
Definition JNI_Producer_IsClosed (j_producer : Z) : native bool :=
  on_producer j_producer unreached (fun p => let! P := producer_at p in st_ret (p_closed P)).
Definition JNI_Producer_GetKind (j_producer : Z) : native string :=
  on_producer j_producer unreached
    (fun p => let! P := producer_at p in
              let! t := SendTransport.track_at (p_track P) in st_ret (NativeToJavaString (t_kind t))).
Definition JNI_Producer_GetTrack (j_producer : Z) : native Z :=
  on_producer j_producer unreached (fun p => let! P := producer_at p in st_ret (p_track P)).
Definition JNI_Producer_IsPaused (j_producer : Z) : native bool :=
  on_producer j_producer unreached Producer_IsPaused.
Definition JNI_Producer_GetMaxSpatialLayer (j_producer : Z) : native Z :=
  on_producer j_producer unreached (fun p => let! P := producer_at p in st_ret (p_maxSpatialLayer P)).

Definition JNI_Producer_SetFrameEncryptor (producer encryptor : Z) : native (jresult unit) :=
  caught (on_producer producer sets_encryptor (fun p => Producer_SetFrameEncryptor p encryptor)).

Definition JNI_Producer_GetAppData (j_producer : Z) : native string :=
  let+ data := on_producer j_producer unreached (fun p => let! P := producer_at p in st_ret (p_appData P)) in
  dumped data.
Definition JNI_Producer_GetRtpParameters (j_producer : Z) : native string :=
  let+ params := on_producer j_producer unreached (fun p => let! P := producer_at p in st_ret (p_rtpParameters P)) in
  dumped params.

Definition JNI_Producer_GetStats (j_producer : Z) : native (jresult string) :=
  caught (let+ stats := on_producer j_producer producer_open Producer_GetStats in dumped stats).

Definition JNI_Producer_Resume (j_producer : Z) : native unit := on_producer j_producer unreached Producer_Resume.

(** The layer, a [jint], becomes a [uint8_t]. *)
Definition JNI_Producer_SetMaxSpatialLayer (j_producer j_layer : Z) : native (jresult unit) :=
  caught (on_producer j_producer (sets_layer (u8 j_layer)) (fun p => Producer_SetMaxSpatialLayer p (u8 j_layer))).

Definition JNI_Producer_Pause (j_producer : Z) : native unit := on_producer j_producer unreached Producer_Pause.

Definition JNI_Producer_ReplaceTrack (j_producer j_track : Z) : native (jresult unit) :=
  caught (on_producer j_producer (replaces_track (nullable j_track))
            (fun p => Producer_ReplaceTrack p (nullable j_track))).

Definition JNI_Producer_Close (j_producer : Z) : native unit := on_producer j_producer producer_open Producer_Close.

(** ** consumer_jni.cpp *)

Definition JNI_Consumer_GetNativeId (j_consumer : Z) : native string :=
  on_consumer j_consumer unreached
    (fun c => let! C := RecvTransport.consumer_at c in st_ret (NativeToJavaString (RecvTransport.c_id C))).
Definition JNI_Consumer_GetLocalId (j_consumer : Z) : native string :=
  on_consumer j_consumer unreached
    (fun c => let! C := RecvTransport.consumer_at c in st_ret (NativeToJavaString (RecvTransport.c_localId C))).
Definition JNI_Consumer_GetProducerId (j_consumer : Z) : native string :=
  on_consumer j_consumer unreached
    (fun c => let! C := RecvTransport.consumer_at c in st_ret (NativeToJavaString (RecvTransport.c_producerId C))).
Definition JNI_Consumer_IsClosed (j_consumer : Z) : native bool :=
  on_consumer j_consumer unreached
    (fun c => let! C := RecvTransport.consumer_at c in st_ret (RecvTransport.c_closed C)).
Definition JNI_Consumer_IsPaused (j_consumer : Z) : native bool :=
  on_consumer j_consumer unreached RecvTransport.Consumer_IsPaused.
Definition JNI_Consumer_GetKind (j_consumer : Z) : native string :=
  on_consumer j_consumer unreached
    (fun c => let! C := RecvTransport.consumer_at c in
              let! t := RecvTransport.track_at (RecvTransport.c_track C) in
              st_ret (NativeToJavaString (t_kind t))).
Definition JNI_Consumer_GetTrack (j_consumer : Z) : native Z :=
  on_consumer j_consumer unreached
    (fun c => let! C := RecvTransport.consumer_at c in st_ret (RecvTransport.c_track C)).
Definition JNI_Consumer_GetRtpParameters (j_consumer : Z) : native string :=
  let+ params := on_consumer j_consumer unreached
    (fun c => let! C := RecvTransport.consumer_at c in st_ret (RecvTransport.c_rtpParameters C)) in
  dumped params.
Definition JNI_Consumer_GetAppData (j_consumer : Z) : native string :=
  let+ data := on_consumer j_consumer unreached
    (fun c => let! C := RecvTransport.consumer_at c in st_ret (RecvTransport.c_appData C)) in
  dumped data.
Definition JNI_Consumer_Resume (j_consumer : Z) : native unit :=
  on_consumer j_consumer unreached RecvTransport.Consumer_Resume.
Definition JNI_Consumer_Pause (j_consumer : Z) : native unit :=
  on_consumer j_consumer unreached RecvTransport.Consumer_Pause.
Definition JNI_Consumer_GetStats (j_consumer : Z) : native (jresult string) :=
  caught (let+ stats := on_consumer j_consumer consumer_open RecvTransport.Consumer_GetStats in dumped stats).
Definition JNI_Consumer_Close (j_consumer : Z) : native unit :=
  on_consumer j_consumer consumer_open RecvTransport.Consumer_Close.
Definition JNI_Consumer_SetFrameDecryptor (consumer decryptor : Z) : native (jresult unit) :=
  caught (on_consumer consumer sets_decryptor (fun c => RecvTransport.Consumer_SetFrameDecryptor c decryptor)).

(** ** data_producer_jni.cpp *)

(** What the object asks its data channel, which it keeps alive. *)
Definition on_send_channel {A : Type} (j_producer : Z) (f : data_channel -> A) : native A :=
  on_data_producer j_producer unreached
    (fun p => let! P := SendTransport.data_at p in st_ret (f (channel (dp_dataChannel P)))).

Definition JNI_DataProducer_GetId (j_producer : Z) : native string :=
  on_data_producer j_producer unreached
    (fun p => let! P := SendTransport.data_at p in st_ret (NativeToJavaString (dp_id P))).
Definition JNI_DataProducer_GetLocalId (j_producer : Z) : native string :=
  on_send_channel j_producer (fun c => NativeToJavaString (to_string (v_id c))).
Definition JNI_DataProducer_GetSctpStreamParameters (j_producer : Z) : native string :=
  let+ params := on_data_producer j_producer unreached
    (fun p => let! P := SendTransport.data_at p in st_ret (dp_sctpStreamParameters P)) in
  dumped params.
Definition JNI_DataProducer_GetReadyState (j_producer : Z) : native Z :=
  on_send_channel j_producer (fun c => DataState_int (v_state c)).
Definition JNI_DataProducer_GetLabel (j_producer : Z) : native string :=
  on_send_channel j_producer (fun c => NativeToJavaString (v_label c)).
Definition JNI_DataProducer_GetProtocol (j_producer : Z) : native string :=
  on_send_channel j_producer (fun c => NativeToJavaString (v_protocol c)).
(** The amount, a [uint64_t], becomes a [jlong]. *)
Definition JNI_DataProducer_GetBufferedAmount (j_producer : Z) : native Z :=
  on_send_channel j_producer (fun c => i64 (v_buffered_amount c)).
Definition JNI_DataProducer_GetAppData (j_producer : Z) : native string :=
  let+ data := on_data_producer j_producer unreached
    (fun p => let! P := SendTransport.data_at p in st_ret (dp_appData P)) in
  dumped data.
Definition JNI_DataProducer_IsClosed (j_producer : Z) : native bool :=
  on_data_producer j_producer unreached (fun p => let! P := SendTransport.data_at p in st_ret (dp_closed P)).
Definition JNI_DataProducer_Close (j_producer : Z) : native unit :=
  on_data_producer j_producer data_producer_open DataProducer_Close.
(** [data]: the bytes of the array; whether they are text goes with them. *)
Definition JNI_DataProducer_Send (j_producer : Z) (data : list Z) : native unit :=
  on_data_producer j_producer unreached (fun p => DataProducer_Send p data).

(** ** data_consumer_jni.cpp *)

Definition on_recv_channel {A : Type} (j_consumer : Z) (f : data_channel -> A) : native A :=
  on_data_consumer j_consumer unreached
    (fun c => let! C := RecvTransport.data_at c in st_ret (f (channel (RecvTransport.dc_dataChannel C)))).

Definition JNI_DataConsumer_GetId (j_consumer : Z) : native string :=
  on_data_consumer j_consumer unreached
    (fun c => let! C := RecvTransport.data_at c in st_ret (NativeToJavaString (RecvTransport.dc_id C))).
Definition JNI_DataConsumer_GetDataProducerId (j_consumer : Z) : native string :=
  on_data_consumer j_consumer unreached
    (fun c => let! C := RecvTransport.data_at c in st_ret (NativeToJavaString (RecvTransport.dc_dataProducerId C))).
Definition JNI_DataConsumer_GetLocalId (j_consumer : Z) : native string :=
  on_recv_channel j_consumer (fun c => NativeToJavaString (to_string (v_id c))).
Definition JNI_DataConsumer_GetSctpStreamParameters (j_consumer : Z) : native string :=
  let+ params := on_data_consumer j_consumer unreached
    (fun c => let! C := RecvTransport.data_at c in st_ret (RecvTransport.dc_sctpParameters C)) in
  dumped params.
Definition JNI_DataConsumer_GetReadyState (j_consumer : Z) : native Z :=
  on_recv_channel j_consumer (fun c => DataState_int (v_state c)).
Definition JNI_DataConsumer_GetLabel (j_consumer : Z) : native string :=
  on_recv_channel j_consumer (fun c => NativeToJavaString (v_label c)).
Definition JNI_DataConsumer_GetProtocol (j_consumer : Z) : native string :=
  on_recv_channel j_consumer (fun c => NativeToJavaString (v_protocol c)).
Definition JNI_DataConsumer_GetAppData (j_consumer : Z) : native string :=
  let+ data := on_data_consumer j_consumer unreached
    (fun c => let! C := RecvTransport.data_at c in st_ret (RecvTransport.dc_appData C)) in
  dumped data.
Definition JNI_DataConsumer_IsClosed (j_consumer : Z) : native bool :=
  on_data_consumer j_consumer unreached (fun c => let! C := RecvTransport.data_at c in st_ret (RecvTransport.dc_closed C)).
Definition JNI_DataConsumer_Close (j_consumer : Z) : native unit :=
  on_data_consumer j_consumer data_consumer_open RecvTransport.DataConsumer_Close.

(** ** What Java calls *)

Inductive transport_call : Type :=
| TGetId | TGetConnectionState | TGetAppData | TGetStats | TIsClosed | TClose
| TRestartIce (iceParameters : jstring) | TUpdateIceServers (iceServers : jstring).

Inductive producer_call : Type :=
| PGetId | PIsClosed | PGetKind | PGetTrack | PIsPaused | PGetMaxSpatialLayer | PGetAppData | PGetRtpParameters
| PGetStats | PResume | PPause | PClose
| PSetFrameEncryptor (encryptor : Z) | PSetMaxSpatialLayer (layer : Z) | PReplaceTrack (track : Z).

Inductive consumer_call : Type :=
| KGetNativeId | KGetLocalId | KGetProducerId | KIsClosed | KIsPaused | KGetKind | KGetTrack | KGetRtpParameters
| KGetAppData | KResume | KPause | KGetStats | KClose
| KSetFrameDecryptor (decryptor : Z).

Inductive data_producer_call : Type :=
| DPGetId | DPGetLocalId | DPGetSctpStreamParameters | DPGetReadyState | DPGetLabel | DPGetProtocol
| DPGetBufferedAmount | DPGetAppData | DPIsClosed | DPClose
| DPSend (data : list Z).

Inductive data_consumer_call : Type :=
| DKGetId | DKGetDataProducerId | DKGetLocalId | DKGetSctpStreamParameters | DKGetReadyState | DKGetLabel
| DKGetProtocol | DKGetAppData | DKIsClosed | DKClose.

Inductive call : Type :=
| CNewDevice
| CFreeDevice (j_device : Z)
| CLoad (j_device : Z) (capabilities : jstring) (nativeCaps : res json)
| CIsLoaded (j_device : Z)
| CGetRtpCapabilities (j_device : Z)
| CGetSctpCapabilities (j_device : Z)
| CCanProduce (j_device : Z) (kind : jstring)
| CCreateSendTransport (j_device : Z) (j_listener : jlistener) (id ice candidates dtls sctp appData : jstring)
| CCreateRecvTransport (j_device : Z) (j_listener : jlistener) (id ice candidates dtls sctp appData : jstring)
| CTransport (j_transport : jtransport) (c : transport_call)
| CProduce (j_transport : Z) (j_onProduce : string -> string -> string -> janswer jstring) (j_track : Z)
    (j_encodings : option (list RtpEncodingParameters)) (codecOptions codec appData : jstring)
| CProduceData (j_transport : Z) (j_onProduceData : string -> string -> string -> string -> janswer jstring)
    (label protocol : jstring) (ordered : bool) (maxRetransmits maxPacketLifeTime : Z) (appData : jstring)
| CFreeSendTransport (j_transport : Z)
| CConsume (j_transport : Z) (id producerId kind rtpParameters appData : jstring)
| CConsumeData (j_transport : Z) (id producerId : jstring) (streamId : Z) (label protocol appData : jstring)
| CFreeRecvTransport (j_transport : Z)
| CProducer (j : Z) (c : producer_call)
| CConsumer (j : Z) (c : consumer_call)
| CDataProducer (j : Z) (c : data_producer_call)
| CDataConsumer (j : Z) (c : data_consumer_call).

(** The value goes to Java and is of no interest here. *)
Definition void {A : Type} (m : native A) : native unit := let+ _ := m in jret tt.

Definition run_transport (t : jtransport) (c : transport_call) : native unit :=
  match c with
  | TGetId => void (JNI_Transport_GetId t)
  | TGetConnectionState => void (JNI_Transport_GetConnectionState t)
  | TGetAppData => void (JNI_Transport_GetAppData t)
  | TGetStats => void (JNI_Transport_GetStats t)
  | TIsClosed => void (JNI_Transport_IsClosed t)
  | TClose => JNI_Transport_Close t
  | TRestartIce ice => void (JNI_Transport_RestartIce t ice)
  | TUpdateIceServers servers => void (JNI_Transport_UpdateIceServers t servers)
  end.

Definition run_producer (j : Z) (c : producer_call) : native unit :=
  match c with
  | PGetId => void (JNI_Producer_GetId j)
  | PIsClosed => void (JNI_Producer_IsClosed j)
  | PGetKind => void (JNI_Producer_GetKind j)
  | PGetTrack => void (JNI_Producer_GetTrack j)
  | PIsPaused => void (JNI_Producer_IsPaused j)
  | PGetMaxSpatialLayer => void (JNI_Producer_GetMaxSpatialLayer j)
  | PGetAppData => void (JNI_Producer_GetAppData j)
  | PGetRtpParameters => void (JNI_Producer_GetRtpParameters j)
  | PGetStats => void (JNI_Producer_GetStats j)
  | PResume => JNI_Producer_Resume j
  | PPause => JNI_Producer_Pause j
  | PClose => JNI_Producer_Close j
  | PSetFrameEncryptor e => void (JNI_Producer_SetFrameEncryptor j e)
  | PSetMaxSpatialLayer layer => void (JNI_Producer_SetMaxSpatialLayer j layer)
  | PReplaceTrack track => void (JNI_Producer_ReplaceTrack j track)
  end.

Definition run_consumer (j : Z) (c : consumer_call) : native unit :=
  match c with
  | KGetNativeId => void (JNI_Consumer_GetNativeId j)
  | KGetLocalId => void (JNI_Consumer_GetLocalId j)
  | KGetProducerId => void (JNI_Consumer_GetProducerId j)
  | KIsClosed => void (JNI_Consumer_IsClosed j)
  | KIsPaused => void (JNI_Consumer_IsPaused j)
  | KGetKind => void (JNI_Consumer_GetKind j)
  | KGetTrack => void (JNI_Consumer_GetTrack j)
  | KGetRtpParameters => void (JNI_Consumer_GetRtpParameters j)
  | KGetAppData => void (JNI_Consumer_GetAppData j)
  | KResume => JNI_Consumer_Resume j
  | KPause => JNI_Consumer_Pause j
  | KGetStats => void (JNI_Consumer_GetStats j)
  | KClose => JNI_Consumer_Close j
  | KSetFrameDecryptor d => void (JNI_Consumer_SetFrameDecryptor j d)
  end.

Definition run_data_producer (j : Z) (c : data_producer_call) : native unit :=
  match c with
  | DPGetId => void (JNI_DataProducer_GetId j)
  | DPGetLocalId => void (JNI_DataProducer_GetLocalId j)
  | DPGetSctpStreamParameters => void (JNI_DataProducer_GetSctpStreamParameters j)
  | DPGetReadyState => void (JNI_DataProducer_GetReadyState j)
  | DPGetLabel => void (JNI_DataProducer_GetLabel j)
  | DPGetProtocol => void (JNI_DataProducer_GetProtocol j)
  | DPGetBufferedAmount => void (JNI_DataProducer_GetBufferedAmount j)
  | DPGetAppData => void (JNI_DataProducer_GetAppData j)
  | DPIsClosed => void (JNI_DataProducer_IsClosed j)
  | DPClose => JNI_DataProducer_Close j
  | DPSend data => JNI_DataProducer_Send j data
  end.

Definition run_data_consumer (j : Z) (c : data_consumer_call) : native unit :=
  match c with
  | DKGetId => void (JNI_DataConsumer_GetId j)
  | DKGetDataProducerId => void (JNI_DataConsumer_GetDataProducerId j)
  | DKGetLocalId => void (JNI_DataConsumer_GetLocalId j)
  | DKGetSctpStreamParameters => void (JNI_DataConsumer_GetSctpStreamParameters j)
  | DKGetReadyState => void (JNI_DataConsumer_GetReadyState j)
  | DKGetLabel => void (JNI_DataConsumer_GetLabel j)
  | DKGetProtocol => void (JNI_DataConsumer_GetProtocol j)
  | DKGetAppData => void (JNI_DataConsumer_GetAppData j)
  | DKIsClosed => void (JNI_DataConsumer_IsClosed j)
  | DKClose => JNI_DataConsumer_Close j
  end.

Definition run_call (c : call) : native unit :=
  match c with
  | CNewDevice => void JNI_Device_NewDevice
  | CFreeDevice d => JNI_Device_FreeDevice d
  | CLoad d caps nativeCaps => void (JNI_Device_Load d caps nativeCaps)
  | CIsLoaded d => void (JNI_Device_IsLoaded d)
  | CGetRtpCapabilities d => void (JNI_Device_GetRtpCapabilities d)
  | CGetSctpCapabilities d => void (JNI_Device_GetSctpCapabilities d)
  | CCanProduce d kind => void (JNI_Device_CanProduce d kind)
  | CCreateSendTransport d l id ice candidates dtls sctp appData =>
      void (JNI_Device_CreateSendTransport d l id ice candidates dtls sctp appData)
  | CCreateRecvTransport d l id ice candidates dtls sctp appData =>
      void (JNI_Device_CreateRecvTransport d l id ice candidates dtls sctp appData)
  | CTransport t c => run_transport t c
  | CProduce t onProduce track encodings codecOptions codec appData =>
      void (JNI_SendTransport_Produce t onProduce track encodings codecOptions codec appData)
  | CProduceData t onProduceData label protocol ordered retransmits lifetime appData =>
      void (JNI_SendTransport_ProduceData t onProduceData label protocol ordered retransmits lifetime appData)
  | CFreeSendTransport t => JNI_SendTransport_FreeTransport t
  | CConsume t id producerId kind params appData =>
      void (JNI_RecvTransport_Consume t id producerId kind params appData)
  | CConsumeData t id producerId streamId label protocol appData =>
      void (JNI_RecvTransport_ConsumeData t id producerId streamId label protocol appData)
  | CFreeRecvTransport t => JNI_RecvTransport_FreeTransport t
  | CProducer j c => run_producer j c
  | CConsumer j c => run_consumer j c
  | CDataProducer j c => run_data_producer j c
  | CDataConsumer j c => run_data_consumer j c
  end.

(** One call after the other, as long as the process lives. *)
Fixpoint run_calls (cs : list call) : native unit :=
  match cs with
  | [] => jret tt
  | c :: cs => do+ run_call c in run_calls cs
  end.
End Natives.

(** ** The handlers of the transports

    A handler together with the Java listener its [OnConnect] forwards to. *)

#[export] Instance listening_send {P : Type} `{PeerConnectionInterface P} `{FloatText} :
    SendHandlerInterface (jlistener * Handler.t P) :=
  let run {A} (f : forall onConnect, ST (Handler.t P) A) : ST (jlistener * Handler.t P) A :=
    fun '(l, h) => let '(h, r) := f (ListenerJni_OnConnect l) h in ((l, h), r) in {|
  h_Send track es options codec := run (fun on => @h_Send _ (Handler.send_handler on) track es options codec);
  h_StopSending id := run (fun on => @h_StopSending _ (Handler.send_handler on) id);
  h_ReplaceTrack id track := run (fun on => @h_ReplaceTrack _ (Handler.send_handler on) id track);
  h_SetMaxSpatialLayer id layer := run (fun on => @h_SetMaxSpatialLayer _ (Handler.send_handler on) id layer);
  h_GetSenderStats id := run (fun on => @h_GetSenderStats _ (Handler.send_handler on) id);
  h_SendDataChannel label init := run (fun on => @h_SendDataChannel _ (Handler.send_handler on) label init);
  h_Close := run (fun on => @h_Close _ (Handler.send_handler on));
  h_GetTransportStats := run (fun on => @h_GetTransportStats _ (Handler.send_handler on));
  h_RestartIce ice := run (fun on => @h_RestartIce _ (Handler.send_handler on) ice);
  h_UpdateIceServers servers := run (fun on => @h_UpdateIceServers _ (Handler.send_handler on) servers)
|}.

#[export] Instance listening_recv {P : Type} `{PeerConnectionInterface P} `{FloatText} :
    RecvHandlerInterface (jlistener * Handler.t P) :=
  let run {A} (f : forall onConnect, ST (Handler.t P) A) : ST (jlistener * Handler.t P) A :=
    fun '(l, h) => let '(h, r) := f (ListenerJni_OnConnect l) h in ((l, h), r) in {|
  rh_Receive id kind params := run (fun on => @rh_Receive _ (recv_handler on) id kind params);
  rh_StopReceiving id := run (fun on => @rh_StopReceiving _ (recv_handler on) id);
  rh_GetReceiverStats id := run (fun on => @rh_GetReceiverStats _ (recv_handler on) id);
  rh_ReceiveDataChannel label init := run (fun on => @rh_ReceiveDataChannel _ (recv_handler on) label init);
  rh_Close := run (fun on => @rh_Close _ (recv_handler on));
  rh_GetTransportStats := run (fun on => @rh_GetTransportStats _ (recv_handler on));
  rh_RestartIce ice := run (fun on => @rh_RestartIce _ (recv_handler on) ice);
  rh_UpdateIceServers servers := run (fun on => @rh_UpdateIceServers _ (recv_handler on) servers)
|}.

Section Constructors.
Context {P : Type} `{PeerConnectionInterface P} (pc : P).

(** The constructors of [SendHandler] and [RecvHandler] on a new peer connection. *)
Definition new_send_handler (l : jlistener) (ice candidates dtls sctp sending remote : json)
    : res (jlistener * Handler.t P) :=
  let* h := Handler.make pc ice candidates dtls sctp sending remote in Ok (l, h).
Definition new_recv_handler (l : jlistener) (ice candidates dtls sctp : json) : res (jlistener * Handler.t P) :=
  let* h := Handler.make pc ice candidates dtls sctp JNull JNull in Ok (l, h).
End Constructors.
