(* ===== verification/ClientJniFacts.v ===== *)
(** Ownership across the JNI border: as long as Java closes a transport before it
    disposes of it and a device after its transports, no native method follows a
    pointer to a deleted object, although producers and consumers outlive their
    transport and the library never checks a pointer.  Here are the rules for
    native methods, the invariant of the heap and its preservation by every call. *)

From Stdlib Require Import ZArith Lia.
From stdpp Require Import gmap.
From S2P Require Import Prelude Json Streams JsonText JsonTextFacts JsonRoundTrip DtoaText H264 OrtcValidate Ortc Registry.
From S2P Require Import Device SendTransport SendTransportFacts Handler HandlerFacts RecvTransport RecvTransportFacts ClientJni.

(** ** Reasoning about native methods *)

Section Safe.
Context {S : Type} (P : S -> Prop).

(** [m] follows live pointers only; however it ends [P] holds then, and [Q] if it
    returned. *)
Definition safe {A : Type} (m : JNI S A) (Q : A -> S -> Prop) (s : S) : Prop :=
  exists s' r, m s = Some (s', r) /\ P s' /\ forall a, r = Ok a -> Q a s'.

Lemma safe_mono {A} (m : JNI S A) (Q Q' : A -> S -> Prop) s :
  safe m Q s -> (forall a s', P s' -> Q a s' -> Q' a s') -> safe m Q' s.
Proof. intros (s' & r & E & HP & HQ) Hw. exists s', r. do 2 (split; [done|]). intros a Ha. by apply Hw, HQ. Qed.

Lemma safe_bind {A B} (m : JNI S A) (f : A -> JNI S B) Q Q' s :
  safe m Q s -> (forall a s', P s' -> Q a s' -> safe (f a) Q' s') -> safe (jbind m f) Q' s.
Proof.
  intros (s1 & r & E & HP & HQ) Hf. unfold safe, jbind. rewrite E.
  destruct r as [a|e|u|d]; [by apply (Hf a s1 HP (HQ a eq_refl))|..];
    (eexists _, _; split; [reflexivity|]; by split).
Qed.

Lemma safe_ret {A} (a : A) (Q : A -> S -> Prop) s : P s -> Q a s -> safe (jret a) Q s.
Proof. intros HP HQ. exists s, (Ok a). split; [done|]. split; [done|]. by intros b [= <-]. Qed.

Lemma safe_lift {A} (r : res A) (Q : A -> S -> Prop) s : P s -> (forall a, r = Ok a -> Q a s) -> safe (jlift r) Q s.
Proof. intros HP HQ. by exists s, r. Qed.

Lemma safe_modify f (Q : unit -> S -> Prop) s : P (f s) -> Q tt (f s) -> safe (jmodify f) Q s.
Proof. intros HP HQ. exists (f s), (Ok tt). split; [done|]. split; [done|]. by intros []. Qed.

(** A pointer to an object that is there. *)
Lemma safe_get_follow {A B} (o : S -> option A) (f : A -> JNI S B) a Q s :
  o s = Some a -> safe (f a) Q s -> safe (let+ x := (let+ h := jget in follow (o h)) in f x) Q s.
Proof. intros Ho Hf. unfold safe, jbind, jget, follow in *. by rewrite Ho. Qed.

Lemma safe_caught {A} (m : JNI S A) (Q : A -> S -> Prop) s :
  safe m Q s -> safe (caught m) (fun r s' => match r with Returned a => Q a s' | Raised _ => True end) s.
Proof.
  intros (s' & r & E & HP & HQ). unfold safe, caught. rewrite E.
  destruct r as [a|e|u|d]; (eexists _, _; split; [reflexivity|]; split; [done|]); intros b [= <-]; [by apply HQ|done].
Qed.
End Safe.

(** The state after a call whose value is dropped. *)
Lemma ignore_state {S A : Type} (m : ST S A) s : (ignore m s).1 = (m s).1.
Proof. unfold ignore, st_bind, st_ret. by destruct (m s) as [s' [a|e|u|d]]. Qed.

Lemma fresh_address_spec {A} (m : gmap Z A) : m !! fresh_address m = None.
Proof.
  unfold fresh_address. destruct (m !! fresh (map_to_list m).*1) as [a|] eqn:E; [|done].
  apply elem_of_map_to_list in E. exfalso. apply (infinite_is_fresh ((map_to_list m).*1)).
  apply list_elem_of_fmap. by eexists (_, a).
Qed.

(** ** A closed transport stays closed *)

Section StaysClosed.
Context {H : Type} `{SendHandlerInterface H}.

Lemma send_stays_closed (o : SendTransportFacts.op) : keeps (fun w : SendTransport.world H => SendTransport.closed w = true) (SendTransportFacts.step o).
Proof.
  assert (forall A (m : ST H A),
    keeps (fun w : SendTransport.world H => SendTransport.closed w = true) (SendTransport.on_handler m)) as Hh.
  { intros A m w Hw. unfold SendTransport.on_handler. by destruct (m (SendTransport.handler w)). }
  destruct o; simpl; unfold ignore, Produce, ProduceData, SendTransport_Close, SendTransport.Transport_Close,
    SendTransport.Transport_GetStats, SendTransport.Transport_RestartIce, SendTransport.Transport_UpdateIceServers,
    SendTransport.Transport_OnConnectionStateChange,
    Producer_Close, Producer_GetStats, Producer_Pause, Producer_Resume, Producer_ReplaceTrack,
    Producer_SetMaxSpatialLayer, Producer_SetFrameEncryptor, DataProducer_Close, DataProducer_Send,
    DataProducer_OnStateChange, DataProducer_OnBufferedAmountChange, Producer_IsPaused,
    SendTransport.OnClose, SendTransport.OnCloseData, OnReplaceTrack, OnSetMaxSpatialLayer, SendTransport.OnGetStats,
    SendTransport.set_enabled, producer_at, SendTransport.data_at, SendTransport.track_at, SendTransport.deref; keep;
    try (by apply keeps_modify).
  all: apply each_keeps; intros p; unfold Producer_TransportClosed, DataProducer_TransportClosed,
    producer_at, SendTransport.data_at, SendTransport.deref; keep; by apply keeps_modify.
Qed.
End StaysClosed.

Section RStaysClosed.
Context {R : Type} `{RecvHandlerInterface R}.

Lemma recv_stays_closed (o : rop) : keeps (fun w : RecvTransport.world R => RecvTransport.closed w = true) (rstep o).
Proof.
  assert (forall A (m : ST R A),
    keeps (fun w : RecvTransport.world R => RecvTransport.closed w = true) (RecvTransport.on_handler m)) as Hh.
  { intros A m w Hw. unfold RecvTransport.on_handler. by destruct (m (RecvTransport.handler w)). }
  destruct o; simpl; unfold ignore, RecvTransport.Consume, RecvTransport.ConsumeData, RecvTransport.RecvTransport_Close, RecvTransport.Transport_Close,
    RecvTransport.Transport_GetStats, RecvTransport.Transport_RestartIce, RecvTransport.Transport_UpdateIceServers,
    RecvTransport.Transport_OnConnectionStateChange, RecvTransport.create_probator,
    RecvTransport.Consumer_Close, RecvTransport.Consumer_GetStats, RecvTransport.Consumer_Pause, RecvTransport.Consumer_Resume, RecvTransport.Consumer_SetFrameDecryptor,
    RecvTransport.DataConsumer_Close, RecvTransport.DataConsumer_OnStateChange, RecvTransport.DataConsumer_OnMessage,
    RecvTransport.OnClose, RecvTransport.OnCloseData, RecvTransport.OnGetStats, RecvTransport.set_enabled, RecvTransport.consumer_at,
    RecvTransport.data_at, RecvTransport.track_at, RecvTransport.deref; keep;
    try (by apply keeps_modify).
  all: apply each_keeps; intros p; unfold RecvTransport.Consumer_TransportClosed, RecvTransport.DataConsumer_TransportClosed,
    RecvTransport.consumer_at, RecvTransport.data_at, RecvTransport.deref; keep; by apply keeps_modify.
Qed.
End RStaysClosed.

(** ** The application data of every object came out of a parser *)

Section SendApps.
Context {H : Type} `{SendHandlerInterface H}.

Definition apps (w : SendTransport.world H) : Prop :=
  map_Forall (fun _ P => well_formed (p_appData P) = true) (producer_heap w) /\
  map_Forall (fun _ P => well_formed (dp_appData P) = true) (SendTransport.data_heap w).

Definition op_app_ok (o : SendTransportFacts.op) : Prop :=
  match o with
  | OpProduce _ _ _ _ _ _ appData | OpProduceData _ _ _ _ _ _ _ appData => well_formed appData = true
  | _ => True
  end.

Lemma apps_handler {A} (m : ST H A) : keeps apps (SendTransport.on_handler m).
Proof. intros w Hw. unfold SendTransport.on_handler. by destruct (m (SendTransport.handler w)). Qed.
Lemma apps_producer {B} p (f : Producer -> ST (SendTransport.world H) B) :
  (forall P, well_formed (p_appData P) = true -> keeps apps (f P)) -> keeps apps (let! P := producer_at p in f P).
Proof.
  intros Hf w Hw. unfold producer_at, SendTransport.deref, st_bind, st_get, st_ret, st_lift.
  destruct (producer_heap w !! p) as [P|] eqn:E; [|done]. apply Hf; [by apply (proj1 Hw p)|done].
Qed.
Lemma apps_data {B} p (f : DataProducer -> ST (SendTransport.world H) B) :
  (forall P, well_formed (dp_appData P) = true -> keeps apps (f P)) -> keeps apps (let! P := SendTransport.data_at p in f P).
Proof.
  intros Hf w Hw. unfold SendTransport.data_at, SendTransport.deref, st_bind, st_get, st_ret, st_lift.
  destruct (SendTransport.data_heap w !! p) as [P|] eqn:E; [|done]. apply Hf; [by apply (proj2 Hw p)|done].
Qed.
Lemma apps_set_producer p P : well_formed (p_appData P) = true -> keeps apps (st_modify (set_producer p P)).
Proof. intros HP. apply keeps_modify. intros w [H1 H2]. split; [|done]. by apply map_Forall_insert_2. Qed.
Lemma apps_set_data p P : well_formed (dp_appData P) = true -> keeps apps (st_modify (SendTransport.set_data p P)).
Proof. intros HP. apply keeps_modify. intros w [H1 H2]. split; [done|]. by apply map_Forall_insert_2. Qed.

Ltac apps_step :=
  repeat (first
    [ apply apps_producer; intros ?P ?HP
    | apply apps_data; intros ?P ?HP
    | by apply apps_set_producer
    | by apply apps_set_data
    | apply apps_handler
    | by apply keeps_modify
    | match goal with
      | |- keeps _ (st_bind _ _) => apply keeps_bind; [|intros ?]
      | |- keeps _ (match ?x with _ => _ end) => destruct x
      | |- keeps _ (let (_, _) := ?x in _) => destruct x
      end ]; cbv beta zeta); auto with keeps_db.

Lemma send_keeps_apps o : op_app_ok o -> keeps apps (SendTransportFacts.step o).
Proof.
  intros Ho. destruct o; simpl in *; unfold ignore, Produce, ProduceData, SendTransport_Close, SendTransport.Transport_Close,
    SendTransport.Transport_GetStats, SendTransport.Transport_RestartIce, SendTransport.Transport_UpdateIceServers,
    SendTransport.Transport_OnConnectionStateChange,
    Producer_Close, Producer_GetStats, Producer_Pause, Producer_Resume, Producer_ReplaceTrack,
    Producer_SetMaxSpatialLayer, Producer_SetFrameEncryptor, DataProducer_Close, DataProducer_Send,
    DataProducer_OnStateChange, DataProducer_OnBufferedAmountChange, Producer_IsPaused,
    SendTransport.OnClose, SendTransport.OnCloseData, OnReplaceTrack, OnSetMaxSpatialLayer, SendTransport.OnGetStats,
    SendTransport.set_enabled, SendTransport.track_at, SendTransport.deref; apps_step.
  all: apply each_keeps; intros p; unfold Producer_TransportClosed, DataProducer_TransportClosed; apps_step.
Qed.
End SendApps.

Section RecvApps.
Context {R : Type} `{RecvHandlerInterface R}.

Definition rapps (w : RecvTransport.world R) : Prop :=
  map_Forall (fun _ C => well_formed (RecvTransport.c_appData C) = true) (RecvTransport.consumer_heap w) /\
  map_Forall (fun _ C => well_formed (RecvTransport.dc_appData C) = true) (RecvTransport.data_heap w).

Definition rop_app_ok (o : rop) : Prop :=
  match o with
  | RConsume _ _ _ _ _ appData | RConsumeData _ _ _ _ _ _ appData => well_formed appData = true
  | _ => True
  end.

Lemma rapps_handler {A} (m : ST R A) : keeps rapps (RecvTransport.on_handler m).
Proof. intros w Hw. unfold RecvTransport.on_handler. by destruct (m (RecvTransport.handler w)). Qed.
Lemma rapps_consumer {B} p (f : RecvTransport.Consumer -> ST (RecvTransport.world R) B) :
  (forall C, well_formed (RecvTransport.c_appData C) = true -> keeps rapps (f C)) ->
  keeps rapps (let! C := RecvTransport.consumer_at p in f C).
Proof.
  intros Hf w Hw. unfold RecvTransport.consumer_at, RecvTransport.deref, st_bind, st_get, st_ret, st_lift.
  destruct (RecvTransport.consumer_heap w !! p) as [C|] eqn:E; [|done]. apply Hf; [by apply (proj1 Hw p)|done].
Qed.
Lemma rapps_data {B} p (f : RecvTransport.DataConsumer -> ST (RecvTransport.world R) B) :
  (forall C, well_formed (RecvTransport.dc_appData C) = true -> keeps rapps (f C)) ->
  keeps rapps (let! C := RecvTransport.data_at p in f C).
Proof.
  intros Hf w Hw. unfold RecvTransport.data_at, RecvTransport.deref, st_bind, st_get, st_ret, st_lift.
  destruct (RecvTransport.data_heap w !! p) as [C|] eqn:E; [|done]. apply Hf; [by apply (proj2 Hw p)|done].
Qed.
Lemma rapps_set_consumer p C :
  well_formed (RecvTransport.c_appData C) = true -> keeps rapps (st_modify (RecvTransport.set_consumer p C)).
Proof. intros HC. apply keeps_modify. intros w [H1 H2]. split; [|done]. by apply map_Forall_insert_2. Qed.
Lemma rapps_set_data p C :
  well_formed (RecvTransport.dc_appData C) = true -> keeps rapps (st_modify (RecvTransport.set_data p C)).
Proof. intros HC. apply keeps_modify. intros w [H1 H2]. split; [done|]. by apply map_Forall_insert_2. Qed.

Ltac rapps_step :=
  repeat (first
    [ apply rapps_consumer; intros ?C ?HC
    | apply rapps_data; intros ?C ?HC
    | by apply rapps_set_consumer
    | by apply rapps_set_data
    | apply rapps_handler
    | by apply keeps_modify
    | match goal with
      | |- keeps _ (st_bind _ _) => apply keeps_bind; [|intros ?]
      | |- keeps _ (st_try _ _) => apply keeps_try; [|intros ?]
      | |- keeps _ (match ?x with _ => _ end) => destruct x
      | |- keeps _ (let (_, _) := ?x in _) => destruct x
      end ]; cbv beta zeta); auto with keeps_db.

Lemma recv_keeps_apps o : rop_app_ok o -> keeps rapps (rstep o).
Proof.
  intros Ho. destruct o; simpl in *; unfold ignore, RecvTransport.Consume, RecvTransport.ConsumeData, RecvTransport.RecvTransport_Close,
    RecvTransport.Transport_Close,
    RecvTransport.Transport_GetStats, RecvTransport.Transport_RestartIce, RecvTransport.Transport_UpdateIceServers,
    RecvTransport.Transport_OnConnectionStateChange, RecvTransport.create_probator,
    RecvTransport.Consumer_Close, RecvTransport.Consumer_GetStats, RecvTransport.Consumer_Pause, RecvTransport.Consumer_Resume,
    RecvTransport.Consumer_SetFrameDecryptor,
    RecvTransport.DataConsumer_Close, RecvTransport.DataConsumer_OnStateChange, RecvTransport.DataConsumer_OnMessage,
    RecvTransport.OnClose, RecvTransport.OnCloseData, RecvTransport.OnGetStats, RecvTransport.set_enabled,
    RecvTransport.track_at, RecvTransport.deref; rapps_step.
  all: apply each_keeps; intros p; unfold RecvTransport.Consumer_TransportClosed, RecvTransport.DataConsumer_TransportClosed; rapps_step.
Qed.
End RecvApps.

(** ** The invariant of the heap *)

(** A transport keeps its own invariant; a deleted one was closed; an open one
    has its device. *)
Definition owner_ok {W : Type} (ds : gmap Z Device.t) (I : W -> Prop) (cl : W -> bool) (o : owner W) : Prop :=
  I (ow_world o) /\ (ow_live o = false -> cl (ow_world o) = true) /\
  (ow_live o = true -> cl (ow_world o) = false -> is_Some (ds !! ow_device o)).

Definition listener_of (o : owned) : Z :=
  match o with
  | OwnedSendTransport _ l | OwnedRecvTransport _ l | OwnedProducer _ _ l | OwnedDataProducer _ _ l
  | OwnedConsumer _ _ l | OwnedDataConsumer _ _ l => l
  end.

(** The transport a pair owns. *)
Definition owns (o : owned) : option jtransport :=
  match o with
  | OwnedSendTransport t _ => Some (JSend t)
  | OwnedRecvTransport t _ => Some (JRecv t)
  | _ => None
  end.

(** A transport with its producers, or its consumers, and their data. *)
Definition sinv {H} `{SendHandlerInterface H} (w : SendTransport.world H) : Prop := SendTransportFacts.inv w /\ apps w.
Definition rsinv {R} `{RecvHandlerInterface R} (w : RecvTransport.world R) : Prop := rinv w /\ rapps w.

Section Invariant.
Context {H R : Type} `{SendHandlerLaws H} `{RecvHandlerLaws R} `{FloatText}.
Implicit Types h : heap H R.

Definition send_ok h (o : owner (SendTransport.world H)) : Prop :=
  owner_ok (devices h) sinv SendTransport.closed o.
Definition recv_ok h (o : owner (RecvTransport.world R)) : Prop :=
  owner_ok (devices h) rsinv RecvTransport.closed o.

(** What a pair points to is there, and a pair that owns its transport owns one
    that exists. *)
Definition points_ok h (o : owned) : Prop :=
  listener_of o ∈ listeners h /\
  match o with
  | OwnedSendTransport t _ => exists x, sends h !! t = Some x /\ ow_live x = true
  | OwnedRecvTransport t _ => exists x, recvs h !! t = Some x /\ ow_live x = true
  | OwnedProducer t _ _ | OwnedDataProducer t _ _ => is_Some (sends h !! t)
  | OwnedConsumer t _ _ | OwnedDataConsumer t _ _ => is_Some (recvs h !! t)
  end.

Record good h : Prop := Good {
  g_next : 0 < next h;
  g_listeners : forall l, l ∈ listeners h -> l < next h;
  g_sends : forall t o, sends h !! t = Some o -> t < next h /\ send_ok h o;
  g_recvs : forall t o, recvs h !! t = Some o -> t < next h /\ recv_ok h o;
  g_handles : forall j o, handles h !! j = Some o -> 0 < j < next h /\ points_ok h o;
  g_listener : forall j j' o o', handles h !! j = Some o -> handles h !! j' = Some o' ->
    listener_of o = listener_of o' -> j = j';
  g_owns : forall j j' o o' k, handles h !! j = Some o -> handles h !! j' = Some o' ->
    owns o = Some k -> owns o' = Some k -> j = j';
  g_send_app : forall t o, sends h !! t = Some o -> well_formed (ow_appData o) = true;
  g_recv_app : forall t o, recvs h !! t = Some o -> well_formed (ow_appData o) = true
}.

(** A listener that no pair has. *)
Definition pending (l : Z) h : Prop :=
  l ∈ listeners h /\ forall j o, handles h !! j = Some o -> listener_of o <> l.

Lemma good_empty : good empty_heap.
Proof. split; simpl; try lia; intros *; rewrite ?lookup_empty; done. Qed.

(** Nothing but the counter, the listeners and new objects changes. *)
Lemma good_alloc h : good h -> good (set_next (next h + 1) h).
Proof.
  intros [G1 G2 G3 G4 G5 G6 G7 G8 G9]. split; simpl; try done; try lia.
  - intros l Hl. specialize (G2 l Hl). lia.
  - intros t o Ho. destruct (G3 t o Ho). split; [lia|done].
  - intros t o Ho. destruct (G4 t o Ho). split; [lia|done].
  - intros j o Ho. destruct (G5 j o Ho). split; [lia|done].
Qed.

Lemma new_listener_safe h :
  good h ->
  safe good new_listener (fun l h' => ~ l ∈ listeners h /\ listeners h' = ({[l]} : gset Z) ∪ listeners h /\ pending l h' /\
    handles h' = handles h /\ sends h' = sends h /\ recvs h' = recvs h /\ devices h' = devices h) h.
Proof.
  intros G. pose proof (good_alloc h G) as [G1 G2 G3 G4 G5 G6 G7 G8 G9]. simpl in *.
  assert (~ next h ∈ listeners h) as Hl by (intros Hl; pose proof (g_listeners h G _ Hl); lia).
  eexists _, (Ok (next h)). split; [reflexivity|]. split.
  - split; simpl; try done.
    + intros l [->%elem_of_singleton|Hin]%elem_of_union; [lia|by apply G2].
    + intros j o Ho. destruct (G5 j o Ho) as [Hj [Hin Hp]]. split; [done|]. split; [|done]. simpl. by apply elem_of_union_r.
  - intros a [= <-]. simpl. repeat split; try done; [by apply elem_of_union_l, elem_of_singleton|].
    intros j o Ho E. destruct (g_handles h G j o Ho) as [_ [Hin _]]. rewrite E in Hin.
    pose proof (g_listeners h G _ Hin). lia.
Qed.

Lemma new_owned_safe o h :
  good h -> points_ok h o -> pending (listener_of o) h ->
  (forall k j x, owns o = Some k -> handles h !! j = Some x -> owns x <> Some k) ->
  safe good (new_owned o) (fun j h' => handles h' = <[j := o]> (handles h) /\ sends h' = sends h /\
    recvs h' = recvs h /\ devices h' = devices h /\ listeners h' = listeners h) h.
Proof.
  intros G Hp [_ Hl] Hown. pose proof (good_alloc h G) as [G1 G2 G3 G4 G5 G6 G7 G8 G9]. simpl in *.
  pose proof (g_next h G) as Hnext.
  assert (handles h !! next h = None) as Hfree.
  { destruct (handles h !! next h) as [x|] eqn:E; [|done]. destruct (g_handles h G _ _ E). lia. }
  eexists _, (Ok (next h)). split; [reflexivity|]. split; [|intros a [= <-]; by repeat split].
  split; simpl; try done.
  - intros j x [[<- <-]|[_ Hx]]%lookup_insert_Some; [split; [lia|exact Hp]|by apply G5].
  - intros j j' x x' [[<- <-]|[_ Hx]]%lookup_insert_Some [[<- <-]|[_ Hx']]%lookup_insert_Some E; try done.
    + by destruct (Hl j' x' Hx').
    + by destruct (Hl j x Hx).
    + by apply (G6 j j' x x').
  - intros j j' x x' k [[<- <-]|[_ Hx]]%lookup_insert_Some [[<- <-]|[_ Hx']]%lookup_insert_Some E E'; try done.
    + by destruct (Hown k j' x' E Hx').
    + by destruct (Hown k j x E' Hx).
    + by apply (G7 j j' x x' k).
Qed.

(** A call of the library around a transport. *)
Lemma on_send_good {A} t (m : ST (SendTransport.world H) A) o h w r :
  good h -> sends h !! t = Some o -> m (ow_world o) = (w, r) -> sinv w ->
  (SendTransport.closed (ow_world o) = true -> SendTransport.closed w = true) ->
  good (set_sends (<[t := with_world w o]> (sends h)) h).
Proof.
  intros [G1 G2 G3 G4 G5 G6 G7 G8 G9] Ho Em Hi Hc. destruct (G3 t o Ho) as (Ht & _ & Hd & Hdev).
  split; simpl; try done.
  - intros t' o' [[<- <-]|[_ Ho']]%lookup_insert_Some; [|by apply G3].
    split; [done|]. split; [done|]. split; simpl; [auto|]. intros Hlive Hopen. apply Hdev; [done|].
    destruct (SendTransport.closed (ow_world o)) eqn:E; [|done]. by rewrite Hc in Hopen.
  - intros j x Hx. destruct (G5 j x Hx) as (Hj & Hl & Hp). split; [done|]. split; [done|]. simpl.
    destruct x; try done; try (destruct Hp as (y & Hy & Hlive)); try (destruct (decide (transport = t)) as [->|Hne]);
      try (destruct (decide (transport_ = t)) as [->|Hne]); rewrite ?lookup_insert_eq, ?lookup_insert_ne by done; eauto.
    exists (with_world w o). split; [done|]. simpl. by simplify_eq.
  - intros t' o' [[<- <-]|[_ Ho']]%lookup_insert_Some; [exact (G8 t o Ho)|by apply (G8 t')].
Qed.

Lemma on_recv_good {A} t (m : ST (RecvTransport.world R) A) o h w r :
  good h -> recvs h !! t = Some o -> m (ow_world o) = (w, r) -> rsinv w ->
  (RecvTransport.closed (ow_world o) = true -> RecvTransport.closed w = true) ->
  good (set_recvs (<[t := with_world w o]> (recvs h)) h).
Proof.
  intros [G1 G2 G3 G4 G5 G6 G7 G8 G9] Ho Em Hi Hc. destruct (G4 t o Ho) as (Ht & _ & Hd & Hdev).
  split; simpl; try done.
  - intros t' o' [[<- <-]|[_ Ho']]%lookup_insert_Some; [|by apply G4].
    split; [done|]. split; [done|]. split; simpl; [auto|]. intros Hlive Hopen. apply Hdev; [done|].
    destruct (RecvTransport.closed (ow_world o)) eqn:E; [|done]. by rewrite Hc in Hopen.
  - intros j x Hx. destruct (G5 j x Hx) as (Hj & Hl & Hp). split; [done|]. split; [done|]. simpl.
    destruct x; try done; try (destruct Hp as (y & Hy & Hlive)); try (destruct (decide (transport = t)) as [->|Hne]);
      try (destruct (decide (transport_ = t)) as [->|Hne]); rewrite ?lookup_insert_eq, ?lookup_insert_ne by done; eauto.
    exists (with_world w o). split; [done|]. simpl. by simplify_eq.
  - intros t' o' [[<- <-]|[_ Ho']]%lookup_insert_Some; [exact (G9 t o Ho)|by apply (G9 t')].
Qed.
End Invariant.

(** ** Methods of the objects around a transport *)

Section Methods.
Context {H R : Type} `{SendHandlerLaws H} `{RecvHandlerLaws R} `{FloatText}.
Implicit Types (h : heap H R).

Abbreviation anything := (fun _ _ => True).

(** A call that keeps the invariant of its transport and does not reopen it. *)
Definition mild {A} (m : ST (SendTransport.world H) A) : Prop :=
  (forall w, sinv w -> sinv (m w).1) /\
  keeps (fun w => SendTransport.closed w = true) m.
Definition rmild {A} (m : ST (RecvTransport.world R) A) : Prop :=
  (forall w, rsinv w -> rsinv (m w).1) /\ keeps (fun w => RecvTransport.closed w = true) m.

Lemma step_sinv (w : SendTransport.world H) o :
  sinv w -> SendTransportFacts.op_ok w o -> op_app_ok o -> sinv (SendTransportFacts.step o w).1.
Proof. intros [Hi Ha] Ho Hd. split; [by apply SendTransportFacts.step_inv|by apply send_keeps_apps]. Qed.
Lemma rstep_sinv (w : RecvTransport.world R) o : rsinv w -> rop_ok w o -> rop_app_ok o -> rsinv (rstep o w).1.
Proof. intros [Hi Ha] Ho Hd. split; [by apply rstep_inv|by apply recv_keeps_apps]. Qed.

Lemma mild_step o :
  (forall w : SendTransport.world H, SendTransportFacts.op_ok w o /\ op_app_ok o) -> mild (SendTransportFacts.step o).
Proof. intros Ho. split; [|apply send_stays_closed]. intros w Hw. by apply step_sinv, Ho; try apply (Ho w). Qed.
Lemma rmild_step o : (forall w : RecvTransport.world R, rop_ok w o /\ rop_app_ok o) -> rmild (rstep o).
Proof. intros Ho. split; [|apply recv_stays_closed]. intros w Hw. by apply rstep_sinv, Ho; try apply (Ho w). Qed.

Lemma mild_ignore {A} (m : ST (SendTransport.world H) A) : mild (ignore m) -> mild m.
Proof. intros [Hk1 Hk2]. split; [|by apply keeps_ignore]. intros w Hw. rewrite <- ignore_state. by apply Hk1. Qed.
Lemma rmild_ignore {A} (m : ST (RecvTransport.world R) A) : rmild (ignore m) -> rmild m.
Proof. intros [Hk1 Hk2]. split; [|by apply keeps_ignore]. intros w Hw. rewrite <- ignore_state. by apply Hk1. Qed.

Lemma mild_read {A} (m : ST (SendTransport.world H) A) : (forall w, (m w).1 = w) -> mild m.
Proof. intros Hm. split; intros w Hw; by rewrite Hm. Qed.
Lemma rmild_read {A} (m : ST (RecvTransport.world R) A) : (forall w, (m w).1 = w) -> rmild m.
Proof. intros Hm. split; intros w Hw; by rewrite Hm. Qed.

Lemma on_send_safe {A} t (m : ST (SendTransport.world H) A) o h :
  good h -> sends h !! t = Some o -> sinv (m (ow_world o)).1 ->
  (SendTransport.closed (ow_world o) = true -> SendTransport.closed (m (ow_world o)).1 = true) ->
  safe good (on_send t m) (fun _ h' => sends h' = <[t := with_world (m (ow_world o)).1 o]> (sends h) /\
    handles h' = handles h /\ listeners h' = listeners h /\ recvs h' = recvs h /\ devices h' = devices h) h.
Proof.
  intros G Ho Hi Hc. unfold safe, on_send. rewrite Ho. destruct (m (ow_world o)) as [w r] eqn:E. simpl in *.
  eexists _, r. split; [reflexivity|]. split; [|done]. by eapply on_send_good.
Qed.
Lemma on_recv_safe {A} t (m : ST (RecvTransport.world R) A) o h :
  good h -> recvs h !! t = Some o -> rsinv (m (ow_world o)).1 ->
  (RecvTransport.closed (ow_world o) = true -> RecvTransport.closed (m (ow_world o)).1 = true) ->
  safe good (on_recv t m) (fun _ h' => recvs h' = <[t := with_world (m (ow_world o)).1 o]> (recvs h) /\
    handles h' = handles h /\ listeners h' = listeners h /\ sends h' = sends h /\ devices h' = devices h) h.
Proof.
  intros G Ho Hi Hc. unfold safe, on_recv. rewrite Ho. destruct (m (ow_world o)) as [w r] eqn:E. simpl in *.
  eexists _, r. split; [reflexivity|]. split; [|done]. by eapply on_recv_good.
Qed.

(** An object may be used after its transport was deleted, because it was closed
    before. *)
Lemma alive_unreached {W} (b : bool) (o : owner W) h :
  (ow_live o = false -> b = false) -> alive (R := R) (H := H) b o h = Some (h, Ok tt).
Proof. unfold alive. destruct (ow_live o), b; intros Hb; try done. by specialize (Hb eq_refl). Qed.

Lemma on_send_object {A} (reached : SendTransport.world H -> Z -> bool) (m : Z -> ST (SendTransport.world H) A) t p h :
  good h -> is_Some (sends h !! t) -> mild (m p) ->
  (forall w, sinv w -> SendTransport.closed w = true -> reached w p = false) ->
  safe good (let+ o := send_at t in do+ alive (reached (ow_world o) p) o in on_send t (m p)) anything h.
Proof.
  intros G [o Ho] [Hi Hc] Hr. apply (safe_get_follow good (fun h => sends h !! t) _ o); [done|].
  destruct (g_sends h G t o Ho) as (_ & Hinv & Hdead & _).
  unfold safe, jbind. rewrite alive_unreached by (intros Hd; by apply Hr, Hdead).
  eapply safe_mono; [apply (on_send_safe t (m p) o h G Ho (Hi _ Hinv))|done]. intros E. by apply Hc.
Qed.
Lemma on_recv_object {A} (reached : RecvTransport.world R -> Z -> bool) (m : Z -> ST (RecvTransport.world R) A) t p h :
  good h -> is_Some (recvs h !! t) -> rmild (m p) ->
  (forall w, rsinv w -> RecvTransport.closed w = true -> reached w p = false) ->
  safe good (let+ o := recv_at t in do+ alive (reached (ow_world o) p) o in on_recv t (m p)) anything h.
Proof.
  intros G [o Ho] [Hi Hc] Hr. apply (safe_get_follow good (fun h => recvs h !! t) _ o); [done|].
  destruct (g_recvs h G t o Ho) as (_ & Hinv & Hdead & _).
  unfold safe, jbind. rewrite alive_unreached by (intros Hd; by apply Hr, Hdead).
  eapply safe_mono; [apply (on_recv_safe t (m p) o h G Ho (Hi _ Hinv))|done]. intros E. by apply Hc.
Qed.

(** The pointer of a pair of the right class. *)
Lemma handle_found {B} j o (f : owned -> JNI (heap H R) B) h :
  handles h !! j = Some o -> (let+ x := handle_at j in f x) h = f o h.
Proof. intros E. unfold handle_at, jbind, jget, follow. by rewrite E. Qed.

Lemma producer_found {B} j t p l (f : Z * Z -> JNI (heap H R) B) h :
  handles h !! j = Some (OwnedProducer t p l) -> (let+ x := producer_of j in f x) h = f (t, p) h.
Proof. intros E. unfold producer_of, handle_at, jbind, jget, follow. by rewrite E. Qed.
Lemma data_producer_found {B} j t p l (f : Z * Z -> JNI (heap H R) B) h :
  handles h !! j = Some (OwnedDataProducer t p l) -> (let+ x := data_producer_of j in f x) h = f (t, p) h.
Proof. intros E. unfold data_producer_of, handle_at, jbind, jget, follow. by rewrite E. Qed.
Lemma consumer_found {B} j t p l (f : Z * Z -> JNI (heap H R) B) h :
  handles h !! j = Some (OwnedConsumer t p l) -> (let+ x := consumer_of j in f x) h = f (t, p) h.
Proof. intros E. unfold consumer_of, handle_at, jbind, jget, follow. by rewrite E. Qed.
Lemma data_consumer_found {B} j t p l (f : Z * Z -> JNI (heap H R) B) h :
  handles h !! j = Some (OwnedDataConsumer t p l) -> (let+ x := data_consumer_of j in f x) h = f (t, p) h.
Proof. intros E. unfold data_consumer_of, handle_at, jbind, jget, follow. by rewrite E. Qed.

Lemma on_producer_safe {A} j reached (m : Z -> ST (SendTransport.world H) A) t p l h :
  good h -> handles h !! j = Some (OwnedProducer t p l) -> mild (m p) ->
  (forall w, sinv w -> SendTransport.closed w = true -> reached w p = false) ->
  safe good (on_producer j reached m) anything h.
Proof.
  intros G Hj Hm Hr. destruct (g_handles h G j _ Hj) as (_ & _ & Ht).
  unfold on_producer, safe. erewrite producer_found by done. by apply on_send_object.
Qed.
Lemma on_data_producer_safe {A} j reached (m : Z -> ST (SendTransport.world H) A) t p l h :
  good h -> handles h !! j = Some (OwnedDataProducer t p l) -> mild (m p) ->
  (forall w, sinv w -> SendTransport.closed w = true -> reached w p = false) ->
  safe good (on_data_producer j reached m) anything h.
Proof.
  intros G Hj Hm Hr. destruct (g_handles h G j _ Hj) as (_ & _ & Ht).
  unfold on_data_producer, safe. erewrite data_producer_found by done. by apply on_send_object.
Qed.
Lemma on_consumer_safe {A} j reached (m : Z -> ST (RecvTransport.world R) A) t p l h :
  good h -> handles h !! j = Some (OwnedConsumer t p l) -> rmild (m p) ->
  (forall w, rsinv w -> RecvTransport.closed w = true -> reached w p = false) ->
  safe good (on_consumer j reached m) anything h.
Proof.
  intros G Hj Hm Hr. destruct (g_handles h G j _ Hj) as (_ & _ & Ht).
  unfold on_consumer, safe. erewrite consumer_found by done. by apply on_recv_object.
Qed.
Lemma on_data_consumer_safe {A} j reached (m : Z -> ST (RecvTransport.world R) A) t p l h :
  good h -> handles h !! j = Some (OwnedDataConsumer t p l) -> rmild (m p) ->
  (forall w, rsinv w -> RecvTransport.closed w = true -> reached w p = false) ->
  safe good (on_data_consumer j reached m) anything h.
Proof.
  intros G Hj Hm Hr. destruct (g_handles h G j _ Hj) as (_ & _ & Ht).
  unfold on_data_consumer, safe. erewrite data_consumer_found by done. by apply on_recv_object.
Qed.

(** Once its transport is closed, no method of an object reaches the transport. *)
Lemma closed_not_open (w : SendTransport.world H) p :
  sinv w -> SendTransport.closed w = true ->
  producer_open w p = false /\ data_producer_open w p = false.
Proof.
  intros [Hi _] Hc. destruct (SendTransportFacts.closed_all w Hi Hc) as [Hk1 Hk2].
  unfold producer_open, data_producer_open. split.
  - destruct (producer_heap w !! p) as [P|] eqn:E; [|done]. by rewrite (Hk1 p P E).
  - destruct (SendTransport.data_heap w !! p) as [P|] eqn:E; [|done]. by rewrite (Hk2 p P E).
Qed.
Lemma rclosed_not_open (w : RecvTransport.world R) p :
  rsinv w -> RecvTransport.closed w = true -> consumer_open w p = false /\ data_consumer_open w p = false.
Proof.
  intros [Hi _] Hc. destruct (rclosed_all w Hi Hc) as [Hk1 Hk2].
  unfold consumer_open, data_consumer_open. split.
  - destruct (RecvTransport.consumer_heap w !! p) as [P|] eqn:E; [|done]. by rewrite (Hk1 p P E).
  - destruct (RecvTransport.data_heap w !! p) as [P|] eqn:E; [|done]. by rewrite (Hk2 p P E).
Qed.

(** The other conditions ask for an open object too. *)
Lemma implied_open (w : SendTransport.world H) p :
  producer_open w p = false ->
  sets_encryptor w p = false /\ (forall layer, sets_layer layer w p = false) /\
  (forall track, replaces_track track w p = false).
Proof.
  unfold producer_open, sets_encryptor, sets_layer, replaces_track.
  destruct (producer_heap w !! p) as [P|]; [|done]. intros ->. split; [done|]. split; [done|]. by intros [track|].
Qed.
Lemma implied_ropen (w : RecvTransport.world R) p : consumer_open w p = false -> sets_decryptor w p = false.
Proof. unfold consumer_open, sets_decryptor. destruct (RecvTransport.consumer_heap w !! p) as [C|]; [|done]. by intros ->. Qed.

Lemma safe_void {A} (m : JNI (heap H R) A) h : safe good m anything h -> safe good (void m) anything h.
Proof. intros Hm. eapply safe_bind; [exact Hm|]. intros a h' G _. by apply safe_ret. Qed.
Lemma safe_dumped j h : good h -> safe good (dumped j) anything h.
Proof. intros G. eapply safe_bind; [by apply (safe_lift good _ anything)|]. intros a h' G' _. by apply safe_ret. Qed.
Lemma safe_then_dumped {A} (m : JNI (heap H R) A) f h :
  safe good m anything h -> safe good (let+ a := m in dumped (f a)) anything h.
Proof. intros Hm. eapply safe_bind; [exact Hm|]. intros a h' G _. by apply safe_dumped. Qed.
Lemma safe_caught_any {A} (m : JNI (heap H R) A) h : safe good m anything h -> safe good (caught m) anything h.
Proof. intros Hm. eapply safe_mono; [by apply safe_caught|done]. Qed.
End Methods.

(** ** Every call of a disciplined program is safe *)

Section Calls.
Context {H R : Type} `{SendHandlerLaws H} `{RecvHandlerLaws R} `{FloatText}.
Context (newSend : jlistener -> json -> json -> json -> json -> json -> json -> res H)
        (newRecv : jlistener -> json -> json -> json -> json -> res R)
        (ts : gmap Z Track) (channel : Z -> data_channel).
Implicit Types (h : heap H R).

Abbreviation anything := (fun _ _ => True).

Ltac reads := intros ?w; unfold Producer_IsPaused, RecvTransport.Consumer_IsPaused, producer_at, SendTransport.data_at, SendTransport.track_at,
    RecvTransport.consumer_at, RecvTransport.data_at, RecvTransport.track_at,
    SendTransport.deref, RecvTransport.deref, st_bind, st_get, st_ret, st_lift;
  repeat (case_match; simplify_eq); simpl; try done.

Lemma producer_call_safe j c t p l h :
  good h -> handles h !! j = Some (OwnedProducer t p l) -> safe good (run_producer j c) anything h.
Proof.
  intros G Hj.
  assert (forall A (m : Z -> ST (SendTransport.world H) A) reached, mild (m p) ->
    (forall w, producer_open w p = false -> reached w p = false) -> safe good (on_producer j reached m) anything h) as Hon.
  { intros A m reached Hm Hr. eapply on_producer_safe; [done..|]. intros w Hi Hc. by apply Hr, closed_not_open. }
  assert (forall o, (forall w : SendTransport.world H, SendTransportFacts.op_ok w o /\ op_app_ok o) -> mild (SendTransportFacts.step o))
    as Hs by apply mild_step.
  destruct c; cbn [run_producer];
    unfold JNI_Producer_GetId, JNI_Producer_IsClosed, JNI_Producer_GetKind, JNI_Producer_GetTrack, JNI_Producer_IsPaused,
      JNI_Producer_GetMaxSpatialLayer, JNI_Producer_GetAppData, JNI_Producer_GetRtpParameters, JNI_Producer_GetStats,
      JNI_Producer_Resume, JNI_Producer_Pause, JNI_Producer_Close, JNI_Producer_SetFrameEncryptor,
      JNI_Producer_SetMaxSpatialLayer, JNI_Producer_ReplaceTrack;
    try apply safe_void; try apply safe_caught_any; try apply safe_then_dumped; apply Hon; try done;
    try solve [apply mild_read; reads].
  - apply mild_ignore, (Hs (OpProducerGetStats p)). done.
  - by apply (Hs (OpResume p)).
  - by apply (Hs (OpPause p)).
  - by apply (Hs (OpProducerClose p)).
  - by apply (Hs (OpSetFrameEncryptor p encryptor)).
  - intros w Hw. by apply implied_open.
  - by apply (Hs (OpSetMaxSpatialLayer p (u8 layer))).
  - intros w Hw. by apply implied_open.
  - by apply (Hs (OpReplaceTrack p (nullable track))).
  - intros w Hw. by apply implied_open.
Qed.

Lemma data_producer_call_safe j c t p l h :
  good h -> handles h !! j = Some (OwnedDataProducer t p l) -> safe good (run_data_producer channel j c) anything h.
Proof.
  intros G Hj.
  assert (forall A (m : Z -> ST (SendTransport.world H) A) reached, mild (m p) ->
    (forall w, data_producer_open w p = false -> reached w p = false) ->
    safe good (on_data_producer j reached m) anything h) as Hon.
  { intros A m reached Hm Hr. eapply on_data_producer_safe; [done..|]. intros w Hi Hc. by apply Hr, closed_not_open. }
  destruct c; cbn [run_data_producer];
    unfold JNI_DataProducer_GetId, JNI_DataProducer_GetLocalId, JNI_DataProducer_GetSctpStreamParameters,
      JNI_DataProducer_GetReadyState, JNI_DataProducer_GetLabel, JNI_DataProducer_GetProtocol,
      JNI_DataProducer_GetBufferedAmount, JNI_DataProducer_GetAppData, JNI_DataProducer_IsClosed,
      JNI_DataProducer_Close, JNI_DataProducer_Send, on_send_channel;
    try apply safe_void; try apply safe_then_dumped; apply Hon; try done; try solve [apply mild_read; reads].
  - by apply (mild_step (OpDataProducerClose p)).
  - by apply (mild_step (OpDataSend p data)).
Qed.

Lemma consumer_call_safe j c t p l h :
  good h -> handles h !! j = Some (OwnedConsumer t p l) -> safe good (run_consumer j c) anything h.
Proof.
  intros G Hj.
  assert (forall A (m : Z -> ST (RecvTransport.world R) A) reached, rmild (m p) ->
    (forall w, consumer_open w p = false -> reached w p = false) -> safe good (on_consumer j reached m) anything h) as Hon.
  { intros A m reached Hm Hr. eapply on_consumer_safe; [done..|]. intros w Hi Hc. by apply Hr, rclosed_not_open. }
  assert (forall o, (forall w : RecvTransport.world R, rop_ok w o /\ rop_app_ok o) -> rmild (rstep o)) as Hs by apply rmild_step.
  destruct c; cbn [run_consumer];
    unfold JNI_Consumer_GetNativeId, JNI_Consumer_GetLocalId, JNI_Consumer_GetProducerId, JNI_Consumer_IsClosed,
      JNI_Consumer_IsPaused, JNI_Consumer_GetKind, JNI_Consumer_GetTrack, JNI_Consumer_GetRtpParameters,
      JNI_Consumer_GetAppData, JNI_Consumer_Resume, JNI_Consumer_Pause, JNI_Consumer_GetStats, JNI_Consumer_Close,
      JNI_Consumer_SetFrameDecryptor;
    try apply safe_void; try apply safe_caught_any; try apply safe_then_dumped; apply Hon; try done;
    try solve [apply rmild_read; reads].
  - by apply (Hs (RResume p)).
  - by apply (Hs (RPause p)).
  - apply rmild_ignore, (Hs (RConsumerGetStats p)). done.
  - by apply (Hs (RConsumerClose p)).
  - by apply (Hs (RSetFrameDecryptor p decryptor)).
  - intros w Hw. by apply implied_ropen.
Qed.

Lemma data_consumer_call_safe j c t p l h :
  good h -> handles h !! j = Some (OwnedDataConsumer t p l) -> safe good (run_data_consumer channel j c) anything h.
Proof.
  intros G Hj.
  assert (forall A (m : Z -> ST (RecvTransport.world R) A) reached, rmild (m p) ->
    (forall w, data_consumer_open w p = false -> reached w p = false) ->
    safe good (on_data_consumer j reached m) anything h) as Hon.
  { intros A m reached Hm Hr. eapply on_data_consumer_safe; [done..|]. intros w Hi Hc. by apply Hr, rclosed_not_open. }
  destruct c; cbn [run_data_consumer];
    unfold JNI_DataConsumer_GetId, JNI_DataConsumer_GetDataProducerId, JNI_DataConsumer_GetLocalId,
      JNI_DataConsumer_GetSctpStreamParameters, JNI_DataConsumer_GetReadyState, JNI_DataConsumer_GetLabel,
      JNI_DataConsumer_GetProtocol, JNI_DataConsumer_GetAppData, JNI_DataConsumer_IsClosed, JNI_DataConsumer_Close,
      on_recv_channel;
    try apply safe_void; try apply safe_then_dumped; apply Hon; try done; try solve [apply rmild_read; reads].
  - by apply (rmild_step (RDataConsumerClose p)).
Qed.

(** *** Transports *)

(** A transport whose pair was not freed. *)
Definition live_handle h (t : jtransport) : Prop :=
  match t with
  | JSend j => exists a l, handles h !! j = Some (OwnedSendTransport a l)
  | JRecv j => exists a l, handles h !! j = Some (OwnedRecvTransport a l)
  end.

Lemma live_send_found {B} j a l (f : Z * owner (SendTransport.world H) -> JNI (heap H R) B) h :
  good h -> handles h !! j = Some (OwnedSendTransport a l) ->
  exists o, sends h !! a = Some o /\ ow_live o = true /\ (let+ x := live_send j in f x) h = f (a, o) h.
Proof.
  intros G Hj. destruct (g_handles h G j _ Hj) as (_ & _ & o & Ho & Hlive). exists o. do 2 (split; [done|]).
  unfold live_send, JNI_SendTransport_GetNativeTransport, handle_at, send_at, jbind, jget, follow. rewrite Hj. simpl.
  rewrite Ho. by rewrite alive_unreached by (by rewrite Hlive).
Qed.
Lemma live_recv_found {B} j a l (f : Z * owner (RecvTransport.world R) -> JNI (heap H R) B) h :
  good h -> handles h !! j = Some (OwnedRecvTransport a l) ->
  exists o, recvs h !! a = Some o /\ ow_live o = true /\ (let+ x := live_recv j in f x) h = f (a, o) h.
Proof.
  intros G Hj. destruct (g_handles h G j _ Hj) as (_ & _ & o & Ho & Hlive). exists o. do 2 (split; [done|]).
  unfold live_recv, JNI_RecvTransport_GetNativeTransport, handle_at, recv_at, jbind, jget, follow. rewrite Hj. simpl.
  rewrite Ho. by rewrite alive_unreached by (by rewrite Hlive).
Qed.

(** [ExtractNativeTransport] finds it. *)
Lemma extract_safe {B} t (f : Z * (owner (SendTransport.world H) + owner (RecvTransport.world R)) -> JNI (heap H R) B) h :
  good h -> live_handle h t ->
  (forall a o, sends h !! a = Some o -> safe good (f (a, inl o)) anything h) ->
  (forall a o, recvs h !! a = Some o -> safe good (f (a, inr o)) anything h) ->
  safe good (let+ x := ExtractNativeTransport t in f x) anything h.
Proof.
  intros G Ht Hs Hr. destruct t as [j|j]; destruct Ht as (a & l & Hj).
  - destruct (live_send_found j a l (fun '(a, o) => f (a, inl o)) h G Hj) as (o & Ho & Hlive & _).
    unfold safe, ExtractNativeTransport, JNI_SendTransport_GetNativeTransport, handle_at, send_at.
    unfold jbind, jget, follow. rewrite Hj. simpl. rewrite Ho, alive_unreached by (by rewrite Hlive). by apply Hs.
  - destruct (live_recv_found j a l (fun '(a, o) => f (a, inr o)) h G Hj) as (o & Ho & Hlive & _).
    unfold safe, ExtractNativeTransport, JNI_RecvTransport_GetNativeTransport, handle_at, recv_at.
    unfold jbind, jget, follow. rewrite Hj. simpl. rewrite Ho, alive_unreached by (by rewrite Hlive). by apply Hr.
Qed.

Lemma on_transport_safe {A} t (send : ST (SendTransport.world H) A) (recv : ST (RecvTransport.world R) A) h :
  good h -> live_handle h t -> mild send -> rmild recv -> safe good (on_transport t send recv) anything h.
Proof.
  intros G Ht [Hs1 Hs2] [Hr1 Hr2]. apply extract_safe; [done..| |]; intros a o Ho.
  - destruct (g_sends h G a o Ho) as (_ & Hi & _). eapply safe_mono; [apply (on_send_safe a send o)|done]; auto.
  - destruct (g_recvs h G a o Ho) as (_ & Hi & _). eapply safe_mono; [apply (on_recv_safe a recv o)|done]; auto.
Qed.

Lemma safe_parsed_eq {A B} (r : res A) (f : A -> JNI (heap H R) B) h :
  good h -> (forall a, r = Ok a -> safe good (f a) anything h) -> safe good (let+ a := jlift r in f a) anything h.
Proof.
  intros G Hf. unfold safe, jbind, jlift. destruct r as [a|e|u|d]; [by apply Hf|..];
    (eexists _, _; split; [reflexivity|]; by split).
Qed.
Lemma safe_parsed {A B} (r : res A) (f : A -> JNI (heap H R) B) h :
  good h -> (forall a, safe good (f a) anything h) -> safe good (let+ a := jlift r in f a) anything h.
Proof. intros G Hf. apply safe_parsed_eq; auto. Qed.

Lemma transport_call_safe t c h : good h -> live_handle h t -> safe good (run_transport t c) anything h.
Proof.
  intros G Ht. destruct c; cbn [run_transport];
    unfold JNI_Transport_GetId, JNI_Transport_GetConnectionState, JNI_Transport_GetAppData, JNI_Transport_GetStats,
      JNI_Transport_IsClosed, JNI_Transport_Close, JNI_Transport_RestartIce, JNI_Transport_UpdateIceServers;
    try apply safe_void; try apply safe_caught_any; try apply safe_then_dumped;
    try (apply safe_parsed; [done|intros ?v]).
  1, 2, 5: apply extract_safe; [done..| |]; intros a o Ho; by apply safe_ret.
  1: apply extract_safe; [done..| |]; intros a o Ho; by apply safe_dumped.
  all: apply on_transport_safe; try done.
  - apply mild_ignore. by apply (mild_step OpGetStats).
  - apply rmild_ignore. by apply (rmild_step RGetStats).
  - by apply (mild_step OpClose).
  - by apply (rmild_step RClose).
  - by apply (mild_step (OpRestartIce v)).
  - by apply (rmild_step (RRestartIce v)).
  - by apply (mild_step (OpUpdateIceServers v)).
  - by apply (rmild_step (RUpdateIceServers v)).
Qed.

(** *** New producers and consumers *)

Lemma device_if_safe {B} (reads : bool) d (f : unit -> JNI (heap H R) B) Q h :
  (reads = true -> is_Some (devices h !! d)) -> safe good (f tt) Q h ->
  safe good (let+ u := device_if reads d in f u) Q h.
Proof.
  intros Hd Hf. unfold safe, jbind, device_if. destruct reads; [|exact Hf].
  destruct (Hd eq_refl) as [x Hx]. unfold device_at, jbind, jget, follow. by rewrite Hx.
Qed.

(** The last two steps: the call of the library and the pair for Java. *)
Lemma create_on_send t (m : ST (SendTransport.world H) Z) (pair : Z -> owned) o h l :
  good h -> sends h !! t = Some o -> pending l h ->
  sinv (m (ow_world o)).1 ->
  (SendTransport.closed (ow_world o) = true -> SendTransport.closed (m (ow_world o)).1 = true) ->
  (forall p, listener_of (pair p) = l /\ owns (pair p) = None /\
    match pair p with OwnedProducer t' _ _ | OwnedDataProducer t' _ _ => t' = t | _ => False end) ->
  safe good (let+ p := on_send t m in new_owned (pair p)) anything h.
Proof.
  intros G Ho [Hl Hp] Hi Hc Hpair. eapply safe_bind; [by apply (on_send_safe t m o)|].
  intros p h1 G1 (E1 & E2 & E3 & _). destruct (Hpair p) as (Hlp & Hown & Ht).
  eapply safe_mono; [apply new_owned_safe|done]; [done| | |by rewrite Hown].
  - split; [by rewrite Hlp, E3|]. destruct (pair p); try done; subst; rewrite E1, lookup_insert_eq; by eexists.
  - rewrite Hlp. split; [by rewrite E3|by rewrite E2].
Qed.
Lemma create_on_recv t (m : ST (RecvTransport.world R) Z) (pair : Z -> owned) o h l :
  good h -> recvs h !! t = Some o -> pending l h -> rsinv (m (ow_world o)).1 ->
  (RecvTransport.closed (ow_world o) = true -> RecvTransport.closed (m (ow_world o)).1 = true) ->
  (forall p, listener_of (pair p) = l /\ owns (pair p) = None /\
    match pair p with OwnedConsumer t' _ _ | OwnedDataConsumer t' _ _ => t' = t | _ => False end) ->
  safe good (let+ p := on_recv t m in new_owned (pair p)) anything h.
Proof.
  intros G Ho [Hl Hp] Hi Hc Hpair. eapply safe_bind; [by apply (on_recv_safe t m o)|].
  intros p h1 G1 (E1 & E2 & E3 & _). destruct (Hpair p) as (Hlp & Hown & Ht).
  eapply safe_mono; [apply new_owned_safe|done]; [done| | |by rewrite Hown].
  - split; [by rewrite Hlp, E3|]. destruct (pair p); try done; subst; rewrite E1, lookup_insert_eq; by eexists.
  - rewrite Hlp. split; [by rewrite E3|by rewrite E2].
Qed.

Lemma json_or_wf j v : json_or (JObj []) j = Ok v -> well_formed v = true.
Proof.
  destruct j as [s|]; simpl; [|by intros [= <-]]. intros E. exact (post_Ok_elim _ _ _ _ (json_parse_post s) E).
Qed.

(** What Java answers becomes the id of the new producer. *)
Lemma OnProduce_answer j_onProduce kind params appData id :
  SendTransportListenerJni_OnProduce j_onProduce kind params appData = Ok id ->
  exists k p d, j_onProduce k p d = Answer (Some id).
Proof.
  unfold SendTransportListenerJni_OnProduce. intros E. run E.
  destruct (j_onProduce _ _ _) as [[x|]|] eqn:Ej; try done; simplify_eq/=; eauto.
Qed.
Lemma OnProduceData_answer j_onProduceData params label protocol appData id :
  SendTransportListenerJni_OnProduceData j_onProduceData params label protocol appData = Ok id ->
  exists p k q d, j_onProduceData p k q d = Answer (Some id).
Proof.
  unfold SendTransportListenerJni_OnProduceData. intros E. run E.
  destruct (j_onProduceData _ _ _ _) as [[x|]|] eqn:Ej; try done; simplify_eq/=. by eexists _, _, _, _.
Qed.

Lemma produce_safe j onProduce track encodings options codec appData a l o h :
  good h -> handles h !! j = Some (OwnedSendTransport a l) -> sends h !! a = Some o ->
  (forall k p d id, onProduce k p d = Answer (Some id) -> producers (ow_world o) !! id = None) ->
  safe good (JNI_SendTransport_Produce j onProduce track encodings options codec appData) anything h.
Proof.
  intros G Hj Ho Hid. apply safe_caught_any. eapply safe_bind; [by apply new_listener_safe|].
  intros l1 h1 G1 (_ & _ & Hpend & E1 & E2 & _ & E4). cbv zeta. do 2 (apply safe_parsed; [done|intros ?v]).
  apply safe_parsed_eq; [done|intros data Hdata%json_or_wf].
  rewrite <- E1 in Hj. match goal with |- safe _ (jbind _ ?f) _ _ =>
    destruct (live_send_found j a l f h1 G1 Hj) as (o' & Ho' & Hlive & E) end.
  rewrite E2, Ho in Ho'. injection Ho' as <-. rewrite <- E2 in Ho. unfold safe. rewrite E. clear E.
  destruct (g_sends h1 G1 a o Ho) as (_ & Hi & _ & Hdev).
  apply device_if_safe.
  { unfold reads_can_produce. destruct (nullable track); [|done]. intros [Hopen%negb_true_iff _]%andb_true_iff. by apply Hdev. }
  set (m := Produce _ _ _ _ _ _ _).
  assert (sinv (m (ow_world o)).1) as Hinv.
  { unfold m. rewrite <- ignore_state. apply (step_sinv (ow_world o) (OpProduce _ _ _ _ _ _ _) Hi); [|done].
    split; [apply fresh_address_spec|]. intros kind params data' id Eid. apply OnProduce_answer in Eid as (k & p & d & Ej). eauto. }
  eapply (create_on_send a m (fun p => OwnedProducer a p l1) o); try done.
  intros Hc. unfold m. rewrite <- ignore_state. by apply (send_stays_closed (OpProduce _ _ _ _ _ _ _)).
Qed.

Lemma produce_data_safe j onProduceData label protocol ordered retransmits lifetime appData a l o h :
  good h -> handles h !! j = Some (OwnedSendTransport a l) -> sends h !! a = Some o ->
  SendTransport.closed (ow_world o) = false ->
  (forall p k q d id, onProduceData p k q d = Answer (Some id) -> dataProducers (ow_world o) !! id = None) ->
  safe good (JNI_SendTransport_ProduceData j onProduceData label protocol ordered retransmits lifetime appData) anything h.
Proof.
  intros G Hj Ho Hopen Hid. apply safe_caught_any. eapply safe_bind; [by apply new_listener_safe|].
  intros l1 h1 G1 (_ & _ & Hpend & E1 & E2 & _ & E4). cbv zeta. apply safe_parsed_eq; [done|intros data Hdata%json_or_wf].
  rewrite <- E1 in Hj. match goal with |- safe _ (jbind _ ?f) _ _ =>
    destruct (live_send_found j a l f h1 G1 Hj) as (o' & Ho' & Hlive & E) end.
  rewrite E2, Ho in Ho'. injection Ho' as <-. rewrite <- E2 in Ho. unfold safe. rewrite E. clear E.
  destruct (g_sends h1 G1 a o Ho) as (_ & Hi & _ & Hdev).
  set (m := ProduceData _ _ _ _ _ _ _ _).
  assert (sinv (m (ow_world o)).1) as Hinv.
  { unfold m. rewrite <- ignore_state. apply (step_sinv (ow_world o) (OpProduceData _ _ _ _ _ _ _ _) Hi); [|done].
    split; [done|]. split; [apply fresh_address_spec|]. intros params k q d id Eid.
    apply OnProduceData_answer in Eid as (p' & k' & q' & d' & Ej). eauto. }
  eapply (create_on_send a m (fun p => OwnedDataProducer a p l1) o); try done. congruence.
Qed.

Lemma consume_safe j id producerId kind params appData a l o h :
  good h -> handles h !! j = Some (OwnedRecvTransport a l) -> recvs h !! a = Some o ->
  (forall s, id = Some s -> RecvTransport.consumers (ow_world o) !! s = None) ->
  safe good (JNI_RecvTransport_Consume j id producerId kind params appData) anything h.
Proof.
  intros G Hj Ho Hid. apply safe_caught_any. eapply safe_bind; [by apply new_listener_safe|].
  intros l1 h1 G1 (_ & _ & Hpend & E1 & _ & E2 & E4).
  apply safe_parsed_eq; [done|intros s Es]. assert (id = Some s) as -> by (destruct id; naive_solver).
  cbv zeta. do 3 (apply safe_parsed; [done|intros ?v]). apply safe_parsed_eq; [done|intros data Hdata%json_or_wf].
  rewrite <- E1 in Hj. match goal with |- safe _ (jbind _ ?f) _ _ =>
    destruct (live_recv_found j a l f h1 G1 Hj) as (o' & Ho' & Hlive & E) end.
  rewrite E2, Ho in Ho'. injection Ho' as <-. rewrite <- E2 in Ho. unfold safe. rewrite E. clear E.
  destruct (g_recvs h1 G1 a o Ho) as (_ & Hi & _ & Hdev).
  apply device_if_safe.
  { unfold reads_capabilities. rewrite !andb_true_iff. intros ((((Hopen%negb_true_iff & _) & _) & _) & _). by apply Hdev. }
  set (m := RecvTransport.Consume _ _ _ _ _ _).
  assert (rsinv (m (ow_world o)).1) as Hinv.
  { unfold m. rewrite <- ignore_state. apply (rstep_sinv (ow_world o) (RConsume _ _ _ _ _ _) Hi); [|done].
    split; [apply fresh_address_spec|by apply Hid]. }
  eapply (create_on_recv a m (fun c => OwnedConsumer a c l1) o); try done.
  intros Hc. unfold m. rewrite <- ignore_state. by apply (recv_stays_closed (RConsume _ _ _ _ _ _)).
Qed.

Lemma consume_data_safe j id producerId streamId label protocol appData a l o h :
  good h -> handles h !! j = Some (OwnedRecvTransport a l) -> recvs h !! a = Some o ->
  (forall s, id = Some s -> RecvTransport.dataConsumers (ow_world o) !! s = None) ->
  safe good (JNI_RecvTransport_ConsumeData j id producerId streamId label protocol appData) anything h.
Proof.
  intros G Hj Ho Hid. apply safe_caught_any. eapply safe_bind; [by apply new_listener_safe|].
  intros l1 h1 G1 (_ & _ & Hpend & E1 & _ & E2 & E4).
  apply safe_parsed_eq; [done|intros s Es]. assert (id = Some s) as -> by (destruct id; naive_solver).
  cbv zeta. apply safe_parsed; [done|intros v]. apply safe_parsed_eq; [done|intros data Hdata%json_or_wf].
  rewrite <- E1 in Hj. match goal with |- safe _ (jbind _ ?f) _ _ =>
    destruct (live_recv_found j a l f h1 G1 Hj) as (o' & Ho' & Hlive & E) end.
  rewrite E2, Ho in Ho'. injection Ho' as <-. rewrite <- E2 in Ho. unfold safe. rewrite E. clear E.
  destruct (g_recvs h1 G1 a o Ho) as (_ & Hi & _ & Hdev).
  set (m := RecvTransport.ConsumeData _ _ _ _ _ _ _).
  assert (rsinv (m (ow_world o)).1) as Hinv.
  { unfold m. rewrite <- ignore_state. apply (rstep_sinv (ow_world o) (RConsumeData _ _ _ _ _ _ _) Hi); [|done].
    split; [apply fresh_address_spec|by apply Hid]. }
  eapply (create_on_recv a m (fun c => OwnedDataConsumer a c l1) o); try done.
  intros Hc. unfold m. rewrite <- ignore_state. by apply (recv_stays_closed (RConsumeData _ _ _ _ _ _ _)).
Qed.

(** *** Devices *)

(** Devices come, change and go; the open transports keep theirs. *)
Lemma good_devices h ds :
  good h ->
  (forall t o, sends h !! t = Some o -> ow_live o = true -> SendTransport.closed (ow_world o) = false ->
     is_Some (ds !! ow_device o)) ->
  (forall t o, recvs h !! t = Some o -> ow_live o = true -> RecvTransport.closed (ow_world o) = false ->
     is_Some (ds !! ow_device o)) ->
  good (set_devices ds h).
Proof.
  intros [G1 G2 G3 G4 G5 G6 G7 G8 G9] Hs Hr. split; simpl; try done.
  - intros t o Ho. destruct (G3 t o Ho) as (Ht & Hi & Hd & _). do 3 (split; [done|]). by apply (Hs t).
  - intros t o Ho. destruct (G4 t o Ho) as (Ht & Hi & Hd & _). do 3 (split; [done|]). by apply (Hr t).
Qed.

Lemma good_device_set h d x : good h -> good (set_devices (<[d := x]> (devices h)) h).
Proof.
  intros G. apply good_devices; [done|..]; intros t o Ho Hl Hc; apply lookup_insert_is_Some;
    destruct (decide (d = ow_device o)); auto; right; (split; [done|]).
  - destruct (g_sends h G t o Ho) as (_ & _ & _ & Hd). auto.
  - destruct (g_recvs h G t o Ho) as (_ & _ & _ & Hd). auto.
Qed.

Lemma on_device_safe {A} d (m : ST Device.t A) h :
  good h -> is_Some (devices h !! d) -> safe good (on_device d m) anything h.
Proof.
  intros G [x Hx]. unfold safe, on_device. rewrite Hx. destruct (m x) as [x' r].
  eexists _, _. split; [reflexivity|]. split; [by apply good_device_set|done].
Qed.

Lemma device_found {B} d x (f : Device.t -> JNI (heap H R) B) h :
  devices h !! d = Some x -> (let+ y := device_at d in f y) h = f x h.
Proof. intros E. unfold device_at, jbind, jget, follow. by rewrite E. Qed.

(** *** New transports *)

Lemma check_transport_app d ice candidates dtls sctp appData tp :
  Device.check_transport d ice candidates dtls sctp appData = Ok tp -> Device.tp_appData tp = appData.
Proof. unfold Device.check_transport. intros E. do 6 (apply bind_Ok_inv in E as (? & _ & E)). by injection E as <-. Qed.

Lemma arguments_safe {B} d id ice candidates dtls sctp appData
    (f : string * Device.t * Device.transport_parameters -> JNI (heap H R) B) h :
  good h -> is_Some (devices h !! d) ->
  (forall x, well_formed (Device.tp_appData x.2) = true -> safe good (f x) anything h) ->
  safe good (let+ x := transport_arguments d id ice candidates dtls sctp appData in f x) anything h.
Proof.
  intros G [x Hx] Hf. eapply (safe_bind good _ _ (fun y h' => h' = h /\ well_formed (Device.tp_appData y.2) = true)).
  - unfold transport_arguments. unfold safe, jbind, jlift.
    repeat (match goal with |- context [match ?r with Ok _ => _ | Throw _ => _ | Undef _ => _ | Fatal _ => _ end] =>
      destruct r eqn:? end; [|eexists _, _; (split; [reflexivity|]); by split..]).
    unfold device_at, jbind, jget, follow. rewrite Hx. cbv beta iota.
    destruct (Device.check_transport _ _ _ _ _ _) as [tp|e|u|b] eqn:E; (eexists _, _; split; [reflexivity|]); [|by split..].
    split; [done|]. intros y [= <-]. split; [done|]. simpl. rewrite (check_transport_app _ _ _ _ _ _ _ E). by eapply json_or_wf.
  - intros y h' _ [-> Hy]. by apply Hf.
Qed.

Lemma new_send_inv l d tp w : new_SendTransport newSend ts l d tp = Ok w -> sinv w.
Proof.
  unfold new_SendTransport. intros E. apply bind_Ok_inv in E as ([[w0 a] b] & _ & E).
  apply bind_Ok_inv in E as (x & _ & E). apply bind_Ok_inv in E as ([[w1 a1] b1] & E & Ew). injection Ew as <-.
  unfold SendTransport_make in E. apply bind_Ok_inv in E as ([has size] & _ & E).
  do 4 (apply bind_Ok_inv in E as (? & _ & E)). injection E as <- _ _. split; [split; apply registry_empty|by split].
Qed.

Lemma add_send_safe id appData d l w h :
  good h -> pending l h -> is_Some (devices h !! d) -> sinv w -> well_formed appData = true ->
  safe good (let+ t := alloc in
             do+ jmodify (fun h => set_sends (<[t := Owner id appData d l true w]> (sends h)) h) in
             new_owned (OwnedSendTransport t l)) anything h.
Proof.
  intros G [Hl Hp] Hd Hi Happ. pose proof (good_alloc h G) as [G1 G2 G3 G4 G5 G6 G7 G8 G9].
  eapply (safe_bind good _ _ (fun t h' => t = next h /\ h' = set_next (next h + 1) h)).
  { eexists _, _. split; [reflexivity|]. split; [by apply good_alloc|]. by intros a [= <-]. }
  intros t h1 _ [-> ->]. set (h1 := set_next _ h).
  set (h2 := set_sends (<[next h := Owner id appData d l true w]> (sends h1)) h1).
  assert (sends h !! next h = None) as Hfree.
  { destruct (sends h !! next h) as [o|] eqn:E; [|done]. destruct (g_sends h G _ _ E). lia. }
  assert (good h2) as Gh2.
  { split; unfold h2; simpl; try done.
    - intros t o [[<- <-]|[_ Ho]]%lookup_insert_Some; [|by apply G3]. split; [lia|]. by split.
    - intros j x Hx. destruct (G5 j x Hx) as (Hj & Hin & Hpt). split; [done|]. split; [done|].
      destruct x; try exact Hpt; try (destruct Hpt as (y & Hy & Hlive); exists y);
        simpl; rewrite lookup_insert_ne; try done; intros <-; simpl in *; try congruence.
      all: rewrite Hfree in Hpt; by destruct Hpt.
    - intros t o [[<- <-]|[_ Ho]]%lookup_insert_Some; [done|by apply (G8 t)]. }
  eapply (safe_bind good _ _ (fun _ h' => h' = h2)); [by apply safe_modify|]. intros _ h' _ ->.
  eapply safe_mono; [apply new_owned_safe|done]; [done| |done|].
  - split; [done|]. eexists. unfold h2. simpl. by rewrite lookup_insert_eq.
  - intros k j x [= <-] Hx E. destruct (g_handles h G j x Hx) as (_ & _ & Hpt). destruct x; try done.
    injection E as ->. destruct Hpt as (y & Hy & _). congruence.
Qed.
Lemma add_recv_safe id appData d l w h :
  good h -> pending l h -> is_Some (devices h !! d) -> rsinv w -> well_formed appData = true ->
  safe good (let+ t := alloc in
             do+ jmodify (fun h => set_recvs (<[t := Owner id appData d l true w]> (recvs h)) h) in
             new_owned (OwnedRecvTransport t l)) anything h.
Proof.
  intros G [Hl Hp] Hd Hi Happ. pose proof (good_alloc h G) as [G1 G2 G3 G4 G5 G6 G7 G8 G9].
  eapply (safe_bind good _ _ (fun t h' => t = next h /\ h' = set_next (next h + 1) h)).
  { eexists _, _. split; [reflexivity|]. split; [by apply good_alloc|]. by intros a [= <-]. }
  intros t h1 _ [-> ->]. set (h1 := set_next _ h).
  set (h2 := set_recvs (<[next h := Owner id appData d l true w]> (recvs h1)) h1).
  assert (recvs h !! next h = None) as Hfree.
  { destruct (recvs h !! next h) as [o|] eqn:E; [|done]. destruct (g_recvs h G _ _ E). lia. }
  assert (good h2) as Gh2.
  { split; unfold h2; simpl; try done.
    - intros t o [[<- <-]|[_ Ho]]%lookup_insert_Some; [|by apply G4]. split; [lia|]. by split.
    - intros j x Hx. destruct (G5 j x Hx) as (Hj & Hin & Hpt). split; [done|]. split; [done|].
      destruct x; try exact Hpt; try (destruct Hpt as (y & Hy & Hlive); exists y);
        simpl; rewrite lookup_insert_ne; try done; intros <-; simpl in *; try congruence.
      all: rewrite Hfree in Hpt; by destruct Hpt.
    - intros t o [[<- <-]|[_ Ho]]%lookup_insert_Some; [done|by apply (G9 t)]. }
  eapply (safe_bind good _ _ (fun _ h' => h' = h2)); [by apply safe_modify|]. intros _ h' _ ->.
  eapply safe_mono; [apply new_owned_safe|done]; [done| |done|].
  - split; [done|]. eexists. unfold h2. simpl. by rewrite lookup_insert_eq.
  - intros k j x [= <-] Hx E. destruct (g_handles h G j x Hx) as (_ & _ & Hpt). destruct x; try done.
    injection E as ->. destruct Hpt as (y & Hy & _). congruence.
Qed.

Lemma create_send_safe d jl id ice candidates dtls sctp appData h :
  good h -> is_Some (devices h !! d) ->
  safe good (JNI_Device_CreateSendTransport newSend ts d jl id ice candidates dtls sctp appData) anything h.
Proof.
  intros G Hd. apply safe_caught_any. eapply safe_bind; [by apply new_listener_safe|].
  intros l h1 G1 (_ & _ & Hpend & E1 & E2 & _ & E4). rewrite <- E4 in Hd.
  apply arguments_safe; [done..|]. intros [[id' x] tp] Happ. apply safe_parsed_eq; [done|]. intros w Ew.
  apply add_send_safe; try done. by eapply new_send_inv.
Qed.
Lemma create_recv_safe d jl id ice candidates dtls sctp appData h :
  good h -> is_Some (devices h !! d) ->
  safe good (JNI_Device_CreateRecvTransport newRecv ts d jl id ice candidates dtls sctp appData) anything h.
Proof.
  intros G Hd. apply safe_caught_any. eapply safe_bind; [by apply new_listener_safe|].
  intros l h1 G1 (_ & _ & Hpend & E1 & E2 & _ & E4). rewrite <- E4 in Hd.
  apply arguments_safe; [done..|]. intros [[id' x] tp] Happ. apply safe_parsed_eq; [done|]. intros w Ew.
  apply add_recv_safe; try done. unfold new_RecvTransport in Ew. run Ew. subst. split; [apply make_rinv|by split].
Qed.

(** *** Freeing *)

Lemma free_send_safe j t l o h :
  good h -> handles h !! j = Some (OwnedSendTransport t l) -> sends h !! t = Some o ->
  SendTransport.closed (ow_world o) = true ->
  safe good (JNI_SendTransport_FreeTransport j) anything h.
Proof.
  intros G Hj Ho Hc. destruct (g_handles h G j _ Hj) as (Hjp & Hl & o' & Ho' & Hlive). simplify_eq. simpl in Hl.
  unfold safe, JNI_SendTransport_FreeTransport. rewrite (proj2 (Z.eqb_neq j 0)) by lia.
  rewrite (handle_found j _ _ h Hj). unfold delete_listener, send_at, jbind, jget, jmodify, follow.
  rewrite bool_decide_true by done. cbn [sends set_listeners]. rewrite Ho, alive_unreached by (by rewrite Hlive).
  eexists _, _. split; [reflexivity|]. split; [|done].
  destruct G as [G1 G2 G3 G4 G5 G6 G7 G8 G9]. destruct (G3 t o Ho) as (Ht & Hi & _). split; simpl; try done.
  - intros x [Hx _]%elem_of_difference. by apply G2.
  - intros t' x [[<- <-]|[_ Hx]]%lookup_insert_Some; [|by apply G3]. split; [done|]. split; [done|].
    split; [done|]. by simpl.
  - intros j' x [Hne Hx]%lookup_delete_Some. destruct (G5 j' x Hx) as (Hj' & Hin & Hpt). split; [done|]. split.
    + simpl. apply elem_of_difference. split; [done|]. intros E%elem_of_singleton. apply Hne.
      symmetry. by apply (G6 j' j x _ Hx Hj).
    + destruct x as [t' l'|t' l'|t' p l'|t' p l'|t' p l'|t' p l']; simpl in *; try exact Hpt.
      * destruct Hpt as (y & Hy & Hyl). exists y. rewrite lookup_insert_ne; [done|]. intros <-. apply Hne.
        symmetry. by apply (G7 j' j _ _ (JSend t) Hx Hj).
      * destruct (decide (t = t')) as [<-|Hn]; rewrite ?lookup_insert_eq, ?lookup_insert_ne by done; [by eexists|done].
      * destruct (decide (t = t')) as [<-|Hn]; rewrite ?lookup_insert_eq, ?lookup_insert_ne by done; [by eexists|done].
  - intros j1 j2 x1 x2 [_ Hx1]%lookup_delete_Some [_ Hx2]%lookup_delete_Some. by apply G6.
  - intros j1 j2 x1 x2 k [_ Hx1]%lookup_delete_Some [_ Hx2]%lookup_delete_Some. by apply (G7 j1 j2 x1 x2 k).
  - intros t' x [[<- <-]|[_ Hx]]%lookup_insert_Some; [exact (G8 t o Ho)|by apply (G8 t')].
Qed.
Lemma free_recv_safe j t l o h :
  good h -> handles h !! j = Some (OwnedRecvTransport t l) -> recvs h !! t = Some o ->
  RecvTransport.closed (ow_world o) = true ->
  safe good (JNI_RecvTransport_FreeTransport j) anything h.
Proof.
  intros G Hj Ho Hc. destruct (g_handles h G j _ Hj) as (Hjp & Hl & o' & Ho' & Hlive). simplify_eq. simpl in Hl.
  unfold safe, JNI_RecvTransport_FreeTransport. rewrite (proj2 (Z.eqb_neq j 0)) by lia.
  rewrite (handle_found j _ _ h Hj). unfold delete_listener, recv_at, jbind, jget, jmodify, follow.
  rewrite bool_decide_true by done. cbn [recvs set_listeners]. rewrite Ho, alive_unreached by (by rewrite Hlive).
  eexists _, _. split; [reflexivity|]. split; [|done].
  destruct G as [G1 G2 G3 G4 G5 G6 G7 G8 G9]. destruct (G4 t o Ho) as (Ht & Hi & _). split; simpl; try done.
  - intros x [Hx _]%elem_of_difference. by apply G2.
  - intros t' x [[<- <-]|[_ Hx]]%lookup_insert_Some; [|by apply G4]. split; [done|]. split; [done|].
    split; [done|]. by simpl.
  - intros j' x [Hne Hx]%lookup_delete_Some. destruct (G5 j' x Hx) as (Hj' & Hin & Hpt). split; [done|]. split.
    + simpl. apply elem_of_difference. split; [done|]. intros E%elem_of_singleton. apply Hne.
      symmetry. by apply (G6 j' j x _ Hx Hj).
    + destruct x as [t' l'|t' l'|t' p l'|t' p l'|t' p l'|t' p l']; simpl in *; try exact Hpt.
      * destruct Hpt as (y & Hy & Hyl). exists y. rewrite lookup_insert_ne; [done|]. intros <-. apply Hne.
        symmetry. by apply (G7 j' j _ _ (JRecv t) Hx Hj).
      * destruct (decide (t = t')) as [<-|Hn]; rewrite ?lookup_insert_eq, ?lookup_insert_ne by done; [by eexists|done].
      * destruct (decide (t = t')) as [<-|Hn]; rewrite ?lookup_insert_eq, ?lookup_insert_ne by done; [by eexists|done].
  - intros j1 j2 x1 x2 [_ Hx1]%lookup_delete_Some [_ Hx2]%lookup_delete_Some. by apply G6.
  - intros j1 j2 x1 x2 k [_ Hx1]%lookup_delete_Some [_ Hx2]%lookup_delete_Some. by apply (G7 j1 j2 x1 x2 k).
  - intros t' x [[<- <-]|[_ Hx]]%lookup_insert_Some; [exact (G9 t o Ho)|by apply (G9 t')].
Qed.

(** *** The discipline

    Java passes pointers it was given and has not freed; it closes a transport
    before it frees it, frees a device when no transport of it is open, creates
    data producers while their transport is open, and the server does not give an
    id twice. *)
Definition call_ok h (c : call) : Prop :=
  match c with
  | CNewDevice => True
  | CFreeDevice d =>
      is_Some (devices h !! d) /\
      (forall t o, sends h !! t = Some o -> ow_device o = d -> ow_live o = true -> SendTransport.closed (ow_world o) = true) /\
      (forall t o, recvs h !! t = Some o -> ow_device o = d -> ow_live o = true -> RecvTransport.closed (ow_world o) = true)
  | CLoad d _ _ | CIsLoaded d | CGetRtpCapabilities d | CGetSctpCapabilities d | CCanProduce d _ => is_Some (devices h !! d)
  | CCreateSendTransport d _ _ _ _ _ _ _ | CCreateRecvTransport d _ _ _ _ _ _ _ => is_Some (devices h !! d)
  | CTransport t _ => live_handle h t
  | CProduce j onProduce _ _ _ _ _ => exists t l o,
      handles h !! j = Some (OwnedSendTransport t l) /\ sends h !! t = Some o /\
      forall k p d id, onProduce k p d = Answer (Some id) -> producers (ow_world o) !! id = None
  | CProduceData j onProduceData _ _ _ _ _ _ => exists t l o,
      handles h !! j = Some (OwnedSendTransport t l) /\ sends h !! t = Some o /\
      SendTransport.closed (ow_world o) = false /\
      forall p k q d id, onProduceData p k q d = Answer (Some id) -> dataProducers (ow_world o) !! id = None
  | CFreeSendTransport j => exists t l o,
      handles h !! j = Some (OwnedSendTransport t l) /\ sends h !! t = Some o /\ SendTransport.closed (ow_world o) = true
  | CConsume j id _ _ _ _ => exists t l o,
      handles h !! j = Some (OwnedRecvTransport t l) /\ recvs h !! t = Some o /\
      forall s, id = Some s -> RecvTransport.consumers (ow_world o) !! s = None
  | CConsumeData j id _ _ _ _ _ => exists t l o,
      handles h !! j = Some (OwnedRecvTransport t l) /\ recvs h !! t = Some o /\
      forall s, id = Some s -> RecvTransport.dataConsumers (ow_world o) !! s = None
  | CFreeRecvTransport j => exists t l o,
      handles h !! j = Some (OwnedRecvTransport t l) /\ recvs h !! t = Some o /\ RecvTransport.closed (ow_world o) = true
  | CProducer j _ => exists t p l, handles h !! j = Some (OwnedProducer t p l)
  | CConsumer j _ => exists t p l, handles h !! j = Some (OwnedConsumer t p l)
  | CDataProducer j _ => exists t p l, handles h !! j = Some (OwnedDataProducer t p l)
  | CDataConsumer j _ => exists t p l, handles h !! j = Some (OwnedDataConsumer t p l)
  end.

Fixpoint disciplined h (cs : list call) : Prop :=
  match cs with
  | [] => True
  | c :: cs => call_ok h c /\
      forall h', run_call newSend newRecv ts channel c h = Some (h', Ok tt) -> disciplined h' cs
  end.

Lemma device_call_safe {A} d (f : Device.t -> JNI (heap H R) A) h :
  is_Some (devices h !! d) -> (forall x, safe good (f x) anything h) ->
  safe good (let+ x := device_at d in f x) anything h.
Proof. intros [x Hx] Hf. unfold safe. rewrite (device_found d x f h Hx). apply Hf. Qed.

Lemma call_safe c h : good h -> call_ok h c -> safe good (run_call newSend newRecv ts channel c) anything h.
Proof.
  intros G Hok. destruct c; cbn [run_call]; cbn [call_ok] in Hok.
  - apply safe_void. unfold JNI_Device_NewDevice.
    eapply (safe_bind good _ _ anything); [eexists _, _; split; [reflexivity|]; split; [by apply good_alloc|done]|].
    intros d h1 G1 _. eapply (safe_bind good _ _ anything); [by apply safe_modify; [apply good_device_set|]|].
    intros _ h2 G2 _. by apply safe_ret.
  - destruct Hok as (Hd & Hs & Hr). unfold JNI_Device_FreeDevice. destruct (j_device =? 0); [by apply safe_ret|].
    apply device_call_safe; [done|]. intros x. apply safe_modify; [|done]. apply good_devices; [done|..];
      intros t o Ho Hl Hc; (rewrite lookup_delete_ne; [|intros E]).
    + destruct (g_sends h G t o Ho) as (_ & _ & _ & Hdev). auto.
    + rewrite (Hs t o Ho) in Hc; done.
    + destruct (g_recvs h G t o Ho) as (_ & _ & _ & Hdev). auto.
    + rewrite (Hr t o Ho) in Hc; done.
  - apply safe_void, safe_caught_any. do 2 (apply safe_parsed; [done|intros ?v]). by apply on_device_safe.
  - apply safe_void, device_call_safe; [done|]. intros x. by apply safe_ret.
  - apply safe_void, safe_caught_any, device_call_safe; [done|]. intros x. apply safe_parsed; [done|]. intros v. by apply safe_dumped.
  - apply safe_void, safe_caught_any, device_call_safe; [done|]. intros x. apply safe_parsed; [done|]. intros v. by apply safe_dumped.
  - apply safe_void, safe_caught_any. apply safe_parsed; [done|intros v]. by apply on_device_safe.
  - apply safe_void. by apply create_send_safe.
  - apply safe_void. by apply create_recv_safe.
  - by apply transport_call_safe.
  - destruct Hok as (t & l & o & Hj & Ho & Hid). apply safe_void. by eapply produce_safe.
  - destruct Hok as (t & l & o & Hj & Ho & Hc & Hid). apply safe_void. by eapply produce_data_safe.
  - destruct Hok as (t & l & o & Hj & Ho & Hc). by eapply free_send_safe.
  - destruct Hok as (t & l & o & Hj & Ho & Hid). apply safe_void. by eapply consume_safe.
  - destruct Hok as (t & l & o & Hj & Ho & Hid). apply safe_void. by eapply consume_data_safe.
  - destruct Hok as (t & l & o & Hj & Ho & Hc). by eapply free_recv_safe.
  - destruct Hok as (t & p & l & Hj). by eapply producer_call_safe.
  - destruct Hok as (t & p & l & Hj). by eapply consumer_call_safe.
  - destruct Hok as (t & p & l & Hj). by eapply data_producer_call_safe.
  - destruct Hok as (t & p & l & Hj). by eapply data_consumer_call_safe.
Qed.

Lemma calls_safe cs h : good h -> disciplined h cs -> safe good (run_calls newSend newRecv ts channel cs) anything h.
Proof.
  revert h. induction cs as [|c cs IH]; intros h G Hd; [by apply safe_ret|]. destruct Hd as [Hc Hd].
  destruct (call_safe c h G Hc) as (h1 & r & E & G1 & _). unfold safe. cbn [run_calls]. unfold jbind. rewrite E.
  destruct r as [[]|e|u|d]; [by apply IH, Hd|..]; (eexists _, _; split; [reflexivity|]; by split).
Qed.
End Calls.
