(* ===== verification/ClientJniSpec.v ===== *)
(** Theorems on the JNI entry points of the mediasoup client: pointers, leaks,
    exceptions and application data. *)

From Stdlib Require Import ZArith Lia.
From stdpp Require Import gmap.
From S2P Require Import Prelude Json Streams Decimal JsonText JsonTextFacts JsonRoundTrip DtoaText H264 OrtcValidate Ortc OrtcFacts Registry.
From S2P Require Import RemoteSdpFacts Device SendTransport SendTransportFacts Handler HandlerFacts RecvTransport RecvTransportFacts ClientJni ClientJniFacts.

(** Numbers are printed by Grisu2. *)
#[local] Existing Instance double_text.

(** ** Reading a run backwards *)

Section Inversion.
Context {S : Type}.

Lemma jbind_Ok_inv {A B} (m : JNI S A) (f : A -> JNI S B) s s' b :
  jbind m f s = Some (s', Ok b) -> exists s1 a, m s = Some (s1, Ok a) /\ f a s1 = Some (s', Ok b).
Proof. unfold jbind. destruct (m s) as [[s1 [a|e|u|d]]|]; try done. eauto. Qed.

Lemma caught_Returned {A} (m : JNI S A) s s' a : caught m s = Some (s', Ok (Returned a)) -> m s = Some (s', Ok a).
Proof. unfold caught. destruct (m s) as [[s1 [b|e|u|d]]|]; naive_solver. Qed.
Lemma caught_Raised {A} (m : JNI S A) s s' e : caught m s = Some (s', Ok (Raised e)) -> m s = Some (s', Throw e).
Proof. unfold caught. destruct (m s) as [[s1 [b|e'|u|d]]|]; naive_solver. Qed.
End Inversion.

(** ** Methods that let no exception out *)

Section NoThrow.
Context {S : Type}.

Definition nothrow {A} (m : JNI S A) (s : S) : Prop := forall s' e, m s <> Some (s', Throw e).

Lemma nothrow_bind {A B} (m : JNI S A) (f : A -> JNI S B) s :
  nothrow m s -> (forall a s1, m s = Some (s1, Ok a) -> nothrow (f a) s1) -> nothrow (jbind m f) s.
Proof.
  intros Hm Hf s' e E. unfold jbind in E. destruct (m s) as [[s1 [a|e'|u|d]]|] eqn:Em; try done.
  - by apply (Hf a s1 eq_refl s' e).
  - by apply (Hm s1 e').
Qed.
Lemma nothrow_ret {A} (a : A) s : nothrow (jret a) s. Proof. by intros s' e. Qed.
Lemma nothrow_get s : nothrow jget s. Proof. by intros s' e. Qed.
Lemma nothrow_modify f s : nothrow (jmodify f) s. Proof. by intros s' e. Qed.
Lemma nothrow_follow {A} (o : option A) s : nothrow (follow o) s. Proof. by destruct o; intros s' e. Qed.
Lemma nothrow_caught {A} (m : JNI S A) s : nothrow (caught m) s.
Proof. intros s' e. unfold caught. by destruct (m s) as [[s1 [a|e'|u|d]]|]. Qed.
End NoThrow.

Create HintDb nothrow_db.
#[export] Hint Resolve nothrow_ret nothrow_get nothrow_modify nothrow_follow nothrow_caught : nothrow_db.

Ltac nothrows :=
  repeat first
    [ solve [auto with nothrow_db]
    | match goal with |- nothrow (jbind _ _) _ => apply nothrow_bind; [|intros ?a ?s1 _] end
    | match goal with |- nothrow (match ?x with _ => _ end) _ => destruct x end
    | match goal with |- nothrow (let (_, _) := ?x in _) _ => destruct x end
    | progress cbv beta iota ].

Section Spec.
Context {H R : Type} `{SendHandlerLaws H} `{RecvHandlerLaws R}.
Context (newSend : jlistener -> json -> json -> json -> json -> json -> json -> res H)
        (newRecv : jlistener -> json -> json -> json -> json -> res R)
        (ts : gmap Z Track) (channel : Z -> data_channel).
Implicit Types (h : heap H R).

(** *** What a call leaves alone *)

(** Neither listeners nor pairs. *)
Definition frames {A} (m : JNI (heap H R) A) : Prop :=
  forall h h' r, m h = Some (h', r) -> listeners h' = listeners h /\ handles h' = handles h.
(** The same when an exception is thrown. *)
Definition throw_frames {A} (m : JNI (heap H R) A) : Prop :=
  forall h h' e, m h = Some (h', Throw e) -> listeners h' = listeners h /\ handles h' = handles h.

Lemma frames_lift {A} (r : res A) : frames (jlift r).
Proof. by intros h h' r' [= <- <-]. Qed.
Lemma frames_ret {A} (a : A) : frames (jret a).
Proof. by intros h h' r' [= <- <-]. Qed.
Lemma frames_get : frames jget.
Proof. by intros h h' r' [= <- <-]. Qed.
Lemma frames_follow {A} (o : option A) : frames (follow o).
Proof. intros h h' r. unfold follow. destruct o; [|done]. by intros [= <- <-]. Qed.
Lemma frames_bind {A B} (m : JNI (heap H R) A) (f : A -> JNI (heap H R) B) :
  frames m -> (forall a, frames (f a)) -> frames (jbind m f).
Proof.
  intros Hm Hf h h' r E. unfold jbind in E. destruct (m h) as [[h1 r1]|] eqn:Em; [|done].
  destruct (Hm h h1 r1 Em) as [E1 E2]. destruct r1 as [a|e|u|d]; [|by injection E as <- <-..].
  destruct (Hf a h1 h' r E) as [E3 E4]. by rewrite E3, E4.
Qed.
Lemma frames_on_send {A} t (m : ST (SendTransport.world H) A) : frames (on_send t m).
Proof. intros h h' r. unfold on_send. destruct (sends h !! t); [|done]. destruct (m _). by intros [= <- <-]. Qed.
Lemma frames_on_recv {A} t (m : ST (RecvTransport.world R) A) : frames (on_recv t m).
Proof. intros h h' r. unfold on_recv. destruct (recvs h !! t); [|done]. destruct (m _). by intros [= <- <-]. Qed.
Lemma frames_alloc : frames alloc.
Proof. by intros h h' r [= <- <-]. Qed.
Lemma frames_set_sends f : frames (jmodify (fun h => set_sends (f h) h)).
Proof. by intros h h' r [= <- <-]. Qed.
Lemma frames_set_recvs f : frames (jmodify (fun h => set_recvs (f h) h)).
Proof. by intros h h' r [= <- <-]. Qed.

Lemma throw_frames_owned o : throw_frames (new_owned o).
Proof. by intros h h' e. Qed.
Lemma throw_frames_bind {A B} (m : JNI (heap H R) A) (f : A -> JNI (heap H R) B) :
  frames m -> (forall a, throw_frames (f a)) -> throw_frames (jbind m f).
Proof.
  intros Hm Hf h h' e E. unfold jbind in E. destruct (m h) as [[h1 r1]|] eqn:Em; [|done].
  destruct (Hm h h1 r1 Em) as [E1 E2]. destruct r1 as [a|e'|u|d]; [|by injection E as <- _|done..].
  destruct (Hf a h1 h' e E) as [E3 E4]. by rewrite E3, E4.
Qed.
End Spec.

Create HintDb frames_db.
#[export] Hint Resolve frames_lift frames_ret frames_get frames_follow frames_on_send frames_on_recv frames_alloc
  frames_set_sends frames_set_recvs throw_frames_owned : frames_db.

Ltac framing :=
  repeat first
    [ solve [auto with frames_db]
    | apply frames_bind; [|intros ?a]
    | apply throw_frames_bind; [|intros ?a]
    | match goal with |- frames (match ?x with _ => _ end) => destruct x end
    | match goal with |- frames (let (_, _) := ?x in _) => destruct x end
    | match goal with |- throw_frames (let (_, _) := ?x in _) => destruct x end
    | progress cbv beta iota zeta ].

(** The native methods that create an object with a listener. *)
Section Creations.
Context {H R : Type} `{SendHandlerLaws H} `{RecvHandlerLaws R}.
Context (newSend : jlistener -> json -> json -> json -> json -> json -> json -> res H)
        (newRecv : jlistener -> json -> json -> json -> json -> res R)
        (ts : gmap Z Track) (channel : Z -> data_channel).
Implicit Types (h : heap H R).

Inductive creation : JNI (heap H R) (jresult Z) -> Prop :=
| creates_send d l id ice candidates dtls sctp appData :
    creation (JNI_Device_CreateSendTransport newSend ts d l id ice candidates dtls sctp appData)
| creates_recv d l id ice candidates dtls sctp appData :
    creation (JNI_Device_CreateRecvTransport newRecv ts d l id ice candidates dtls sctp appData)
| creates_producer j onProduce track encodings options codec appData :
    creation (JNI_SendTransport_Produce j onProduce track encodings options codec appData)
| creates_data_producer j onProduceData label protocol ordered retransmits lifetime appData :
    creation (JNI_SendTransport_ProduceData j onProduceData label protocol ordered retransmits lifetime appData)
| creates_consumer j id producerId kind params appData :
    creation (JNI_RecvTransport_Consume j id producerId kind params appData)
| creates_data_consumer j id producerId streamId label protocol appData :
    creation (JNI_RecvTransport_ConsumeData j id producerId streamId label protocol appData).

(** Each allocates its listener first and makes the pair last. *)
Lemma creation_shape m : creation m -> exists body,
  m = caught (let+ l := new_listener in body l) /\ forall l, throw_frames (body l).
Proof.
  destruct 1; (eexists; split; [reflexivity|]); intros l'; cbv beta zeta;
    unfold transport_arguments, device_at, live_send, live_recv, JNI_SendTransport_GetNativeTransport,
      JNI_RecvTransport_GetNativeTransport, handle_at, send_at, recv_at, alive, device_if, device_at; framing.
Qed.

(** A creation that raises an exception leaks its listener: the listener exists,
    no pair has it, and only the destructor of a pair deletes a listener. *)
Theorem failed_creation_leaks m h h' e :
  creation m -> good h -> m h = Some (h', Ok (Raised e)) ->
  exists l, ~ l ∈ listeners h /\ listeners h' = ({[l]} : gset Z) ∪ listeners h /\ handles h' = handles h /\ pending l h'.
Proof.
  intros Hm G E. destruct (creation_shape m Hm) as (body & -> & Hbody). apply caught_Raised in E.
  destruct (new_listener_safe h G) as (h1 & r & E1 & _ & Hl). unfold jbind in E. rewrite E1 in E.
  destruct r as [l|e'|u|d]; [|discriminate E1..]. destruct (Hl l eq_refl) as (Hnew & Hls & [Hp1 Hp2] & Hh & _).
  destruct (Hbody l h1 h' e E) as [E2 E3]. exists l. split; [done|]. rewrite E2, E3. split; [done|]. split; [done|].
  split; [by rewrite E2|by rewrite E3].
Qed.
End Creations.

(** ** Application data *)

Section AppData.
Context {H R : Type} `{SendHandlerInterface H} `{RecvHandlerInterface R}.
Context (newSend : jlistener -> json -> json -> json -> json -> json -> json -> res H)
        (newRecv : jlistener -> json -> json -> json -> json -> res R)
        (ts : gmap Z Track).
Implicit Types (h : heap H R).

Lemma c_str_nul_free s : nul_free s = true -> c_str s = s.
Proof.
  induction s as [|c s IH]; [done|]. cbn [all_chars c_str]. unfold other_than at 1.
  intros [Hc%negb_true_iff Hs]%andb_true_iff. by rewrite Hc, IH.
Qed.

(** Java gets a text for the value. *)
Lemma dumped_reads v h : well_formed v = true ->
  exists t, dumped v h = Some (h, Ok t) /\ json_parse t = Ok (canonical v).
Proof.
  intros Hw. destruct (dump_parses v Hw (floats_read_all v Hw)) as (t & E & Ep & _). exists t.
  unfold dumped, jbind, jlift, jret, NativeToJavaString. rewrite E. split; [|done].
  by rewrite c_str_nul_free by (by apply (dump_nul_free v)).
Qed.

(** What holds when a call of the library returned. *)
Definition yields {S A : Type} (Q : A -> S -> Prop) (m : ST S A) : Prop := forall s s' a, m s = (s', Ok a) -> Q a s'.

Lemma yields_bind {S A B} Q (m : ST S A) (f : A -> ST S B) : (forall a, yields Q (f a)) -> yields Q (st_bind m f).
Proof. intros Hf s s' b. unfold st_bind. destruct (m s) as [s1 [a|e|u|d]]; try done. apply Hf. Qed.

Lemma keeps_then {S A} (P : S -> Prop) (Q : A -> S -> Prop) (n : ST S unit) a s s' r :
  keeps P n -> (forall s, P s -> Q a s) -> P s -> (do! n in st_ret a) s = (s', Ok r) -> Q r s'.
Proof.
  intros Hn HQ Hs. specialize (Hn s Hs). unfold st_bind. destruct (n s) as [s1 [[]|e|u|d]]; try done.
  intros [= <- <-]. by apply HQ.
Qed.

Ltac yield_last :=
  repeat first
    [ match goal with |- yields _ (st_bind (st_modify _) _) => fail 2 end
    | apply yields_bind; intros ?a; cbv beta
    | match goal with |- yields _ (match ?x with _ => _ end) => destruct x end
    | done ].

(** What the library stores with a new object. *)
Lemma Produce_stored p onProduce track encodings options codec v :
  yields (fun a w => a = p /\ exists P, producer_heap (H := H) w !! p = Some P /\ p_appData P = v)
    (Produce p onProduce track encodings options codec v).
Proof.
  unfold Produce. yield_last. intros w w' r [= <- <-]. split; [done|]. eexists. simpl. by rewrite lookup_insert_eq.
Qed.
Lemma ProduceData_stored p onProduceData label protocol ordered retransmits lifetime v :
  yields (fun a w => a = p /\ exists P, SendTransport.data_heap (H := H) w !! p = Some P /\ dp_appData P = v)
    (ProduceData p onProduceData label protocol ordered retransmits lifetime v).
Proof.
  unfold ProduceData. yield_last. intros w w' r [= <- <-]. split; [done|]. eexists. simpl. by rewrite lookup_insert_eq.
Qed.
Lemma Consume_stored c id producerId kind params v :
  yields (fun a w => a = c /\ exists C, RecvTransport.consumer_heap (H := R) w !! c = Some C /\ RecvTransport.c_appData C = v)
    (RecvTransport.Consume c id producerId kind params v).
Proof.
  unfold RecvTransport.Consume. yield_last. set (C := RecvTransport.MkConsumer _ _ _ _ _ _ _ _). intros w w' r.
  eapply (keeps_then (fun w : RecvTransport.world R => RecvTransport.consumer_heap w !! c = Some C)
    (fun a w => a = c /\ exists C, RecvTransport.consumer_heap w !! c = Some C /\ RecvTransport.c_appData C = v));
    [|by eauto|].
  - destruct (_ && _); [|apply keeps_ret]. unfold RecvTransport.create_probator. keep.
    + intros w0 Hw0. unfold RecvTransport.on_handler. by destruct (rh_Receive _ _ _ _).
    + by apply keeps_modify.
  - simpl. by rewrite lookup_insert_eq.
Qed.
Lemma ConsumeData_stored c id producerId streamId label protocol v :
  yields (fun a w => a = c /\ exists C, RecvTransport.data_heap (H := R) w !! c = Some C /\ RecvTransport.dc_appData C = v)
    (RecvTransport.ConsumeData c id producerId streamId label protocol v).
Proof.
  unfold RecvTransport.ConsumeData. yield_last. intros w w' r [= <- <-]. split; [done|]. eexists. simpl.
  by rewrite lookup_insert_eq.
Qed.

(** Creating a pair for an object of a transport. *)
Lemma on_send_owned t (m : ST (SendTransport.world H) Z) pair h h' j Q :
  yields Q m -> (let+ p := on_send t m in new_owned (pair p)) h = Some (h', Ok j) ->
  exists p o, handles h' !! j = Some (pair p) /\ sends h' !! t = Some o /\ Q p (ow_world o).
Proof.
  intros Hm. unfold jbind, on_send. destruct (sends h !! t) as [o|]; [|done].
  destruct (m (ow_world o)) as [w [p|e|u|d]] eqn:E; try done. intros [= <- <-].
  exists p, (with_world w o). simpl. rewrite !lookup_insert_eq. do 2 (split; [done|]). by apply (Hm _ _ _ E).
Qed.
Lemma on_recv_owned t (m : ST (RecvTransport.world R) Z) pair h h' j Q :
  yields Q m -> (let+ p := on_recv t m in new_owned (pair p)) h = Some (h', Ok j) ->
  exists p o, handles h' !! j = Some (pair p) /\ recvs h' !! t = Some o /\ Q p (ow_world o).
Proof.
  intros Hm. unfold jbind, on_recv. destruct (recvs h !! t) as [o|]; [|done].
  destruct (m (ow_world o)) as [w [p|e|u|d]] eqn:E; try done. intros [= <- <-].
  exists p, (with_world w o). simpl. rewrite !lookup_insert_eq. do 2 (split; [done|]). by apply (Hm _ _ _ E).
Qed.

(** The native methods that take application data, with the method that gives it
    back. *)
Inductive app_getter (appData : jstring) : JNI (heap H R) (jresult Z) -> (Z -> JNI (heap H R) string) -> Prop :=
| send_app d l id ice candidates dtls sctp :
    app_getter appData (JNI_Device_CreateSendTransport newSend ts d l id ice candidates dtls sctp appData)
      (fun j => JNI_Transport_GetAppData (JSend j))
| recv_app d l id ice candidates dtls sctp :
    app_getter appData (JNI_Device_CreateRecvTransport newRecv ts d l id ice candidates dtls sctp appData)
      (fun j => JNI_Transport_GetAppData (JRecv j))
| producer_app j onProduce track encodings options codec :
    app_getter appData (JNI_SendTransport_Produce j onProduce track encodings options codec appData)
      JNI_Producer_GetAppData
| data_producer_app j onProduceData label protocol ordered retransmits lifetime :
    app_getter appData (JNI_SendTransport_ProduceData j onProduceData label protocol ordered retransmits lifetime appData)
      JNI_DataProducer_GetAppData
| consumer_app j id producerId kind params :
    app_getter appData (JNI_RecvTransport_Consume j id producerId kind params appData) JNI_Consumer_GetAppData
| data_consumer_app j id producerId streamId label protocol :
    app_getter appData (JNI_RecvTransport_ConsumeData j id producerId streamId label protocol appData)
      JNI_DataConsumer_GetAppData.

(** Getters of an object that is there. *)
Lemma on_producer_reads {A B} j t p l o P (f : Producer -> A) (k : A -> JNI (heap H R) B) h :
  handles h !! j = Some (OwnedProducer t p l) -> sends h !! t = Some o -> producer_heap (ow_world o) !! p = Some P ->
  exists h', (let+ a := on_producer j unreached (fun p => let! P := producer_at p in st_ret (f P)) in k a) h = k (f P) h'.
Proof.
  intros Hj Ho HP. eexists. unfold on_producer, producer_of, handle_at, send_at, jbind, jget, follow. rewrite Hj. simpl.
  rewrite Ho. unfold alive, on_send. simpl. rewrite Ho. unfold producer_at, SendTransport.deref, st_bind, st_get. rewrite HP.
  reflexivity.
Qed.
Lemma on_data_producer_reads {A B} j t p l o P (f : DataProducer -> A) (k : A -> JNI (heap H R) B) h :
  handles h !! j = Some (OwnedDataProducer t p l) -> sends h !! t = Some o -> SendTransport.data_heap (ow_world o) !! p = Some P ->
  exists h', (let+ a := on_data_producer j unreached (fun p => let! P := SendTransport.data_at p in st_ret (f P)) in k a) h
    = k (f P) h'.
Proof.
  intros Hj Ho HP. eexists. unfold on_data_producer, data_producer_of, handle_at, send_at, jbind, jget, follow. rewrite Hj.
  simpl. rewrite Ho. unfold alive, on_send. simpl. rewrite Ho. unfold SendTransport.data_at, SendTransport.deref, st_bind, st_get.
  rewrite HP. reflexivity.
Qed.
Lemma on_consumer_reads {A B} j t c l o C (f : RecvTransport.Consumer -> A) (k : A -> JNI (heap H R) B) h :
  handles h !! j = Some (OwnedConsumer t c l) -> recvs h !! t = Some o -> RecvTransport.consumer_heap (ow_world o) !! c = Some C ->
  exists h', (let+ a := on_consumer j unreached (fun c => let! C := RecvTransport.consumer_at c in st_ret (f C)) in k a) h
    = k (f C) h'.
Proof.
  intros Hj Ho HC. eexists. unfold on_consumer, consumer_of, handle_at, recv_at, jbind, jget, follow. rewrite Hj.
  simpl. rewrite Ho. unfold alive, on_recv. simpl. rewrite Ho. unfold RecvTransport.consumer_at, RecvTransport.deref, st_bind, st_get.
  rewrite HC. reflexivity.
Qed.
Lemma on_data_consumer_reads {A B} j t c l o C (f : RecvTransport.DataConsumer -> A) (k : A -> JNI (heap H R) B) h :
  handles h !! j = Some (OwnedDataConsumer t c l) -> recvs h !! t = Some o -> RecvTransport.data_heap (ow_world o) !! c = Some C ->
  exists h', (let+ a := on_data_consumer j unreached (fun c => let! C := RecvTransport.data_at c in st_ret (f C)) in k a) h
    = k (f C) h'.
Proof.
  intros Hj Ho HC. eexists. unfold on_data_consumer, data_consumer_of, handle_at, recv_at, jbind, jget, follow. rewrite Hj.
  simpl. rewrite Ho. unfold alive, on_recv. simpl. rewrite Ho. unfold RecvTransport.data_at, RecvTransport.deref, st_bind, st_get.
  rewrite HC. reflexivity.
Qed.

Ltac unwind E :=
  repeat match type of E with
  | jbind (on_send _ _) _ _ = _ => fail 1
  | jbind (on_recv _ _) _ _ = _ => fail 1
  | jbind _ _ _ = _ => apply jbind_Ok_inv in E as (?h & ?x & ?E & E); cbv beta iota zeta in E
  | (let '(_, _) := ?x in _) _ = _ => destruct x
  end;
  repeat match goal with X : jlift _ _ = Some _ |- _ => injection X as ?E ?E end; subst.

Lemma arguments_app d id ice candidates dtls sctp appData h h' x :
  transport_arguments d id ice candidates dtls sctp appData h = Some (h', Ok x) ->
  json_or (JObj []) appData = Ok (Device.tp_appData x.2).
Proof.
  unfold transport_arguments. intros E. unwind E. injection E as _ <-. simpl. by erewrite check_transport_app by eassumption.
Qed.

Lemma created_app appData create get h h' j :
  app_getter appData create get -> create h = Some (h', Ok (Returned j)) ->
  exists v, json_or (JObj []) appData = Ok v /\ exists h'', get j h' = dumped v h''.
Proof.
  destruct 1; intros E; apply caught_Returned in E; unwind E.
  - eexists. split; [eapply arguments_app; eassumption|]. injection E4 as <- <-. injection E as <- <-. eexists.
    unfold JNI_Transport_GetAppData, ExtractNativeTransport, JNI_SendTransport_GetNativeTransport, handle_at, send_at.
    unfold jbind, jget, follow. simpl. do 2 (rewrite lookup_insert_eq; simpl). reflexivity.
  - eexists. split; [eapply arguments_app; eassumption|]. injection E4 as <- <-. injection E as <- <-. eexists.
    unfold JNI_Transport_GetAppData, ExtractNativeTransport, JNI_RecvTransport_GetNativeTransport, handle_at, recv_at.
    unfold jbind, jget, follow. simpl. do 2 (rewrite lookup_insert_eq; simpl). reflexivity.
  - destruct (on_send_owned _ _ _ _ _ _ _ (Produce_stored _ _ _ _ _ _ _) E) as (q & ow & Hj & Ho & -> & P & HP & <-).
    eexists. split; [eassumption|]. by eapply on_producer_reads.
  - destruct (on_send_owned _ _ _ _ _ _ _ (ProduceData_stored _ _ _ _ _ _ _ _) E) as (q & ow & Hj & Ho & -> & P & HP & <-).
    eexists. split; [eassumption|]. by eapply on_data_producer_reads.
  - destruct (on_recv_owned _ _ _ _ _ _ _ (Consume_stored _ _ _ _ _ _) E) as (q & ow & Hj & Ho & -> & P & HP & <-).
    eexists. split; [eassumption|]. by eapply on_consumer_reads.
  - destruct (on_recv_owned _ _ _ _ _ _ _ (ConsumeData_stored _ _ _ _ _ _ _) E) as (q & ow & Hj & Ho & -> & P & HP & <-).
    eexists. split; [eassumption|]. by eapply on_data_consumer_reads.
Qed.

(** C16. The application data given to the creation of a transport, producer, data
    producer, consumer or data consumer (an empty object for a null string) comes
    back from its getter: the text Java gets parses to the same value. *)
Theorem app_data_roundtrip appData create get h h' j :
  app_getter appData create get -> create h = Some (h', Ok (Returned j)) ->
  exists v t h'', json_or (JObj []) appData = Ok v /\ get j h' = Some (h'', Ok t) /\
    json_parse t = Ok (canonical v) /\ json_eqb (canonical v) v = true.
Proof.
  intros Hg E. destruct (created_app _ _ _ _ _ _ Hg E) as (v & Hv & h2 & Eg). pose proof (json_or_wf _ _ Hv) as Hw.
  destruct (dumped_reads v h2 Hw) as (t & Et & Hp). exists v, t, h2. rewrite Eg. do 3 (split; [done|]). by apply canonical_equal.
Qed.
End AppData.

(** ** Exceptions *)

(** The calls a C++ exception can leave. *)
Definition may_escape (c : call) : bool :=
  match c with
  | CProducer _ PClose | CProducer _ PGetRtpParameters => true
  | CConsumer _ KClose | CConsumer _ KGetRtpParameters => true
  | CDataProducer _ DPGetSctpStreamParameters => true
  | CDataConsumer _ DKGetSctpStreamParameters => true
  | _ => false
  end.

Definition never_throws {S A} (m : ST S A) : Prop := forall s s' e, m s <> (s', Throw e).

Section NeverThrows.
Context {S : Type}.

Lemma never_bind {A B} (m : ST S A) (f : A -> ST S B) :
  never_throws m -> (forall a, never_throws (f a)) -> never_throws (st_bind m f).
Proof.
  intros Hm Hf s s' e E. unfold st_bind in E. destruct (m s) as [s1 [a|e'|u|d]] eqn:Em; try done.
  - by apply (Hf a _ _ _ E).
  - by apply (Hm _ _ _ Em).
Qed.
Lemma never_ret {A} (a : A) : never_throws (S := S) (st_ret a). Proof. by intros s s' e. Qed.
Lemma never_get : never_throws (S := S) st_get. Proof. by intros s s' e. Qed.
Lemma never_modify f : never_throws (S := S) (st_modify f). Proof. by intros s s' e. Qed.
End NeverThrows.

Section Exceptions.
Context {H R : Type} `{SendHandlerLaws H} `{RecvHandlerLaws R}.
Implicit Types (h : heap H R).

Lemma never_deref {A} (o : option A) : never_throws (S := SendTransport.world H) (SendTransport.deref o).
Proof. by destruct o; intros s s' e. Qed.
Lemma rnever_deref {A} (o : option A) : never_throws (S := RecvTransport.world R) (RecvTransport.deref o).
Proof. by destruct o; intros s s' e. Qed.

Lemma nothrow_void {A} (m : JNI (heap H R) A) h : nothrow m h -> nothrow (void m) h.
Proof. intros Hm. apply nothrow_bind; [done|]. intros. apply nothrow_ret. Qed.

(** [dump] of parsed data. *)
Lemma nothrow_dumped j h : well_formed j = true -> nothrow (dumped j) h.
Proof. intros Hw h' e. destruct (dumped_reads j h Hw) as (t & E & _). by rewrite E. Qed.

Lemma nothrow_on_send {A} t (m : ST (SendTransport.world H) A) h : never_throws m -> nothrow (on_send t m) h.
Proof.
  intros Hm h' e. unfold on_send. destruct (sends h !! t) as [o|]; [|done].
  destruct (m (ow_world o)) as [w r] eqn:E. intros [= <- ->]. by apply (Hm _ _ _ E).
Qed.
Lemma nothrow_on_recv {A} t (m : ST (RecvTransport.world R) A) h : never_throws m -> nothrow (on_recv t m) h.
Proof.
  intros Hm h' e. unfold on_recv. destruct (recvs h !! t) as [o|]; [|done].
  destruct (m (ow_world o)) as [w r] eqn:E. intros [= <- ->]. by apply (Hm _ _ _ E).
Qed.

Lemma nothrow_alive {W} b (o : owner W) h : nothrow (alive b o) h.
Proof. unfold alive. nothrows. Qed.

Lemma nothrow_on_producer {A} j reached (m : Z -> ST (SendTransport.world H) A) h :
  (forall p, never_throws (m p)) -> nothrow (on_producer j reached m) h.
Proof.
  intros Hm. unfold on_producer, producer_of, handle_at, send_at. nothrows; [apply nothrow_alive|by apply nothrow_on_send].
Qed.
Lemma nothrow_on_data_producer {A} j reached (m : Z -> ST (SendTransport.world H) A) h :
  (forall p, never_throws (m p)) -> nothrow (on_data_producer j reached m) h.
Proof.
  intros Hm. unfold on_data_producer, data_producer_of, handle_at, send_at. nothrows; [apply nothrow_alive|by apply nothrow_on_send].
Qed.
Lemma nothrow_on_consumer {A} j reached (m : Z -> ST (RecvTransport.world R) A) h :
  (forall p, never_throws (m p)) -> nothrow (on_consumer j reached m) h.
Proof.
  intros Hm. unfold on_consumer, consumer_of, handle_at, recv_at. nothrows; [apply nothrow_alive|by apply nothrow_on_recv].
Qed.
Lemma nothrow_on_data_consumer {A} j reached (m : Z -> ST (RecvTransport.world R) A) h :
  (forall p, never_throws (m p)) -> nothrow (on_data_consumer j reached m) h.
Proof.
  intros Hm. unfold on_data_consumer, data_consumer_of, handle_at, recv_at. nothrows; [apply nothrow_alive|by apply nothrow_on_recv].
Qed.

(** *** The application data a getter reads *)

Lemma on_producer_inv {A} j (m : Z -> ST (SendTransport.world H) A) h h1 v :
  on_producer j unreached m h = Some (h1, Ok v) -> exists t p o w, sends h !! t = Some o /\ m p (ow_world o) = (w, Ok v).
Proof.
  unfold on_producer, producer_of, handle_at, send_at, jbind, jget, follow.
  destruct (handles h !! j) as [[]|]; try done. simpl. destruct (sends h !! _) as [o|] eqn:Ho; [|done]. simpl.
  unfold on_send. rewrite Ho. destruct (m _ (ow_world o)) as [w r] eqn:E. intros [= _ ->]. by eexists _, _, o, w.
Qed.
Lemma on_data_producer_inv {A} j (m : Z -> ST (SendTransport.world H) A) h h1 v :
  on_data_producer j unreached m h = Some (h1, Ok v) -> exists t p o w, sends h !! t = Some o /\ m p (ow_world o) = (w, Ok v).
Proof.
  unfold on_data_producer, data_producer_of, handle_at, send_at, jbind, jget, follow.
  destruct (handles h !! j) as [[]|]; try done. simpl. destruct (sends h !! _) as [o|] eqn:Ho; [|done]. simpl.
  unfold on_send. rewrite Ho. destruct (m _ (ow_world o)) as [w r] eqn:E. intros [= _ ->]. by eexists _, _, o, w.
Qed.
Lemma on_consumer_inv {A} j (m : Z -> ST (RecvTransport.world R) A) h h1 v :
  on_consumer j unreached m h = Some (h1, Ok v) -> exists t p o w, recvs h !! t = Some o /\ m p (ow_world o) = (w, Ok v).
Proof.
  unfold on_consumer, consumer_of, handle_at, recv_at, jbind, jget, follow.
  destruct (handles h !! j) as [[]|]; try done. simpl. destruct (recvs h !! _) as [o|] eqn:Ho; [|done]. simpl.
  unfold on_recv. rewrite Ho. destruct (m _ (ow_world o)) as [w r] eqn:E. intros [= _ ->]. by eexists _, _, o, w.
Qed.
Lemma on_data_consumer_inv {A} j (m : Z -> ST (RecvTransport.world R) A) h h1 v :
  on_data_consumer j unreached m h = Some (h1, Ok v) -> exists t p o w, recvs h !! t = Some o /\ m p (ow_world o) = (w, Ok v).
Proof.
  unfold on_data_consumer, data_consumer_of, handle_at, recv_at, jbind, jget, follow.
  destruct (handles h !! j) as [[]|]; try done. simpl. destruct (recvs h !! _) as [o|] eqn:Ho; [|done]. simpl.
  unfold on_recv. rewrite Ho. destruct (m _ (ow_world o)) as [w r] eqn:E. intros [= _ ->]. by eexists _, _, o, w.
Qed.

Lemma producer_app_wf j h h1 v :
  good h -> on_producer j unreached (fun p => let! P := producer_at p in st_ret (p_appData P)) h = Some (h1, Ok v) -> well_formed v = true.
Proof.
  intros G (t & p & o & w & Ho & E)%on_producer_inv. destruct (g_sends h G t o Ho) as (_ & [_ Happ] & _).
  unfold producer_at, SendTransport.deref, st_bind, st_get in E. destruct (producer_heap (ow_world o) !! p) as [P|] eqn:EP; [|done].
  injection E as _ <-. by apply (proj1 Happ p).
Qed.
Lemma data_producer_app_wf j h h1 v :
  good h -> on_data_producer j unreached (fun p => let! P := SendTransport.data_at p in st_ret (dp_appData P)) h = Some (h1, Ok v) -> well_formed v = true.
Proof.
  intros G (t & p & o & w & Ho & E)%on_data_producer_inv. destruct (g_sends h G t o Ho) as (_ & [_ Happ] & _).
  unfold SendTransport.data_at, SendTransport.deref, st_bind, st_get in E. destruct (SendTransport.data_heap (ow_world o) !! p) as [P|] eqn:EP; [|done].
  injection E as _ <-. by apply (proj2 Happ p).
Qed.
Lemma consumer_app_wf j h h1 v :
  good h -> on_consumer j unreached (fun p => let! P := RecvTransport.consumer_at p in st_ret (RecvTransport.c_appData P)) h = Some (h1, Ok v) -> well_formed v = true.
Proof.
  intros G (t & p & o & w & Ho & E)%on_consumer_inv. destruct (g_recvs h G t o Ho) as (_ & [_ Happ] & _).
  unfold RecvTransport.consumer_at, RecvTransport.deref, st_bind, st_get in E. destruct (RecvTransport.consumer_heap (ow_world o) !! p) as [P|] eqn:EP; [|done].
  injection E as _ <-. by apply (proj1 Happ p).
Qed.
Lemma data_consumer_app_wf j h h1 v :
  good h -> on_data_consumer j unreached (fun p => let! P := RecvTransport.data_at p in st_ret (RecvTransport.dc_appData P)) h = Some (h1, Ok v) -> well_formed v = true.
Proof.
  intros G (t & p & o & w & Ho & E)%on_data_consumer_inv. destruct (g_recvs h G t o Ho) as (_ & [_ Happ] & _).
  unfold RecvTransport.data_at, RecvTransport.deref, st_bind, st_get in E. destruct (RecvTransport.data_heap (ow_world o) !! p) as [P|] eqn:EP; [|done].
  injection E as _ <-. by apply (proj2 Happ p).
Qed.

Lemma extract_inv t h h1 a x :
  ExtractNativeTransport t h = Some (h1, Ok (a, x)) ->
  h1 = h /\ match x with inl o => sends h !! a = Some o | inr o => recvs h !! a = Some o end.
Proof.
  unfold ExtractNativeTransport, JNI_SendTransport_GetNativeTransport, JNI_RecvTransport_GetNativeTransport,
    handle_at, send_at, recv_at, jbind, jget, follow.
  destruct t as [j|j]; (destruct (handles h !! j) as [[]|]; try done); simpl.
  - destruct (sends h !! _) as [o|] eqn:Ho; [|done]. unfold alive. destruct (true && _); [done|]. by intros [= <- <- <-].
  - destruct (recvs h !! _) as [o|] eqn:Ho; [|done]. unfold alive. destruct (true && _); [done|]. by intros [= <- <- <-].
Qed.
Lemma nothrow_extract t h : nothrow (ExtractNativeTransport t) h.
Proof.
  unfold ExtractNativeTransport, JNI_SendTransport_GetNativeTransport, JNI_RecvTransport_GetNativeTransport, handle_at,
    send_at, recv_at. nothrows; apply nothrow_alive.
Qed.

Ltac never :=
  repeat first
    [ apply never_ret | apply never_get | apply never_modify | apply never_deref | apply rnever_deref
    | apply never_bind; [|intros ?a]
    | match goal with |- never_throws (match ?x with _ => _ end) => destruct x end
    | progress cbv beta ].

(** *** Each class *)

Lemma close_nothrow t h : good h -> nothrow (JNI_Transport_Close t) h.
Proof.
  intros G. apply nothrow_bind; [apply nothrow_extract|]. intros [a [o|o]] h1 [-> Ho]%extract_inv h' e.
  - destruct (g_sends h G a o Ho) as (_ & [Hi _] & _). unfold on_send. rewrite Ho.
    destruct (SendTransport.closed (ow_world o)) eqn:Hc.
    + unfold SendTransport_Close, st_bind, st_get. by rewrite Hc.
    + destruct (SendTransportFacts.Close_spec _ Hi Hc) as (w' & E & _). by rewrite E.
  - destruct (g_recvs h G a o Ho) as (_ & [Hi _] & _). unfold on_recv. rewrite Ho.
    destruct (RecvTransport.closed (ow_world o)) eqn:Hc.
    + unfold RecvTransport.RecvTransport_Close, st_bind, st_get. by rewrite Hc.
    + destruct (RClose_spec _ Hi Hc) as (w' & E & _). by rewrite E.
Qed.

Lemma transport_nothrow t c h : good h -> nothrow (run_transport t c) h.
Proof.
  intros G. destruct c; cbn [run_transport]; try (by apply close_nothrow); apply nothrow_void;
    unfold JNI_Transport_GetId, JNI_Transport_GetConnectionState, JNI_Transport_GetAppData, JNI_Transport_IsClosed;
    try apply nothrow_caught; (apply nothrow_bind; [apply nothrow_extract|]);
    intros [a x] h1 [-> Hx]%extract_inv; nothrows.
  apply nothrow_dumped. destruct x as [o|o]; [by apply (g_send_app h G a)|by apply (g_recv_app h G a)].
Qed.

Lemma producer_nothrow j c h : good h -> may_escape (CProducer j c) = false -> nothrow (run_producer j c) h.
Proof.
  intros G Hc. destruct c; try done; cbn [run_producer]; try apply nothrow_void; try apply nothrow_caught;
    try solve [apply nothrow_on_producer; intros p;
      unfold Producer_IsPaused, Producer_Pause, Producer_Resume, SendTransport.set_enabled, producer_at, SendTransport.track_at; never].
  apply nothrow_bind; [|intros v h1 E; by eapply nothrow_dumped, producer_app_wf].
  apply nothrow_on_producer. intros p. unfold producer_at. never.
Qed.
Lemma data_producer_nothrow channel j c h :
  good h -> may_escape (CDataProducer j c) = false -> nothrow (run_data_producer channel j c) h.
Proof.
  intros G Hc. destruct c; try done; cbn [run_data_producer]; try apply nothrow_void;
    try solve [apply nothrow_on_data_producer; intros p;
      unfold DataProducer_Close, DataProducer_Send, SendTransport.OnCloseData, SendTransport.data_at; never].
  apply nothrow_bind; [|intros v h1 E; by eapply nothrow_dumped, data_producer_app_wf].
  apply nothrow_on_data_producer. intros p. unfold SendTransport.data_at. never.
Qed.
Lemma consumer_nothrow j c h : good h -> may_escape (CConsumer j c) = false -> nothrow (run_consumer j c) h.
Proof.
  intros G Hc. destruct c; try done; cbn [run_consumer]; try apply nothrow_void; try apply nothrow_caught;
    try solve [apply nothrow_on_consumer; intros p;
      unfold RecvTransport.Consumer_IsPaused, RecvTransport.Consumer_Pause, RecvTransport.Consumer_Resume,
        RecvTransport.set_enabled, RecvTransport.consumer_at, RecvTransport.track_at; never].
  apply nothrow_bind; [|intros v h1 E; by eapply nothrow_dumped, consumer_app_wf].
  apply nothrow_on_consumer. intros p. unfold RecvTransport.consumer_at. never.
Qed.
Lemma data_consumer_nothrow channel j c h :
  good h -> may_escape (CDataConsumer j c) = false -> nothrow (run_data_consumer channel j c) h.
Proof.
  intros G Hc. destruct c; try done; cbn [run_data_consumer]; try apply nothrow_void;
    try solve [apply nothrow_on_data_consumer; intros p;
      unfold RecvTransport.DataConsumer_Close, RecvTransport.OnCloseData, RecvTransport.data_at; never].
  apply nothrow_bind; [|intros v h1 E; by eapply nothrow_dumped, data_consumer_app_wf].
  apply nothrow_on_data_consumer. intros p. unfold RecvTransport.data_at. never.
Qed.
End Exceptions.

(** ** The theorems *)

Section Theorems.
Context {H R : Type} `{SendHandlerLaws H} `{RecvHandlerLaws R}.
Context (newSend : jlistener -> json -> json -> json -> json -> json -> json -> res H)
        (newRecv : jlistener -> json -> json -> json -> json -> res R)
        (ts : gmap Z Track) (channel : Z -> data_channel).
Implicit Types (h : heap H R).


Lemma call_nothrow c h : good h -> may_escape c = false -> nothrow (run_call newSend newRecv ts channel c) h.
Proof.
  intros G Hc. destruct c; cbn [run_call];
    try solve [by apply transport_nothrow|by apply producer_nothrow|by apply data_producer_nothrow
      |by apply consumer_nothrow|by apply data_consumer_nothrow];
    try (apply nothrow_void; try apply nothrow_caught);
    unfold JNI_Device_NewDevice, JNI_Device_FreeDevice, JNI_Device_IsLoaded, JNI_SendTransport_FreeTransport,
      JNI_RecvTransport_FreeTransport, delete_listener, device_at, handle_at, send_at, recv_at, alloc; nothrows;
    try apply nothrow_alive; by intros h' e.
Qed.


(** *** Disposing of a transport that was not closed *)

Lemma free_send_runs j t l o h :
  j <> 0 -> handles h !! j = Some (OwnedSendTransport t l) -> l ∈ listeners h -> sends h !! t = Some o ->
  ow_live o = true ->
  JNI_SendTransport_FreeTransport j h =
    Some (set_handles (delete j (handles h)) (set_sends (<[t := deleted o]> (sends h))
            (set_listeners (listeners h ∖ {[l]}) h)), Ok tt).
Proof.
  intros Hj0 Hj Hl Ho Hlive. unfold JNI_SendTransport_FreeTransport. rewrite (proj2 (Z.eqb_neq j 0)) by done.
  rewrite (handle_found j _ _ h Hj). unfold delete_listener, send_at, jbind, jget, jmodify, follow.
  rewrite bool_decide_true by done. cbn [sends set_listeners]. rewrite Ho. by rewrite alive_unreached by (by rewrite Hlive).
Qed.

Lemma close_keeps_producer p : keeps (fun w : SendTransport.world H => is_Some (producer_heap w !! p)) SendTransport_Close.
Proof.
  unfold SendTransport_Close, SendTransport.Transport_Close, SendTransport.on_handler. keep.
  - by apply keeps_modify.
  - intros w Hw. by destruct (h_Close (SendTransport.handler w)).
  - apply each_keeps. intros q. unfold Producer_TransportClosed, producer_at, SendTransport.deref. keep; apply keeps_modify; [|done].
    intros w Hw. simpl. apply lookup_insert_is_Some. destruct (decide (q = p)); auto.
  - apply each_keeps. intros q. unfold DataProducer_TransportClosed, SendTransport.data_at, SendTransport.deref. keep;
      by apply keeps_modify.
Qed.

(** The first access to an open producer after its transport was deleted. *)
Lemma open_producer_dangles {A} j t p l o P (m : Z -> ST (SendTransport.world H) A) h :
  handles h !! j = Some (OwnedProducer t p l) -> sends h !! t = Some o -> ow_live o = false ->
  producer_heap (ow_world o) !! p = Some P -> p_closed P = false -> on_producer j producer_open m h = None.
Proof.
  intros Hj Ho Hl HP Hp. unfold on_producer. erewrite producer_found by done.
  unfold send_at, jbind, jget, follow. rewrite Ho. unfold producer_open. by rewrite HP, Hp; unfold alive; rewrite Hl.
Qed.

(** And to a closed one. *)
Lemma closed_producer_closes j t p l o P h :
  handles h !! j = Some (OwnedProducer t p l) -> sends h !! t = Some o ->
  producer_heap (ow_world o) !! p = Some P -> p_closed P = true ->
  exists h', JNI_Producer_Close j h = Some (h', Ok tt).
Proof.
  intros Hj Ho HP Hp. unfold JNI_Producer_Close, on_producer. erewrite producer_found by done.
  unfold send_at, jbind, jget, follow. rewrite Ho, alive_unreached by (intros _; unfold producer_open; by rewrite HP, Hp).
  unfold on_send. rewrite Ho. unfold Producer_Close, producer_at, SendTransport.deref, st_bind, st_get, st_ret.
  rewrite HP, Hp. by eexists.
Qed.

(** C18. [dispose] of a transport deletes it without closing it.  An open producer then
    keeps a pointer to it, and closing the producer or asking for its statistics
    follows that pointer; when the transport is closed first, closing the producer
    afterwards returns. *)
Theorem dispose_before_close h j jp t p l l' o P :
  good h -> handles h !! j = Some (OwnedSendTransport t l) -> handles h !! jp = Some (OwnedProducer t p l') ->
  sends h !! t = Some o -> producer_heap (ow_world o) !! p = Some P -> p_closed P = false ->
  (exists h1, JNI_SendTransport_FreeTransport j h = Some (h1, Ok tt) /\
     JNI_Producer_Close jp h1 = None /\ JNI_Producer_GetStats jp h1 = None) /\
  (exists h1 h2 h3, JNI_Transport_Close (JSend j) h = Some (h1, Ok tt) /\
     JNI_SendTransport_FreeTransport j h1 = Some (h2, Ok tt) /\ JNI_Producer_Close jp h2 = Some (h3, Ok tt)).
Proof.
  intros G Hj Hjp Ho HP Hp. destruct (g_handles h G j _ Hj) as (Hj0 & Hl & o' & Ho' & Hlive). simplify_eq. simpl in Hl.
  assert (j <> jp) as Hne by (intros <-; congruence).
  destruct (g_sends h G t o Ho) as (_ & [Hi _] & _). split.
  - rewrite (free_send_runs j t l o h) by (done || lia). eexists. split; [reflexivity|].
    assert (forall A (m : Z -> ST (SendTransport.world H) A), on_producer jp producer_open m
      (set_handles (delete j (handles h)) (set_sends (<[t := deleted o]> (sends h)) (set_listeners (listeners h ∖ {[l]}) h)))
      = None) as Hd.
    { intros A m. eapply open_producer_dangles; simpl; [by rewrite lookup_delete_ne|by rewrite lookup_insert_eq|done..]. }
    split; [apply Hd|]. unfold JNI_Producer_GetStats, caught, jbind. by rewrite Hd.
  - assert (SendTransport.closed (ow_world o) = false) as Hc.
    { apply not_true_iff_false. intros Hc. destruct (SendTransportFacts.closed_all _ Hi Hc) as [Hk _]. by rewrite (Hk p P HP) in Hp. }
    destruct (SendTransportFacts.Close_spec _ Hi Hc) as (w & E & Hi' & Hc' & _).
    destruct (close_keeps_producer p (ow_world o)) as [P' HP']; [by eexists|]. rewrite E in HP'. simpl in HP'.
    destruct (SendTransportFacts.closed_all _ Hi' Hc') as [Hk _].
    set (h1 := set_sends (<[t := with_world w o]> (sends h)) h).
    assert (JNI_Transport_Close (JSend j) h = Some (h1, Ok tt)) as E1.
    { unfold JNI_Transport_Close, on_transport, ExtractNativeTransport, JNI_SendTransport_GetNativeTransport, handle_at, send_at.
      unfold jbind, jget, follow. rewrite Hj. simpl. rewrite Ho, alive_unreached by (by rewrite Hlive). unfold jret, on_send. by rewrite Ho, E. }
    destruct (closed_producer_closes jp t p l' (deleted (with_world w o)) P'
      (set_handles (delete j (handles h)) (set_sends (<[t := deleted (with_world w o)]> (sends h1)) (set_listeners (listeners h ∖ {[l]}) h))))
      as (h3 & E3); simpl; [by rewrite lookup_delete_ne|by rewrite lookup_insert_eq|done|by apply (Hk p)|].
    exists h1. eexists _, h3. split; [exact E1|].
    rewrite (free_send_runs j t l (with_world w o) h1); [split; [reflexivity|exact E3]|lia|done|done|simpl; by rewrite lookup_insert_eq|done].
Qed.
End Theorems.

(** ** A session on the real handlers *)

#[export] Instance listening_send_laws {P : Type} `{PeerConnectionLaws P} `{FloatText} :
  SendHandlerLaws (jlistener * Handler.t P).
Proof.
  split. intros [l h]. pose proof (h_Close_returns (SendHandlerLaws := HandlerFacts.send_handler_laws (ListenerJni_OnConnect l)) h) as E.
  cbn in *. by destruct (Handler.Close h).
Qed.
#[export] Instance listening_recv_laws {P : Type} `{PeerConnectionLaws P} `{FloatText} :
  RecvHandlerLaws (jlistener * Handler.t P).
Proof.
  split. intros [l h]. pose proof (rh_Close_returns (RecvHandlerLaws := recv_handler_laws (ListenerJni_OnConnect l)) h) as E.
  cbn in *. by destruct (Handler.Close h).
Qed.

Module Program.
Definition handler : Type := (jlistener * Handler.t FakePc.state).
Definition text (v : json) : jstring := match dump v with Ok t => Some t | _ => None end.
Definition sctp : json := JObj
  [("port", JUint 5000); ("OS", JUint 1024); ("MIS", JUint 1024); ("maxMessageSize", JUint 262144)].
Definition listener : jlistener := fun _ _ => Answer tt.
Definition newSend := new_send_handler (FakePc.State "" []).
Definition newRecv := new_recv_handler (FakePc.State "" []).
Definition channel (_ : Z) : data_channel := DataChannelView 0 "l" "" kOpen 0.

(** A device and a send transport, a producer with application data, a data
    producer; then everything is closed and disposed of, and the producer is asked
    once more. *)
Definition calls : list call :=
  [CNewDevice; CLoad 1 (text Sample.caps) (Ok Sample.caps);
   CCreateSendTransport 1 listener (Some "t") (text Session.ice) (text Session.candidates) (text Session.dtls)
     (text sctp) None;
   CProduce 4 (fun _ _ _ => Answer (Some "v")) 2 None None None (text (JObj [("room", JUint 7)]));
   CProduceData 4 (fun _ _ _ _ => Answer (Some "d")) (Some "l") None true (-1) 0 None;
   CProducer 6 PPause; CTransport (JSend 4) TClose; CFreeSendTransport 4; CFreeDevice 1;
   CProducer 6 PClose; CProducer 6 PGetAppData; CDataProducer 8 DPClose].

Definition run (cs : list call) : option (heap handler handler * res unit) :=
  run_calls newSend newRecv Recorder.tracks channel cs empty_heap.
Definition after (n : nat) : heap handler handler :=
  match run (take n calls) with Some (h, _) => h | None => empty_heap end.
End Program.

(** A list of calls is disciplined when each of them is, in the heap the calls
    before it leave. *)
Lemma disciplined_cons {H R} `{SendHandlerInterface H} `{RecvHandlerInterface R} newSend newRecv ts channel h h1 c cs :
  call_ok (H := H) (R := R) h c -> run_call newSend newRecv ts channel c h = Some (h1, Ok tt) ->
  disciplined newSend newRecv ts channel h1 cs -> disciplined newSend newRecv ts channel h (c :: cs).
Proof. intros Hc E Hd. split; [done|]. intros h' E'. rewrite E in E'. by injection E' as <-. Qed.

Lemma disciplined_take {H R} `{SendHandlerInterface H} `{RecvHandlerInterface R} newSend newRecv ts channel n h cs :
  disciplined (H := H) (R := R) newSend newRecv ts channel h cs -> disciplined newSend newRecv ts channel h (take n cs).
Proof.
  revert n h. induction cs as [|c cs IH]; intros [|n] h Hd; try done. destruct Hd as [Hc Hd]. split; [done|].
  intros h' E. by apply IH, Hd.
Qed.

(** Every call checked in the heap before it. *)
Ltac check_calls after n :=
  repeat (match goal with |- disciplined _ _ _ _ _ (?c :: ?cs) =>
    apply (disciplined_cons _ _ _ _ _ (after (n - length cs)%nat)); [|vm_compute; reflexivity|] end); [..|exact I];
  cbn [call_ok live_handle length Nat.sub];
  try exact I; try (vm_compute; by eexists); try (vm_compute; by eexists _, _); try (vm_compute; by eexists _, _, _).

Lemma program_disciplined :
  disciplined Program.newSend Program.newRecv Recorder.tracks Program.channel empty_heap Program.calls.
Proof.
  unfold Program.calls.
  check_calls Program.after 12%nat. split; [vm_compute; by eexists|]. split; intros t o Ho _ _.
  - assert (map_Forall (fun _ o => SendTransport.closed (ow_world o) = true) (sends (Program.after 8))) as Hf
      by (apply (bool_decide_eq_true_1 _); vm_compute; reflexivity). exact (Hf t o Ho).
  - assert (map_Forall (fun _ o => RecvTransport.closed (ow_world o) = true) (recvs (Program.after 8))) as Hf
      by (apply (bool_decide_eq_true_1 _); vm_compute; reflexivity). exact (Hf t o Ho).
Qed.

Lemma good_after n : good (Program.after n).
Proof.
  destruct (calls_safe _ _ _ _ _ _ good_empty (disciplined_take _ _ _ _ n _ _ program_disciplined)) as (h & r & E & G & _).
  unfold Program.after, Program.run. by rewrite E.
Qed.

Lemma program_ends h r : Program.run Program.calls = Some (h, r) ->
  r = Ok tt /\ map_to_list (handles h) = [(6, OwnedProducer 3 0 5); (8, OwnedDataProducer 3 0 7)] /\ map_to_list (devices h) = [].
Proof.
  assert (match Program.run Program.calls with
          | Some (h, r) => r = Ok tt /\ map_to_list (handles h) = [(6, OwnedProducer 3 0 5); (8, OwnedDataProducer 3 0 7)] /\
              map_to_list (devices h) = []
          | None => False
          end) as X by (vm_compute; by split).
  intros E. by rewrite E in X.
Qed.


(** The producer of the session, asked for its data while it is alive. *)
Definition room : json := JObj [("room", JUint 7)].

Lemma room_produced :
  JNI_SendTransport_Produce 4 (fun _ _ _ => Answer (Some "v")) 2 None None None (Program.text room) (Program.after 3)
  = Some (Program.after 4, Ok (Returned 6)).
Proof. vm_compute. reflexivity. Qed.

Lemma app_data_roundtrip_witness :
  exists t h'', JNI_Producer_GetAppData 6 (Program.after 4) = Some (h'', Ok t) /\ json_parse t = Ok room.
Proof.
  destruct (app_data_roundtrip Program.newSend Program.newRecv Recorder.tracks (Program.text room) _ _
    (Program.after 3) (Program.after 4) 6
    (producer_app _ _ _ _ 4 (fun _ _ _ => Answer (Some "v")) 2 None None None) room_produced)
    as (v & t & h'' & H1 & H2 & H3 & _).
  exists t, h''. split; [exact H2|]. rewrite H3. vm_compute in H1. injection H1 as <-. reflexivity.
Defined.

Lemma producer_there : exists o P,
  sends (Program.after 5) !! 3 = Some o /\ producer_heap (ow_world o) !! 0 = Some P /\ p_closed P = false /\
  handles (Program.after 5) !! 4 = Some (OwnedSendTransport 3 2) /\ handles (Program.after 5) !! 6 = Some (OwnedProducer 3 0 5).
Proof.
  assert (match sends (Program.after 5) !! 3 with
          | Some o => match producer_heap (ow_world o) !! 0 with Some P => p_closed P = false | None => False end
          | None => False
          end) as X by (vm_compute; reflexivity).
  destruct (sends (Program.after 5) !! 3) as [o|]; [|done].
  destruct (producer_heap (ow_world o) !! 0) as [P|] eqn:HP; [|done].
  exists o, P. do 2 (split; [done|]). split; [exact X|]. split; vm_compute; reflexivity.
Qed.

Lemma dispose_before_close_witness :
  exists h1, JNI_SendTransport_FreeTransport 4 (Program.after 5) = Some (h1, Ok tt) /\
    JNI_Producer_Close 6 h1 = None /\ JNI_Producer_GetStats 6 h1 = None.
Proof.
  destruct producer_there as (o & P & Ho & HP & Hp & H4 & H6).
  exact (proj1 (dispose_before_close (Program.after 5) 4 6 3 0 2 5 o P (good_after 5) H4 H6 Ho HP Hp)).
Defined.

(** A track pointer of 0. *)
Lemma produce_refused : exists h',
  JNI_SendTransport_Produce 4 (fun _ _ _ => Answer (Some "v")) 0 None None None None (Program.after 3)
  = Some (h', Ok (Raised (MscTypeError "missing track"))).
Proof.
  assert (snd <$> JNI_SendTransport_Produce 4 (fun _ _ _ => Answer (Some "v")) 0 None None None None (Program.after 3)
    = Some (Ok (Raised (MscTypeError "missing track")))) as X by (vm_compute; reflexivity).
  apply fmap_Some in X as ([h' r] & E & Er). simpl in Er. exists h'. by rewrite E, Er.
Qed.

Lemma failed_creation_leaks_witness :
  exists h' l, JNI_SendTransport_Produce 4 (fun _ _ _ => Answer (Some "v")) 0 None None None None (Program.after 3)
      = Some (h', Ok (Raised (MscTypeError "missing track"))) /\
    listeners h' = ({[l]} : gset Z) ∪ listeners (Program.after 3) /\ pending l h'.
Proof.
  destruct produce_refused as (h' & E).
  destruct (failed_creation_leaks Program.newSend Program.newRecv Recorder.tracks _ _ _ _
    (creates_producer _ _ _ 4 _ 0 None None None None) (good_after 3) E) as (l & _ & H1 & _ & H2).
  exists h', l. exact (conj E (conj H1 H2)).
Defined.

(** A handler that cannot stop what it sends. *)
Module FailingStop.
Inductive handler : Type := Sending.

#[global] Instance failing : SendHandlerInterface handler := {
  h_Send _ _ _ _ := st_ret (SentAs "0" None (JObj [("codecs", JArray [])]));
  h_StopSending _ := st_throw (MscError "associated RtpTransceiver not found");
  h_ReplaceTrack _ _ := st_ret tt;
  h_SetMaxSpatialLayer _ _ := st_ret tt;
  h_GetSenderStats _ := st_ret (JArray []);
  h_SendDataChannel _ _ := st_ret (Channel 200 (JObj []));
  h_Close := st_ret tt;
  h_GetTransportStats := st_ret (JArray []);
  h_RestartIce _ := st_ret tt;
  h_UpdateIceServers _ := st_ret tt
}.
#[global] Instance failing_laws : SendHandlerLaws handler.
Proof. by split. Qed.

Definition newSend (_ : jlistener) (_ _ _ _ _ _ : json) : res handler := Ok Sending.
Definition newRecv (_ : jlistener) (_ _ _ _ : json) : res (list RecvRecorder.call) := Ok [].
Definition after (n : nat) : heap handler (list RecvRecorder.call) :=
  match run_calls newSend newRecv Recorder.tracks Program.channel (take n Program.calls) empty_heap with
  | Some (h, _) => h
  | None => empty_heap
  end.

Lemma disciplined_4 : disciplined newSend newRecv Recorder.tracks Program.channel empty_heap (take 4 Program.calls).
Proof. unfold Program.calls. cbn [take]. check_calls after 4%nat. Qed.

Lemma good_4 : good (after 4).
Proof.
  destruct (calls_safe _ _ _ _ _ _ good_empty disciplined_4) as (h & r & E & G & _). unfold after. by rewrite E.
Qed.

Lemma producer_4 : exists o P,
  handles (after 4) !! 6 = Some (OwnedProducer 3 0 5) /\ sends (after 4) !! 3 = Some o /\
  producer_heap (ow_world o) !! 0 = Some P /\
  ow_live o = true /\ SendTransport.closed (ow_world o) = false /\ p_closed P = false.
Proof.
  assert (match sends (after 4) !! 3 with
          | Some o => match producer_heap (ow_world o) !! 0 with
                      | Some P => ow_live o = true /\ SendTransport.closed (ow_world o) = false /\ p_closed P = false
                      | None => False
                      end
          | None => False
          end) as X by (vm_compute; by split).
  destruct (sends (after 4) !! 3) as [o|]; [|done].
  destruct (producer_heap (ow_world o) !! 0) as [P|] eqn:HP; [|done].
  exists o, P. split; [vm_compute; reflexivity|]. do 2 (split; [done|]). exact X.
Qed.
End FailingStop.

