(* ===== verification/PeerConnection.v ===== *)
(** The peer connection of libmediasoupclient: src/PeerConnection.cpp, with the
    part of WebRTC that answers it.

    A method that needs an answer creates an observer around a promise, hands it
    to WebRTC and blocks in [future.get()].  WebRTC answers by a message on its
    signaling thread (pc/peer_connection_message_handler.cc and, for a successful
    offer or answer, pc/webrtc_session_description_factory.cc), whose handler
    calls the observer.  The state is the queue of that thread and the promises;
    what WebRTC answers is the class [WebRtc].  The second half is the system of
    the two threads as a step relation, for the theorems on blocking. *)

From Stdlib Require Import ZArith Lia.
From S2P Require Import Prelude Json Streams JsonText SendTransport Handler.

(** ** Promises *)

(** [std::promise<void>], [<std::string>] and [<json>]. *)
Inductive answer : Type := AVoid | AString (s : string) | AJson (j : json).

Inductive promise : Type := Unset | Satisfied (a : answer) | Failed (e : exn).

(** ** Messages of the signaling thread, by the observer they are for *)

Inductive message : Type :=
| MSG_SET_SESSIONDESCRIPTION_SUCCESS (o : nat)
| MSG_SET_SESSIONDESCRIPTION_FAILED (o : nat) (error : string)
| MSG_CREATE_SESSIONDESCRIPTION_SUCCESS (o : nat) (desc : string)
| MSG_CREATE_SESSIONDESCRIPTION_FAILED (o : nat) (error : string)
| MSG_STATS_DELIVERED (o : nat) (report : string)
| MSG_REPORT_USAGE_PATTERN.

Definition addressee (m : message) : option nat :=
  match m with
  | MSG_SET_SESSIONDESCRIPTION_SUCCESS o | MSG_SET_SESSIONDESCRIPTION_FAILED o _
  | MSG_CREATE_SESSIONDESCRIPTION_SUCCESS o _ | MSG_CREATE_SESSIONDESCRIPTION_FAILED o _
  | MSG_STATS_DELIVERED o _ => Some o
  | MSG_REPORT_USAGE_PATTERN => None
  end.

(** What WebRTC does, over its own state.  A description comes as the text it
    prints; an error is its message.  [w_CreateSessionDescription] is the
    description of the parse error, if any. *)
Class WebRtc (W : Type) : Type := {
  w_Close : W -> W;
  w_SetServers : list string -> W -> W * option string;
  w_CreateOffer : bool -> W -> W * (string + string);
  w_CreateAnswer : W -> W * (string + string);
  w_CreateSessionDescription : string -> string -> option string;
  w_SetLocalDescription : string -> string -> W -> W * option string;
  w_SetRemoteDescription : string -> string -> W -> W * option string;
  w_local_description : W -> option string;
  w_remote_description : W -> option string;
  w_GetTransceivers : W -> list Z;
  w_AddMediaTransceiver : string -> W -> W * option Z;
  w_AddTransceiver : Z -> list RtpEncodingParameters -> list string -> W -> W * option Z;
  w_GetSenders : W -> list Z;
  w_RemoveTrack : Z -> W -> W * bool;
  w_GetStats : option Z -> W -> W * string;
  w_CreateDataChannel : string -> DataChannelInit -> W -> W * option Z;
  w_transceiver_mid : Z -> W -> option string;
  w_SetInactive : Z -> W -> W;
  w_SetTrack : Z -> option Z -> W -> W;
  w_GetEncodings : Z -> W -> list RtpEncodingParameters;
  w_SetEncodings : Z -> list RtpEncodingParameters -> W -> W * option string;
  w_receiver_track : Z -> W -> Z;
  w_track_kind : Z -> string
}.

(** The members of [PeerConnection::sdpType2String]. *)
Definition sdpType2String (type : SdpType) : string :=
  match type with OFFER => "offer" | PRANSWER => "pranswer" | ANSWER => "answer" end.

(** [alive]: the [SdpOfferAnswerHandler] still exists. *)
Record runtime (W : Type) : Type := Rt {
  webrtc : W;
  queue : list message;
  promises : list promise;
  alive : bool
}.
Arguments Rt {W}.
Arguments webrtc {W}.
Arguments queue {W}.
Arguments promises {W}.
Arguments alive {W}.

Section Runtime.
Context {W : Type} `{WebRtc W}.
Implicit Types r : runtime W.

Definition set_webrtc (w : W) r : runtime W := Rt w (queue r) (promises r) (alive r).
Definition set_queue (q : list message) r : runtime W := Rt (webrtc r) q (promises r) (alive r).
Definition set_promises (ps : list promise) r : runtime W := Rt (webrtc r) (queue r) ps (alive r).

Definition on_webrtc {A : Type} (f : W -> W * A) : ST (runtime W) A := fun r =>
  let '(w, a) := f (webrtc r) in (set_webrtc w r, Ok a).
Definition ask {A : Type} (f : W -> A) : ST (runtime W) A := fun r => (r, Ok (f (webrtc r))).

Definition Post (m : message) : ST (runtime W) unit := st_modify (fun r => set_queue (queue r ++ [m]) r).

(** ** Observers *)

(** [new RefCountedObject<Observer>()] and [GetFuture()]. *)
Definition new_observer : ST (runtime W) nat := fun r =>
  (set_promises (promises r ++ [Unset]) r, Ok (length (promises r))).

(** [set_value] and [set_exception] throw when the promise is satisfied. *)
Definition satisfy (o : nat) (p : promise) : ST (runtime W) unit := fun r =>
  match promises r !! o with
  | Some Unset => (set_promises (<[o := p]> (promises r)) r, Ok tt)
  | Some _ => (r, Throw StdFutureError)
  | None => (r, Undef UbDeref)
  end.

Definition Reject (o : nat) (error : string) : ST (runtime W) unit := satisfy o (Failed (MscError error)).

Definition SetSessionDescriptionObserver_OnSuccess (o : nat) : ST (runtime W) unit :=
  satisfy o (Satisfied AVoid).
Definition SetSessionDescriptionObserver_OnFailure (o : nat) (message : string) : ST (runtime W) unit :=
  Reject o message.
Definition CreateSessionDescriptionObserver_OnSuccess (o : nat) (sdp : string) : ST (runtime W) unit :=
  satisfy o (Satisfied (AString sdp)).
Definition CreateSessionDescriptionObserver_OnFailure (o : nat) (message : string) : ST (runtime W) unit :=
  Reject o message.

(** The text of the report is parsed on the signaling thread. *)
Definition RTCStatsCollectorCallback_OnStatsDelivered (o : nat) (s : string) : ST (runtime W) unit :=
  if str_empty s then satisfy o (Satisfied (AJson (JArray [])))
  else let! j := st_lift (json_parse s) in satisfy o (Satisfied (AJson j)).

(** ** The signaling thread *)

Definition OnMessage (m : message) : ST (runtime W) unit :=
  match m with
  | MSG_SET_SESSIONDESCRIPTION_SUCCESS o => SetSessionDescriptionObserver_OnSuccess o
  | MSG_SET_SESSIONDESCRIPTION_FAILED o error => SetSessionDescriptionObserver_OnFailure o error
  | MSG_CREATE_SESSIONDESCRIPTION_SUCCESS o desc => CreateSessionDescriptionObserver_OnSuccess o desc
  | MSG_CREATE_SESSIONDESCRIPTION_FAILED o error => CreateSessionDescriptionObserver_OnFailure o error
  | MSG_STATS_DELIVERED o report => RTCStatsCollectorCallback_OnStatsDelivered o report
  | MSG_REPORT_USAGE_PATTERN => st_ret tt
  end.

(** One message; an exception that leaves a message handler ends the process. *)
Definition dispatch (m : message) (r : runtime W) : res (runtime W) :=
  match OnMessage m r with
  | (r, Ok _) => Ok r
  | (_, Throw _) => Fatal "terminate"
  | (_, Undef u) => Undef u
  | (_, Fatal d) => Fatal d
  end.

Definition run_head (r : runtime W) : option (res (runtime W)) :=
  match queue r with
  | [] => None
  | m :: q => Some (dispatch m (set_queue q r))
  end.

(** The answer to a description, which is lost once the handler is gone. *)
Definition OnSetDescriptionComplete (o : nat) (error : option string) : ST (runtime W) unit := fun r =>
  if negb (alive r) then (r, Ok tt)
  else match error with
       | None => Post (MSG_SET_SESSIONDESCRIPTION_SUCCESS o) r
       | Some e => Post (MSG_SET_SESSIONDESCRIPTION_FAILED o e) r
       end.

(** The destructors of the message handler and of the description factory: the
    pending messages about offers and answers are processed, the others of the
    two handlers are deleted. *)
Definition processed_on_destroy (m : message) : bool :=
  match m with
  | MSG_CREATE_SESSIONDESCRIPTION_SUCCESS _ _ | MSG_CREATE_SESSIONDESCRIPTION_FAILED _ _ => true
  | _ => false
  end.

Definition kept_on_destroy (m : message) : bool :=
  match m with MSG_STATS_DELIVERED _ _ => true | _ => false end.

Definition destroy (r : runtime W) : res (runtime W) :=
  let r' := Rt (webrtc r) (List.filter kept_on_destroy (queue r)) (promises r) false in
  for_fold (fun r m => dispatch m r) r' (List.filter processed_on_destroy (queue r)).

(** ** Methods up to [future.get()] *)

Definition post_created (o : nat) (answer : string + string) : ST (runtime W) unit :=
  Post (match answer with
        | inl desc => MSG_CREATE_SESSIONDESCRIPTION_SUCCESS o desc
        | inr error => MSG_CREATE_SESSIONDESCRIPTION_FAILED o error
        end).

Definition ask_CreateOffer (iceRestart : bool) : ST (runtime W) nat :=
  let! o := new_observer in
  let! answer := on_webrtc (w_CreateOffer iceRestart) in
  do! post_created o answer in st_ret o.

Definition ask_CreateAnswer : ST (runtime W) nat :=
  let! o := new_observer in
  let! answer := on_webrtc w_CreateAnswer in
  do! post_created o answer in st_ret o.

Definition ask_SetDescription (set : string -> string -> W -> W * option string)
    (type : SdpType) (sdp : string) : ST (runtime W) nat :=
  let! o := new_observer in
  let typeStr := sdpType2String type in
  match w_CreateSessionDescription typeStr sdp with
  | Some description => do! Reject o description in st_ret o
  | None =>
      let! error := on_webrtc (set typeStr sdp) in
      do! OnSetDescriptionComplete o error in st_ret o
  end.

Definition ask_GetStats (selector : option Z) : ST (runtime W) nat :=
  let! o := new_observer in
  let! report := on_webrtc (w_GetStats selector) in
  do! Post (MSG_STATS_DELIVERED o report) in st_ret o.

(** [future.get()], [None] while it blocks. *)
Definition future_get (o : nat) (r : runtime W) : option (res answer) :=
  match promises r !! o with
  | Some Unset => None
  | Some (Satisfied a) => Some (Ok a)
  | Some (Failed e) => Some (Throw e)
  | None => Some (Undef UbDeref)
  end.

(** The caller blocks while the signaling thread works its queue off. *)
Fixpoint await (fuel : nat) (o : nat) : ST (runtime W) answer := fun r =>
  match future_get o r with
  | Some a => (r, a)
  | None =>
      match fuel, run_head r with
      | S fuel, Some (Ok r') => await fuel o r'
      | _, Some (Fatal d) => (r, Fatal d)
      | _, Some (Undef u) => (r, Undef u)
      | _, _ => (r, Fatal "blocked")
      end
  end.

Definition blocking (m : ST (runtime W) nat) : ST (runtime W) answer :=
  let! o := m in
  let! r := st_get in
  await (length (queue r)) o.

Definition to_void (a : answer) : ST (runtime W) unit :=
  match a with AVoid => st_ret tt | _ => st_lift (Undef UbDeref) end.
Definition to_text (a : answer) : ST (runtime W) string :=
  match a with AString s => st_ret s | _ => st_lift (Undef UbDeref) end.
Definition to_json (a : answer) : ST (runtime W) json :=
  match a with AJson j => st_ret j | _ => st_lift (Undef UbDeref) end.

(** ** The methods *)

Definition CreateOffer (iceRestart : bool) : ST (runtime W) string :=
  let! a := blocking (ask_CreateOffer iceRestart) in to_text a.
Definition CreateAnswer : ST (runtime W) string :=
  let! a := blocking ask_CreateAnswer in to_text a.
Definition SetLocalDescription (type : SdpType) (sdp : string) : ST (runtime W) unit :=
  let! a := blocking (ask_SetDescription w_SetLocalDescription type sdp) in to_void a.
Definition SetRemoteDescription (type : SdpType) (sdp : string) : ST (runtime W) unit :=
  let! a := blocking (ask_SetDescription w_SetRemoteDescription type sdp) in to_void a.
Definition GetStats (selector : option Z) : ST (runtime W) json :=
  let! a := blocking (ask_GetStats selector) in to_json a.

(** [desc->ToString(&sdp)] without a check of [desc]. *)
Definition description_text (d : option string) : ST (runtime W) string :=
  match d with Some sdp => st_ret sdp | None => st_lift (Undef UbDeref) end.

Definition GetLocalDescription : ST (runtime W) string :=
  let! d := ask w_local_description in description_text d.
Definition GetRemoteDescription : ST (runtime W) string :=
  let! d := ask w_remote_description in description_text d.

Definition Close : ST (runtime W) unit := on_webrtc (fun w => (w_Close w, tt)).
Definition SetConfiguration (servers : list string) : ST (runtime W) bool :=
  let! error := on_webrtc (w_SetServers servers) in
  st_ret (match error with None => true | Some _ => false end).
Definition GetTransceivers : ST (runtime W) (list Z) := ask w_GetTransceivers.
Definition GetSenders : ST (runtime W) (list Z) := ask w_GetSenders.
Definition AddMediaTransceiver (mediaType : string) : ST (runtime W) (option Z) :=
  on_webrtc (w_AddMediaTransceiver mediaType).
Definition AddTransceiver (track : Z) (encodings : list RtpEncodingParameters) : ST (runtime W) (option Z) :=
  on_webrtc (w_AddTransceiver track encodings ["0"]).
Definition RemoveTrack (sender : Z) : ST (runtime W) bool := on_webrtc (w_RemoveTrack sender).
Definition CreateDataChannel (label : string) (config : DataChannelInit) : ST (runtime W) Z :=
  let! channel := on_webrtc (w_CreateDataChannel label config) in
  match channel with
  | Some c => st_ret c
  | None => st_throw (MscError "Failed creating data channel")
  end.
End Runtime.

(** What the handlers ask for. *)
#[export] Instance peer_connection {W : Type} `{WebRtc W} : PeerConnectionInterface (runtime W) := {
  pc_AddMediaTransceiver kind := ignore (AddMediaTransceiver kind);
  pc_AddTransceiver := AddTransceiver;
  pc_CreateOffer := CreateOffer;
  pc_CreateAnswer := CreateAnswer;
  pc_SetLocalDescription := SetLocalDescription;
  pc_SetRemoteDescription := SetRemoteDescription;
  pc_GetLocalDescription := GetLocalDescription;
  pc_GetTransceivers := GetTransceivers;
  pc_RemoveTrack sender := ignore (RemoveTrack sender);
  pc_CreateDataChannel := CreateDataChannel;
  pc_GetStats := GetStats None;
  pc_GetSenderStats tr := GetStats (Some tr);
  pc_GetReceiverStats tr := GetStats (Some tr);
  pc_Close := Close;
  pc_SetServers := SetConfiguration;
  tr_mid tr := ask (w_transceiver_mid tr);
  tr_SetInactive tr := on_webrtc (fun w => (w_SetInactive tr w, tt));
  tr_SetTrack tr track := on_webrtc (fun w => (w_SetTrack tr track w, tt));
  tr_GetEncodings tr := ask (w_GetEncodings tr);
  tr_SetEncodings tr encodings := on_webrtc (w_SetEncodings tr encodings);
  tr_receiver_track tr := ask (w_receiver_track tr);
  track_kind := w_track_kind
}.

(** ** The two threads *)

Module Threads.
Section System.
Context {W : Type} `{WebRtc W}.

(** The blocking calls. *)
Inductive call : Type :=
| CCreateOffer (iceRestart : bool)
| CCreateAnswer
| CSetLocalDescription (type : SdpType) (sdp : string)
| CSetRemoteDescription (type : SdpType) (sdp : string)
| CGetStats (selector : option Z).

Definition begin (c : call) : ST (runtime W) nat :=
  match c with
  | CCreateOffer iceRestart => ask_CreateOffer iceRestart
  | CCreateAnswer => ask_CreateAnswer
  | CSetLocalDescription type sdp => ask_SetDescription w_SetLocalDescription type sdp
  | CSetRemoteDescription type sdp => ask_SetDescription w_SetRemoteDescription type sdp
  | CGetStats selector => ask_GetStats selector
  end.

(** The caller waits in [future.get()] or has its result; [on_signaling] tells
    whether it is the signaling thread itself. *)
Inductive caller : Type := Waiting (o : nat) | Returned (a : res answer).

Record system : Type := Sys { rt : runtime W; the_caller : caller; on_signaling : bool }.

Inductive label : Type := LRun | LPost (m : message) | LReturn | LDestroy.

Definition waits (s : system) : bool := match the_caller s with Waiting _ => true | Returned _ => false end.

(** A message another part of WebRTC may post: its observer exists, has no other
    message and is not the caller's. *)
Definition deliverable (r : runtime W) (m : message) : Prop :=
  (forall o, addressee m = Some o -> promises r !! o = Some Unset) /\
  match m with
  | MSG_STATS_DELIVERED _ report => report <> EmptyString -> exists j, json_parse report = Ok j
  | _ => True
  end.

Definition foreign (s : system) (m : message) : Prop :=
  deliverable (rt s) m /\
  (forall o, addressee m = Some o ->
     ~ In o (omap addressee (queue (rt s))) /\ the_caller s <> Waiting o).

Inductive step : system -> label -> system -> Prop :=
| step_run s r : run_head (rt s) = Some (Ok r) -> on_signaling s && waits s = false ->
    step s LRun (Sys r (the_caller s) (on_signaling s))
| step_post s m : foreign s m ->
    step s (LPost m) (Sys (set_queue (queue (rt s) ++ [m]) (rt s)) (the_caller s) (on_signaling s))
| step_return s o a : the_caller s = Waiting o -> future_get o (rt s) = Some a ->
    step s LReturn (Sys (rt s) (Returned a) (on_signaling s))
| step_destroy s r : destroy (rt s) = Ok r -> on_signaling s && waits s = false ->
    step s LDestroy (Sys r (the_caller s) (on_signaling s)).

Inductive exec : system -> list label -> system -> Prop :=
| exec_nil s : exec s [] s
| exec_cons s l s1 ls s2 : step s l s1 -> exec s1 ls s2 -> exec s (l :: ls) s2.

Definition is_run (l : label) : bool := match l with LRun => true | _ => false end.
Definition is_destroy (l : label) : bool := match l with LDestroy => true | _ => false end.

Definition runs (ls : list label) : nat := length (List.filter is_run ls).
End System.
End Threads.
