(* ===== verification/PeerConnectionFacts.v ===== *)
(** Theorems on the peer connection: a blocking call returns what WebRTC answered
    once the signaling thread gets to its message, whatever is posted meanwhile;
    and it never returns when it is made on the signaling thread itself, or when
    the connection is destroyed before the answer to a description is read. *)

From Stdlib Require Import ZArith Lia.
From S2P Require Import Prelude Json Streams JsonText JsonTextFacts SendTransport SendTransportFacts.
From S2P Require Import Handler HandlerFacts RecvTransport RecvTransportFacts PeerConnection.
Import Threads.

Section Facts.
Context {W : Type} `{WebRtc W}.
Implicit Types r : runtime W.

(** ** Messages that can be delivered *)

(** The promise a message leaves behind. *)
Definition outcome (m : message) : promise :=
  match m with
  | MSG_SET_SESSIONDESCRIPTION_SUCCESS _ => Satisfied AVoid
  | MSG_SET_SESSIONDESCRIPTION_FAILED _ e | MSG_CREATE_SESSIONDESCRIPTION_FAILED _ e => Failed (MscError e)
  | MSG_CREATE_SESSIONDESCRIPTION_SUCCESS _ d => Satisfied (AString d)
  | MSG_STATS_DELIVERED _ report =>
      Satisfied (AJson (if str_empty report then JArray []
                        else match json_parse report with Ok j => j | _ => JNull end))
  | MSG_REPORT_USAGE_PATTERN => Unset
  end.

Definition result_of (p : promise) : option (res answer) :=
  match p with Unset => None | Satisfied a => Some (Ok a) | Failed e => Some (Throw e) end.

Definition healthy r : Prop :=
  NoDup (omap addressee (queue r)) /\ Forall (deliverable r) (queue r).

Lemma dispatch_spec m r : deliverable r m ->
  dispatch m r = Ok (match addressee m with
                     | Some o => set_promises (<[o := outcome m]> (promises r)) r
                     | None => r
                     end).
Proof.
  intros [Ho Hm]. unfold dispatch, OnMessage. destruct m as [o|o e|o d|o e|o report|]; simpl in *.
  1-4: by unfold SetSessionDescriptionObserver_OnSuccess, SetSessionDescriptionObserver_OnFailure,
    CreateSessionDescriptionObserver_OnSuccess, CreateSessionDescriptionObserver_OnFailure, Reject, satisfy;
    rewrite (Ho o eq_refl).
  - unfold RTCStatsCollectorCallback_OnStatsDelivered. destruct (str_empty report) eqn:E.
    + unfold satisfy. by rewrite (Ho o eq_refl).
    + destruct Hm as (j & Hj); [by intros ->|]. unfold st_bind, st_lift. rewrite Hj. unfold satisfy.
      by rewrite (Ho o eq_refl).
  - done.
Qed.

Lemma deliverable_other r o p m : deliverable r m -> addressee m <> Some o ->
  deliverable (set_promises (<[o := p]> (promises r)) r) m.
Proof.
  intros [Ho Hm] Hne. split; [|done]. intros o' Ho'. simpl. rewrite list_lookup_insert_ne; [by apply Ho|].
  intros ->. by rewrite Ho' in Hne.
Qed.

Lemma omap_In (q : list message) o : In o (omap addressee q) <-> exists m, In m q /\ addressee m = Some o.
Proof.
  induction q as [|m q IH]; simpl; [by split; [|intros (? & ? & ?)]|].
  destruct (addressee m) as [o'|] eqn:E; simpl; rewrite IH; split.
  - intros [->|(m' & ? & ?)]; eauto.
  - intros (m' & [->|?] & Hm'); [left; congruence|eauto].
  - intros (m' & ? & ?); eauto.
  - intros (m' & [->|?] & Hm'); [congruence|eauto].
Qed.

(** The next message of a healthy queue is always delivered. *)
Lemma run_head_spec r m q : healthy r -> queue r = m :: q ->
  exists r', run_head r = Some (Ok r') /\ healthy r' /\ queue r' = q /\
    promises r' = (match addressee m with Some o => <[o := outcome m]> (promises r) | None => promises r end) /\
    webrtc r' = webrtc r /\ alive r' = alive r.
Proof.
  intros [Hnd Hf] Hq. unfold run_head. rewrite Hq in *. inversion Hf as [|? ? Hm Hf']; subst.
  rewrite dispatch_spec by (split; apply Hm). eexists. split; [done|]. simpl in Hnd.
  destruct (addressee m) as [o|] eqn:E; simpl; [|done].
  apply NoDup_cons in Hnd as [Hn Hnd]. split; [|done]. split; [done|].
  rewrite Forall_forall in Hf' |- *. intros m' Hin.
  apply (deliverable_other (set_queue q r)); [exact (Hf' m' Hin)|].
  intros E'. apply Hn. apply list_elem_of_In, omap_In. exists m'. split; [by apply list_elem_of_In|done].
Qed.

(** ** The two threads *)

Definition pending (o : nat) (m : message) (k : nat) (s : @system W) : Prop :=
  healthy (rt s) /\ the_caller s = Waiting o /\ queue (rt s) !! k = Some m /\ addressee m = Some o.

Definition ready (o : nat) (a : res answer) (s : @system W) : Prop :=
  healthy (rt s) /\ ~ In o (omap addressee (queue (rt s))) /\ future_get o (rt s) = Some a /\
  (the_caller s = Waiting o \/ the_caller s = Returned a).

Lemma healthy_post s m : healthy (rt s) -> foreign s m -> healthy (set_queue (queue (rt s) ++ [m]) (rt s)).
Proof.
  intros [Hnd Hf] [Hd Hn]. split; simpl.
  - rewrite omap_app. simpl. destruct (addressee m) as [o|] eqn:E; [|by rewrite app_nil_r].
    apply NoDup_app. split; [done|]. split; [|by apply NoDup_singleton].
    intros o' Hin ->%list_elem_of_singleton. apply (proj1 (Hn o eq_refl)). by apply list_elem_of_In.
  - apply Forall_app. split; [exact Hf|]. constructor; [exact Hd|constructor].
Qed.

(** A message that is waited for. *)
Lemma pending_unset o m k s : pending o m k s -> future_get o (rt s) = None.
Proof.
  intros ([_ Hf] & _ & Hk & Ho). rewrite Forall_lookup in Hf. destruct (Hf k m Hk) as [Hp _].
  unfold future_get. by rewrite (Hp o Ho).
Qed.

Lemma pending_step o m k s l s' : pending o m k s -> step s l s' -> is_destroy l = false ->
  match l, k with
  | LRun, O => forall a, result_of (outcome m) = Some a -> ready o a s'
  | LRun, S k => pending o m k s'
  | _, _ => pending o m k s'
  end.
Proof.
  intros Hp Hs Hd. pose proof (pending_unset _ _ _ _ Hp) as Hu. destruct Hp as (Hh & Hc & Hk & Ho).
  destruct Hs as [s r Hr Hw|s m' Hf|s o' a Hc' Hg|s r Hr Hw]; simpl in *; try done.
  - destruct (queue (rt s)) as [|m0 q] eqn:Hq; [done|].
    destruct (run_head_spec (rt s) m0 q Hh Hq) as (r' & Hr' & Hh' & Hq' & Hp' & _). rewrite Hr in Hr'. injection Hr' as ->.
    destruct k as [|k]; simpl in Hk; [|by rewrite <- Hq' in Hk].
    injection Hk as ->. intros a Ha. destruct Hh as [Hnd Hfd]. rewrite Hq in Hnd, Hfd. simpl in Hnd. rewrite Ho in Hnd, Hp'.
    apply Forall_cons in Hfd as [[Hprom _] _].
    apply NoDup_cons in Hnd as [Hn _]. split; [done|]. split; [simpl; rewrite Hq'; by rewrite <- list_elem_of_In|]. split; [|by left].
    unfold future_get. simpl. rewrite Hp'. rewrite list_lookup_insert_eq; [|by eapply lookup_lt_Some, Hprom].
    unfold result_of in Ha. by destruct (outcome m).
  - split; [by apply healthy_post|]. split; [done|]. split; [by apply lookup_app_l_Some|done].
  - rewrite Hc in Hc'. injection Hc' as <-. by rewrite Hu in Hg.
Qed.

Lemma ready_step o a s l s' : ready o a s -> step s l s' -> is_destroy l = false -> ready o a s'.
Proof.
  intros (Hh & Hn & Hg & Hc) Hs Hd.
  destruct Hs as [s r Hr Hw|s m' Hf|s o' a' Hc' Hg'|s r Hr Hw]; simpl in *; try done.
  - destruct (queue (rt s)) as [|m0 q] eqn:Hq; [unfold run_head in Hr; by rewrite Hq in Hr|].
    destruct (run_head_spec (rt s) m0 q Hh Hq) as (r' & Hr' & Hh' & Hq' & Hp' & _). rewrite Hr in Hr'. injection Hr' as ->.
    simpl in Hn. split; [done|]. simpl. rewrite Hq'. unfold future_get in *. rewrite Hp'.
    destruct (addressee m0) as [o0|]; simpl in *; [|done].
    split; [tauto|]. rewrite list_lookup_insert_ne by tauto. done.
  - split; [by apply healthy_post|]. simpl. rewrite omap_app, in_app_iff. split; [|done].
    intros [?|Hin]; [done|]. destruct Hf as [Hdl Hfo]. simpl in Hin. destruct (addressee m') as [o'|] eqn:E; [|done].
    destruct Hin as [->|[]]. destruct Hdl as [Hu _]. unfold future_get in Hg. rewrite (Hu o E) in Hg. done.
  - split; [done|]. split; [done|]. split; [done|]. right. destruct Hc as [Hc|Hc]; rewrite Hc in Hc'; [|done].
    injection Hc' as <-. simpl. congruence.
Qed.

Lemma ready_exec o a s ls s' : ready o a s -> exec s ls s' -> existsb is_destroy ls = false -> ready o a s'.
Proof.
  intros Hr He. induction He as [s|s l s1 ls s2 Hs He IH]; [done|]. simpl. intros [Hl Hls]%orb_false_iff.
  apply IH; [|done]. by eapply ready_step.
Qed.

Lemma pending_exec o m a k s ls s' :
  pending o m k s -> result_of (outcome m) = Some a -> exec s ls s' -> existsb is_destroy ls = false ->
  if Nat.leb (runs ls) k then pending o m (k - runs ls) s' else ready o a s'.
Proof.
  intros Hp Ha He. revert k Hp. induction He as [s|s l s1 ls s2 Hs He IH]; intros k Hp Hd.
  { unfold runs. simpl. by rewrite Nat.sub_0_r. }
  simpl in Hd. apply orb_false_iff in Hd as [Hl Hls]. pose proof (pending_step _ _ _ _ _ _ Hp Hs Hl) as H1.
  unfold runs. simpl. destruct l; simpl; try (by apply IH).
  destruct k as [|k]; simpl; [|by apply IH]. eapply ready_exec; [by apply H1|done..].
Qed.

(** ** The calls *)

(** What WebRTC answers to a call in its state [w]. *)
Definition created (answer : string + string) : res PeerConnection.answer :=
  match answer with inl d => Ok (AString d) | inr e => Throw (MscError e) end.

Definition described (set : string -> string -> W -> W * option string) (type : SdpType) (sdp : string) (w : W)
    : res answer :=
  match w_CreateSessionDescription (sdpType2String type) sdp with
  | Some d => Throw (MscError d)
  | None => match (set (sdpType2String type) sdp w).2 with None => Ok AVoid | Some e => Throw (MscError e) end
  end.

Definition expected (c : call) (w : W) : res answer :=
  match c with
  | CCreateOffer iceRestart => created (w_CreateOffer iceRestart w).2
  | CCreateAnswer => created (w_CreateAnswer w).2
  | CSetLocalDescription type sdp => described w_SetLocalDescription type sdp w
  | CSetRemoteDescription type sdp => described w_SetRemoteDescription type sdp w
  | CGetStats selector =>
      let report := (w_GetStats selector w).2 in
      if str_empty report then Ok (AJson (JArray [])) else let* j := json_parse report in Ok (AJson j)
  end.

(** A statistics report is JSON text. *)
Definition well_behaved (c : call) (w : W) : Prop :=
  match c with CGetStats _ => exists a, expected c w = Ok a | _ => True end.

Lemma fresh_observer r : healthy r -> ~ In (length (promises r)) (omap addressee (queue r)).
Proof.
  intros [_ Hf] (m & Hin & Hm)%omap_In. rewrite Forall_forall in Hf.
  destruct (Hf m) as [Hp _]; [by apply list_elem_of_In|]. apply Hp, lookup_lt_Some in Hm. lia.
Qed.

(** Adding an observer, and a message for it. *)
Lemma healthy_ask r w m : healthy r ->
  addressee m = Some (length (promises r)) ->
  match m with MSG_STATS_DELIVERED _ report => report <> EmptyString -> exists j, json_parse report = Ok j | _ => True end ->
  healthy (Rt w (queue r ++ [m]) (promises r ++ [Unset]) (alive r)).
Proof.
  intros Hh Hm Hs. pose proof (fresh_observer r Hh) as Hn. destruct Hh as [Hnd Hf]. split; simpl.
  - rewrite omap_app. simpl. rewrite Hm. apply NoDup_app. split; [done|]. split; [|by apply NoDup_singleton].
    intros o' Hin ->%list_elem_of_singleton. apply Hn. by apply list_elem_of_In.
  - apply Forall_app. split.
    + eapply Forall_impl; [exact Hf|]. intros m' [Hp Hm']. split; [|done]. intros o Ho. apply lookup_app_l_Some. by apply Hp.
    + constructor; [|constructor]. split; [|done]. intros o. rewrite Hm. intros [= <-]. simpl.
      by rewrite lookup_app_r, Nat.sub_diag by lia.
Qed.

(** The state in which the caller starts to wait: the future is ready, or its
    message is the [k]-th in the queue. *)
Definition answered (o : nat) (a : res answer) (k : nat) r : Prop :=
  healthy r /\
  ((future_get o r = Some a /\ ~ In o (omap addressee (queue r))) \/
   exists m, queue r !! k = Some m /\ addressee m = Some o /\ result_of (outcome m) = Some a).

Lemma answered_post r w m a : healthy r -> addressee m = Some (length (promises r)) ->
  result_of (outcome m) = Some a ->
  match m with MSG_STATS_DELIVERED _ report => report <> EmptyString -> exists j, json_parse report = Ok j | _ => True end ->
  answered (length (promises r)) a (length (queue r)) (Rt w (queue r ++ [m]) (promises r ++ [Unset]) (alive r)).
Proof.
  intros Hh Hm Ha Hs. split; [by apply healthy_ask|]. right. exists m. split; [|done]. simpl.
  by rewrite lookup_app_r, Nat.sub_diag by lia.
Qed.

Lemma describe_spec set type sdp r : healthy r -> alive r = true ->
  exists r', ask_SetDescription set type sdp r = (r', Ok (length (promises r))) /\
    answered (length (promises r)) (described set type sdp (webrtc r)) (length (queue r)) r'.
Proof.
  intros Hh Hal. unfold ask_SetDescription, described. erewrite st_bind_ok; [|reflexivity]. cbv zeta.
  destruct (w_CreateSessionDescription (sdpType2String type) sdp) as [d|].
  - unfold Reject, satisfy, st_bind, st_ret. simpl. rewrite lookup_app_r, Nat.sub_diag by lia. simpl.
    eexists. split; [done|]. split.
    + destruct Hh as [Hnd Hf]. split; [done|]. simpl. eapply Forall_impl; [exact Hf|]. intros m' [Hp Hm']. split; [|done].
      intros o Ho. simpl. pose proof (Hp o Ho) as Hl. pose proof (lookup_lt_Some _ _ _ Hl).
      rewrite list_lookup_insert_ne by lia. by apply lookup_app_l_Some.
    + left. split; [|simpl; by apply fresh_observer]. unfold future_get. simpl.
      by rewrite list_lookup_insert_eq by (rewrite length_app; simpl; lia).
  - unfold on_webrtc, st_bind, st_ret. simpl. destruct (set (sdpType2String type) sdp (webrtc r)) as [w error]. simpl.
    unfold OnSetDescriptionComplete. simpl. rewrite Hal. simpl.
    destruct error as [e|]; (eexists; split; [reflexivity|]); by apply (answered_post r w).
Qed.

Lemma begin_spec c r : healthy r -> alive r = true -> well_behaved c (webrtc r) ->
  exists r', begin c r = (r', Ok (length (promises r))) /\
    answered (length (promises r)) (expected c (webrtc r)) (length (queue r)) r'.
Proof.
  intros Hh Hal Hw. destruct c as [b| |type sdp|type sdp|selector]; try (by apply describe_spec).
  - unfold begin, ask_CreateOffer, post_created, Post, on_webrtc, new_observer, st_bind, st_ret, st_modify. simpl.
    destruct (w_CreateOffer b (webrtc r)) as [w [d|e]]; (eexists; split; [reflexivity|]); by apply (answered_post r w).
  - unfold begin, ask_CreateAnswer, post_created, Post, on_webrtc, new_observer, st_bind, st_ret, st_modify. simpl.
    destruct (w_CreateAnswer (webrtc r)) as [w [d|e]]; (eexists; split; [reflexivity|]); by apply (answered_post r w).
  - unfold begin, ask_GetStats, Post, on_webrtc, new_observer, st_bind, st_ret, st_modify. simpl in *.
    destruct (w_GetStats selector (webrtc r)) as [w report]. simpl in *. eexists. split; [reflexivity|].
    destruct Hw as [a Ha]. rewrite Ha. apply (answered_post r w (MSG_STATS_DELIVERED _ report)); [done|done| |].
    + simpl. destruct (str_empty report); [by injection Ha as <-|]. destruct (json_parse report); try discriminate. by injection Ha as <-.
    + intros Hne. destruct report as [|c0 report]; [done|]. simpl str_empty in Ha. cbv iota in Ha.
      destruct (json_parse (String c0 report)) as [j|e|u|d]; try discriminate. eauto.
Qed.

(** Which thread the caller is does not change. *)
Lemma exec_signaling (s s' : @system W) ls : exec s ls s' -> on_signaling s' = on_signaling s.
Proof. induction 1 as [|s l s1 ls s2 Hs _ IH]; [done|]. rewrite IH. by destruct Hs. Qed.


(** ** Calls that never return *)

(** Nothing will satisfy the promise the caller waits for. *)
Definition lost (o : nat) (s : @system W) : Prop :=
  the_caller s = Waiting o /\ promises (rt s) !! o = Some Unset /\ ~ In o (omap addressee (queue (rt s))).

Lemma satisfy_frame o p r : queue (satisfy o p r).1 = queue r /\
  forall o', o' <> o -> promises (satisfy o p r).1 !! o' = promises r !! o'.
Proof.
  unfold satisfy. destruct (promises r !! o) as [[| |]|]; simpl; try done. split; [done|].
  intros o' Hne. by rewrite list_lookup_insert_ne.
Qed.

Lemma dispatch_frame m r r' o : dispatch m r = Ok r' -> addressee m <> Some o ->
  queue r' = queue r /\ promises r' !! o = promises r !! o.
Proof.
  assert (forall o' p r r', match satisfy o' p r with (r, Ok _) => Ok r | (_, Throw _) => Fatal "terminate"
            | (_, Undef u) => Undef u | (_, Fatal d) => Fatal d end = Ok r' -> o' <> o ->
            queue r' = queue r /\ promises r' !! o = promises r !! o) as Hs.
  { intros o' p r0 r1 E Hne. destruct (satisfy_frame o' p r0) as [Hq Hp].
    destruct (satisfy o' p r0) as [r2 [u|e|u|d]]; try done. injection E as <-. auto. }
  unfold dispatch, OnMessage. destruct m as [o'|o' e|o' d|o' e|o' report|]; simpl; intros E Ho;
    try (eapply Hs; [exact E|congruence]); [|by injection E as <-].
  unfold RTCStatsCollectorCallback_OnStatsDelivered in E. destruct (str_empty report);
    [eapply Hs; [exact E|congruence]|].
  unfold st_bind, st_lift in E. destruct (json_parse report); try done. eapply Hs; [exact E|congruence].
Qed.

Lemma dispatch_all_frame ms r r' o : for_fold (fun r m => dispatch m r) r ms = Ok r' ->
  ~ In o (omap addressee ms) -> queue r' = queue r /\ promises r' !! o = promises r !! o.
Proof.
  revert r. induction ms as [|m ms IH]; intros r; simpl; [by intros [= <-]|].
  intros (r1 & H1 & H2)%bind_Ok_inv Hn.
  assert (addressee m <> Some o /\ ~ In o (omap addressee ms)) as [Hm Hms].
  { destruct (addressee m) as [o'|]; simpl in Hn; [split; [|tauto]|done]. intros [= ->]. tauto. }
  destruct (IH _ H2 Hms) as [-> ->]. by eapply dispatch_frame.
Qed.

Lemma addressees_filter p (q : list message) o : In o (omap addressee (List.filter p q)) -> In o (omap addressee q).
Proof. rewrite !omap_In. intros (m & [Hin _]%filter_In & Hm). eauto. Qed.

Lemma destroy_frame r r' o : destroy r = Ok r' ->
  ~ In o (omap addressee (List.filter processed_on_destroy (queue r))) ->
  queue r' = List.filter kept_on_destroy (queue r) /\ promises r' !! o = promises r !! o.
Proof. intros Hd Hn. by destruct (dispatch_all_frame _ _ _ _ Hd Hn). Qed.

Lemma lost_step o s l s' : lost o s -> step s l s' -> lost o s'.
Proof.
  intros (Hc & Hp & Hn) Hs. destruct Hs as [s r Hr Hw|s m' Hf|s o' a Hc' Hg|s r Hr Hw]; simpl in *.
  - unfold run_head in Hr. destruct (queue (rt s)) as [|m q]; [done|]. injection Hr as Hr.
    assert (addressee m <> Some o /\ ~ In o (omap addressee q)) as [Hm Hq].
    { simpl in Hn. destruct (addressee m) as [o'|]; simpl in Hn; [split; [|tauto]|done]. intros [= ->]. tauto. }
    destruct (dispatch_frame _ _ _ o Hr Hm) as [Hq' Hp']. simpl in *. repeat split; simpl; [done|by rewrite Hp'|by rewrite Hq'].
  - destruct Hf as [_ Hf]. repeat split; simpl; [done..|]. rewrite omap_app, in_app_iff. intros [?|Hin]; [done|].
    simpl in Hin. destruct (addressee m') as [o'|]; [|done]. destruct Hin as [->|[]]. by apply (Hf o eq_refl).
  - rewrite Hc in Hc'. injection Hc' as <-. unfold future_get in Hg. by rewrite Hp in Hg.
  - destruct (destroy_frame _ _ o Hr) as [Hq Hp']; [intros ?%addressees_filter; done|].
    repeat split; simpl; [done|by rewrite Hp'|rewrite Hq; by intros ?%addressees_filter].
Qed.

Lemma lost_exec o s ls s' : lost o s -> exec s ls s' -> the_caller s' = Waiting o.
Proof. intros Hl He. induction He as [s|s l s1 ls s2 Hs He IH]; [apply Hl|]. apply IH. by eapply lost_step. Qed.

Lemma exec_app (s s' : @system W) ls1 ls2 : exec s (ls1 ++ ls2) s' -> exists s1, exec s ls1 s1 /\ exec s1 ls2 s'.
Proof.
  revert s. induction ls1 as [|l ls1 IH]; intros s; simpl; [eauto using exec_nil|].
  intros He. inversion He as [|? ? s1 ? ? Hs He1]; subst. destruct (IH _ He1) as (s2 & H1 & H2).
  exists s2. split; [by econstructor|done].
Qed.

Lemma blocked_exec o m k (s s' : @system W) ls : pending o m k s -> on_signaling s = true -> exec s ls s' ->
  pending o m k s' /\ on_signaling s' = true.
Proof.
  intros Hp Hsig He. induction He as [s|s l s1 ls s2 Hs He IH]; [done|].
  assert (waits s = true) as Hwt by (unfold waits; destruct Hp as (_ & -> & _); done).
  assert (is_destroy l = false /\ is_run l = false) as [Hd Hr].
  { destruct Hs as [? ? ? Hw| | |? ? ? Hw]; try done; by rewrite Hsig, Hwt in Hw. }
  pose proof (pending_step _ _ _ _ _ _ Hp Hs Hd) as H1. apply IH; [by destruct l|]. by destruct Hs.
Qed.

Lemma addressee_unique (q : list message) m m' o : NoDup (omap addressee q) ->
  In m q -> In m' q -> addressee m = Some o -> addressee m' = Some o -> m' = m.
Proof.
  induction q as [|m0 q IH]; simpl; [done|]. intros Hnd Hin Hin' Hm Hm'.
  destruct (addressee m0) as [o0|] eqn:E0.
  - apply NoDup_cons in Hnd as [Hn Hnd]. rewrite list_elem_of_In, omap_In in Hn.
    destruct Hin as [->|Hin], Hin' as [->|Hin']; [done| | |by apply IH]; exfalso; apply Hn.
    + exists m'. split; [done|congruence].
    + exists m. split; [done|congruence].
  - destruct Hin as [->|Hin], Hin' as [->|Hin']; try congruence. by apply IH.
Qed.

Lemma not_addressed_in (p : message -> bool) r m o k : healthy r -> queue r !! k = Some m ->
  addressee m = Some o -> p m = false -> ~ In o (omap addressee (List.filter p (queue r))).
Proof.
  intros [Hnd _] Hk Hm Hp (m' & [Hin Hp']%filter_In & Hm')%omap_In.
  apply list_elem_of_lookup_2, list_elem_of_In in Hk.
  rewrite (addressee_unique _ _ _ _ Hnd Hk Hin Hm Hm') in Hp'. congruence.
Qed.

Definition is_description (c : call) : bool :=
  match c with CSetLocalDescription _ _ | CSetRemoteDescription _ _ => true | _ => false end.

(** The answer to a description is neither processed nor kept by the destructors. *)
Lemma description_message c r r' o m : is_description c = true -> begin c r = (r', Ok o) ->
  queue r' !! length (queue r) = Some m -> processed_on_destroy m = false /\ kept_on_destroy m = false.
Proof.
  intros Hc Hb Hm.
  assert (exists set type sdp, ask_SetDescription set type sdp r = (r', Ok o)) as (set & type & sdp & Ha)
    by (destruct c; try done; eauto).
  clear Hb Hc. unfold ask_SetDescription in Ha. erewrite st_bind_ok in Ha; [|reflexivity]. cbv zeta in Ha.
  destruct (w_CreateSessionDescription (sdpType2String type) sdp) as [d|].
  - unfold Reject, satisfy, st_bind, st_ret in Ha. simpl in Ha. rewrite lookup_app_r, Nat.sub_diag in Ha by lia.
    simpl in Ha. injection Ha as <- _. simpl in Hm. by rewrite lookup_ge_None_2 in Hm by lia.
  - unfold on_webrtc, st_bind, st_ret in Ha. simpl in Ha. destruct (set _ sdp (webrtc r)) as [w error]. simpl in Ha.
    unfold OnSetDescriptionComplete in Ha. simpl in Ha. destruct (alive r); simpl in Ha.
    + destruct error as [e|]; simpl in Ha; injection Ha as <- _; simpl in Hm;
        rewrite lookup_app_r, Nat.sub_diag in Hm by lia; by injection Hm as <-.
    + injection Ha as <- _. simpl in Hm. by rewrite lookup_ge_None_2 in Hm by lia.
Qed.

(** C31. A call that has to wait never returns when it is made on the signaling
    thread, which cannot handle its message while it blocks; nor does setting a
    description when the peer connection is destroyed before the signaling thread
    got to the answer, which the destructor deletes. *)
Theorem blocked_for_good c r r' o :
  healthy r -> alive r = true -> well_behaved c (webrtc r) ->
  begin c r = (r', Ok o) -> future_get o r' = None ->
  (forall ls s, exec (Sys r' (Waiting o) true) ls s -> the_caller s = Waiting o) /\
  (is_description c = true -> forall ls1 ls2 s,
     existsb is_destroy ls1 = false -> (runs ls1 <= length (queue r))%nat ->
     exec (Sys r' (Waiting o) false) (ls1 ++ LDestroy :: ls2) s -> the_caller s = Waiting o).
Proof.
  intros Hh Hal Hw Hb Hnone. destruct (begin_spec c r Hh Hal Hw) as (r1 & Hb' & Hh1 & Ha).
  rewrite Hb in Hb'. injection Hb' as -> ->.
  destruct Ha as [[Hg _]|(m & Hk & Hm & Hr)]; [by rewrite Hnone in Hg|]. split.
  - intros ls s He. assert (pending (length (promises r)) m (length (queue r)) (Sys r1 (Waiting (length (promises r))) true)) as Hp by done.
    by destruct (blocked_exec _ _ _ _ _ _ Hp eq_refl He) as [(_ & Hc & _) _].
  - intros Hdesc ls1 ls2 s Hd Hruns He. apply exec_app in He as (s1 & He1 & He2).
    assert (pending (length (promises r)) m (length (queue r)) (Sys r1 (Waiting (length (promises r))) false)) as Hp by done.
    pose proof (pending_exec _ _ _ _ _ _ _ Hp Hr He1 Hd) as H1. rewrite (proj2 (Nat.leb_le _ _) Hruns) in H1.
    inversion He2 as [|? ? s2 ? ? Hs He3]; subst. eapply lost_exec; [|exact He3].
    pose proof (pending_unset _ _ _ _ H1) as Hu. destruct H1 as (Hh' & Hc & Hk' & _).
    destruct (description_message _ _ _ _ _ Hdesc Hb Hk) as [Hpr Hke].
    inversion Hs as [| | |? r2 Hdes _]; subst.
    destruct (destroy_frame _ _ (length (promises r)) Hdes) as [Hq Hpm]; [by eapply not_addressed_in|].
    repeat split; simpl; [done| |rewrite Hq; by eapply not_addressed_in].
    rewrite Hpm. unfold future_get in Hu. by destruct (promises (rt s1) !! length (promises r)) as [[| |]|].
Qed.

(** ** The calls as the handlers see them *)

Lemma await_ready fuel o a r : future_get o r = Some a -> await fuel o r = (r, a).
Proof. intros E. destruct fuel; simpl; by rewrite E. Qed.

Lemma await_pending k fuel o m a r : (k < fuel)%nat -> pending o m k (Sys r (Waiting o) false) ->
  result_of (outcome m) = Some a -> exists r', await fuel o r = (r', a) /\ healthy r' /\ alive r' = alive r /\ webrtc r' = webrtc r.
Proof.
  revert fuel r. induction k as [|k IH]; intros [|fuel] r Hf Hp Ha; try lia; cbn [await];
    pose proof (pending_unset _ _ _ _ Hp) as Hu; simpl in Hu; rewrite Hu;
    pose proof Hp as (Hh & _ & Hk & _); simpl in Hk, Hh;
    (destruct (queue r) as [|m0 q] eqn:Hq; [done|]);
    destruct (run_head_spec r m0 q Hh Hq) as (r1 & Hr1 & Hh1 & _ & _ & Hw1 & Hal1); rewrite Hr1;
    assert (step (Sys r (Waiting o) false) LRun (Sys r1 (Waiting o) false)) as Hs by (by apply (step_run (Sys r (Waiting o) false)));
    pose proof (pending_step _ _ _ _ _ _ Hp Hs eq_refl) as H1; cbv beta iota in H1.
  - destruct (H1 a Ha) as (_ & _ & Hg & _). exists r1. by rewrite (await_ready _ _ _ _ Hg).
  - destruct (IH fuel r1 ltac:(lia) H1 Ha) as (r' & E & Hh' & Hal' & Hw'). exists r'. by rewrite E, Hal', Hw'.
Qed.

(** The state of WebRTC after a call. *)
Definition moved (c : call) (w : W) : W :=
  match c with
  | CCreateOffer b => (w_CreateOffer b w).1
  | CCreateAnswer => (w_CreateAnswer w).1
  | CSetLocalDescription type sdp =>
      match w_CreateSessionDescription (sdpType2String type) sdp with
      | Some _ => w | None => (w_SetLocalDescription (sdpType2String type) sdp w).1 end
  | CSetRemoteDescription type sdp =>
      match w_CreateSessionDescription (sdpType2String type) sdp with
      | Some _ => w | None => (w_SetRemoteDescription (sdpType2String type) sdp w).1 end
  | CGetStats selector => (w_GetStats selector w).1
  end.

Lemma begin_moves c r r' o : alive r = true -> begin c r = (r', Ok o) ->
  webrtc r' = moved c (webrtc r) /\ alive r' = true /\ (length (queue r') <= S (length (queue r)))%nat.
Proof.
  intros Hal Hb.
  assert (forall set type sdp, ask_SetDescription set type sdp r = (r', Ok o) ->
    webrtc r' = match w_CreateSessionDescription (sdpType2String type) sdp with
                | Some _ => webrtc r | None => (set (sdpType2String type) sdp (webrtc r)).1 end /\
    alive r' = true /\ (length (queue r') <= S (length (queue r)))%nat) as Hset.
  { intros set type sdp Ha. unfold ask_SetDescription in Ha. erewrite st_bind_ok in Ha; [|reflexivity]. cbv zeta in Ha.
    destruct (w_CreateSessionDescription (sdpType2String type) sdp) as [d|].
    - unfold Reject, satisfy, st_bind, st_ret in Ha. simpl in Ha. rewrite lookup_app_r, Nat.sub_diag in Ha by lia.
      simpl in Ha. injection Ha as <- _. simpl. auto.
    - unfold on_webrtc, st_bind, st_ret in Ha. simpl in Ha. destruct (set _ sdp (webrtc r)) as [w error]. simpl in Ha.
      unfold OnSetDescriptionComplete in Ha. simpl in Ha. rewrite Hal in Ha. simpl in Ha.
      destruct error as [e|]; simpl in Ha; injection Ha as <- _; simpl; rewrite length_app; simpl; (split_and!; [done|done|lia]). }
  destruct c as [b| |type sdp|type sdp|selector]; try (by apply Hset); simpl in Hb.
  - unfold ask_CreateOffer, post_created, Post, on_webrtc, new_observer, st_bind, st_ret, st_modify in Hb. simpl in Hb.
    simpl. destruct (w_CreateOffer b (webrtc r)) as [w x]. injection Hb as <- _. simpl. rewrite length_app. simpl. split_and!; [done|done|lia].
  - unfold ask_CreateAnswer, post_created, Post, on_webrtc, new_observer, st_bind, st_ret, st_modify in Hb. simpl in Hb.
    simpl. destruct (w_CreateAnswer (webrtc r)) as [w x]. injection Hb as <- _. simpl. rewrite length_app. simpl. split_and!; [done|done|lia].
  - unfold ask_GetStats, Post, on_webrtc, new_observer, st_bind, st_ret, st_modify in Hb. simpl in Hb.
    simpl. destruct (w_GetStats selector (webrtc r)) as [w x]. injection Hb as <- _. simpl. rewrite length_app. simpl. split_and!; [done|done|lia].
Qed.

(** The blocking calls as functions: they return the answer and leave the
    connection ready for the next call. *)
Lemma blocking_spec c r : healthy r -> alive r = true -> well_behaved c (webrtc r) ->
  exists r', blocking (begin c) r = (r', expected c (webrtc r)) /\ healthy r' /\ alive r' = true /\
    webrtc r' = moved c (webrtc r).
Proof.
  intros Hh Hal Hw. destruct (begin_spec c r Hh Hal Hw) as (r1 & Hb & Hh1 & Ha).
  destruct (begin_moves _ _ _ _ Hal Hb) as (Hw1 & Hal1 & Hlen).
  unfold blocking. erewrite st_bind_ok by exact Hb. cbv beta. erewrite st_bind_ok; [|reflexivity]. cbv beta.
  destruct Ha as [[Hg _]|(m & Hk & Hm & Hr)].
  - exists r1. by rewrite (await_ready _ _ _ _ Hg).
  - destruct (await_pending (length (queue r)) (length (queue r1)) (length (promises r)) m (expected c (webrtc r)) r1)
      as (r' & E & Hh' & Hal' & Hw'); [by eapply lookup_lt_Some|done|done|].
    exists r'. by rewrite E, Hal', Hw'.
Qed.
End Facts.

(** The wrapper can be closed at any time, so transports and handlers can rely on
    it. *)
#[export] Instance peer_connection_laws {W : Type} `{WebRtc W} : PeerConnectionLaws (runtime W).
Proof. split. by intros p. Qed.

(** ** A small WebRTC to run the theorems on *)

Module Fake.
(** The state counts the descriptions that were set. *)
#[global] Instance fake_webrtc : WebRtc nat := {
  w_Close n := n;
  w_SetServers _ n := (n, None);
  w_CreateOffer _ n := (n, inl "v=0");
  w_CreateAnswer n := (n, inr "no remote description");
  w_CreateSessionDescription _ sdp := if str_empty sdp then Some "Expect line: v=" else None;
  w_SetLocalDescription _ _ n := (S n, None);
  w_SetRemoteDescription _ _ n := (S n, Some "wrong state");
  w_local_description n := match n with O => None | S _ => Some "v=0" end;
  w_remote_description _ := None;
  w_GetTransceivers _ := [];
  w_AddMediaTransceiver _ n := (n, Some 1);
  w_AddTransceiver _ _ _ n := (n, Some 1);
  w_GetSenders _ := [];
  w_RemoveTrack _ n := (n, true);
  w_GetStats _ n := (n, "[1]");
  w_CreateDataChannel _ _ n := (n, None);
  w_transceiver_mid _ _ := Some "0";
  w_SetInactive _ n := n;
  w_SetTrack _ _ n := n;
  w_GetEncodings _ _ := [];
  w_SetEncodings _ _ n := (n, None);
  w_receiver_track _ _ := 1;
  w_track_kind _ := "video"
}.

Definition idle : runtime nat := Rt O [MSG_REPORT_USAGE_PATTERN] [] true.

Definition asked : runtime nat := Rt 1%nat [MSG_REPORT_USAGE_PATTERN; MSG_SET_SESSIONDESCRIPTION_SUCCESS 0] [Unset] true.

Lemma idle_healthy : healthy idle.
Proof. split; [constructor|]. repeat constructor. done. Qed.

Lemma idle_asked : begin (CSetLocalDescription OFFER "v=0") idle = (asked, Ok 0%nat).
Proof. reflexivity. Qed.

(** Two messages handled, another posted in between. *)
Definition schedule : list label := [LRun; LPost MSG_REPORT_USAGE_PATTERN; LRun].

Definition after_schedule : @system nat :=
  Sys (Rt 1%nat [MSG_REPORT_USAGE_PATTERN] [Satisfied AVoid] true) (Waiting 0) false.

Lemma schedule_runs : exec (Sys asked (Waiting 0) false) schedule after_schedule.
Proof.
  eapply exec_cons; [by eapply step_run|]. eapply exec_cons; [by apply step_post; repeat split|].
  eapply exec_cons; [by eapply step_run|]. apply exec_nil.
Qed.

Example blocking_examples :
  ((CreateOffer false idle).2, (CreateAnswer idle).2, (SetLocalDescription OFFER "" idle).2,
   (SetRemoteDescription ANSWER "v=0" idle).2, (GetStats None idle).2, (GetLocalDescription idle).2,
   (CreateDataChannel "" (ChannelInit true None None "" true 0) idle).2)
  = (Ok "v=0", Throw (MscError "no remote description"), Throw (MscError "Expect line: v="),
     Throw (MscError "wrong state"), Ok (JArray [JUint 1]), Undef UbDeref,
     Throw (MscError "Failed creating data channel")).
Proof. vm_compute. reflexivity. Qed.


(** The same call on the signaling thread, and with the connection destroyed
    after one message. *)
Lemma blocked_for_good_witness :
  (forall ls s, exec (Sys asked (Waiting 0) true) ls s -> the_caller s = Waiting 0) /\
  (forall ls2 s, exec (Sys asked (Waiting 0) false) ([LRun] ++ LDestroy :: ls2) s -> the_caller s = Waiting 0).
Proof.
  destruct (blocked_for_good (CSetLocalDescription OFFER "v=0") idle asked 0 idle_healthy eq_refl I idle_asked eq_refl)
    as [H1 H2].
  split; [exact H1|]. intros ls2 s He. apply (H2 eq_refl [LRun] ls2 s eq_refl); [vm_compute; lia|exact He].
Defined.
End Fake.
